(** * The write path of the QUIC transport: batch writer, write-reason
      classifier, transmission loop and connection-state updater.

    Shallow embedding of
    - [IOBufQuicBatch] (quic/api/IoBufQuicBatch.cpp), and
    - the transport functions (quic/api/QuicTransportFunctions.cpp).

    Unsigned 64-bit quantities are integers in [Z] with the wrap-around
    written out ([wrap64]).  A C++ exception is the outcome [Throw], a failed
    [CHECK] (or [LOG(FATAL)]) is the outcome [Abort].  [DCHECK]s are compiled
    out of release builds and are not part of the model.  [VLOG] tracing,
    qlog output and trace points are left out; calls on the stats callback
    and [LOG(ERROR)] are recorded. *)

From Stdlib Require Import ZArith List Bool Lia Sorted.
From stdpp Require Import base option list sorting gmap.
Import ListNotations.

#[local] Open Scope Z_scope.

(** ** Machine integers *)

Definition two64 : Z := 2 ^ 64.
Definition uint64_max : Z := two64 - 1.
Definition wrap64 (z : Z) : Z := z mod two64.
Definition two32 : Z := 2 ^ 32.

Definition PacketNum := Z.
Definition StreamId := Z.
(** Time points and durations, in microseconds. *)
Definition Time := Z.

(** ** Outcomes of a call *)

Inductive LocalErrorCode := CONNECTION_ABANDONED | LOCAL_OTHER.
Inductive TransportErrorCode := INTERNAL_ERROR | FLOW_CONTROL_ERROR | TRANSPORT_OTHER.

Inductive QuicError :=
| QuicInternalException (code : LocalErrorCode)
| QuicTransportException (code : TransportErrorCode)
| ConversionError            (* folly::to<uint32_t> out of range *)
| CollaboratorError.         (* an exception raised by a consumed interface *)

Inductive Res (S A : Type) : Type :=
| Ok (a : A) (s : S)
| Throw (e : QuicError) (s : S)
| Abort.
Arguments Ok {S A} a s.
Arguments Throw {S A} e s.
Arguments Abort {S A}.

Definition M (S A : Type) : Type := S -> Res S A.

Definition ret {S A} (a : A) : M S A := fun s => Ok a s.
Definition bind {S A B} (m : M S A) (k : A -> M S B) : M S B :=
  fun s => match m s with
           | Ok a s' => k a s'
           | Throw e s' => Throw e s'
           | Abort => Abort
           end.
Definition get {S} : M S S := fun s => Ok s s.
Definition gets {S A} (f : S -> A) : M S A := fun s => Ok (f s) s.
Definition modify {S} (f : S -> S) : M S unit := fun s => Ok tt (f s).
Definition throw {S A} (e : QuicError) : M S A := fun s => Throw e s.
Definition abort {S A} : M S A := fun _ => Abort.
(** [CHECK(cond)]. *)
Definition CHECK {S} (cond : bool) : M S unit :=
  if cond then ret tt else abort.
Definition when {S} (cond : bool) (m : M S unit) : M S unit :=
  if cond then m else ret tt.

Notation "'do' x <- c1 ; c2" := (bind c1 (fun x => c2))
  (at level 10, x name, c1 at level 100, c2 at level 200).
Notation "'run' c1 ; c2" := (bind c1 (fun _ => c2))
  (at level 10, c1 at level 100, c2 at level 200).

(** Run a computation on a component [T] of the state [S]. *)
Definition zoom {S T A} (proj : S -> T) (upd : T -> S -> S) (m : M T A) : M S A :=
  fun s => match m (proj s) with
           | Ok a t => Ok a (upd t s)
           | Throw e t => Throw e (upd t s)
           | Abort => Abort
           end.

(** ** Wire-level types (quic/codec/Types.h) *)

Inductive PacketNumberSpace := Initial | Handshake | AppData.
Inductive EncryptionLevel := EL_Initial | EL_Handshake | EL_EarlyData | EL_AppData.
Inductive ProtectionType :=
  PT_Initial | PT_Handshake | PT_ZeroRtt | PT_KeyPhaseZero | PT_KeyPhaseOne.
Inductive HeaderForm := Long | Short.

#[global] Instance PacketNumberSpace_eq_dec : EqDecision PacketNumberSpace.
Proof. solve_decision. Defined.
#[global] Instance EncryptionLevel_eq_dec : EqDecision EncryptionLevel.
Proof. solve_decision. Defined.
#[global] Instance ProtectionType_eq_dec : EqDecision ProtectionType.
Proof. solve_decision. Defined.
#[global] Instance HeaderForm_eq_dec : EqDecision HeaderForm.
Proof. solve_decision. Defined.

(** The accessors of [PacketHeader] the write path uses. *)
Record PacketHeader := mkPacketHeader {
  getHeaderForm : HeaderForm;
  getProtectionType : ProtectionType;
  getPacketNumberSpace : PacketNumberSpace;
  getPacketSequenceNum : PacketNum
}.

Record WriteStreamFrame := mkWriteStreamFrame {
  wsf_streamId : StreamId;
  wsf_offset : Z;
  wsf_len : Z;
  wsf_fin : bool;
  wsf_fromBufMeta : bool
}.
Record WriteCryptoFrame := mkWriteCryptoFrame { wcf_offset : Z; wcf_len : Z }.
(** An ack block is the closed interval [start, end_] of packet numbers. *)
Record AckBlock := mkAckBlock { ab_start : PacketNum; ab_end : PacketNum }.
Record WriteAckFrame := mkWriteAckFrame { waf_ackBlocks : list AckBlock }.
Record MaxStreamDataFrame := mkMaxStreamDataFrame {
  msd_streamId : StreamId;
  msd_maximumData : Z
}.

(** [QuicWriteFrame]: one constructor per case of the switch in
    [updateConnection]; [OtherWriteFrame] stands for every frame kind that
    reaches its [default] arm. *)
Inductive QuicWriteFrame :=
| F_WriteStreamFrame (f : WriteStreamFrame)
| F_WriteCryptoFrame (f : WriteCryptoFrame)
| F_WriteAckFrame (f : WriteAckFrame)
| F_RstStreamFrame (streamId : StreamId)
| F_MaxDataFrame (maximumData : Z)
| F_DataBlockedFrame
| F_MaxStreamDataFrame (f : MaxStreamDataFrame)
| F_StreamDataBlockedFrame (streamId : StreamId)
| F_PingFrame
| F_QuicSimpleFrame (payload : Z)
| F_PaddingFrame
| OtherWriteFrame (kind : Z).

Record RegularQuicWritePacket := mkRegularQuicWritePacket {
  header : PacketHeader;
  frames : list QuicWriteFrame
}.

#[global] Instance PacketHeader_eq_dec : EqDecision PacketHeader.
Proof. solve_decision. Defined.
#[global] Instance WriteStreamFrame_eq_dec : EqDecision WriteStreamFrame.
Proof. solve_decision. Defined.
#[global] Instance WriteCryptoFrame_eq_dec : EqDecision WriteCryptoFrame.
Proof. solve_decision. Defined.
#[global] Instance AckBlock_eq_dec : EqDecision AckBlock.
Proof. solve_decision. Defined.
#[global] Instance WriteAckFrame_eq_dec : EqDecision WriteAckFrame.
Proof. solve_decision. Defined.
#[global] Instance MaxStreamDataFrame_eq_dec : EqDecision MaxStreamDataFrame.
Proof. solve_decision. Defined.
#[global] Instance QuicWriteFrame_eq_dec : EqDecision QuicWriteFrame.
Proof. solve_decision. Defined.
#[global] Instance RegularQuicWritePacket_eq_dec : EqDecision RegularQuicWritePacket.
Proof. solve_decision. Defined.

(** ** Buffers (folly::IOBuf) *)

Definition byte := Byte.byte.

(** An unchained [IOBuf]: [io_length] bytes of [io_storage] starting at
    offset [io_headroom] are the buffer's data ([length()], [headroom()]). *)
Record IOBuf := mkIOBuf {
  io_storage : list byte;
  io_headroom : Z;
  io_length : Z
}.

Definition contents (b : IOBuf) : list byte :=
  firstn (Z.to_nat (io_length b)) (skipn (Z.to_nat (io_headroom b)) (io_storage b)).

Definition trimEnd (amount : Z) (b : IOBuf) : IOBuf :=
  mkIOBuf (io_storage b) (io_headroom b) (wrap64 (io_length b - amount)).
Definition trimStart (amount : Z) (b : IOBuf) : IOBuf :=
  mkIOBuf (io_storage b) (wrap64 (io_headroom b + amount))
          (wrap64 (io_length b - amount)).
Definition prepend (amount : Z) (b : IOBuf) : IOBuf :=
  mkIOBuf (io_storage b) (wrap64 (io_headroom b - amount))
          (wrap64 (io_length b + amount)).

(** ** Stream-like write state (quic/state/StateData.h) *)

Record StreamBuffer := mkStreamBuffer {
  sb_data : list byte;
  sb_offset : Z;
  sb_eof : bool
}.

Record WriteBufferMeta := mkWriteBufferMeta {
  wbm_length : Z;
  wbm_offset : Z;
  wbm_eof : bool
}.

Record QuicStreamLike := mkQuicStreamLike {
  currentWriteOffset : Z;
  writeBuffer : list byte;
  retransmissionBuffer : gmap Z StreamBuffer;
  lossBuffer : list StreamBuffer;
  writeBufMeta : WriteBufferMeta;
  retransmissionBufMetas : gmap Z WriteBufferMeta;
  lossBufMetas : list WriteBufferMeta;
  numPacketsTxWithNewData : Z
}.

Definition set_currentWriteOffset (v : Z) (r : QuicStreamLike) : QuicStreamLike :=
  mkQuicStreamLike v (writeBuffer r) (retransmissionBuffer r) (lossBuffer r)
    (writeBufMeta r) (retransmissionBufMetas r) (lossBufMetas r)
    (numPacketsTxWithNewData r).
Definition set_writeBuffer (v : list byte) (r : QuicStreamLike) : QuicStreamLike :=
  mkQuicStreamLike (currentWriteOffset r) v (retransmissionBuffer r) (lossBuffer r)
    (writeBufMeta r) (retransmissionBufMetas r) (lossBufMetas r)
    (numPacketsTxWithNewData r).
Definition set_retransmissionBuffer (v : gmap Z StreamBuffer) (r : QuicStreamLike)
  : QuicStreamLike :=
  mkQuicStreamLike (currentWriteOffset r) (writeBuffer r) v (lossBuffer r)
    (writeBufMeta r) (retransmissionBufMetas r) (lossBufMetas r)
    (numPacketsTxWithNewData r).
Definition set_lossBuffer (v : list StreamBuffer) (r : QuicStreamLike)
  : QuicStreamLike :=
  mkQuicStreamLike (currentWriteOffset r) (writeBuffer r) (retransmissionBuffer r) v
    (writeBufMeta r) (retransmissionBufMetas r) (lossBufMetas r)
    (numPacketsTxWithNewData r).
Definition set_writeBufMeta (v : WriteBufferMeta) (r : QuicStreamLike)
  : QuicStreamLike :=
  mkQuicStreamLike (currentWriteOffset r) (writeBuffer r) (retransmissionBuffer r)
    (lossBuffer r) v (retransmissionBufMetas r) (lossBufMetas r)
    (numPacketsTxWithNewData r).
Definition set_retransmissionBufMetas (v : gmap Z WriteBufferMeta)
  (r : QuicStreamLike) : QuicStreamLike :=
  mkQuicStreamLike (currentWriteOffset r) (writeBuffer r) (retransmissionBuffer r)
    (lossBuffer r) (writeBufMeta r) v (lossBufMetas r)
    (numPacketsTxWithNewData r).
Definition set_lossBufMetas (v : list WriteBufferMeta) (r : QuicStreamLike)
  : QuicStreamLike :=
  mkQuicStreamLike (currentWriteOffset r) (writeBuffer r) (retransmissionBuffer r)
    (lossBuffer r) (writeBufMeta r) (retransmissionBufMetas r) v
    (numPacketsTxWithNewData r).
Definition set_numPacketsTxWithNewData (v : Z) (r : QuicStreamLike)
  : QuicStreamLike :=
  mkQuicStreamLike (currentWriteOffset r) (writeBuffer r) (retransmissionBuffer r)
    (lossBuffer r) (writeBufMeta r) (retransmissionBufMetas r) (lossBufMetas r) v.

Record QuicCryptoState := mkQuicCryptoState {
  initialStream : QuicStreamLike;
  handshakeStream : QuicStreamLike;
  oneRttStream : QuicStreamLike
}.

(** ** Connection state (quic/state/StateData.h), the part the write path
       reads or writes *)

Record AckState := mkAckState {
  acks : list AckBlock;
  largestAckScheduled : option PacketNum;
  largestAckedByPeer : option PacketNum;
  needsToSendAckImmediately : bool;
  nextPacketNum : PacketNum
}.

Record AckStates := mkAckStates {
  initialAckState : AckState;
  handshakeAckState : AckState;
  appDataAckState : AckState
}.

Record PendingEvents := mkPendingEvents {
  numProbePackets : Z;
  resets : gset StreamId;
  connWindowUpdate : bool;
  sendDataBlocked : bool;
  sendPing : bool;
  pendingFrames : list Z;            (* pendingEvents.frames *)
  pathChallenge : option Z;
  setLossDetectionAlarm : bool
}.

Record LossState := mkLossState {
  srtt : Time;
  largestSent : option PacketNum;
  totalBytesSent : Z;
  totalPacketsSent : Z;
  totalAckElicitingPacketsSent : Z;
  inflightBytes : Z;
  totalBytesRetransmitted : Z;
  totalStreamBytesCloned : Z;
  totalBytesCloned : Z;
  timeoutBasedRtxCount : Z;
  lastRetransmittablePacketSentTime : Time;
  lastAckedTime : option Time;
  lastAckedPacketSentTime : option Time;
  adjustedLastAckedTime : option Time;
  totalBytesSentAtLastAck : Z;
  totalBytesAckedAtLastAck : Z
}.

Definition PacketEvent := Z.

Record LastAckedPacketInfo := mkLastAckedPacketInfo {
  lapi_sentTime : Time;
  lapi_ackTime : Time;
  lapi_adjustedAckTime : option Time;
  lapi_totalBytesSent : Z;
  lapi_totalBytesAcked : Z
}.

Record OutstandingPacketMetadata := mkOutstandingPacketMetadata {
  opm_time : Time;
  opm_encodedSize : Z;
  opm_isHandshake : bool;
  opm_isD6DProbe : bool;
  opm_totalBytesSent : Z;
  opm_inflightBytes : Z;
  opm_packetsInflight : Z;
  opm_lossState : LossState;
  opm_writeCount : Z
}.

Record OutstandingPacket := mkOutstandingPacket {
  packet : RegularQuicWritePacket;
  metadata : OutstandingPacketMetadata;
  lastAckedPacketInfo : option LastAckedPacketInfo;
  associatedEvent : option PacketEvent;
  isAppLimited : bool;
  isDSRPacket : bool
}.

Record OutstandingsInfo := mkOutstandingsInfo {
  packets : list OutstandingPacket;
  initialPacketsCount : Z;
  handshakePacketsCount : Z;
  clonedPacketsCount : Z
}.

Record D6DState := mkD6DState {
  lastProbe : option PacketNum;      (* d6d.lastProbe->packetNum *)
  outstandingProbes : Z;
  totalTxedProbes : Z                (* d6d.meta.totalTxedProbes *)
}.

Inductive QuicBatchingMode :=
  BATCHING_MODE_NONE | BATCHING_MODE_GSO | BATCHING_MODE_SENDMMSG
| BATCHING_MODE_SENDMMSG_GSO.
Inductive DataPathType := ChainedMemory | ContinuousMemory.
#[global] Instance QuicBatchingMode_eq_dec : EqDecision QuicBatchingMode.
Proof. solve_decision. Defined.
#[global] Instance DataPathType_eq_dec : EqDecision DataPathType.
Proof. solve_decision. Defined.

Record TransportSettings := mkTransportSettings {
  batchingMode : QuicBatchingMode;
  writeConnectionDataPacketsLimit : Z;
  maxBatchSize : Z;
  useThreadLocalBatching : bool;
  dataPathType : DataPathType;
  writeLimitRttFraction : Z
}.

Inductive NoWriteReason :=
  WRITE_OK | EMPTY_SCHEDULER | NO_FRAME | NO_BODY | SOCKET_FAILURE.

Inductive WriteDataReason :=
  NO_WRITE | PROBES | ACK | CRYPTO_STREAM | STREAM | BLOCKED
| STREAM_WINDOW_UPDATE | CONN_WINDOW_UPDATE | SIMPLE | RESET | PATHCHALLENGE
| PING.

(** Calls on [conn.statsCallback] ([QUIC_STATS]), oldest first. *)
Inductive StatsEvent :=
| onCwndBlocked
| onUDPSocketWriteError (err : Z)
| onWrite (bytes : Z)
| onPacketSent
| onPacketRetransmission.

(** ** State owned by the consumed interfaces

    The congestion controller, the pacer, the path-validation rate limiter,
    the stream manager, the connection-level flow-control state, the batch
    writer and the happy-eyeballs bookkeeping that is not read here are
    opaque to the write path. *)
Class Collaborators := {
  CongestionController : Type;
  Pacer : Type;
  PendingPathRateLimiter : Type;
  QuicStreamManager : Type;
  FlowControlState : Type;
  BatchWriter : Type
}.

(** Happy-eyeballs state.  [connAttemptDelayTimeout] is [None] when there is
    no timeout object and [Some b] when there is one with [isScheduled() = b].
    [secondSocketReadPaused] records [secondSocket->pauseRead()]. *)
Record HappyEyeballsState := mkHappyEyeballsState {
  shouldWriteToFirstSocket : bool;
  shouldWriteToSecondSocket : bool;
  connAttemptDelayTimeout : option bool;
  secondSocketReadPaused : bool
}.

Definition set_numProbePackets (v : _) (r : PendingEvents) : PendingEvents :=
  mkPendingEvents
    v (resets r) (connWindowUpdate r) (sendDataBlocked r) (sendPing r)
    (pendingFrames r) (pathChallenge r) (setLossDetectionAlarm r).
Definition set_resets (v : _) (r : PendingEvents) : PendingEvents :=
  mkPendingEvents
    (numProbePackets r) v (connWindowUpdate r) (sendDataBlocked r) (sendPing
    r) (pendingFrames r) (pathChallenge r) (setLossDetectionAlarm r).
Definition set_sendDataBlocked (v : _) (r : PendingEvents) : PendingEvents :=
  mkPendingEvents
    (numProbePackets r) (resets r) (connWindowUpdate r) v (sendPing r)
    (pendingFrames r) (pathChallenge r) (setLossDetectionAlarm r).
Definition set_sendPing (v : _) (r : PendingEvents) : PendingEvents :=
  mkPendingEvents
    (numProbePackets r) (resets r) (connWindowUpdate r) (sendDataBlocked r)
    v (pendingFrames r) (pathChallenge r) (setLossDetectionAlarm r).
Definition set_setLossDetectionAlarm (v : _) (r : PendingEvents) : PendingEvents :=
  mkPendingEvents
    (numProbePackets r) (resets r) (connWindowUpdate r) (sendDataBlocked r)
    (sendPing r) (pendingFrames r) (pathChallenge r) v.

Definition set_largestSent (v : _) (r : LossState) : LossState :=
  mkLossState
    (srtt r) v (totalBytesSent r) (totalPacketsSent r)
    (totalAckElicitingPacketsSent r) (inflightBytes r)
    (totalBytesRetransmitted r) (totalStreamBytesCloned r) (totalBytesCloned
    r) (timeoutBasedRtxCount r) (lastRetransmittablePacketSentTime r)
    (lastAckedTime r) (lastAckedPacketSentTime r) (adjustedLastAckedTime r)
    (totalBytesSentAtLastAck r) (totalBytesAckedAtLastAck r).
Definition set_totalBytesSent (v : _) (r : LossState) : LossState :=
  mkLossState
    (srtt r) (largestSent r) v (totalPacketsSent r)
    (totalAckElicitingPacketsSent r) (inflightBytes r)
    (totalBytesRetransmitted r) (totalStreamBytesCloned r) (totalBytesCloned
    r) (timeoutBasedRtxCount r) (lastRetransmittablePacketSentTime r)
    (lastAckedTime r) (lastAckedPacketSentTime r) (adjustedLastAckedTime r)
    (totalBytesSentAtLastAck r) (totalBytesAckedAtLastAck r).
Definition set_totalPacketsSent (v : _) (r : LossState) : LossState :=
  mkLossState
    (srtt r) (largestSent r) (totalBytesSent r) v
    (totalAckElicitingPacketsSent r) (inflightBytes r)
    (totalBytesRetransmitted r) (totalStreamBytesCloned r) (totalBytesCloned
    r) (timeoutBasedRtxCount r) (lastRetransmittablePacketSentTime r)
    (lastAckedTime r) (lastAckedPacketSentTime r) (adjustedLastAckedTime r)
    (totalBytesSentAtLastAck r) (totalBytesAckedAtLastAck r).
Definition set_totalAckElicitingPacketsSent (v : _) (r : LossState) : LossState :=
  mkLossState
    (srtt r) (largestSent r) (totalBytesSent r) (totalPacketsSent r) v
    (inflightBytes r) (totalBytesRetransmitted r) (totalStreamBytesCloned r)
    (totalBytesCloned r) (timeoutBasedRtxCount r)
    (lastRetransmittablePacketSentTime r) (lastAckedTime r)
    (lastAckedPacketSentTime r) (adjustedLastAckedTime r)
    (totalBytesSentAtLastAck r) (totalBytesAckedAtLastAck r).
Definition set_totalBytesRetransmitted (v : _) (r : LossState) : LossState :=
  mkLossState
    (srtt r) (largestSent r) (totalBytesSent r) (totalPacketsSent r)
    (totalAckElicitingPacketsSent r) (inflightBytes r) v
    (totalStreamBytesCloned r) (totalBytesCloned r) (timeoutBasedRtxCount r)
    (lastRetransmittablePacketSentTime r) (lastAckedTime r)
    (lastAckedPacketSentTime r) (adjustedLastAckedTime r)
    (totalBytesSentAtLastAck r) (totalBytesAckedAtLastAck r).
Definition set_totalStreamBytesCloned (v : _) (r : LossState) : LossState :=
  mkLossState
    (srtt r) (largestSent r) (totalBytesSent r) (totalPacketsSent r)
    (totalAckElicitingPacketsSent r) (inflightBytes r)
    (totalBytesRetransmitted r) v (totalBytesCloned r) (timeoutBasedRtxCount
    r) (lastRetransmittablePacketSentTime r) (lastAckedTime r)
    (lastAckedPacketSentTime r) (adjustedLastAckedTime r)
    (totalBytesSentAtLastAck r) (totalBytesAckedAtLastAck r).
Definition set_totalBytesCloned (v : _) (r : LossState) : LossState :=
  mkLossState
    (srtt r) (largestSent r) (totalBytesSent r) (totalPacketsSent r)
    (totalAckElicitingPacketsSent r) (inflightBytes r)
    (totalBytesRetransmitted r) (totalStreamBytesCloned r) v
    (timeoutBasedRtxCount r) (lastRetransmittablePacketSentTime r)
    (lastAckedTime r) (lastAckedPacketSentTime r) (adjustedLastAckedTime r)
    (totalBytesSentAtLastAck r) (totalBytesAckedAtLastAck r).
Definition set_timeoutBasedRtxCount (v : _) (r : LossState) : LossState :=
  mkLossState
    (srtt r) (largestSent r) (totalBytesSent r) (totalPacketsSent r)
    (totalAckElicitingPacketsSent r) (inflightBytes r)
    (totalBytesRetransmitted r) (totalStreamBytesCloned r) (totalBytesCloned
    r) v (lastRetransmittablePacketSentTime r) (lastAckedTime r)
    (lastAckedPacketSentTime r) (adjustedLastAckedTime r)
    (totalBytesSentAtLastAck r) (totalBytesAckedAtLastAck r).
Definition set_lastRetransmittablePacketSentTime (v : _) (r : LossState) : LossState :=
  mkLossState
    (srtt r) (largestSent r) (totalBytesSent r) (totalPacketsSent r)
    (totalAckElicitingPacketsSent r) (inflightBytes r)
    (totalBytesRetransmitted r) (totalStreamBytesCloned r) (totalBytesCloned
    r) (timeoutBasedRtxCount r) v (lastAckedTime r) (lastAckedPacketSentTime
    r) (adjustedLastAckedTime r) (totalBytesSentAtLastAck r)
    (totalBytesAckedAtLastAck r).

Definition set_packets (v : _) (r : OutstandingsInfo) : OutstandingsInfo :=
  mkOutstandingsInfo
    v (initialPacketsCount r) (handshakePacketsCount r) (clonedPacketsCount
    r).
Definition set_initialPacketsCount (v : _) (r : OutstandingsInfo) : OutstandingsInfo :=
  mkOutstandingsInfo
    (packets r) v (handshakePacketsCount r) (clonedPacketsCount r).
Definition set_handshakePacketsCount (v : _) (r : OutstandingsInfo) : OutstandingsInfo :=
  mkOutstandingsInfo
    (packets r) (initialPacketsCount r) v (clonedPacketsCount r).
Definition set_clonedPacketsCount (v : _) (r : OutstandingsInfo) : OutstandingsInfo :=
  mkOutstandingsInfo
    (packets r) (initialPacketsCount r) (handshakePacketsCount r) v.

Definition set_outstandingProbes (v : _) (r : D6DState) : D6DState :=
  mkD6DState
    (lastProbe r) v (totalTxedProbes r).
Definition set_totalTxedProbes (v : _) (r : D6DState) : D6DState :=
  mkD6DState
    (lastProbe r) (outstandingProbes r) v.

Definition set_shouldWriteToFirstSocket (v : _) (r : HappyEyeballsState) : HappyEyeballsState :=
  mkHappyEyeballsState
    v (shouldWriteToSecondSocket r) (connAttemptDelayTimeout r)
    (secondSocketReadPaused r).
Definition set_shouldWriteToSecondSocket (v : _) (r : HappyEyeballsState) : HappyEyeballsState :=
  mkHappyEyeballsState
    (shouldWriteToFirstSocket r) v (connAttemptDelayTimeout r)
    (secondSocketReadPaused r).
Definition set_connAttemptDelayTimeout (v : _) (r : HappyEyeballsState) : HappyEyeballsState :=
  mkHappyEyeballsState
    (shouldWriteToFirstSocket r) (shouldWriteToSecondSocket r) v
    (secondSocketReadPaused r).
Definition set_secondSocketReadPaused (v : _) (r : HappyEyeballsState) : HappyEyeballsState :=
  mkHappyEyeballsState
    (shouldWriteToFirstSocket r) (shouldWriteToSecondSocket r)
    (connAttemptDelayTimeout r) v.

Definition set_initialStream (v : _) (r : QuicCryptoState) : QuicCryptoState :=
  mkQuicCryptoState
    v (handshakeStream r) (oneRttStream r).
Definition set_handshakeStream (v : _) (r : QuicCryptoState) : QuicCryptoState :=
  mkQuicCryptoState
    (initialStream r) v (oneRttStream r).
Definition set_oneRttStream (v : _) (r : QuicCryptoState) : QuicCryptoState :=
  mkQuicCryptoState
    (initialStream r) (handshakeStream r) v.

(** ** Packets under construction *)

(** [PacketBuilderInterface::Packet]: the frames written and the header and
    body buffers; the body pointer may be null.  In the in-place strategy the
    two buffers are windows of the connection-owned buffer, and [io_headroom]
    is the offset of their data in it. *)
Record BuiltPacket := mkBuiltPacket {
  bp_packet : RegularQuicWritePacket;
  bp_header : IOBuf;
  bp_body : option IOBuf
}.

Record SchedulingResult := mkSchedulingResult {
  sr_packetEvent : option PacketEvent;
  sr_packet : option BuiltPacket
}.

Record DataPathResult := mkDataPathResult {
  buildSuccess : bool;
  writeSuccess : bool;
  result : option SchedulingResult;
  encodedSize : Z
}.

Definition makeBuildFailure : DataPathResult := mkDataPathResult false false None 0.
Definition makeWriteResult (writeSuc : bool) (res : SchedulingResult)
  (encodedSizeIn : Z) : DataPathResult :=
  mkDataPathResult true writeSuc (Some res) encodedSizeIn.

Inductive BuilderKind := InplaceQuicPacketBuilder | RegularQuicPacketBuilder.

(** The arguments a packet builder is constructed with. *)
Record BuilderArgs := mkBuilderArgs {
  ba_kind : BuilderKind;
  ba_remainingBytes : Z;
  ba_header : PacketHeader;
  ba_largestAckedPacketNum : PacketNum;
  ba_cipherOverhead : Z
}.

(** [Aead] (quic/handshake/Aead.h): [inplaceEncrypt] is [None] when it
    throws. *)
Record Aead := mkAead {
  getCipherOverhead : Z;
  getHashIndex : Z;
  inplaceEncrypt : IOBuf -> IOBuf -> PacketNum -> option IOBuf
}.

(** [PacketNumberCipher]: from the sample, the initial byte and the packet
    number bytes to their protected values. *)
Record PacketNumberCipher := mkPacketNumberCipher {
  encryptShortHeader : list byte -> byte -> list byte -> byte * list byte;
  encryptLongHeader : list byte -> byte -> list byte -> byte * list byte
}.

Definition kMaxPacketNumEncodingSize : Z := 4.
Definition sampleSize : Z := 16.

Definition readBytes (off len : Z) (mem : list byte) : list byte :=
  firstn (Z.to_nat len) (skipn (Z.to_nat off) mem).
Definition writeBytes (off : Z) (bytes mem : list byte) : list byte :=
  firstn (Z.to_nat off) (mem ++ repeat Byte.x00 (Z.to_nat off))
  ++ bytes ++ skipn (Z.to_nat off + List.length bytes) mem.

(** [IOBuf::create], [advance] (on an empty buffer), [append], [clear]. *)
Definition createIOBuf (capacity : Z) : IOBuf :=
  mkIOBuf (repeat Byte.x00 (Z.to_nat capacity)) 0 0.
Definition advance (amount : Z) (b : IOBuf) : IOBuf :=
  mkIOBuf (io_storage b) (wrap64 (io_headroom b + amount)) (io_length b).
Definition appendLen (amount : Z) (b : IOBuf) : IOBuf :=
  mkIOBuf (io_storage b) (io_headroom b) (wrap64 (io_length b + amount)).
Definition clearIOBuf (b : IOBuf) : IOBuf := mkIOBuf (io_storage b) 0 0.
Definition setStorage (mem : list byte) (b : IOBuf) : IOBuf :=
  mkIOBuf mem (io_headroom b) (io_length b).

Section Transport.

Context `{Collaborators}.

(** [bufAccessor] is [Some b] while the accessor owns the buffer [b]
    ([ownsBuffer()]) and [None] while it is checked out.  [noWriteReason] is
    [writeDebugState.noWriteReason]; [loopDetectorCallback] and the write
    ciphers are kept as "is set" flags. *)
Record QuicConnectionStateBase := mkConn {
  udpSendPacketLen : Z;
  initialWriteCipher : bool;
  handshakeWriteCipher : bool;
  oneRttWriteCipher : bool;
  zeroRttWriteCipher : bool;
  cryptoState : QuicCryptoState;
  ackStates : AckStates;
  pendingEvents : PendingEvents;
  lossState : LossState;
  outstandings : OutstandingsInfo;
  d6d : D6DState;
  writableBytesLimit : option Z;
  outstandingPathValidation : bool;
  congestionController : option CongestionController;
  pacer : option Pacer;
  pathValidationLimiter : option PendingPathRateLimiter;
  streamManager : QuicStreamManager;
  flowControlState : FlowControlState;
  happyEyeballsState : HappyEyeballsState;
  transportSettings : TransportSettings;
  bufAccessor : option IOBuf;
  loopDetectorCallback : bool;
  noWriteReason : NoWriteReason;
  writeCount : Z;
  statsLog : list StatsEvent
}.

Definition set_cryptoState (v : _) (r : QuicConnectionStateBase) : QuicConnectionStateBase :=
  mkConn
    (udpSendPacketLen r) (initialWriteCipher r) (handshakeWriteCipher r)
    (oneRttWriteCipher r) (zeroRttWriteCipher r) v (ackStates r)
    (pendingEvents r) (lossState r) (outstandings r) (d6d r)
    (writableBytesLimit r) (outstandingPathValidation r)
    (congestionController r) (pacer r) (pathValidationLimiter r)
    (streamManager r) (flowControlState r) (happyEyeballsState r)
    (transportSettings r) (bufAccessor r) (loopDetectorCallback r)
    (noWriteReason r) (writeCount r) (statsLog r).
Definition set_ackStates (v : _) (r : QuicConnectionStateBase) : QuicConnectionStateBase :=
  mkConn
    (udpSendPacketLen r) (initialWriteCipher r) (handshakeWriteCipher r)
    (oneRttWriteCipher r) (zeroRttWriteCipher r) (cryptoState r) v
    (pendingEvents r) (lossState r) (outstandings r) (d6d r)
    (writableBytesLimit r) (outstandingPathValidation r)
    (congestionController r) (pacer r) (pathValidationLimiter r)
    (streamManager r) (flowControlState r) (happyEyeballsState r)
    (transportSettings r) (bufAccessor r) (loopDetectorCallback r)
    (noWriteReason r) (writeCount r) (statsLog r).
Definition set_pendingEvents (v : _) (r : QuicConnectionStateBase) : QuicConnectionStateBase :=
  mkConn
    (udpSendPacketLen r) (initialWriteCipher r) (handshakeWriteCipher r)
    (oneRttWriteCipher r) (zeroRttWriteCipher r) (cryptoState r) (ackStates
    r) v (lossState r) (outstandings r) (d6d r) (writableBytesLimit r)
    (outstandingPathValidation r) (congestionController r) (pacer r)
    (pathValidationLimiter r) (streamManager r) (flowControlState r)
    (happyEyeballsState r) (transportSettings r) (bufAccessor r)
    (loopDetectorCallback r) (noWriteReason r) (writeCount r) (statsLog r).
Definition set_lossState (v : _) (r : QuicConnectionStateBase) : QuicConnectionStateBase :=
  mkConn
    (udpSendPacketLen r) (initialWriteCipher r) (handshakeWriteCipher r)
    (oneRttWriteCipher r) (zeroRttWriteCipher r) (cryptoState r) (ackStates
    r) (pendingEvents r) v (outstandings r) (d6d r) (writableBytesLimit r)
    (outstandingPathValidation r) (congestionController r) (pacer r)
    (pathValidationLimiter r) (streamManager r) (flowControlState r)
    (happyEyeballsState r) (transportSettings r) (bufAccessor r)
    (loopDetectorCallback r) (noWriteReason r) (writeCount r) (statsLog r).
Definition set_outstandings (v : _) (r : QuicConnectionStateBase) : QuicConnectionStateBase :=
  mkConn
    (udpSendPacketLen r) (initialWriteCipher r) (handshakeWriteCipher r)
    (oneRttWriteCipher r) (zeroRttWriteCipher r) (cryptoState r) (ackStates
    r) (pendingEvents r) (lossState r) v (d6d r) (writableBytesLimit r)
    (outstandingPathValidation r) (congestionController r) (pacer r)
    (pathValidationLimiter r) (streamManager r) (flowControlState r)
    (happyEyeballsState r) (transportSettings r) (bufAccessor r)
    (loopDetectorCallback r) (noWriteReason r) (writeCount r) (statsLog r).
Definition set_d6d (v : _) (r : QuicConnectionStateBase) : QuicConnectionStateBase :=
  mkConn
    (udpSendPacketLen r) (initialWriteCipher r) (handshakeWriteCipher r)
    (oneRttWriteCipher r) (zeroRttWriteCipher r) (cryptoState r) (ackStates
    r) (pendingEvents r) (lossState r) (outstandings r) v
    (writableBytesLimit r) (outstandingPathValidation r)
    (congestionController r) (pacer r) (pathValidationLimiter r)
    (streamManager r) (flowControlState r) (happyEyeballsState r)
    (transportSettings r) (bufAccessor r) (loopDetectorCallback r)
    (noWriteReason r) (writeCount r) (statsLog r).
Definition set_congestionController (v : _) (r : QuicConnectionStateBase) : QuicConnectionStateBase :=
  mkConn
    (udpSendPacketLen r) (initialWriteCipher r) (handshakeWriteCipher r)
    (oneRttWriteCipher r) (zeroRttWriteCipher r) (cryptoState r) (ackStates
    r) (pendingEvents r) (lossState r) (outstandings r) (d6d r)
    (writableBytesLimit r) (outstandingPathValidation r) v (pacer r)
    (pathValidationLimiter r) (streamManager r) (flowControlState r)
    (happyEyeballsState r) (transportSettings r) (bufAccessor r)
    (loopDetectorCallback r) (noWriteReason r) (writeCount r) (statsLog r).
Definition set_pacer (v : _) (r : QuicConnectionStateBase) : QuicConnectionStateBase :=
  mkConn
    (udpSendPacketLen r) (initialWriteCipher r) (handshakeWriteCipher r)
    (oneRttWriteCipher r) (zeroRttWriteCipher r) (cryptoState r) (ackStates
    r) (pendingEvents r) (lossState r) (outstandings r) (d6d r)
    (writableBytesLimit r) (outstandingPathValidation r)
    (congestionController r) v (pathValidationLimiter r) (streamManager r)
    (flowControlState r) (happyEyeballsState r) (transportSettings r)
    (bufAccessor r) (loopDetectorCallback r) (noWriteReason r) (writeCount
    r) (statsLog r).
Definition set_pathValidationLimiter (v : _) (r : QuicConnectionStateBase) : QuicConnectionStateBase :=
  mkConn
    (udpSendPacketLen r) (initialWriteCipher r) (handshakeWriteCipher r)
    (oneRttWriteCipher r) (zeroRttWriteCipher r) (cryptoState r) (ackStates
    r) (pendingEvents r) (lossState r) (outstandings r) (d6d r)
    (writableBytesLimit r) (outstandingPathValidation r)
    (congestionController r) (pacer r) v (streamManager r) (flowControlState
    r) (happyEyeballsState r) (transportSettings r) (bufAccessor r)
    (loopDetectorCallback r) (noWriteReason r) (writeCount r) (statsLog r).
Definition set_streamManager (v : _) (r : QuicConnectionStateBase) : QuicConnectionStateBase :=
  mkConn
    (udpSendPacketLen r) (initialWriteCipher r) (handshakeWriteCipher r)
    (oneRttWriteCipher r) (zeroRttWriteCipher r) (cryptoState r) (ackStates
    r) (pendingEvents r) (lossState r) (outstandings r) (d6d r)
    (writableBytesLimit r) (outstandingPathValidation r)
    (congestionController r) (pacer r) (pathValidationLimiter r) v
    (flowControlState r) (happyEyeballsState r) (transportSettings r)
    (bufAccessor r) (loopDetectorCallback r) (noWriteReason r) (writeCount
    r) (statsLog r).
Definition set_happyEyeballsState (v : _) (r : QuicConnectionStateBase) : QuicConnectionStateBase :=
  mkConn
    (udpSendPacketLen r) (initialWriteCipher r) (handshakeWriteCipher r)
    (oneRttWriteCipher r) (zeroRttWriteCipher r) (cryptoState r) (ackStates
    r) (pendingEvents r) (lossState r) (outstandings r) (d6d r)
    (writableBytesLimit r) (outstandingPathValidation r)
    (congestionController r) (pacer r) (pathValidationLimiter r)
    (streamManager r) (flowControlState r) v (transportSettings r)
    (bufAccessor r) (loopDetectorCallback r) (noWriteReason r) (writeCount
    r) (statsLog r).
Definition set_bufAccessor (v : _) (r : QuicConnectionStateBase) : QuicConnectionStateBase :=
  mkConn
    (udpSendPacketLen r) (initialWriteCipher r) (handshakeWriteCipher r)
    (oneRttWriteCipher r) (zeroRttWriteCipher r) (cryptoState r) (ackStates
    r) (pendingEvents r) (lossState r) (outstandings r) (d6d r)
    (writableBytesLimit r) (outstandingPathValidation r)
    (congestionController r) (pacer r) (pathValidationLimiter r)
    (streamManager r) (flowControlState r) (happyEyeballsState r)
    (transportSettings r) v (loopDetectorCallback r) (noWriteReason r)
    (writeCount r) (statsLog r).
Definition set_noWriteReason (v : _) (r : QuicConnectionStateBase) : QuicConnectionStateBase :=
  mkConn
    (udpSendPacketLen r) (initialWriteCipher r) (handshakeWriteCipher r)
    (oneRttWriteCipher r) (zeroRttWriteCipher r) (cryptoState r) (ackStates
    r) (pendingEvents r) (lossState r) (outstandings r) (d6d r)
    (writableBytesLimit r) (outstandingPathValidation r)
    (congestionController r) (pacer r) (pathValidationLimiter r)
    (streamManager r) (flowControlState r) (happyEyeballsState r)
    (transportSettings r) (bufAccessor r) (loopDetectorCallback r) v
    (writeCount r) (statsLog r).
Definition set_statsLog (v : _) (r : QuicConnectionStateBase) : QuicConnectionStateBase :=
  mkConn
    (udpSendPacketLen r) (initialWriteCipher r) (handshakeWriteCipher r)
    (oneRttWriteCipher r) (zeroRttWriteCipher r) (cryptoState r) (ackStates
    r) (pendingEvents r) (lossState r) (outstandings r) (d6d r)
    (writableBytesLimit r) (outstandingPathValidation r)
    (congestionController r) (pacer r) (pathValidationLimiter r)
    (streamManager r) (flowControlState r) (happyEyeballsState r)
    (transportSettings r) (bufAccessor r) (loopDetectorCallback r)
    (noWriteReason r) (writeCount r) v.

Definition Conn := QuicConnectionStateBase.

(** ** Consumed interfaces

    The functions below belong to this repository's collaborators (flow
    control, stream manager, congestion control, ack handling, batch writers,
    happy eyeballs, socket utilities); the write path only calls them.  The
    functions that receive the connection (or a stream that points back to
    it) are the cases of [ExtCall]. *)

Inductive ExtCall :=
| UpdateFlowControlOnWriteToSocket (id : StreamId) (len : Z)
| MaybeWriteBlockAfterSocketWrite (id : StreamId)
| MaybeWriteDataBlockedAfterSocketWrite
| UpdateAckSendStateOnSentPacketWithAcks (space : PacketNumberSpace)
                                         (largestAcked : PacketNum)
| OnConnWindowUpdateSent (maximumData : Z) (t : Time)
| OnStreamWindowUpdateSent (id : StreamId) (maximumData : Z) (t : Time)
| UpdateSimpleFrameOnPacketSent (payload : Z)
| IncreaseNextPacketNum (space : PacketNumberSpace).

Inductive FlushType := FLUSH_TYPE_ALWAYS | FLUSH_TYPE_ALLOW_THREAD_LOCAL_DELAY.
#[global] Instance FlushType_eq_dec : EqDecision FlushType.
Proof. solve_decision. Defined.

Class CollaboratorOps := {
  (* quic/state/QuicStateFunctions *)
  hasAcksToSchedule : AckState -> bool;
  (* quic/flowcontrol/QuicFlowController *)
  getSendConnFlowControlBytesWire : Conn -> Z;
  (* QuicStreamManager *)
  hasWindowUpdates : QuicStreamManager -> bool;
  hasBlocked : QuicStreamManager -> bool;
  hasWritable : QuicStreamManager -> bool;
  getStream : QuicStreamManager -> StreamId -> option QuicStreamLike;
  putStream : StreamId -> QuicStreamLike -> QuicStreamManager -> QuicStreamManager;
  addTx : StreamId -> QuicStreamManager -> QuicStreamManager;
  updateWritableStreams : StreamId -> QuicStreamManager -> QuicStreamManager;
  updateLossStreams : StreamId -> QuicStreamManager -> QuicStreamManager;
  removeBlocked : StreamId -> QuicStreamManager -> QuicStreamManager;
  (* WriteBufferMeta::split *)
  splitBufMeta : Z -> WriteBufferMeta -> option (WriteBufferMeta * WriteBufferMeta);
  (* CongestionController, Pacer, PendingPathRateLimiter *)
  getWritableBytes : CongestionController -> Z;
  ccIsAppLimited : CongestionController -> bool;
  ccOnPacketSent : OutstandingPacket -> CongestionController -> CongestionController;
  pacerOnPacketSent : Pacer -> Pacer;
  currentCredit : PendingPathRateLimiter -> Time -> Time -> Z;
  limiterOnPacketSent : Z -> PendingPathRateLimiter -> PendingPathRateLimiter;
  kDefaultInitialRtt : Time;
  (* functions on the connection *)
  collaborate : ExtCall -> M Conn unit;
  (* BatchWriter *)
  needsFlush : BatchWriter -> Z -> bool;
  append : Z -> BatchWriter -> bool * BatchWriter;
  batchEmpty : BatchWriter -> bool;
  batchSize : BatchWriter -> Z;
  batchReset : BatchWriter -> BatchWriter;
  makeBatchWriter : Conn -> BatchWriter;
  (* what BatchWriter::write, given the count it returns, does to the
     connection-owned buffer (the in-place writer sends from that buffer) *)
  batchWritten : BatchWriter -> Z -> option IOBuf -> option IOBuf;
  (* the default argument of IOBufQuicBatch::flush (IoBufQuicBatch.h) *)
  defaultFlushType : FlushType;
  (* quic/codec *)
  parsePacketNumberLength : byte -> Z;
  (* quic/state/QuicStreamFunctions, quic/state/AckHandlers, quic/loss *)
  processCryptoStreamAck : Z -> Z -> QuicStreamLike -> QuicStreamLike;
  commonAckVisitorForAckFrame : WriteAckFrame -> AckState -> AckState;
  declaredLost : Conn -> PacketNum -> OutstandingPacket -> bool;
  (* quic/happyeyeballs, quic/common/SocketUtil.h, <errno.h> *)
  happyEyeballsStartSecondSocket : HappyEyeballsState -> HappyEyeballsState;
  isNetworkUnreachable : Z -> bool;
  EAGAIN : Z;
  EWOULDBLOCK : Z;
  ENOBUFS : Z;
  EMSGSIZE : Z
}.

Context `{CollaboratorOps}.

(** [QUIC_STATS(conn.statsCallback, event)]. *)
Definition QUIC_STATS (ev : StatsEvent) : M Conn unit :=
  modify (fun conn => set_statsLog (statsLog conn ++ [ev]) conn).

Definition getAckState (conn : Conn) (pnSpace : PacketNumberSpace) : AckState :=
  match pnSpace with
  | Initial => initialAckState (ackStates conn)
  | Handshake => handshakeAckState (ackStates conn)
  | AppData => appDataAckState (ackStates conn)
  end.

Definition getNextPacketNum (conn : Conn) (pnSpace : PacketNumberSpace) : PacketNum :=
  nextPacketNum (getAckState conn pnSpace).

(** ** The write-reason classifier *)

Definition streamHasPending (s : QuicStreamLike) : bool :=
  negb (bool_decide (writeBuffer s = [])) || negb (bool_decide (lossBuffer s = [])).

Definition cryptoHasWritableData (conn : Conn) : bool :=
  (initialWriteCipher conn && streamHasPending (initialStream (cryptoState conn)))
  || (handshakeWriteCipher conn
      && streamHasPending (handshakeStream (cryptoState conn)))
  || (oneRttWriteCipher conn && streamHasPending (oneRttStream (cryptoState conn))).

Definition toWriteInitialAcks (conn : Conn) : bool :=
  initialWriteCipher conn
  && hasAcksToSchedule (initialAckState (ackStates conn))
  && needsToSendAckImmediately (initialAckState (ackStates conn)).

Definition toWriteHandshakeAcks (conn : Conn) : bool :=
  handshakeWriteCipher conn
  && hasAcksToSchedule (handshakeAckState (ackStates conn))
  && needsToSendAckImmediately (handshakeAckState (ackStates conn)).

Definition toWriteAppDataAcks (conn : Conn) : bool :=
  oneRttWriteCipher conn
  && hasAcksToSchedule (appDataAckState (ackStates conn))
  && needsToSendAckImmediately (appDataAckState (ackStates conn)).

Definition hasAckDataToWrite (conn : Conn) : bool :=
  toWriteInitialAcks conn || toWriteHandshakeAcks conn || toWriteAppDataAcks conn.

Definition hasNonAckDataToWrite (conn : Conn) : WriteDataReason :=
  if cryptoHasWritableData conn then CRYPTO_STREAM
  else if negb (oneRttWriteCipher conn) && negb (zeroRttWriteCipher conn) then NO_WRITE
  else if negb (bool_decide (resets (pendingEvents conn) = ∅)) then RESET
  else if hasWindowUpdates (streamManager conn) then STREAM_WINDOW_UPDATE
  else if connWindowUpdate (pendingEvents conn) then CONN_WINDOW_UPDATE
  else if hasBlocked (streamManager conn) then BLOCKED
  else if negb (getSendConnFlowControlBytesWire conn =? 0)
          && hasWritable (streamManager conn) then STREAM
  else if negb (bool_decide (pendingFrames (pendingEvents conn) = [])) then SIMPLE
  else if bool_decide (pathChallenge (pendingEvents conn) <> None) then PATHCHALLENGE
  else if sendPing (pendingEvents conn) then PING
  else NO_WRITE.

(** The first block of [congestionControlWritableBytes]: the budget before
    the congestion controller's cap.  [None] is the early [return 0] taken
    when the writable-bytes limit is used up.  [now] is the reading of
    [std::chrono::steady_clock::now()]. *)
Definition uncappedWritableBytes (now : Time) : M Conn (option Z) :=
  do conn <- get;
  if bool_decide (pathChallenge (pendingEvents conn) <> None)
     || outstandingPathValidation conn
  then
    run CHECK (bool_decide (pathValidationLimiter conn <> None));
    run CHECK (negb (bool_decide (writableBytesLimit conn <> None)));
    match pathValidationLimiter conn with
    | Some limiter =>
        ret (Some (wrap64 (currentCredit limiter now
                             (if srtt (lossState conn) =? 0 then kDefaultInitialRtt
                              else srtt (lossState conn)))))
    | None => abort
    end
  else
    match writableBytesLimit conn with
    | Some limit =>
        if limit <=? totalBytesSent (lossState conn) then ret None
        else ret (Some (wrap64 (limit - totalBytesSent (lossState conn))))
    | None => ret (Some uint64_max)
    end.

(** [std::min<uint64_t>(writableBytes, congestionController->getWritableBytes())]
    when there is a congestion controller. *)
Definition capByCongestionController (conn : Conn) (writableBytes : Z) : Z :=
  match congestionController conn with
  | Some cc => Z.min writableBytes (wrap64 (getWritableBytes cc))
  | None => writableBytes
  end.

(** [(writableBytes + udpSendPacketLen - 1) / udpSendPacketLen * udpSendPacketLen]
    in 64-bit unsigned arithmetic.  Unsigned division by zero is undefined in
    C++; the model stops there. *)
Definition roundUpToPacketLen (conn : Conn) (writableBytes : Z) : M Conn Z :=
  if udpSendPacketLen conn =? 0 then abort
  else ret (wrap64 (wrap64 (wrap64 (writableBytes + udpSendPacketLen conn) - 1)
                    / udpSendPacketLen conn * udpSendPacketLen conn)).

Definition congestionControlWritableBytes (now : Time) : M Conn Z :=
  do conn <- get;
  do uncapped <- uncappedWritableBytes now;
  match uncapped with
  | None => ret 0
  | Some writableBytes =>
      let writableBytes := capByCongestionController conn writableBytes in
      if writableBytes =? uint64_max then ret writableBytes
      else roundUpToPacketLen conn writableBytes
  end.

Definition unlimitedWritableBytes : M Conn Z := ret uint64_max.

Definition shouldWriteData (now : Time) : M Conn WriteDataReason :=
  do conn <- get;
  if negb (numProbePackets (pendingEvents conn) =? 0) then ret PROBES
  else if hasAckDataToWrite conn then ret ACK
  else
    do writable <- congestionControlWritableBytes now;
    if writable =? 0 then
      run QUIC_STATS onCwndBlocked;
      ret NO_WRITE
    else ret (hasNonAckDataToWrite conn).

(** ** IOBufQuicBatch (quic/api/IoBufQuicBatch.cpp) *)

(** What a socket write returns: the number of bytes consumed, or a negative
    value with [errno] set. *)
Inductive WriteOutcome := Consumed (bytes : N) | Failed (err : Z).

Inductive Socket := FirstSocket | SecondSocket.

(** The calls the write path makes, oldest first: socket writes and pauses,
    [ioBufBatch.write] for a built packet, the batch writer's [append], what
    [ioBufBatch.write] returned, [ioBufBatch.flush], [updateConnection] and
    the "packet larger than limit" error log. *)
Inductive Event :=
| SocketWrite (sock : Socket) (o : WriteOutcome)
| PauseRead (sock : Socket)
| CancelTimeout
| CallBatchWrite (pkt : RegularQuicWritePacket) (encodedSize : Z)
| BatchAppend (encodedSize : Z)
| BatchWriteResult (ok : bool)
| CallFlush (flushType : FlushType)
| CallUpdateConnection (pkt : RegularQuicWritePacket)
| LogPacketLargerThanLimit (encodedSize : Z).

Record IOBufQuicBatch := mkIOBufQuicBatch {
  batchWriter : BatchWriter;
  threadLocal : bool;
  pktSent : Z
}.

(** The connection together with its surroundings: the batch under
    construction ([ioBufBatch]), the first socket's read side, [errno], the
    outcomes the sockets will report ([m_net], indexed by the number of writes
    made so far), the readings the clock will give ([m_clock]) and the trace
    of calls. *)
Record Machine := mkMachine {
  m_conn : Conn;
  m_batch : IOBufQuicBatch;
  m_sockReadPaused : bool;
  m_errno : Z;
  m_net : nat -> WriteOutcome;
  m_netCalls : nat;
  m_clock : nat -> Time;
  m_clockReads : nat;
  m_trace : list Event
}.

Definition set_m_conn (v : Conn) (r : Machine) : Machine :=
  mkMachine v (m_batch r) (m_sockReadPaused r) (m_errno r) (m_net r)
    (m_netCalls r) (m_clock r) (m_clockReads r) (m_trace r).
Definition set_m_batch (v : IOBufQuicBatch) (r : Machine) : Machine :=
  mkMachine (m_conn r) v (m_sockReadPaused r) (m_errno r) (m_net r)
    (m_netCalls r) (m_clock r) (m_clockReads r) (m_trace r).
Definition set_m_sockReadPaused (v : bool) (r : Machine) : Machine :=
  mkMachine (m_conn r) (m_batch r) v (m_errno r) (m_net r)
    (m_netCalls r) (m_clock r) (m_clockReads r) (m_trace r).
Definition set_m_errno (v : Z) (r : Machine) : Machine :=
  mkMachine (m_conn r) (m_batch r) (m_sockReadPaused r) v (m_net r)
    (m_netCalls r) (m_clock r) (m_clockReads r) (m_trace r).
Definition set_m_netCalls (v : nat) (r : Machine) : Machine :=
  mkMachine (m_conn r) (m_batch r) (m_sockReadPaused r) (m_errno r) (m_net r)
    v (m_clock r) (m_clockReads r) (m_trace r).
Definition set_m_clockReads (v : nat) (r : Machine) : Machine :=
  mkMachine (m_conn r) (m_batch r) (m_sockReadPaused r) (m_errno r) (m_net r)
    (m_netCalls r) (m_clock r) v (m_trace r).
Definition set_m_trace (v : list Event) (r : Machine) : Machine :=
  mkMachine (m_conn r) (m_batch r) (m_sockReadPaused r) (m_errno r) (m_net r)
    (m_netCalls r) (m_clock r) (m_clockReads r) v.

Definition onConn {A} (m : M Conn A) : M Machine A := zoom m_conn set_m_conn m.
Definition emit (ev : Event) : M Machine unit :=
  modify (fun m => set_m_trace (m_trace m ++ [ev]) m).
Definition modifyHappyEyeballs (f : HappyEyeballsState -> HappyEyeballsState)
  : M Machine unit :=
  modify (fun m =>
    set_m_conn (set_happyEyeballsState (f (happyEyeballsState (m_conn m))) (m_conn m)) m).
Definition modifyBatchWriter (f : BatchWriter -> BatchWriter) : M Machine unit :=
  modify (fun m =>
    set_m_batch (mkIOBufQuicBatch (f (batchWriter (m_batch m)))
                   (threadLocal (m_batch m)) (pktSent (m_batch m))) m).

(** [Clock::now()]. *)
Definition clockNow : M Machine Time :=
  do m <- get;
  run modify (set_m_clockReads (S (m_clockReads m)));
  ret (m_clock m (m_clockReads m)).

(** [batchWriter_->write(sock, address)]: the socket reports its next
    outcome; a failure returns a negative count and sets [errno]. *)
Definition batchWriterWrite (sock : Socket) : M Machine Z :=
  do m <- get;
  let o := m_net m (m_netCalls m) in
  let consumed :=
    match o with
    | Consumed bytes => Z.of_N bytes
    | Failed _ => -1
    end in
  run modify (set_m_netCalls (S (m_netCalls m)));
  run emit (SocketWrite sock o);
  run onConn (modify (fun conn =>
        set_bufAccessor
          (batchWritten (batchWriter (m_batch m)) consumed (bufAccessor conn)) conn));
  match o with
  | Consumed _ => ret consumed
  | Failed err => run modify (set_m_errno err); ret consumed
  end.

Definition pauseRead (sock : Socket) : M Machine unit :=
  run emit (PauseRead sock);
  match sock with
  | FirstSocket => modify (set_m_sockReadPaused true)
  | SecondSocket => modifyHappyEyeballs (set_secondSocketReadPaused true)
  end.

Definition isRetriableError (err : Z) : bool :=
  (err =? EAGAIN) || (err =? EWOULDBLOCK) || (err =? ENOBUFS) || (err =? EMSGSIZE).

Definition reset : M Machine unit := modifyBatchWriter batchReset.

Definition setEligible (sock : Socket) (v : bool) (he : HappyEyeballsState)
  : HappyEyeballsState :=
  match sock with
  | FirstSocket => set_shouldWriteToFirstSocket v he
  | SecondSocket => set_shouldWriteToSecondSocket v he
  end.

(** The block that [flushInternal] runs for each eligible socket: write the
    batch, keep the socket eligible when the write succeeded or failed with a
    retriable [errno], pause its read side otherwise.  Returns
    [consumed >= 0]. *)
Definition writeBatchTo (sock : Socket) : M Machine bool :=
  do consumed <- batchWriterWrite sock;
  do err <- gets m_errno;
  let eligible := (0 <=? consumed) || isRetriableError err in
  run modifyHappyEyeballs (setEligible sock eligible);
  run when (negb eligible) (pauseRead sock);
  ret (0 <=? consumed).

(** [flushInternal] up to the second socket's write; returns [written]. *)
Definition flushWrites : M Machine bool :=
  do m <- get;
  do written <-
    (if shouldWriteToFirstSocket (happyEyeballsState (m_conn m))
     then writeBatchTo FirstSocket
     else ret false);
  (* If error occured on first socket, kick off second socket immediately *)
  do he <- gets (fun m => happyEyeballsState (m_conn m));
  run when (negb written && bool_decide (connAttemptDelayTimeout he = Some true))
        (run emit CancelTimeout;
         run modifyHappyEyeballs (set_connAttemptDelayTimeout (Some false));
         modifyHappyEyeballs happyEyeballsStartSecondSocket);
  do he <- gets (fun m => happyEyeballsState (m_conn m));
  if shouldWriteToSecondSocket he then
    do consumed <- writeBatchTo SecondSocket;
    (* written is marked true if either socket write succeeds *)
    ret (written || consumed)
  else ret written.

(** The rest of [flushInternal]: report the failure, then raise when both
    sockets have become ineligible. *)
Definition flushVerdict (written : bool) : M Machine bool :=
  run when (negb written)
        (do errnoCopy <- gets m_errno;
         onConn (QUIC_STATS (onUDPSocketWriteError errnoCopy)));
  do he <- gets (fun m => happyEyeballsState (m_conn m));
  if negb (shouldWriteToFirstSocket he) && negb (shouldWriteToSecondSocket he) then
    (* Both sockets becomes fatal, close connection *)
    do err <- gets m_errno;
    if isNetworkUnreachable err then
      throw (QuicInternalException CONNECTION_ABANDONED)
    else throw (QuicTransportException INTERNAL_ERROR)
  else if negb written then ret false
  else ret true.

Definition flushInternal : M Machine bool :=
  do m <- get;
  if batchEmpty (batchWriter (m_batch m)) then ret true
  else
    do written <- flushWrites;
    flushVerdict written.

Definition flush (flushType : FlushType) : M Machine bool :=
  run emit (CallFlush flushType);
  do m <- get;
  if threadLocal (m_batch m)
     && bool_decide (flushType = FLUSH_TYPE_ALLOW_THREAD_LOCAL_DELAY)
  then ret true
  else
    do result <- flushInternal;
    run reset;
    ret result.

(** [IOBufQuicBatch::write(buf, encodedSize)]. *)
Definition batchWrite (encodedSize : Z) : M Machine bool :=
  run modify (fun m =>
    set_m_batch (mkIOBufQuicBatch (batchWriter (m_batch m)) (threadLocal (m_batch m))
                   (wrap64 (pktSent (m_batch m) + 1))) m);
  do m <- get;
  (* see if we need to flush the prev buffer(s) *)
  run when (needsFlush (batchWriter (m_batch m)) encodedSize)
        (do ignored <- flush FLUSH_TYPE_ALWAYS; ret tt);
  (* try to append the new buffers *)
  do m <- get;
  let '(mustFlush, writer) := append encodedSize (batchWriter (m_batch m)) in
  run emit (BatchAppend encodedSize);
  run modifyBatchWriter (fun _ => writer);
  do ok <- (if mustFlush then flush FLUSH_TYPE_ALWAYS else ret true);
  run emit (BatchWriteResult ok);
  ret ok.

(** ** The connection-state updater *)

(** Run a computation on a local value. *)
Definition onValue {S T A} (t : T) (m : M T A) : M S (A * T) :=
  fun s => match m t with
           | Ok a t' => Ok (a, t') s
           | Throw e _ => Throw e s
           | Abort => Abort
           end.

(** [CHECK(map.emplace(key, value).second)]. *)
Definition emplaceChecked {V} (key : Z) (value : V) (m : gmap Z V)
  : option (gmap Z V) :=
  match m !! key with
  | Some _ => None
  | None => Some (<[key := value]> m)
  end.

Definition handleNewStreamDataWritten (frameLen : Z) (frameFin : bool)
  : M QuicStreamLike unit :=
  do stream <- get;
  let originalOffset := currentWriteOffset stream in
  run modify (set_currentWriteOffset (wrap64 (currentWriteOffset stream + frameLen)));
  (* writeBuffer.splitAtMost(frameLen) *)
  let bufWritten := firstn (Z.to_nat frameLen) (writeBuffer stream) in
  run modify (set_writeBuffer (skipn (Z.to_nat frameLen) (writeBuffer stream)));
  run modify (fun s => set_currentWriteOffset
                         (wrap64 (currentWriteOffset s + (if frameFin then 1 else 0))) s);
  do s <- get;
  match emplaceChecked originalOffset
          (mkStreamBuffer bufWritten originalOffset frameFin)
          (retransmissionBuffer s) with
  | Some buffer => modify (set_retransmissionBuffer buffer)
  | None => abort
  end.

Definition handleNewStreamBufMetaWritten (frameLen : Z) (frameFin : bool)
  : M QuicStreamLike unit :=
  do stream <- get;
  run CHECK (0 <? wbm_offset (writeBufMeta stream));
  let originalOffset := wbm_offset (writeBufMeta stream) in
  match splitBufMeta frameLen (writeBufMeta stream) with
  | None => abort
  | Some (bufMetaSplit, rest) =>
      run modify (set_writeBufMeta rest);
      run CHECK (wbm_offset bufMetaSplit =? originalOffset);
      run when frameFin
            ((* If FIN is written, nothing should be left in the writeBufMeta. *)
             run CHECK (wbm_length rest =? 0);
             modify (set_writeBufMeta
                       (mkWriteBufferMeta (wbm_length rest)
                          (wrap64 (wbm_offset rest + 1)) (wbm_eof rest))));
      do s <- get;
      match emplaceChecked originalOffset bufMetaSplit (retransmissionBufMetas s) with
      | Some metas => modify (set_retransmissionBufMetas metas)
      | None => abort
      end
  end.

(** [lossBufferIter] is the position [i] in the loss buffer. *)
Definition handleRetransmissionWritten (frameOffset frameLen : Z) (frameFin : bool)
  (i : nat) : M QuicStreamLike unit :=
  do stream <- get;
  match lossBuffer stream !! i with
  | None => abort
  | Some entry =>
      let bufferLen := Z.of_nat (List.length (sb_data entry)) in
      do bufWritten <-
        (if (frameLen =? bufferLen) && Bool.eqb frameFin (sb_eof entry) then
           (* The buffer is entirely retransmitted *)
           run modify (set_lossBuffer (delete i (lossBuffer stream)));
           ret (sb_data entry)
         else
           run modify (set_lossBuffer
                         (<[i := mkStreamBuffer
                                   (skipn (Z.to_nat frameLen) (sb_data entry))
                                   (wrap64 (sb_offset entry + frameLen))
                                   (sb_eof entry)]> (lossBuffer stream)));
           ret (firstn (Z.to_nat frameLen) (sb_data entry)));
      do s <- get;
      match emplaceChecked frameOffset
              (mkStreamBuffer bufWritten frameOffset frameFin)
              (retransmissionBuffer s) with
      | Some buffer => modify (set_retransmissionBuffer buffer)
      | None => abort
      end
  end.

Definition handleRetransmissionBufMetaWritten (frameOffset frameLen : Z)
  (frameFin : bool) (i : nat) : M QuicStreamLike unit :=
  do stream <- get;
  match lossBufMetas stream !! i with
  | None => abort
  | Some entry =>
      run (if (frameLen =? wbm_length entry) && Bool.eqb frameFin (wbm_eof entry) then
             modify (set_lossBufMetas (delete i (lossBufMetas stream)))
           else
             run CHECK (frameLen <? wbm_length entry);
             modify (set_lossBufMetas
                       (<[i := mkWriteBufferMeta (wbm_length entry - frameLen)
                                 (wrap64 (wbm_offset entry + frameLen))
                                 (wbm_eof entry)]> (lossBufMetas stream))));
      do s <- get;
      match emplaceChecked frameOffset
              (mkWriteBufferMeta frameLen frameOffset frameFin)
              (retransmissionBufMetas s) with
      | Some metas => modify (set_retransmissionBufMetas metas)
      | None => abort
      end
  end.

(** [std::lower_bound] over a range ordered by [key]: the position of the
    first element whose key is not below [target]. *)
Fixpoint lower_bound {A} (key : A -> Z) (target : Z) (l : list A) : nat :=
  match l with
  | [] => O
  | x :: rest => if key x <? target then S (lower_bound key target rest) else O
  end.

(** Update the connection and stream state after stream data is written and
    deal with new data, as well as retranmissions.  Returns true if the data
    sent is new data, together with the stream as it is left. *)
Definition handleStreamWritten (stream : QuicStreamLike)
  (frameOffset frameLen : Z) (frameFin fromBufMeta : bool)
  : M Conn (bool * QuicStreamLike) :=
  (* Handle new data first *)
  do r1 <-
    (if negb fromBufMeta && (frameOffset =? currentWriteOffset stream) then
       do r <- onValue stream (handleNewStreamDataWritten frameLen frameFin);
       ret (true, snd r)
     else ret (false, stream));
  let '(writtenNewData, stream) := r1 in
  do r2 <-
    (if fromBufMeta && (0 <? wbm_offset (writeBufMeta stream))
        && (frameOffset =? wbm_offset (writeBufMeta stream)) then
       do r <- onValue stream (handleNewStreamBufMetaWritten frameLen frameFin);
       ret (true, snd r)
     else ret (writtenNewData, stream));
  let '(writtenNewData, stream) := r2 in
  if writtenNewData then
    ret (true,
         set_numPacketsTxWithNewData (wrap64 (numPacketsTxWithNewData stream + 1))
           stream)
  else
    do r3 <-
      (if negb fromBufMeta then
         (* If the data is in the loss buffer, it is a retransmission. *)
         let i := lower_bound sb_offset frameOffset (lossBuffer stream) in
         match lossBuffer stream !! i with
         | Some entry =>
             if sb_offset entry =? frameOffset then
               do r <- onValue stream
                         (handleRetransmissionWritten frameOffset frameLen frameFin i);
               ret (true, snd r)
             else ret (false, stream)
         | None => ret (false, stream)
         end
       else
         let i := lower_bound wbm_offset frameOffset (lossBufMetas stream) in
         match lossBufMetas stream !! i with
         | Some entry =>
             if wbm_offset entry =? frameOffset then
               do r <- onValue stream
                         (handleRetransmissionBufMetaWritten frameOffset frameLen
                            frameFin i);
               ret (true, snd r)
             else ret (false, stream)
         | None => ret (false, stream)
         end);
    let '(writtenRetx, stream) := r3 in
    if writtenRetx then
      run modify (fun conn =>
            set_lossState
              (set_totalBytesRetransmitted
                 (wrap64 (totalBytesRetransmitted (lossState conn) + frameLen))
                 (lossState conn)) conn);
      run QUIC_STATS onPacketRetransmission;
      ret (false, stream)
    else
      (* Otherwise it must be a clone write. *)
      run modify (fun conn =>
            set_lossState
              (set_totalStreamBytesCloned
                 (wrap64 (totalStreamBytesCloned (lossState conn) + frameLen))
                 (lossState conn)) conn);
      ret (false, stream).

Definition protectionTypeToEncryptionLevel (type : ProtectionType) : EncryptionLevel :=
  match type with
  | PT_Initial => EL_Initial
  | PT_Handshake => EL_Handshake
  | PT_ZeroRtt => EL_EarlyData
  | PT_KeyPhaseZero | PT_KeyPhaseOne => EL_AppData
  end.

Definition getCryptoStream (state : QuicCryptoState) (level : EncryptionLevel)
  : QuicStreamLike :=
  match level with
  | EL_Initial => initialStream state
  | EL_Handshake => handshakeStream state
  | EL_EarlyData | EL_AppData => oneRttStream state
  end.

Definition setCryptoStream (level : EncryptionLevel) (stream : QuicStreamLike)
  (state : QuicCryptoState) : QuicCryptoState :=
  match level with
  | EL_Initial => set_initialStream stream state
  | EL_Handshake => set_handshakeStream stream state
  | EL_EarlyData | EL_AppData => set_oneRttStream stream state
  end.

Definition modifyStreamManager (f : QuicStreamManager -> QuicStreamManager)
  : M Conn unit :=
  modify (fun conn => set_streamManager (f (streamManager conn)) conn).
Definition modifyPendingEvents (f : PendingEvents -> PendingEvents) : M Conn unit :=
  modify (fun conn => set_pendingEvents (f (pendingEvents conn)) conn).
Definition modifyLossState (f : LossState -> LossState) : M Conn unit :=
  modify (fun conn => set_lossState (f (lossState conn)) conn).
Definition modifyOutstandings (f : OutstandingsInfo -> OutstandingsInfo) : M Conn unit :=
  modify (fun conn => set_outstandings (f (outstandings conn)) conn).
Definition modifyD6d (f : D6DState -> D6DState) : M Conn unit :=
  modify (fun conn => set_d6d (f (d6d conn)) conn).

(** The locals of [updateConnection] that its frame loop assigns. *)
Record FrameLoopState := mkFrameLoopState {
  retransmittable : bool;
  isHandshake : bool;
  isPing : bool;
  connWindowUpdateSent : Z
}.

(** The body of the loop over [packet.frames] in [updateConnection]. *)
Definition updateConnectionFrame (packetEvent : option PacketEvent)
  (packet : RegularQuicWritePacket) (sentTime : Time) (isD6DProbe : bool)
  (st : FrameLoopState) (frame : QuicWriteFrame) : M Conn FrameLoopState :=
  let packetNumberSpace := getPacketNumberSpace (header packet) in
  match frame with
  | F_WriteStreamFrame writeStreamFrame =>
      let st := mkFrameLoopState true (isHandshake st) (isPing st)
                  (connWindowUpdateSent st) in
      let id := wsf_streamId writeStreamFrame in
      do conn <- get;
      match getStream (streamManager conn) id with
      | None => abort
      | Some stream =>
          do r <- handleStreamWritten stream (wsf_offset writeStreamFrame)
                    (wsf_len writeStreamFrame) (wsf_fin writeStreamFrame)
                    (wsf_fromBufMeta writeStreamFrame);
          let '(newStreamDataWritten, stream) := r in
          run modifyStreamManager (putStream id stream);
          run when newStreamDataWritten
                (run collaborate (UpdateFlowControlOnWriteToSocket id
                                    (wsf_len writeStreamFrame));
                 run collaborate (MaybeWriteBlockAfterSocketWrite id);
                 run collaborate MaybeWriteDataBlockedAfterSocketWrite;
                 modifyStreamManager (addTx id));
          run modifyStreamManager (updateWritableStreams id);
          run modifyStreamManager (updateLossStreams id);
          ret st
      end
  | F_WriteCryptoFrame writeCryptoFrame =>
      let protectionType := getProtectionType (header packet) in
      (* NewSessionTicket is sent in crypto frame encrypted with 1-rtt key,
         however, it is not part of handshake *)
      let st := mkFrameLoopState true
                  (bool_decide (protectionType = PT_Initial)
                   || bool_decide (protectionType = PT_Handshake))
                  (isPing st) (connWindowUpdateSent st) in
      let encryptionLevel := protectionTypeToEncryptionLevel protectionType in
      do conn <- get;
      do r <- handleStreamWritten (getCryptoStream (cryptoState conn) encryptionLevel)
                (wcf_offset writeCryptoFrame) (wcf_len writeCryptoFrame)
                false false;
      run modify (fun conn =>
            set_cryptoState (setCryptoStream encryptionLevel (snd r) (cryptoState conn))
              conn);
      ret st
  | F_WriteAckFrame writeAckFrame =>
      match waf_ackBlocks writeAckFrame with
      | [] => abort                      (* ackBlocks.front() of an empty vector *)
      | front :: _ =>
          let largestAckedPacketWritten := ab_end front in
          run collaborate (UpdateAckSendStateOnSentPacketWithAcks packetNumberSpace
                             largestAckedPacketWritten);
          ret st
      end
  | F_RstStreamFrame streamId =>
      let st := mkFrameLoopState true (isHandshake st) (isPing st)
                  (connWindowUpdateSent st) in
      run modifyPendingEvents (fun pe => set_resets (resets pe ∖ {[streamId]}) pe);
      ret st
  | F_MaxDataFrame maximumData =>
      run CHECK (connWindowUpdateSent st =? 0);
      let st := mkFrameLoopState true (isHandshake st) (isPing st)
                  (connWindowUpdateSent st + 1) in
      run collaborate (OnConnWindowUpdateSent maximumData sentTime);
      ret st
  | F_DataBlockedFrame =>
      let st := mkFrameLoopState true (isHandshake st) (isPing st)
                  (connWindowUpdateSent st) in
      run modifyPendingEvents (set_sendDataBlocked false);
      ret st
  | F_MaxStreamDataFrame maxStreamDataFrame =>
      do conn <- get;
      match getStream (streamManager conn) (msd_streamId maxStreamDataFrame) with
      | None => abort
      | Some _ =>
          let st := mkFrameLoopState true (isHandshake st) (isPing st)
                      (connWindowUpdateSent st) in
          run collaborate (OnStreamWindowUpdateSent (msd_streamId maxStreamDataFrame)
                             (msd_maximumData maxStreamDataFrame) sentTime);
          ret st
      end
  | F_StreamDataBlockedFrame streamId =>
      let st := mkFrameLoopState true (isHandshake st) (isPing st)
                  (connWindowUpdateSent st) in
      run modifyStreamManager (removeBlocked streamId);
      ret st
  | F_PingFrame =>
      (* If this is a d6d probe, the it does not consume the sendPing request
         from application *)
      run when (negb isD6DProbe) (modifyPendingEvents (set_sendPing false));
      ret (mkFrameLoopState (retransmittable st) (isHandshake st) true
             (connWindowUpdateSent st))
  | F_QuicSimpleFrame payload =>
      let st := mkFrameLoopState true (isHandshake st) (isPing st)
                  (connWindowUpdateSent st) in
      (* We don't want this triggered for cloned frames. *)
      run when (negb (bool_decide (packetEvent <> None)))
            (collaborate (UpdateSimpleFrameOnPacketSent payload));
      ret st
  | F_PaddingFrame =>
      (* do not mark padding as retransmittable. *)
      ret st
  | OtherWriteFrame _ =>
      ret (mkFrameLoopState true (isHandshake st) (isPing st)
             (connWindowUpdateSent st))
  end.

Fixpoint forEachFrame {S St} (body : St -> QuicWriteFrame -> M S St) (st : St)
  (fs : list QuicWriteFrame) : M S St :=
  match fs with
  | [] => ret st
  | f :: rest => do st' <- body st f; forEachFrame body st' rest
  end.

(** [std::find_if]: the position of the first element that satisfies [p], or
    the length of the range. *)
Fixpoint find_if {A} (p : A -> bool) (l : list A) : nat :=
  match l with
  | [] => O
  | x :: rest => if p x then O else S (find_if p rest)
  end.

Definition outstandingPacketNum (op : OutstandingPacket) : PacketNum :=
  getPacketSequenceNum (header (packet op)).
Definition outstandingPacketSpace (op : OutstandingPacket) : PacketNumberSpace :=
  getPacketNumberSpace (header (packet op)).

(** [std::find_if(packets.rbegin(), packets.rend(), num < packetNum).base()]:
    the position just after the last packet whose number is below
    [packetNum], or the front when there is none. *)
Definition findInsertPosition (packetNum : PacketNum) (l : list OutstandingPacket)
  : nat :=
  Nat.sub (List.length l)
    (find_if (fun op => outstandingPacketNum op <? packetNum) (rev l)).

(** [packets.emplace(position, ...)]. *)
Definition emplace {A} (position : nat) (x : A) (l : list A) : list A :=
  firstn position l ++ x :: skipn position l.

Definition numOutstanding (o : OutstandingsInfo) : Z := Z.of_nat (List.length (packets o)).

Definition updateConnection (packetEvent : option PacketEvent)
  (packet : RegularQuicWritePacket) (sentTime : Time) (encodedSize : Z)
  (isDSRPacket : bool) : M Conn unit :=
  let packetNum := getPacketSequenceNum (header packet) in
  let packetNumberSpace := getPacketNumberSpace (header packet) in
  do conn <- get;
  let isD6DProbe := bool_decide (packetNumberSpace = AppData)
                    && bool_decide (lastProbe (d6d conn) = Some packetNum) in
  do st <- forEachFrame (updateConnectionFrame packetEvent packet sentTime isD6DProbe)
             (mkFrameLoopState false false false 0) (frames packet);
  run collaborate (IncreaseNextPacketNum packetNumberSpace);
  run modifyLossState (fun ls =>
        set_largestSent
          (Some (Z.max (default packetNum (largestSent ls)) packetNum)) ls);
  (* updateConnection may be called multiple times during write. If before or
     during any updateConnection, setLossDetectionAlarm is already set, we
     shouldn't clear it: *)
  do conn <- get;
  run when (negb (setLossDetectionAlarm (pendingEvents conn)))
        (modifyPendingEvents (set_setLossDetectionAlarm (retransmittable st)));
  run modifyLossState (fun ls =>
        set_totalPacketsSent (wrap64 (totalPacketsSent ls + 1))
          (set_totalBytesSent (wrap64 (totalBytesSent ls + encodedSize)) ls));
  if negb (retransmittable st) && negb (isPing st) then ret tt
  else
    run modifyLossState (fun ls =>
          set_totalAckElicitingPacketsSent
            (wrap64 (totalAckElicitingPacketsSent ls + 1)) ls);
    do conn <- get;
    let packetIt := findInsertPosition packetNum (packets (outstandings conn)) in
    let pkt :=
      mkOutstandingPacket packet
        (mkOutstandingPacketMetadata sentTime encodedSize (isHandshake st) isD6DProbe
           (* these numbers should all _include_ the current packet *)
           (totalBytesSent (lossState conn))
           (wrap64 (inflightBytes (lossState conn) + encodedSize))
           (wrap64 (numOutstanding (outstandings conn) + 1))
           (lossState conn) (writeCount conn))
        (match lastAckedTime (lossState conn),
               lastAckedPacketSentTime (lossState conn) with
         | Some ackTime, Some ackedSentTime =>
             Some (mkLastAckedPacketInfo ackedSentTime ackTime
                     (adjustedLastAckedTime (lossState conn))
                     (totalBytesSentAtLastAck (lossState conn))
                     (totalBytesAckedAtLastAck (lossState conn)))
         | _, _ => None
         end)
        packetEvent
        (match congestionController conn with
         | Some cc => ccIsAppLimited cc
         | None => false
         end)
        isDSRPacket in
    run modifyOutstandings (fun o => set_packets (emplace packetIt pkt (packets o)) o);
    run when isD6DProbe
          (modifyD6d (fun d =>
             set_totalTxedProbes (wrap64 (totalTxedProbes d + 1))
               (set_outstandingProbes (wrap64 (outstandingProbes d + 1)) d)));
    run when (bool_decide (packetEvent <> None))
          (modifyLossState (fun ls =>
             set_totalBytesCloned (wrap64 (totalBytesCloned ls + encodedSize)) ls));
    run modify (fun conn =>
          set_congestionController
            (ccOnPacketSent pkt <$> congestionController conn) conn);
    run modify (fun conn => set_pacer (pacerOnPacketSent <$> pacer conn) conn);
    do conn <- get;
    run when (bool_decide (pathChallenge (pendingEvents conn) <> None)
              || outstandingPathValidation conn)
          (modify (fun conn =>
             set_pathValidationLimiter
               (limiterOnPacketSent (opm_encodedSize (metadata pkt))
                  <$> pathValidationLimiter conn) conn));
    run when (opm_isHandshake (metadata pkt)
              && negb (bool_decide (associatedEvent pkt <> None)))
          (if bool_decide (packetNumberSpace = Initial) then
             modifyOutstandings (fun o =>
               set_initialPacketsCount (wrap64 (initialPacketsCount o + 1)) o)
           else
             run CHECK (bool_decide (packetNumberSpace = Handshake));
             modifyOutstandings (fun o =>
               set_handshakePacketsCount (wrap64 (handshakePacketsCount o + 1)) o));
    run modifyLossState
          (set_lastRetransmittablePacketSentTime (opm_time (metadata pkt)));
    when (bool_decide (associatedEvent pkt <> None))
      (run modifyOutstandings (fun o =>
             set_clonedPacketsCount (wrap64 (clonedPacketsCount o + 1)) o);
       modifyLossState (fun ls =>
         set_timeoutBasedRtxCount (wrap64 (timeoutBasedRtxCount ls + 1)) ls)).

(** ** Packet build, schedule and encrypt *)

(** [QuicPacketScheduler]: [hasData()] and [scheduleFramesForPacket(builder,
    writableBytes)].  The scheduler holds a reference to the connection; the
    in-place builder writes into the connection-owned buffer. *)
Record QuicPacketScheduler := mkQuicPacketScheduler {
  hasData : Conn -> bool;
  scheduleFramesForPacket : BuilderArgs -> Z -> M Conn SchedulingResult
}.

(** Modelled from the spec: [BufAccessor] (quic/common/BufAccessor.h, not
    under src/) hands out the connection-owned buffer as "a scoped exclusive
    checkout (guaranteed single borrower)": [obtain] takes the buffer out,
    [release] puts it back, and taking it twice or putting it back twice is
    a programming error. *)
Definition obtain : M Conn IOBuf :=
  do conn <- get;
  match bufAccessor conn with
  | Some buf => run modify (set_bufAccessor None); ret buf
  | None => abort
  end.
Definition release (buf : IOBuf) : M Conn unit :=
  do conn <- get;
  match bufAccessor conn with
  | None => modify (set_bufAccessor (Some buf))
  | Some _ => abort
  end.
Definition ownsBuffer (conn : Conn) : bool := bool_decide (bufAccessor conn <> None).

(** [encryptPacketHeader]: [packetBuf] holds the header at its data pointer
    and the encrypted body [headerLen] bytes further. *)
Definition encryptPacketHeader {S} (headerForm : HeaderForm) (packetBuf : IOBuf)
  (headerLen bodyLen : Z) (headerCipher : PacketNumberCipher) : M S IOBuf :=
  let headerAt := io_headroom packetBuf in
  let bodyAt := headerAt + headerLen in
  match readBytes headerAt 1 (io_storage packetBuf) with
  | initialByte :: _ =>
      let packetNumberLength := parsePacketNumberLength initialByte in
      let sampleBytesToUse := wrap64 (kMaxPacketNumEncodingSize - packetNumberLength) in
      (* If there were less than 4 bytes in the packet number, some of the
         payload bytes will also be skipped during sampling. *)
      run CHECK (wrap64 (sampleBytesToUse + sampleSize) <=? bodyLen);
      let sample := readBytes (bodyAt + sampleBytesToUse) sampleSize
                      (io_storage packetBuf) in
      let packetNumAt := headerAt + headerLen - packetNumberLength in
      let packetNumBytes := readBytes packetNumAt packetNumberLength
                              (io_storage packetBuf) in
      let '(initialByte', packetNumBytes') :=
        match headerForm with
        | Short => encryptShortHeader headerCipher sample initialByte packetNumBytes
        | Long => encryptLongHeader headerCipher sample initialByte packetNumBytes
        end in
      ret (setStorage
             (writeBytes packetNumAt
                (firstn (List.length packetNumBytes) packetNumBytes')
                (writeBytes headerAt [initialByte'] (io_storage packetBuf)))
             packetBuf)
  | [] => abort
  end.

Definition setNoWriteReason (reason : NoWriteReason) : M Conn unit :=
  do conn <- get;
  when (loopDetectorCallback conn) (modify (set_noWriteReason reason)).

Definition ignoreResult {S A} (m : M S A) : M S unit := do ignored <- m; ret tt.

Definition continuousMemoryBuildScheduleEncrypt (hdr : PacketHeader)
  (pnSpace : PacketNumberSpace) (packetNum : PacketNum) (cipherOverhead : Z)
  (scheduler : QuicPacketScheduler) (writableBytes : Z) (aead : Aead)
  (headerCipher : PacketNumberCipher) : M Machine DataPathResult :=
  do buf <- onConn obtain;
  let prevSize := io_length buf in
  run onConn (release buf);
  let rollbackBuf : M Machine unit :=
    onConn (do buf <- obtain;
            release (trimEnd (wrap64 (io_length buf - prevSize)) buf)) in
  (* It's the scheduler's job to invoke encode header *)
  do conn <- gets m_conn;
  let pktBuilder :=
    mkBuilderArgs InplaceQuicPacketBuilder (udpSendPacketLen conn) hdr
      (default 0 (largestAckedByPeer (getAckState conn pnSpace))) cipherOverhead in
  run CHECK (hasData scheduler conn);
  do res <- onConn (scheduleFramesForPacket scheduler pktBuilder writableBytes);
  do conn <- gets m_conn;
  run CHECK (ownsBuffer conn);
  match sr_packet res with
  | None =>
      run rollbackBuf;
      run ignoreResult (flush defaultFlushType);
      run onConn (setNoWriteReason NO_FRAME);
      ret makeBuildFailure
  | Some pkt =>
      if bool_decide (frames (bp_packet pkt) = []) then
        run rollbackBuf;
        run ignoreResult (flush defaultFlushType);
        run onConn (setNoWriteReason NO_FRAME);
        ret makeBuildFailure
      else
        match bp_body pkt with
        | None =>
            (* No more space remaining. *)
            run rollbackBuf;
            run ignoreResult (flush defaultFlushType);
            run onConn (setNoWriteReason NO_BODY);
            ret makeBuildFailure
        | Some body =>
            let headerLen := io_length (bp_header pkt) in
            do buf <- onConn obtain;
            run CHECK ((io_headroom buf <? io_headroom body)
                       && (io_headroom body + io_length body
                           <=? io_headroom buf + io_length buf));
            run CHECK ((io_headroom buf <=? io_headroom (bp_header pkt))
                       && (io_headroom (bp_header pkt) + io_length (bp_header pkt)
                           <? io_headroom buf + io_length buf));
            (* Trim off everything before the current packet, and the header
               length, so buf's data starts from the body part of buf. *)
            let buf := trimStart (wrap64 (prevSize + headerLen)) buf in
            (* buf and packetBuf is actually the same. *)
            let bodyLen := io_length buf in
            do packetBuf <-
              (if getHashIndex aead =? 0 then
                 match inplaceEncrypt aead buf (bp_header pkt) packetNum with
                 | Some encrypted => ret encrypted
                 | None => throw CollaboratorError
                 end
               else ret buf);
            run CHECK (io_headroom packetBuf =? wrap64 (headerLen + prevSize));
            (* Include header back. *)
            let packetBuf := prepend headerLen packetBuf in
            let headerForm := getHeaderForm (header (bp_packet pkt)) in
            do packetBuf <-
              (if getHashIndex aead =? 0 then
                 encryptPacketHeader headerForm packetBuf headerLen
                   (wrap64 (io_length packetBuf - headerLen)) headerCipher
               else ret packetBuf);
            let encodedSize := io_length packetBuf in
            (* Include previous packets back. *)
            let packetBuf := prepend prevSize packetBuf in
            run onConn (release packetBuf);
            do conn <- gets m_conn;
            let isD6DProbe :=
              bool_decide (pnSpace = AppData)
              && bool_decide (lastProbe (d6d conn) = Some packetNum) in
            run when (negb isD6DProbe && (udpSendPacketLen conn <? encodedSize))
                  (emit (LogPacketLargerThanLimit encodedSize));
            run emit (CallBatchWrite (bp_packet pkt) encodedSize);
            do written <- batchWrite encodedSize;
            (* update stats and connection *)
            run when written
                  (run onConn (QUIC_STATS (onWrite encodedSize));
                   onConn (QUIC_STATS onPacketSent));
            ret (makeWriteResult written res encodedSize)
        end
  end.

Definition iobufChainBasedBuildScheduleEncrypt (hdr : PacketHeader)
  (pnSpace : PacketNumberSpace) (packetNum : PacketNum) (cipherOverhead : Z)
  (scheduler : QuicPacketScheduler) (writableBytes : Z) (aead : Aead)
  (headerCipher : PacketNumberCipher) : M Machine DataPathResult :=
  do conn <- gets m_conn;
  let pktBuilder :=
    mkBuilderArgs RegularQuicPacketBuilder (udpSendPacketLen conn) hdr
      (default 0 (largestAckedByPeer (getAckState conn pnSpace))) cipherOverhead in
  (* It's the scheduler's job to invoke encode header *)
  do res <- onConn (scheduleFramesForPacket scheduler pktBuilder writableBytes);
  match sr_packet res with
  | None =>
      run ignoreResult (flush defaultFlushType);
      run onConn (setNoWriteReason NO_FRAME);
      ret makeBuildFailure
  | Some pkt =>
      if bool_decide (frames (bp_packet pkt) = []) then
        run ignoreResult (flush defaultFlushType);
        run onConn (setNoWriteReason NO_FRAME);
        ret makeBuildFailure
      else
        match bp_body pkt with
        | None =>
            (* No more space remaining. *)
            run ignoreResult (flush defaultFlushType);
            run onConn (setNoWriteReason NO_BODY);
            ret makeBuildFailure
        | Some body =>
            let headerLen := io_length (bp_header pkt) in
            let bodyLen := io_length body in
            let unencrypted :=
              createIOBuf (wrap64 (wrap64 (headerLen + bodyLen)
                                   + getCipherOverhead aead)) in
            let unencrypted :=
              setStorage (writeBytes headerLen (contents body) (io_storage unencrypted))
                unencrypted in
            let unencrypted := appendLen bodyLen (advance headerLen unencrypted) in
            do packetBuf <-
              match inplaceEncrypt aead unencrypted (bp_header pkt) packetNum with
              | Some encrypted => ret encrypted
              | None => throw CollaboratorError
              end;
            let packetBuf := clearIOBuf packetBuf in
            let packetBuf :=
              setStorage (writeBytes 0 (contents (bp_header pkt)) (io_storage packetBuf))
                packetBuf in
            let packetBuf :=
              appendLen (wrap64 (wrap64 (headerLen + bodyLen) + getCipherOverhead aead))
                packetBuf in
            let headerForm := getHeaderForm (header (bp_packet pkt)) in
            do packetBuf <-
              encryptPacketHeader headerForm packetBuf headerLen
                (wrap64 (io_length packetBuf - headerLen)) headerCipher;
            let encodedSize := io_length packetBuf in
            do conn <- gets m_conn;
            run when (udpSendPacketLen conn <? encodedSize)
                  (emit (LogPacketLargerThanLimit encodedSize));
            run emit (CallBatchWrite (bp_packet pkt) encodedSize);
            do written <- batchWrite encodedSize;
            run when written
                  ((* update stats and connection *)
                   run onConn (QUIC_STATS (onWrite encodedSize));
                   onConn (QUIC_STATS onPacketSent));
            ret (makeWriteResult written res encodedSize)
        end
  end.

(** ** The transmission loop *)

Definition HeaderBuilder := PacketNum -> PacketHeader.

(** [folly::to<uint32_t>]: throws when the value does not fit. *)
Definition to_uint32 {S} (v : Z) : M S Z :=
  if v <? two32 then ret v else throw ConversionError.

Definition getPktSent : M Machine Z := gets (fun m => pktSent (m_batch m)).

Definition writeLoopTimeLimit (loopBeginTime : Time) : M Machine bool :=
  do conn <- gets m_conn;
  if srtt (lossState conn) =? 0 then ret true
  else
    do now <- clockNow;
    if writeLimitRttFraction (transportSettings conn) =? 0 then abort
    else ret (now - loopBeginTime
              <? srtt (lossState conn) ÷ writeLimitRttFraction (transportSettings conn)).

(** The condition of the [while] in [writeConnectionDataToSocket]. *)
Definition writeLoopCondition (scheduler : QuicPacketScheduler) (packetLimit : Z)
  (batchSize : Z) (writeLoopBeginTime : Time) : M Machine bool :=
  do m <- get;
  if negb (hasData scheduler (m_conn m)) then ret false
  else if negb (pktSent (m_batch m) <? packetLimit) then ret false
  else if pktSent (m_batch m) <? batchSize then ret true
  else writeLoopTimeLimit writeLoopBeginTime.

(** One turn of the [while]: [Some n] when the function returns [n] from
    inside the loop, [None] when the loop goes on. *)
Definition writeLoopBody (builder : HeaderBuilder) (pnSpace : PacketNumberSpace)
  (scheduler : QuicPacketScheduler) (writableBytesFunc : M Machine Z)
  (aead : Aead) (headerCipher : PacketNumberCipher) : M Machine (option Z) :=
  do conn <- gets m_conn;
  let packetNum := getNextPacketNum conn pnSpace in
  let hdr := builder packetNum in
  do budget <- writableBytesFunc;
  do writableBytes <- to_uint32 (Z.min (udpSendPacketLen conn) budget);
  let cipherOverhead := getCipherOverhead aead in
  let writableBytes :=
    if writableBytes <? cipherOverhead then 0 else writableBytes - cipherOverhead in
  let dataPlainFunc :=
    if bool_decide (dataPathType (transportSettings conn) = ChainedMemory)
    then iobufChainBasedBuildScheduleEncrypt
    else continuousMemoryBuildScheduleEncrypt in
  do res <- dataPlainFunc hdr pnSpace packetNum cipherOverhead scheduler writableBytes
              aead headerCipher;
  if negb (buildSuccess res) then
    do sent <- getPktSent; ret (Some sent)
  else
    (* If we build a packet, we updateConnection(), even if write might have
       been failed. Because if it builds, a lot of states need to be updated no
       matter the write result. We are basically treating this case as if we
       pretend write was also successful but packet is lost somewhere in the
       network. *)
    match result res with
    | Some (mkSchedulingResult packetEvent (Some pkt)) =>
        do now <- clockNow;
        do size <- to_uint32 (encodedSize res);
        run emit (CallUpdateConnection (bp_packet pkt));
        run onConn (updateConnection packetEvent (bp_packet pkt) now size false);
        (* if ioBufBatch.write returns false it is because a flush() call failed *)
        if negb (writeSuccess res) then
          run onConn (setNoWriteReason SOCKET_FAILURE);
          do sent <- getPktSent; ret (Some sent)
        else ret None
    | _ => abort
    end.

Fixpoint writeLoop (fuel : nat) (condition : M Machine bool)
  (body : M Machine (option Z)) : M Machine (option Z) :=
  match fuel with
  | O => abort
  | S fuel' =>
      do continue <- condition;
      if continue then
        do returned <- body;
        match returned with
        | Some n => ret (Some n)
        | None => writeLoop fuel' condition body
        end
      else ret None
  end.

(** Every turn of the loop that does not return sends one packet more, so
    [packetLimit] turns and the final test of the condition are enough
    ([writeLoop_initial_fuel_enough]). *)
Definition writeConnectionDataToSocket (builder : HeaderBuilder)
  (pnSpace : PacketNumberSpace) (scheduler : QuicPacketScheduler)
  (writableBytesFunc : M Machine Z) (packetLimit : Z) (aead : Aead)
  (headerCipher : PacketNumberCipher) : M Machine Z :=
  do conn <- gets m_conn;
  run modify (set_m_batch
                (mkIOBufQuicBatch (makeBatchWriter conn)
                   (useThreadLocalBatching (transportSettings conn)) 0));
  run onConn (when (loopDetectorCallback conn)
                (run modify (set_noWriteReason WRITE_OK);
                 when (negb (hasData scheduler conn))
                   (modify (set_noWriteReason EMPTY_SCHEDULER))));
  do writeLoopBeginTime <- clockNow;
  let batchSize :=
    if bool_decide (batchingMode (transportSettings conn) = BATCHING_MODE_NONE)
    then writeConnectionDataPacketsLimit (transportSettings conn)
    else maxBatchSize (transportSettings conn) in
  do returned <-
    writeLoop (S (Z.to_nat packetLimit))
      (writeLoopCondition scheduler packetLimit batchSize writeLoopBeginTime)
      (writeLoopBody builder pnSpace scheduler writableBytesFunc aead headerCipher);
  match returned with
  | Some n => ret n
  | None =>
      run ignoreResult (flush defaultFlushType);
      do conn <- gets m_conn;
      run when (bool_decide (dataPathType (transportSettings conn) = ContinuousMemory))
            (run CHECK (ownsBuffer conn);
             onConn (do buf <- obtain;
                     run CHECK ((io_length buf =? 0) && (io_headroom buf =? 0));
                     release buf));
      getPktSent
  end.

(** [congestionControlWritableBytes] as a [WritableBytesFunc]. *)
Definition congestionControlWritableBytesFunc : M Machine Z :=
  do now <- clockNow;
  onConn (congestionControlWritableBytes now).

(** ** Implicit acknowledgement of a discarded encryption level *)



Fixpoint forEach {S A} (body : A -> M S unit) (l : list A) : M S unit :=
  match l with
  | [] => ret tt
  | x :: rest => run body x; forEach body rest
  end.


Definition setAckState (pnSpace : PacketNumberSpace) (v : AckState) (conn : Conn)
  : Conn :=
  set_ackStates
    (match pnSpace with
     | Initial => mkAckStates v (handshakeAckState (ackStates conn))
                    (appDataAckState (ackStates conn))
     | Handshake => mkAckStates (initialAckState (ackStates conn)) v
                      (appDataAckState (ackStates conn))
     | AppData => mkAckStates (initialAckState (ackStates conn))
                    (handshakeAckState (ackStates conn)) v
     end) conn.








(** ** The write reasons in priority order

    The classifier as the specification words it: a table of conditions and
    reasons, of which the first match wins. *)

Definition writeCipherInstalled (conn : Conn) (pnSpace : PacketNumberSpace) : bool :=
  match pnSpace with
  | Initial => initialWriteCipher conn
  | Handshake => handshakeWriteCipher conn
  | AppData => oneRttWriteCipher conn
  end.

(** An ack is due immediately in some packet-number space that has acks to
    schedule and its write cipher installed. *)
Definition ackDueImmediately (conn : Conn) : bool :=
  existsb (fun pnSpace =>
             writeCipherInstalled conn pnSpace
             && hasAcksToSchedule (getAckState conn pnSpace)
             && needsToSendAckImmediately (getAckState conn pnSpace))
    [Initial; Handshake; AppData].

(** Handshake bytes are pending: new or lost crypto data at a level whose
    write cipher is installed. *)
Definition cryptoDataPending (conn : Conn) : bool :=
  existsb (fun '(cipher, stream) =>
             cipher && (negb (bool_decide (writeBuffer stream = []))
                        || negb (bool_decide (lossBuffer stream = []))))
    [(initialWriteCipher conn, initialStream (cryptoState conn));
     (handshakeWriteCipher conn, handshakeStream (cryptoState conn));
     (oneRttWriteCipher conn, oneRttStream (cryptoState conn))].

Definition condition (f : Conn -> bool) : M Conn bool := gets f.

Definition writeReasonPriorities (now : Time)
  : list (M Conn bool * M Conn WriteDataReason) :=
  [ (* (1) outstanding PTO probes requested *)
    (condition (fun conn => negb (numProbePackets (pendingEvents conn) =? 0)),
     ret PROBES);
    (* (2) an ack is due immediately *)
    (condition ackDueImmediately, ret ACK);
    (* (3) the congestion controller reports zero writable bytes *)
    (do writable <- congestionControlWritableBytes now; ret (writable =? 0),
     run QUIC_STATS onCwndBlocked; ret NO_WRITE);
    (* (4) pending handshake/crypto bytes *)
    (condition cryptoDataPending, ret CRYPTO_STREAM);
    (* (5) without a 1-RTT or 0-RTT cipher nothing else is sendable *)
    (condition (fun conn => negb (oneRttWriteCipher conn || zeroRttWriteCipher conn)),
     ret NO_WRITE);
    (* (6) queued stream resets *)
    (condition (fun conn => negb (bool_decide (resets (pendingEvents conn) = ∅))),
     ret RESET);
    (* (7) stream flow-control window updates *)
    (condition (fun conn => hasWindowUpdates (streamManager conn)),
     ret STREAM_WINDOW_UPDATE);
    (* (8) connection flow-control window update *)
    (condition (fun conn => connWindowUpdate (pendingEvents conn)),
     ret CONN_WINDOW_UPDATE);
    (* (9) blocked-stream signals *)
    (condition (fun conn => hasBlocked (streamManager conn)), ret BLOCKED);
    (* (10) stream data, gated on nonzero connection-level send window *)
    (condition (fun conn => negb (getSendConnFlowControlBytesWire conn =? 0)
                            && hasWritable (streamManager conn)),
     ret STREAM);
    (* (11) queued simple/control frames *)
    (condition (fun conn => negb (bool_decide (pendingFrames (pendingEvents conn) = []))),
     ret SIMPLE);
    (* (12) pending path challenge *)
    (condition (fun conn => bool_decide (pathChallenge (pendingEvents conn) <> None)),
     ret PATHCHALLENGE);
    (* (13) pending ping *)
    (condition (fun conn => sendPing (pendingEvents conn)), ret PING) ].

Fixpoint firstMatch (table : list (M Conn bool * M Conn WriteDataReason))
  : M Conn WriteDataReason :=
  match table with
  | [] => ret NO_WRITE
  | (test, reason) :: rest =>
      do holds <- test;
      if holds then reason else firstMatch rest
  end.

(** ** Notions used in the statements *)

(** [m], run from [s], returns a value and a state that satisfy [Q] or
    raises in a state that satisfies [E] (or aborts). *)
Definition satisfies {S A} (m : M S A) (s : S) (Q : A -> S -> Prop)
  (E : QuicError -> S -> Prop) : Prop :=
  match m s with
  | Ok a s' => Q a s'
  | Throw e s' => E e s'
  | Abort => True
  end.

(** [m] leaves the component [proj] of the state as it is, and raises only
    if [mayRaise]. *)
Definition keeps {S T A} (mayRaise : Prop) (proj : S -> T) (m : M S A) : Prop :=
  forall s, satisfies m s (fun _ s' => proj s' = proj s)
              (fun _ s' => mayRaise /\ proj s' = proj s).

Definition outstandingPackets (conn : Conn) : list OutstandingPacket :=
  packets (outstandings conn).

(** The state a call leaves behind, whether it returned or raised. *)
Definition finalState {S A} (r : Res S A) : option S :=
  match r with
  | Ok _ s => Some s
  | Throw _ s => Some s
  | Abort => None
  end.

(** The [CHECK]s of [congestionControlWritableBytes] hold: a connection with
    a path validation under way has a rate limiter and no writable-bytes
    limit. *)
Definition limiterChecksHold (conn : Conn) : Prop :=
  pathChallenge (pendingEvents conn) <> None \/ outstandingPathValidation conn = true ->
  pathValidationLimiter conn <> None /\ writableBytesLimit conn = None.

Definition firstEligible (m : Machine) : bool :=
  shouldWriteToFirstSocket (happyEyeballsState (m_conn m)).
Definition secondEligible (m : Machine) : bool :=
  shouldWriteToSecondSocket (happyEyeballsState (m_conn m)).
Definition eligible (sock : Socket) (m : Machine) : bool :=
  match sock with
  | FirstSocket => firstEligible m
  | SecondSocket => secondEligible m
  end.

(** The error [flushInternal] raises when no socket is left to write to. *)
Definition socketWriteError (m : Machine) : QuicError :=
  if isNetworkUnreachable (m_errno m)
  then QuicInternalException CONNECTION_ABANDONED
  else QuicTransportException INTERNAL_ERROR.

(** A socket write was accepted; a socket stays eligible after a write that
    was accepted or failed with a retriable [errno]. *)
Definition accepted (o : WriteOutcome) : bool :=
  match o with
  | Consumed _ => true
  | Failed _ => false
  end.
Definition staysEligible (o : WriteOutcome) : bool :=
  match o with
  | Consumed _ => true
  | Failed err => isRetriableError err
  end.

(** [happyEyeballsStartSecondSocket] leaves the first socket's eligibility
    alone. *)
Definition startKeepsFirstSocket : Prop :=
  forall he, shouldWriteToFirstSocket (happyEyeballsStartSecondSocket he)
             = shouldWriteToFirstSocket he.

(** The functions that receive the connection leave the outstanding packets
    alone. *)
Definition collaboratorsKeepOutstandings : Prop :=
  forall call conn,
    match collaborate call conn with
    | Ok _ conn' => outstandings conn' = outstandings conn
    | Throw _ conn' => outstandings conn' = outstandings conn
    | Abort => True
    end.

(** Frames that do not make a packet worth tracking: acks and padding. *)
Definition isAckOrPadding (frame : QuicWriteFrame) : bool :=
  match frame with
  | F_WriteAckFrame _ | F_PaddingFrame => true
  | _ => false
  end.

(** The packet carries an ack-eliciting frame or a ping: some frame of it is
    neither an ack nor padding. *)
Definition carriesAckElicitingOrPing (pkt : RegularQuicWritePacket) : bool :=
  existsb (fun frame => negb (isAckOrPadding frame)) (frames pkt).

(** Within each packet-number space the packet numbers ascend strictly. *)
Definition ascendingInEachSpace (l : list OutstandingPacket) : Prop :=
  forall pnSpace,
    StronglySorted Z.lt
      (outstandingPacketNum
         <$> filter (fun op => outstandingPacketSpace op = pnSpace) l).

(** The order the insertion keeps: packet numbers do not descend along the
    container, and ascend strictly between packets of one space. *)
Definition inSendOrder (a b : OutstandingPacket) : Prop :=
  outstandingPacketNum a <= outstandingPacketNum b
  /\ (outstandingPacketSpace a = outstandingPacketSpace b ->
      outstandingPacketNum a < outstandingPacketNum b).

(** No outstanding packet of the packet's space has the packet's number. *)
Definition numberNotOutstanding (pkt : RegularQuicWritePacket)
  (l : list OutstandingPacket) : Prop :=
  forall op, op ∈ l ->
    outstandingPacketSpace op = getPacketNumberSpace (header pkt) ->
    outstandingPacketNum op <> getPacketSequenceNum (header pkt).

(** The contents the outstanding-packets container can have: it starts
    empty; [updateConnection] inserts a packet whose number is not
    outstanding in its space; acknowledgement and loss remove packets. *)
Inductive reachablePackets : list OutstandingPacket -> Prop :=
| reachable_initially : reachablePackets []
| reachable_sent conn conn' packetEvent pkt sentTime size isDSR :
    reachablePackets (packets (outstandings conn)) ->
    numberNotOutstanding pkt (packets (outstandings conn)) ->
    updateConnection packetEvent pkt sentTime size isDSR conn = Ok tt conn' ->
    reachablePackets (packets (outstandings conn'))
| reachable_removed (kept : OutstandingPacket -> bool) l :
    reachablePackets l ->
    reachablePackets (List.filter kept l).

(** The events a call added to the trace. *)
Definition newEvents (before after : Machine) : list Event :=
  drop (List.length (m_trace before)) (m_trace after).

(** *** The calls of the transmission loop

    [protocolStep] follows the calls of one run of
    [writeConnectionDataToSocket].  Between two packets the batch may be
    flushed and a built packet may be handed to [ioBufBatch.write]
    ([CallBatchWrite]); while that write runs the batch may be flushed and the
    packet is appended; once the write has returned the only call is
    [updateConnection] on that packet; after the [updateConnection] that
    follows a failed write there is no call at all.  [unflushed] says that a
    packet was appended since [ioBufBatch.flush] was last called.  Socket
    writes, pauses and timeout cancellations happen inside a flush. *)
Inductive LoopPhase :=
| BetweenPackets
| Writing (pkt : RegularQuicWritePacket)
| AwaitingUpdate (pkt : RegularQuicWritePacket) (written : bool)
| LoopEnded.

Record LoopProtocol := mkLoopProtocol {
  phase : LoopPhase;
  unflushed : bool
}.

Definition protocolStep (st : LoopProtocol) (ev : Event) : option LoopProtocol :=
  match phase st, ev with
  | BetweenPackets, CallBatchWrite pkt _ =>
      Some (mkLoopProtocol (Writing pkt) (unflushed st))
  | BetweenPackets, CallFlush _ => Some (mkLoopProtocol BetweenPackets false)
  | BetweenPackets, LogPacketLargerThanLimit _ => Some st
  | BetweenPackets, (SocketWrite _ _ | PauseRead _ | CancelTimeout) => Some st
  | Writing pkt, BatchAppend _ => Some (mkLoopProtocol (Writing pkt) true)
  | Writing pkt, CallFlush _ => Some (mkLoopProtocol (Writing pkt) false)
  | Writing pkt, BatchWriteResult written =>
      Some (mkLoopProtocol (AwaitingUpdate pkt written) (unflushed st))
  | Writing pkt, (SocketWrite _ _ | PauseRead _ | CancelTimeout) => Some st
  | AwaitingUpdate pkt written, CallUpdateConnection updated =>
      if bool_decide (updated = pkt)
      then Some (mkLoopProtocol (if written then BetweenPackets else LoopEnded)
                   (unflushed st))
      else None
  | _, _ => None
  end.

Fixpoint runProtocol (st : LoopProtocol) (evs : list Event) : option LoopProtocol :=
  match evs with
  | [] => Some st
  | ev :: rest =>
      match protocolStep st ev with
      | Some st' => runProtocol st' rest
      | None => None
      end
  end.

(** The machine's trace is [base] followed by events that take the protocol
    from [st0] to [st]. *)
Definition protocolAt (base : list Event) (st0 : LoopProtocol) (s : Machine)
  (st : LoopProtocol) : Prop :=
  exists evs, m_trace s = base ++ evs /\ runProtocol st0 evs = Some st.

Definition isSocketEvent (ev : Event) : Prop :=
  match ev with
  | SocketWrite _ _ | PauseRead _ | CancelTimeout => True
  | _ => False
  end.

(** The phases in which [ioBufBatch.flush] is called. *)
Definition mayFlush (ph : LoopPhase) : Prop :=
  match ph with
  | BetweenPackets | Writing _ => True
  | _ => False
  end.

(** [m] adds only [allowed] events to the trace. *)
Definition onlyEmits {A} (allowed : Event -> Prop) (m : M Machine A) : Prop :=
  forall s,
    satisfies m s
      (fun _ s' => exists evs, m_trace s' = m_trace s ++ evs /\ Forall allowed evs)
      (fun _ s' => exists evs, m_trace s' = m_trace s ++ evs /\ Forall allowed evs).

(** What the two build strategies add to the trace: a flush when nothing was
    built, a write of the built packet otherwise. *)
Definition dataPathPost (base : list Event) (st0 : LoopProtocol)
  (res : DataPathResult) (s' : Machine) : Prop :=
  if buildSuccess res then
    exists packetEvent pkt u',
      result res = Some (mkSchedulingResult packetEvent (Some pkt))
      /\ protocolAt base st0 s'
           (mkLoopProtocol (AwaitingUpdate (bp_packet pkt) (writeSuccess res)) u')
      /\ (writeSuccess res = false -> u' = false)
  else protocolAt base st0 s' (mkLoopProtocol BetweenPackets false).

(** Where a turn of the loop, and the loop, leave the protocol: between two
    packets when the loop goes on; flushed, and between two packets or ended,
    when the function returns. *)
Definition loopPost (base : list Event) (st0 : LoopProtocol)
  (returned : option Z) (s' : Machine) : Prop :=
  match returned with
  | None => exists u', protocolAt base st0 s' (mkLoopProtocol BetweenPackets u')
  | Some n =>
      n = pktSent (m_batch s')
      /\ exists ph, (ph = BetweenPackets \/ ph = LoopEnded)
                    /\ protocolAt base st0 s' (mkLoopProtocol ph false)
  end.

(** The scheduler built nothing to send: no packet, a packet without frames
    or a packet without a body. *)
Definition noPacketBuilt (res : SchedulingResult) : Prop :=
  match sr_packet res with
  | None => True
  | Some pkt => frames (bp_packet pkt) = [] \/ bp_body pkt = None
  end.

(** The builder [continuousMemoryBuildScheduleEncrypt] hands to the
    scheduler. *)
Definition inplaceBuilder (conn : Conn) (hdr : PacketHeader)
  (pnSpace : PacketNumberSpace) (cipherOverhead : Z) : BuilderArgs :=
  mkBuilderArgs InplaceQuicPacketBuilder (udpSendPacketLen conn) hdr
    (default 0 (largestAckedByPeer (getAckState conn pnSpace))) cipherOverhead.

(** The buffer [after] has the data of [before] where it was: the builder
    wrote only past the end of that data. *)
Definition keepsDataOf (before after : IOBuf) : Prop :=
  io_headroom after = io_headroom before
  /\ firstn (Z.to_nat (io_length before))
       (skipn (Z.to_nat (io_headroom before)) (io_storage after))
     = contents before.


(** [isD6DProbe] of [continuousMemoryBuildScheduleEncrypt]: the packet is in
    the application-data space and its number is that of the last D6D
    probe. *)
Definition isD6DProbe (conn : Conn) (pnSpace : PacketNumberSpace)
  (packetNum : PacketNum) : bool :=
  bool_decide (pnSpace = AppData)
  && bool_decide (lastProbe (d6d conn) = Some packetNum).


(** [ioBufBatch.getPktSent()] as a component of the machine. *)
Definition sentSoFar (m : Machine) : Z := pktSent (m_batch m).

(** The calls made while [ioBufBatch.write] runs. *)
Definition duringWrite (ev : Event) : Prop :=
  match ev with
  | BatchAppend _ | CallFlush _ | SocketWrite _ _ | PauseRead _ | CancelTimeout => True
  | _ => False
  end.

End Transport.

(** * Further parts of the write path *)

Section TransportEntryPoints.

Context `{CollaboratorOps}.

(** ** The entry points (quic/api/QuicTransportFunctions.cpp) *)

(** The kinds of frames a [FrameScheduler::Builder] is asked for, in the
    order of the calls on the builder, and [LongHeader::Types]. *)
Inductive FrameKind :=
  StreamFrames | AckFrames | ResetFrames | WindowUpdateFrames | BlockedFrames
| SimpleFrames | PingFrames | CryptoFrames.

Inductive LongHeaderType := LH_Initial | LH_Retry | LH_Handshake | LH_ZeroRtt.

(** The schedulers and headers the entry points construct belong to the
    packet scheduler and the codec, which the write path only calls:
    [FrameScheduler::Builder(conn, level, space, name)...build()],
    [CloningScheduler(scheduler, conn, name, cipherOverhead)], the header
    constructors (connection ids, version and token are fixed for a
    connection) and the conversions of a long header type. *)
Class SchedulerOps := {
  FrameSchedulerBuilder :
    EncryptionLevel -> PacketNumberSpace -> list FrameKind -> QuicPacketScheduler;
  CloningScheduler : QuicPacketScheduler -> Z -> QuicPacketScheduler;
  LongHeader : LongHeaderType -> PacketNum -> PacketHeader;
  ShortHeader : ProtectionType -> PacketNum -> PacketHeader;
  longHeaderTypeToProtectionType : LongHeaderType -> ProtectionType;
  typeToPacketNumberSpace : LongHeaderType -> PacketNumberSpace
}.

Context `{SchedulerOps}.

Definition LongHeaderBuilder (packetType : LongHeaderType) : HeaderBuilder :=
  fun packetNum => LongHeader packetType packetNum.

Definition ShortHeaderBuilder : HeaderBuilder :=
  fun packetNum => ShortHeader PT_KeyPhaseZero packetNum.

(** [unlimitedWritableBytes] as a [WritableBytesFunc]. *)
Definition unlimitedWritableBytesFunc : M Machine Z := onConn unlimitedWritableBytes.

(** The conversion of an argument to the [uint8_t] parameter
    [probesToSend]. *)
Definition to_uint8 (v : Z) : Z := v mod 256.

Definition writeProbingDataToSocket (builder : HeaderBuilder)
  (encryptionLevel : EncryptionLevel) (pnSpace : PacketNumberSpace)
  (scheduler : QuicPacketScheduler) (probesToSend : Z) (aead : Aead)
  (headerCipher : PacketNumberCipher) : M Machine Z :=
  (* Skip a packet number for probing packets to elicit acks *)
  run onConn (collaborate (IncreaseNextPacketNum pnSpace));
  let cloningScheduler := CloningScheduler scheduler (getCipherOverhead aead) in
  do written <-
    writeConnectionDataToSocket builder pnSpace cloningScheduler
      unlimitedWritableBytesFunc probesToSend aead headerCipher;
  if negb (probesToSend =? 0) && (written =? 0) then
    (* Fall back to send a ping: *)
    run onConn (modifyPendingEvents (set_sendPing true));
    let pingScheduler := FrameSchedulerBuilder encryptionLevel pnSpace [PingFrames] in
    do more <-
      writeConnectionDataToSocket builder pnSpace pingScheduler
        unlimitedWritableBytesFunc (wrap64 (probesToSend - written)) aead headerCipher;
    ret (wrap64 (written + more))
  else ret written.

(** The block the entry points share: write the probes, check that no more
    were written than requested and take them off the request. *)
Definition writeProbes (builder : HeaderBuilder) (encryptionLevel : EncryptionLevel)
  (pnSpace : PacketNumberSpace) (scheduler : QuicPacketScheduler) (packetLimit : Z)
  (aead : Aead) (headerCipher : PacketNumberCipher) : M Machine Z :=
  do connection <- gets m_conn;
  do written <-
    writeProbingDataToSocket builder encryptionLevel pnSpace scheduler
      (to_uint8 (Z.min packetLimit (numProbePackets (pendingEvents connection))))
      aead headerCipher;
  do connection <- gets m_conn;
  run CHECK (written <=? numProbePackets (pendingEvents connection));
  run onConn (modifyPendingEvents (fun pe =>
        set_numProbePackets (numProbePackets pe - written) pe));
  ret written.

Definition writeQuicDataToSocketImpl (aead : Aead) (headerCipher : PacketNumberCipher)
  (packetLimit : Z) (exceptCryptoStream : bool) : M Machine Z :=
  let builder := ShortHeaderBuilder in
  do connection <- gets m_conn;
  do written <-
    (if negb (numProbePackets (pendingEvents connection) =? 0) then
       let probeScheduler :=
         FrameSchedulerBuilder EL_AppData AppData
           ([BlockedFrames; WindowUpdateFrames; SimpleFrames; ResetFrames;
             StreamFrames; PingFrames]
            ++ (if exceptCryptoStream then [] else [CryptoFrames])) in
       writeProbes builder EL_AppData AppData probeScheduler packetLimit aead
         headerCipher
     else ret 0);
  let scheduler :=
    FrameSchedulerBuilder EL_AppData AppData
      ([StreamFrames; AckFrames; ResetFrames; WindowUpdateFrames; BlockedFrames;
        SimpleFrames; PingFrames]
       ++ (if exceptCryptoStream then [] else [CryptoFrames])) in
  do more <-
    writeConnectionDataToSocket builder AppData scheduler
      congestionControlWritableBytesFunc (wrap64 (packetLimit - written)) aead
      headerCipher;
  ret (wrap64 (written + more)).

Definition writeQuicDataToSocket (aead : Aead) (headerCipher : PacketNumberCipher)
  (packetLimit : Z) : M Machine Z :=
  writeQuicDataToSocketImpl aead headerCipher packetLimit false.

Definition writeQuicDataExceptCryptoStreamToSocket (aead : Aead)
  (headerCipher : PacketNumberCipher) (packetLimit : Z) : M Machine Z :=
  writeQuicDataToSocketImpl aead headerCipher packetLimit true.

Definition writeCryptoAndAckDataToSocket (packetType : LongHeaderType)
  (cleartextCipher : Aead) (headerCipher : PacketNumberCipher) (packetLimit : Z)
  : M Machine Z :=
  let encryptionLevel :=
    protectionTypeToEncryptionLevel (longHeaderTypeToProtectionType packetType) in
  let scheduler :=
    FrameSchedulerBuilder encryptionLevel (typeToPacketNumberSpace packetType)
      [AckFrames; CryptoFrames] in
  let builder := LongHeaderBuilder packetType in
  do connection <- gets m_conn;
  let cryptoStream := getCryptoStream (cryptoState connection) encryptionLevel in
  do written <-
    (if negb (numProbePackets (pendingEvents connection) =? 0)
        && (negb (bool_decide (retransmissionBuffer cryptoStream = ∅))
            || hasData scheduler connection) then
       writeProbes builder encryptionLevel (typeToPacketNumberSpace packetType)
         scheduler packetLimit cleartextCipher headerCipher
     else ret 0);
  (* Crypto data is written without aead protection. *)
  do more <-
    writeConnectionDataToSocket builder (typeToPacketNumberSpace packetType) scheduler
      congestionControlWritableBytesFunc (wrap64 (packetLimit - written))
      cleartextCipher headerCipher;
  let written := wrap64 (written + more) in
  run CHECK (written <=? packetLimit);
  ret written.

Definition writeZeroRttDataToSocket (aead : Aead) (headerCipher : PacketNumberCipher)
  (packetLimit : Z) : M Machine Z :=
  let type := LH_ZeroRtt in
  let encryptionLevel :=
    protectionTypeToEncryptionLevel (longHeaderTypeToProtectionType type) in
  let builder := LongHeaderBuilder type in
  (* Probe is not useful for zero rtt because we will always have handshake
     packets outstanding when sending zero rtt data. *)
  let scheduler :=
    FrameSchedulerBuilder encryptionLevel (typeToPacketNumberSpace type)
      [StreamFrames; ResetFrames; WindowUpdateFrames; BlockedFrames; SimpleFrames] in
  writeConnectionDataToSocket builder (typeToPacketNumberSpace type) scheduler
    congestionControlWritableBytesFunc packetLimit aead headerCipher.

End TransportEntryPoints.

(** * Notions used in the statements of the further properties *)

Section FurtherNotions.

Context `{CollaboratorOps}.

(** ** A flush *)

(** The calls of one socket write of a flush: the write and, when it leaves
    the socket ineligible, the pause of its read side. *)
Definition writeEvents (sock : Socket) (o : WriteOutcome) : list Event :=
  SocketWrite sock o :: (if staysEligible o then [] else [PauseRead sock]).

(** What one socket write of a flush does to the happy-eyeballs state and to
    [errno]. *)
Definition afterWrite (sock : Socket) (o : WriteOutcome) (he : HappyEyeballsState)
  : HappyEyeballsState :=
  (if staysEligible o then id
   else match sock with
        | FirstSocket => id
        | SecondSocket => set_secondSocketReadPaused true
        end) (setEligible sock (staysEligible o) he).

Definition errnoAfter (o : WriteOutcome) (errno : Z) : Z :=
  match o with
  | Consumed _ => errno
  | Failed err => err
  end.

(** The course of [flushInternal] on a non-empty batch, read off the state
    it starts from: the outcome of the write to the first socket if there is
    one, whether the second socket is started at once, the outcome of the
    write to the second socket if there is one, and the happy-eyeballs state
    and [errno] that result. *)
Record FlushOutline := mkFlushOutline {
  fo_first : option WriteOutcome;
  fo_kick : bool;
  fo_second : option WriteOutcome;
  fo_he : HappyEyeballsState;
  fo_errno : Z
}.

Definition flushOutline (m : Machine) : FlushOutline :=
  let he := happyEyeballsState (m_conn m) in
  let first :=
    if shouldWriteToFirstSocket he then Some (m_net m (m_netCalls m)) else None in
  let he1 := from_option (fun o => afterWrite FirstSocket o he) he first in
  let errno1 := from_option (fun o => errnoAfter o (m_errno m)) (m_errno m) first in
  let written1 := from_option accepted false first in
  let kick := negb written1 && bool_decide (connAttemptDelayTimeout he1 = Some true) in
  let he2 :=
    if kick
    then happyEyeballsStartSecondSocket (set_connAttemptDelayTimeout (Some false) he1)
    else he1 in
  let second :=
    if shouldWriteToSecondSocket he2
    then Some (m_net m (if first is Some _ then S (m_netCalls m) else m_netCalls m))
    else None in
  mkFlushOutline first kick second
    (from_option (fun o => afterWrite SecondSocket o he2) he2 second)
    (from_option (fun o => errnoAfter o errno1) errno1 second).

Definition outlineEvents (fo : FlushOutline) : list Event :=
  from_option (writeEvents FirstSocket) [] (fo_first fo)
  ++ (if fo_kick fo then [CancelTimeout] else [])
  ++ from_option (writeEvents SecondSocket) [] (fo_second fo).

Definition outlineWritten (fo : FlushOutline) : bool :=
  from_option accepted false (fo_first fo) || from_option accepted false (fo_second fo).

(** A socket accepted the batch; the socket of a write; the socket a write
    or a pause concerns. *)
Definition isAcceptedWrite (ev : Event) : bool :=
  match ev with
  | SocketWrite _ (Consumed _) => true
  | _ => false
  end.

Definition socketWritten (ev : Event) : option Socket :=
  match ev with
  | SocketWrite sock _ => Some sock
  | _ => None
  end.

Definition eventSocket (ev : Event) : option Socket :=
  match ev with
  | SocketWrite sock _ | PauseRead sock => Some sock
  | _ => None
  end.

(** The calls of a [flush(FLUSH_TYPE_ALWAYS)]. *)
Definition isFlushEvent (ev : Event) : Prop :=
  ev = CallFlush FLUSH_TYPE_ALWAYS \/ isSocketEvent ev.

(** ** The connection-state updater *)

(** The functions that receive the connection leave the component [proj]
    of it alone. *)
Definition collaboratorsKeep {T} (proj : Conn -> T) : Prop :=
  forall call, keeps True proj (collaborate call).


(** Frames that make a packet retransmittable: all but acks, pings and
    padding. *)
Definition isRetransmittableFrame (frame : QuicWriteFrame) : bool :=
  match frame with
  | F_WriteAckFrame _ | F_PingFrame | F_PaddingFrame => false
  | _ => true
  end.
Definition isPingFrame (frame : QuicWriteFrame) : bool :=
  match frame with
  | F_PingFrame => true
  | _ => false
  end.

(** The locals [retransmittable] and [isPing] of [updateConnection] once
    its loop over the frames is over. *)
Definition packetRetransmittable (pkt : RegularQuicWritePacket) : bool :=
  existsb isRetransmittableFrame (frames pkt).
Definition packetIsPing (pkt : RegularQuicWritePacket) : bool :=
  existsb isPingFrame (frames pkt).


Definition pingRequested (conn : Conn) : bool := sendPing (pendingEvents conn).

(** What the sending of an ack-eliciting packet is reported to. *)
Definition ackElicitingState (conn : Conn) :=
  (totalAckElicitingPacketsSent (lossState conn),
   lastRetransmittablePacketSentTime (lossState conn),
   congestionController conn, pacer conn, pathValidationLimiter conn).

(** The [DCHECK]s at the end of [updateConnection]. *)
Definition outstandingCountsBounded (o : OutstandingsInfo) : Prop :=
  0 <= initialPacketsCount o <= numOutstanding o
  /\ 0 <= handshakePacketsCount o <= numOutstanding o
  /\ 0 <= clonedPacketsCount o <= numOutstanding o.

Definition sentRecord (conn : Conn) :=
  (packets (outstandings conn), totalBytesSent (lossState conn)).

(** ** Stream buffers *)

(** The stream bytes the three buffers of a stream hold. *)
Definition bufferedBytes (stream : QuicStreamLike) : nat :=
  (List.length (writeBuffer stream)
   + sum_list_with (fun b => List.length (sb_data b)) (lossBuffer stream)
   + map_fold (fun _ b acc => List.length (sb_data b) + acc) O
       (retransmissionBuffer stream))%nat.

(** Where new data of a stream is written from. *)
Definition writePosition (stream : QuicStreamLike) :=
  (currentWriteOffset stream, writeBuffer stream, writeBufMeta stream,
   numPacketsTxWithNewData stream).

(** The stream bytes the three buffer metas of a stream stand for. *)
Definition metaLengths (metas : list WriteBufferMeta) : Z :=
  foldr (fun meta acc => wbm_length meta + acc) 0 metas.

Definition bufMetaBytes (stream : QuicStreamLike) : Z :=
  wbm_length (writeBufMeta stream)
  + metaLengths (lossBufMetas stream)
  + map_fold (fun _ meta acc => wbm_length meta + acc) 0 (retransmissionBufMetas stream).

(** [WriteBufferMeta::split] hands out what it takes off. *)
Definition splitConserves : Prop :=
  forall len meta split rest,
    splitBufMeta len meta = Some (split, rest) ->
    wbm_length split + wbm_length rest = wbm_length meta.

(** The buffers that hold stream bytes themselves. *)
Definition plainBuffers (stream : QuicStreamLike) :=
  (writeBuffer stream, lossBuffer stream, retransmissionBuffer stream).

(** ** A write with nothing to send *)

(** What a write that sends nothing leaves alone, with and without the
    reason recorded for the loop detector. *)
Definition sendState (conn : Conn) :=
  (ackStates conn, outstandings conn, lossState conn, pendingEvents conn,
   cryptoState conn, streamManager conn, noWriteReason conn).

Definition unsentState (conn : Conn) :=
  (ackStates conn, outstandings conn, lossState conn, pendingEvents conn,
   cryptoState conn, streamManager conn).

End FurtherNotions.

(** * FunctionLooper (quic/common/FunctionLooper.cpp) *)

Module FunctionLooper.

(** What the callback [func_] does to its looper: "callback could cause us
    to stop ourselves.  Someone could have also called run() in the
    callback." *)
Inductive Call := CallRun (thisIteration : bool) | CallStop.

(** The looper with the two things it is registered with: the event base
    ([loopCallbackScheduled] is [isLoopCallbackScheduled()], set by
    [runInLoop] and unset by [cancelLoopCallback] and when the event base
    takes the callback to run it) and the pacing timer ([timeoutScheduled] is
    [isScheduled()], set by [scheduleTimeout] and unset by [cancelTimeout]
    and when the timer expires).  [evb_] and [pacingTimer_] say whether the
    pointer is set.  [func_] and [pacingFunc_] are given by what their
    successive calls do and return. *)
Record Looper := mkLooper {
  evb_ : bool;
  func_ : nat -> bool -> list Call;
  funcCalls : nat;
  running_ : bool;
  inLoopBody_ : bool;
  pacingTimer_ : bool;
  pacingFunc_ : option (nat -> Z);
  pacingCalls : nat;
  loopCallbackScheduled : bool;
  timeoutScheduled : bool
}.

Definition set_evb_ (v : bool) (l : Looper) : Looper :=
  mkLooper v (func_ l) (funcCalls l) (running_ l) (inLoopBody_ l) (pacingTimer_ l)
    (pacingFunc_ l) (pacingCalls l) (loopCallbackScheduled l) (timeoutScheduled l).
Definition set_funcCalls (v : nat) (l : Looper) : Looper :=
  mkLooper (evb_ l) (func_ l) v (running_ l) (inLoopBody_ l) (pacingTimer_ l)
    (pacingFunc_ l) (pacingCalls l) (loopCallbackScheduled l) (timeoutScheduled l).
Definition set_running_ (v : bool) (l : Looper) : Looper :=
  mkLooper (evb_ l) (func_ l) (funcCalls l) v (inLoopBody_ l) (pacingTimer_ l)
    (pacingFunc_ l) (pacingCalls l) (loopCallbackScheduled l) (timeoutScheduled l).
Definition set_inLoopBody_ (v : bool) (l : Looper) : Looper :=
  mkLooper (evb_ l) (func_ l) (funcCalls l) (running_ l) v (pacingTimer_ l)
    (pacingFunc_ l) (pacingCalls l) (loopCallbackScheduled l) (timeoutScheduled l).
Definition set_pacingTimer_ (v : bool) (l : Looper) : Looper :=
  mkLooper (evb_ l) (func_ l) (funcCalls l) (running_ l) (inLoopBody_ l) v
    (pacingFunc_ l) (pacingCalls l) (loopCallbackScheduled l) (timeoutScheduled l).
Definition set_pacingFunc_ (v : option (nat -> Z)) (l : Looper) : Looper :=
  mkLooper (evb_ l) (func_ l) (funcCalls l) (running_ l) (inLoopBody_ l)
    (pacingTimer_ l) v (pacingCalls l) (loopCallbackScheduled l) (timeoutScheduled l).
Definition set_pacingCalls (v : nat) (l : Looper) : Looper :=
  mkLooper (evb_ l) (func_ l) (funcCalls l) (running_ l) (inLoopBody_ l)
    (pacingTimer_ l) (pacingFunc_ l) v (loopCallbackScheduled l) (timeoutScheduled l).
Definition set_loopCallbackScheduled (v : bool) (l : Looper) : Looper :=
  mkLooper (evb_ l) (func_ l) (funcCalls l) (running_ l) (inLoopBody_ l)
    (pacingTimer_ l) (pacingFunc_ l) (pacingCalls l) v (timeoutScheduled l).
Definition set_timeoutScheduled (v : bool) (l : Looper) : Looper :=
  mkLooper (evb_ l) (func_ l) (funcCalls l) (running_ l) (inLoopBody_ l)
    (pacingTimer_ l) (pacingFunc_ l) (pacingCalls l) (loopCallbackScheduled l) v.

(** The constructor: nothing runs and nothing is scheduled. *)
Definition FunctionLooper (evb : bool) (func : nat -> bool -> list Call) : Looper :=
  mkLooper evb func O false false false None O false false.

Definition setPacingTimer (pacingTimer : bool) : M Looper unit :=
  modify (set_pacingTimer_ pacingTimer).

Definition hasPacingTimer : M Looper bool := gets pacingTimer_.

Definition setPacingFunction (pacingFunc : nat -> Z) : M Looper unit :=
  run modify (set_pacingFunc_ (Some pacingFunc));
  modify (set_pacingCalls O).

(** [evb_->runInLoop(this)]; [evb_] must not be null. *)
Definition runInLoop : M Looper unit :=
  do l <- get;
  run CHECK (evb_ l);
  modify (set_loopCallbackScheduled true).

Definition cancelLoopCallback : M Looper unit := modify (set_loopCallbackScheduled false).
Definition cancelTimeout : M Looper unit := modify (set_timeoutScheduled false).

Definition schedulePacingTimeout (fromTimer : bool) : M Looper bool :=
  do l <- get;
  match pacingFunc_ l with
  | Some pacingFunc =>
      if pacingTimer_ l && negb (timeoutScheduled l) then
        let nextPacingTime := pacingFunc (pacingCalls l) in
        run modify (set_pacingCalls (S (pacingCalls l)));
        if negb (nextPacingTime =? 0) then
          run modify (set_timeoutScheduled true);
          ret true
        else ret false
      else ret false
  | None => ret false
  end.

Definition looperRun (thisIteration : bool) : M Looper unit :=
  run modify (set_running_ true);
  do l <- get;
  (* Caller can call run() in func_. But if we are in pacing mode, we should
     prevent such loop. *)
  if pacingTimer_ l && inLoopBody_ l then ret tt
  else if loopCallbackScheduled l || timeoutScheduled l then ret tt
  else runInLoop.

Definition stop : M Looper unit :=
  run modify (set_running_ false);
  run cancelLoopCallback;
  cancelTimeout.

Definition isRunning : M Looper bool := gets running_.

Definition call (c : Call) : M Looper unit :=
  match c with
  | CallRun thisIteration => looperRun thisIteration
  | CallStop => stop
  end.

(** [inLoopBody_] is reset on every way out ([SCOPE_EXIT]). *)
Definition commonLoopBody (fromTimer : bool) : M Looper unit :=
  run modify (set_inLoopBody_ true);
  do l <- get;
  run modify (set_funcCalls (S (funcCalls l)));
  run forEach call (func_ l (funcCalls l) fromTimer);
  (* callback could cause us to stop ourselves.
     Someone could have also called run() in the callback. *)
  do l <- get;
  if negb (running_ l) then modify (set_inLoopBody_ false)
  else
    do scheduled <- schedulePacingTimeout fromTimer;
    run when (negb scheduled) runInLoop;
    modify (set_inLoopBody_ false).

Definition runLoopCallback : M Looper unit := commonLoopBody false.

Definition timeoutExpired : M Looper unit := commonLoopBody true.

(** The [DCHECK]s of [attachEventBase] and [detachEventBase] are compiled
    out of a release build and are not part of the model. *)
Definition attachEventBase : M Looper unit := modify (set_evb_ true).

Definition detachEventBase : M Looper unit :=
  run stop;
  run cancelTimeout;
  modify (set_evb_ false).

(** What can happen to a looper: its owner calls it, the event base runs
    the scheduled loop callback, or the pacing timer expires. *)
Inductive step : Looper -> Looper -> Prop :=
| step_run thisIteration l l' :
    looperRun thisIteration l = Ok tt l' -> step l l'
| step_stop l l' : stop l = Ok tt l' -> step l l'
| step_setPacingTimer pacingTimer l l' :
    setPacingTimer pacingTimer l = Ok tt l' -> step l l'
| step_setPacingFunction pacingFunc l l' :
    setPacingFunction pacingFunc l = Ok tt l' -> step l l'
| step_attachEventBase l l' : attachEventBase l = Ok tt l' -> step l l'
| step_detachEventBase l l' : detachEventBase l = Ok tt l' -> step l l'
| step_runLoopCallback l l' :
    loopCallbackScheduled l = true ->
    runLoopCallback (set_loopCallbackScheduled false l) = Ok tt l' -> step l l'
| step_timeoutExpired l l' :
    timeoutScheduled l = true ->
    timeoutExpired (set_timeoutScheduled false l) = Ok tt l' -> step l l'.

Inductive reachable (evb : bool) (func : nat -> bool -> list Call) : Looper -> Prop :=
| reachable_constructed : reachable evb func (FunctionLooper evb func)
| reachable_step l l' : reachable evb func l -> step l l' -> reachable evb func l'.

(** Outside the loop body a running looper has exactly one wake-up pending,
    the loop callback or the pacing timeout, and a stopped looper has
    none. *)
Definition oneWakeUp (l : Looper) : Prop :=
  inLoopBody_ l = false
  /\ (if running_ l
      then xorb (loopCallbackScheduled l) (timeoutScheduled l) = true
      else loopCallbackScheduled l = false /\ timeoutScheduled l = false).

(** Inside the loop body: no timeout is scheduled, and the loop callback is
    scheduled neither with a pacing timer nor for a stopped looper. *)
Definition inBody (l : Looper) : Prop :=
  inLoopBody_ l = true
  /\ timeoutScheduled l = false
  /\ (pacingTimer_ l = true -> loopCallbackScheduled l = false)
  /\ (running_ l = false -> loopCallbackScheduled l = false).

(** There is a pacing timer and the pacing function asks for a delay at its
    next call. *)
Definition pacingDelayDue (l : Looper) : bool :=
  pacingTimer_ l
  && match pacingFunc_ l with
     | Some pacingFunc => negb (pacingFunc (pacingCalls l) =? 0)
     | None => false
     end.

End FunctionLooper.

(** * The session tickets of the server handshake
      (quic/fizz/server/handshake/FizzServerHandshake.cpp) *)

Module FizzServerHandshake.

Section Handshake.

(** [AppToken] and [encodeAppToken] (quic/fizz/server/handshake/AppToken)
    are used as they are given. *)
Context {AppToken : Type} (encodeAppToken : AppToken -> list byte).

(** [fizz::WriteNewSessionTicket]. *)
Record WriteNewSessionTicket := mkWriteNewSessionTicket {
  appToken : list byte
}.

(** The handshake as far as the session tickets go: the queue
    [pendingEvents_] and the tickets handed to fizz's state machine
    ([startActions(machine_.processWriteNewSessionTicket(state_, write))]) in
    the order of the calls. *)
Record Handshake := mkHandshake {
  pendingEvents_ : list WriteNewSessionTicket;
  ticketsProcessed : list WriteNewSessionTicket
}.

Definition processPendingCryptoEvent : M Handshake bool :=
  do hs <- get;
  match pendingEvents_ hs with
  | [] => ret false
  | write :: rest =>
      run modify (fun hs => mkHandshake rest (ticketsProcessed hs));
      run modify (fun hs =>
            mkHandshake (pendingEvents_ hs) (ticketsProcessed hs ++ [write]));
      ret true
  end.

Definition writeNewSessionTicketToCrypto (token : AppToken) : M Handshake unit :=
  let writeNST := mkWriteNewSessionTicket (encodeAppToken token) in
  modify (fun hs => mkHandshake (pendingEvents_ hs ++ [writeNST]) (ticketsProcessed hs)).

(** [n] calls in a row, with what they return. *)
Fixpoint callTimes {S A} (n : nat) (call : M S A) : M S (list A) :=
  match n with
  | O => ret []
  | S n' => do a <- call; do rest <- callTimes n' call; ret (a :: rest)
  end.

End Handshake.

End FizzServerHandshake.


(** ** A small instance of the consumed interfaces

    Used to run the model on concrete connections: the congestion controller
    is its number of writable bytes, the path limiter its credit, the stream
    manager a map of streams, the batch writer the list of the sizes appended
    (it asks for a flush once it holds two packets, and a write leaves the
    connection-owned buffer empty), and the platform is Linux. *)
Module Simple.

Definition collaborators : Collaborators := {|
  CongestionController := Z;
  Pacer := unit;
  PendingPathRateLimiter := Z;
  QuicStreamManager := gmap StreamId QuicStreamLike;
  FlowControlState := Z;
  BatchWriter := list Z
|}.

#[local] Existing Instance collaborators.

Definition increaseNextPacketNum (pnSpace : PacketNumberSpace) (conn : Conn) : Conn :=
  let bump (a : AckState) :=
    mkAckState (acks a) (largestAckScheduled a) (largestAckedByPeer a)
      (needsToSendAckImmediately a) (nextPacketNum a + 1) in
  setAckState pnSpace (bump (getAckState conn pnSpace)) conn.

Definition ops : CollaboratorOps := {|
  hasAcksToSchedule := fun a => negb (bool_decide (acks a = []));
  getSendConnFlowControlBytesWire := fun conn => (flowControlState conn : Z);
  hasWindowUpdates := fun _ => false;
  hasBlocked := fun _ => false;
  hasWritable := fun sm : gmap StreamId QuicStreamLike => negb (bool_decide (sm = ∅));
  getStream := fun (sm : gmap StreamId QuicStreamLike) id => sm !! id;
  putStream := fun id stream (sm : gmap StreamId QuicStreamLike) => <[id := stream]> sm;
  addTx := fun _ sm => sm;
  updateWritableStreams := fun _ sm => sm;
  updateLossStreams := fun _ sm => sm;
  removeBlocked := fun _ sm => sm;
  splitBufMeta := fun len meta =>
    if len <=? wbm_length meta then
      Some (mkWriteBufferMeta len (wbm_offset meta)
              (wbm_eof meta && (len =? wbm_length meta)),
            mkWriteBufferMeta (wbm_length meta - len) (wbm_offset meta + len)
              (wbm_eof meta))
    else None;
  getWritableBytes := fun cc : Z => cc;
  ccIsAppLimited := fun _ => false;
  ccOnPacketSent := fun op (cc : Z) => Z.max 0 (cc - opm_encodedSize (metadata op));
  pacerOnPacketSent := fun p => p;
  currentCredit := fun (credit : Z) _ _ => credit;
  limiterOnPacketSent := fun size (credit : Z) => Z.max 0 (credit - size);
  kDefaultInitialRtt := 50000;
  collaborate := fun call =>
    match call with
    | IncreaseNextPacketNum pnSpace => modify (increaseNextPacketNum pnSpace)
    | _ => ret tt
    end;
  needsFlush := fun _ _ => false;
  append := fun size (writer : list Z) =>
    (2 <=? Z.of_nat (List.length writer) + 1, writer ++ [size]);
  batchEmpty := fun writer : list Z => bool_decide (writer = []);
  batchSize := fun writer : list Z => fold_right Z.add 0 writer;
  batchReset := fun _ => @nil Z;
  makeBatchWriter := fun _ => @nil Z;
  batchWritten := fun _ _ buf => clearIOBuf <$> buf;
  defaultFlushType := FLUSH_TYPE_ALLOW_THREAD_LOCAL_DELAY;
  parsePacketNumberLength := fun b => Z.land (Z.of_N (Byte.to_N b)) 3 + 1;
  processCryptoStreamAck := fun offset len stream =>
    match retransmissionBuffer stream !! offset with
    | Some buf =>
        if Z.of_nat (List.length (sb_data buf)) =? len
        then set_retransmissionBuffer (delete offset (retransmissionBuffer stream)) stream
        else stream
    | None => stream
    end;
  commonAckVisitorForAckFrame := fun _ a => a;
  declaredLost := fun _ largest op => outstandingPacketNum op + 3 <=? largest;
  happyEyeballsStartSecondSocket := set_shouldWriteToSecondSocket true;
  isNetworkUnreachable := fun err => err =? 101;
  EAGAIN := 11;
  EWOULDBLOCK := 11;
  ENOBUFS := 105;
  EMSGSIZE := 90
|}.

#[local] Existing Instance ops.

Definition emptyStream : QuicStreamLike :=
  mkQuicStreamLike 0 [] ∅ [] (mkWriteBufferMeta 0 0 false) ∅ [] 0.

Definition freshAckState : AckState := mkAckState [] None None false 0.

Definition noLoss : LossState :=
  mkLossState 0 None 0 0 0 0 0 0 0 0 0 None None None 0 0.

Definition settings : TransportSettings :=
  mkTransportSettings BATCHING_MODE_NONE 5 16 false ContinuousMemory 3.

(** A quiet connection after the handshake: 1-RTT keys only, nothing
    pending, nothing outstanding, a 1252-byte packet size and no congestion
    controller. *)
Definition quiet : Conn :=
  mkConn 1252 false false true false
    (mkQuicCryptoState emptyStream emptyStream emptyStream)
    (mkAckStates freshAckState freshAckState freshAckState)
    (mkPendingEvents 0 ∅ false false false [] None false)
    noLoss
    (mkOutstandingsInfo [] 0 0 0)
    (mkD6DState None 0 0)
    None false None None None (∅ : gmap StreamId QuicStreamLike) (100000 : Z)
    (mkHappyEyeballsState true false None false)
    settings
    (Some (mkIOBuf [] 0 0)) false WRITE_OK 0 [].

(** A machine around a connection: an empty batch, the socket outcomes
    [net] and a clock that stands still. *)
Definition machine (conn : Conn) (net : nat -> WriteOutcome) : Machine :=
  mkMachine conn (mkIOBufQuicBatch (@nil Z) false 0) false 0 net O (fun _ => 0) O [].

(** [quiet] with an ack owed at once in the application-data space, stream
    data waiting, and a congestion controller with no room. *)
Definition ackOwedWhileBlocked : Conn :=
  mkConn 1252 false false true false
    (mkQuicCryptoState emptyStream emptyStream emptyStream)
    (mkAckStates freshAckState freshAckState
       (mkAckState [mkAckBlock 4 7] None None true 0))
    (mkPendingEvents 0 ∅ false false false [] None false)
    noLoss
    (mkOutstandingsInfo [] 0 0 0)
    (mkD6DState None 0 0)
    None false (Some (0 : Z)) None None
    ({[ 0 := set_writeBuffer [Byte.x01; Byte.x02] emptyStream ]}
       : gmap StreamId QuicStreamLike)
    (100000 : Z)
    (mkHappyEyeballsState true false None false)
    settings
    (Some (mkIOBuf [] 0 0)) false WRITE_OK 0 [].

(** [quiet] with a congestion controller that reports [writable] bytes. *)
Definition withWritableBytes (writable : Z) : Conn :=
  set_congestionController (Some writable) quiet.

(** *** Sockets *)

Definition ENETUNREACH : Z := 101.
Definition ECONNREFUSED : Z := 111.

(** Sockets that accept every write, that refuse every write, that are out
    of the network, that would block, and that would block on the first
    write only. *)
Definition accepting : nat -> WriteOutcome := fun _ => Consumed 1200.
Definition refusing : nat -> WriteOutcome := fun _ => Failed ECONNREFUSED.
Definition unreachable : nat -> WriteOutcome := fun _ => Failed ENETUNREACH.
Definition blocking : nat -> WriteOutcome := fun _ => Failed EAGAIN.
Definition blockingOnce : nat -> WriteOutcome :=
  fun n => match n with O => Failed EAGAIN | _ => Consumed 1200 end.

(** A machine whose batch holds one packet of 1200 bytes. *)
Definition loaded (conn : Conn) (net : nat -> WriteOutcome) : Machine :=
  mkMachine conn (mkIOBufQuicBatch [1200] false 1) false 0 net O (fun _ => 0) O [].

(** [quiet] with the second socket of happy eyeballs in use as well. *)
Definition bothSockets : Conn :=
  set_happyEyeballsState (mkHappyEyeballsState true true None false) quiet.

(** *** Packets, a scheduler and ciphers *)

Definition shortHeader (num : PacketNum) : PacketHeader :=
  mkPacketHeader Short PT_KeyPhaseZero AppData num.
Definition initialHeader (num : PacketNum) : PacketHeader :=
  mkPacketHeader Long PT_Initial Initial num.
Definition handshakeHeader (num : PacketNum) : PacketHeader :=
  mkPacketHeader Long PT_Handshake Handshake num.

Definition pingPacket (hdr : PacketHeader) : RegularQuicWritePacket :=
  mkRegularQuicWritePacket hdr [F_PingFrame].
Definition ackPacket (hdr : PacketHeader) : RegularQuicWritePacket :=
  mkRegularQuicWritePacket hdr [F_WriteAckFrame (mkWriteAckFrame [mkAckBlock 0 3])].

(** An encoded header of two bytes, of which the last is the packet
    number. *)
Definition headerBytes : list byte := [Byte.x40; Byte.x07].

(** A scheduler that has data until [count] application-data packets were
    sent and builds a ping with [bodyLen] bytes of body: the regular builder
    makes buffers of its own, the in-place builder appends header, body and
    room for the cipher's tag to the connection-owned buffer. *)
Definition pingScheduler (count bodyLen : Z) : QuicPacketScheduler := {|
  hasData := fun conn => nextPacketNum (appDataAckState (ackStates conn)) <? count;
  scheduleFramesForPacket := fun args _ =>
    let body := repeat Byte.x00 (Z.to_nat bodyLen) in
    match ba_kind args with
    | RegularQuicPacketBuilder =>
        ret (mkSchedulingResult None
               (Some (mkBuiltPacket (pingPacket (ba_header args))
                        (mkIOBuf headerBytes 0 2)
                        (Some (mkIOBuf body 0 bodyLen)))))
    | InplaceQuicPacketBuilder =>
        do buf <- obtain;
        let at_ := io_headroom buf + io_length buf in
        let storage :=
          firstn (Z.to_nat at_) (io_storage buf)
          ++ headerBytes ++ body ++ repeat Byte.x00 (Z.to_nat (ba_cipherOverhead args)) in
        run release (mkIOBuf storage (io_headroom buf) (io_length buf + 2 + bodyLen));
        ret (mkSchedulingResult None
               (Some (mkBuiltPacket (pingPacket (ba_header args))
                        (mkIOBuf storage at_ 2)
                        (Some (mkIOBuf storage (at_ + 2) bodyLen)))))
    end
|}.

(** A scheduler that claims data, writes five bytes into the in-place
    builder's buffer and then builds no packet. *)
Definition emptyScheduler : QuicPacketScheduler := {|
  hasData := fun _ => true;
  scheduleFramesForPacket := fun args _ =>
    match ba_kind args with
    | RegularQuicPacketBuilder => ret (mkSchedulingResult None None)
    | InplaceQuicPacketBuilder =>
        do buf <- obtain;
        let at_ := io_headroom buf + io_length buf in
        run release (mkIOBuf (firstn (Z.to_nat at_) (io_storage buf) ++ repeat Byte.xff 5)
                       (io_headroom buf) (io_length buf + 5));
        ret (mkSchedulingResult None None)
    end
|}.

(** A cipher with a tag of 16 bytes that leaves the bytes as they are, and
    a header cipher that does the same. *)
Definition aead : Aead := mkAead 16 0 (fun buf _ _ => Some (appendLen 16 buf)).
Definition headerCipher : PacketNumberCipher :=
  mkPacketNumberCipher (fun _ initialByte packetNum => (initialByte, packetNum))
    (fun _ initialByte packetNum => (initialByte, packetNum)).


(** A connection that has just sent the D6D probe number 7. *)
Definition probing (conn : Conn) : Conn := set_d6d (mkD6DState (Some 7) 1 1) conn.

(** [quiet] whose buffer holds a packet of 38 bytes that is in the batch. *)
Definition withBufferedPacket : Conn :=
  set_bufAccessor (Some (mkIOBuf (repeat Byte.x01 38) 0 38)) quiet.

(** The state a call leaves behind ([m] itself if the call aborts). *)
Definition after {S A} (call : M S A) (m : S) : S :=
  match call m with
  | Ok _ m' | Throw _ m' => m'
  | Abort => m
  end.

(** *** Connections with outstanding packets *)

Definition outstandingPacket (pkt : RegularQuicWritePacket) : OutstandingPacket :=
  mkOutstandingPacket pkt (mkOutstandingPacketMetadata 0 100 false false 100 100 1 noLoss 0)
    None None false false.

Definition cryptoPacket (num : PacketNum) (offset len : Z) : RegularQuicWritePacket :=
  mkRegularQuicWritePacket (handshakeHeader num)
    [F_WriteCryptoFrame (mkWriteCryptoFrame offset len)].

(** [quiet] after the Initial packet 10 and then the application-data
    packet 3 were sent, each with a ping. *)
Definition sentInitial10 : Conn :=
  after (updateConnection None (pingPacket (initialHeader 10)) 0 100 false) quiet.
Definition sentAppData3 : Conn :=
  after (updateConnection None (pingPacket (shortHeader 3)) 0 100 false) sentInitial10.

(** Handshake keys are being discarded: the handshake packets 1 and 2, which
    carry the crypto data at the offsets 0 and 2, and the application-data
    packet 5 are outstanding; an older piece of crypto data is in the loss
    buffer. *)
Definition handshakeInFlight : Conn :=
  set_outstandings
    (mkOutstandingsInfo
       [outstandingPacket (cryptoPacket 1 0 2);
        outstandingPacket (cryptoPacket 2 2 1);
        outstandingPacket (pingPacket (shortHeader 5))] 0 2 0)
    (set_cryptoState
       (mkQuicCryptoState emptyStream
          (set_lossBuffer [mkStreamBuffer [Byte.x09] 50 false]
             (set_retransmissionBuffer
                {[ 0 := mkStreamBuffer [Byte.x01; Byte.x02] 0 false;
                   2 := mkStreamBuffer [Byte.x03] 2 false ]}
                emptyStream))
          emptyStream)
       quiet).



(** *** Further inputs *)

(** [quiet] while the second socket waits for the connection-attempt
    delay. *)
Definition secondSocketWaiting : Conn :=
  set_happyEyeballsState (mkHappyEyeballsState true false (Some true) false) quiet.

(** A connection with a writable-bytes limit and with or without a loop
    detector. *)
Definition withLimit (limit : option Z) (detector : bool) (r : Conn) : Conn :=
  mkConn (udpSendPacketLen r) (initialWriteCipher r) (handshakeWriteCipher r)
    (oneRttWriteCipher r) (zeroRttWriteCipher r) (cryptoState r) (ackStates r)
    (pendingEvents r) (lossState r) (outstandings r) (d6d r)
    limit (outstandingPathValidation r)
    (congestionController r) (pacer r) (pathValidationLimiter r)
    (streamManager r) (flowControlState r) (happyEyeballsState r)
    (transportSettings r) (bufAccessor r) detector (noWriteReason r) (writeCount r)
    (statsLog r).

(** [quiet] with stream data waiting and a writable-bytes limit of 0. *)
Definition limitUsedUp : Conn :=
  withLimit (Some 0) false
    (set_streamManager
       ({[ 0 := set_writeBuffer [Byte.x01; Byte.x02] emptyStream ]}
          : gmap StreamId QuicStreamLike) quiet).

(** [quiet] with a loop detector. *)
Definition watched : Conn := withLimit None true quiet.

(** [quiet] with a ping requested by the application, after the D6D probe
    number 7 was sent. *)
Definition pingRequestedWhileProbing : Conn :=
  probing (set_pendingEvents (set_sendPing true (pendingEvents quiet)) quiet).

(** [quiet] with [probes] probe packets requested. *)
Definition withProbes (probes : Z) : Conn :=
  set_pendingEvents (set_numProbePackets probes (pendingEvents quiet)) quiet.


(** A scheduler with nothing to send. *)
Definition idleScheduler : QuicPacketScheduler := {|
  hasData := fun _ => false;
  scheduleFramesForPacket := fun _ _ => ret (mkSchedulingResult None None)
|}.

(** Schedulers that send pings when asked for ping frames, up to the packet
    number 3, and nothing otherwise; a cloning scheduler that has nothing to
    clone falls back to the scheduler it wraps. *)
Definition asksForPings (kinds : list FrameKind) : bool :=
  existsb (fun kind => match kind with PingFrames => true | _ => false end) kinds.

Definition schedulers : SchedulerOps := {|
  FrameSchedulerBuilder := fun _ _ kinds =>
    if asksForPings kinds then pingScheduler 3 20 else idleScheduler;
  CloningScheduler := fun scheduler _ => scheduler;
  LongHeader := fun type num =>
    match type with
    | LH_Initial | LH_Retry => mkPacketHeader Long PT_Initial Initial num
    | LH_Handshake => mkPacketHeader Long PT_Handshake Handshake num
    | LH_ZeroRtt => mkPacketHeader Long PT_ZeroRtt AppData num
    end;
  ShortHeader := fun protection num => mkPacketHeader Short protection AppData num;
  longHeaderTypeToProtectionType := fun type =>
    match type with
    | LH_Initial | LH_Retry => PT_Initial
    | LH_Handshake => PT_Handshake
    | LH_ZeroRtt => PT_ZeroRtt
    end;
  typeToPacketNumberSpace := fun type =>
    match type with
    | LH_Initial | LH_Retry => Initial
    | LH_Handshake => Handshake
    | LH_ZeroRtt => AppData
    end
|}.

(** *** Loopers *)

(** A callback that calls [run()] on its looper every time. *)
Definition rerunning : nat -> bool -> list FunctionLooper.Call :=
  fun _ _ => [FunctionLooper.CallRun false].

(** A looper with that callback, a pacing timer and a pacing function that
    asks for 10 microseconds, after [run()]; and the same looper when the
    event base has taken its loop callback to run it. *)
Definition pacedLooper : FunctionLooper.Looper :=
  after (run FunctionLooper.setPacingTimer true;
         run FunctionLooper.setPacingFunction (fun _ => 10);
         FunctionLooper.looperRun false)
    (FunctionLooper.FunctionLooper true rerunning).

Definition pacedLooperCalled : FunctionLooper.Looper :=
  FunctionLooper.set_loopCallbackScheduled false pacedLooper.

(** *** A header cipher that masks *)

(** A header cipher that replaces the first byte and every byte of the
    packet number. *)
Definition maskingCipher : PacketNumberCipher :=
  mkPacketNumberCipher
    (fun _ _ packetNum => (Byte.xff, (fun _ => Byte.xee) <$> packetNum))
    (fun _ _ packetNum => (Byte.xff, (fun _ => Byte.xee) <$> packetNum)).

(** A buffer with a byte of headroom, the header [headerBytes] and a body
    of 20 bytes. *)
Definition packetBuffer : IOBuf :=
  mkIOBuf (Byte.x00 :: headerBytes ++ repeat Byte.x09 20) 1 2.

(** *** A stream of data that is not buffered *)

(** A stream whose write buffer meta stands for 10 bytes from the offset 5
    on, with 3 bytes at the offset 1 lost. *)
Definition dsrStream : QuicStreamLike :=
  set_lossBufMetas [mkWriteBufferMeta 3 1 false]
    (set_writeBufMeta (mkWriteBufferMeta 10 5 false) emptyStream).

End Simple.


(** * Properties *)

(** ** Machine integers *)

Lemma wrap64_small z : 0 <= z < two64 -> wrap64 z = z.
Proof. intros Hz. unfold wrap64. by apply Z.mod_small. Qed.

Lemma wrap64_range z : 0 <= wrap64 z < two64.
Proof. unfold wrap64. apply Z.mod_pos_bound. by compute. Qed.

Lemma wrap64_minus_l a b : wrap64 (wrap64 a - b) = wrap64 (a - b).
Proof. unfold wrap64. apply Zminus_mod_idemp_l. Qed.

Lemma wrap64_minus_r a b : wrap64 (a - wrap64 b) = wrap64 (a - b).
Proof. unfold wrap64. apply Zminus_mod_idemp_r. Qed.

(** Rounding up in 64-bit arithmetic, as [roundUpToPacketLen] does it. *)
Lemma round_up_multiple b len :
  0 <= b < two64 -> 0 < len < two64 ->
  let r := wrap64 (wrap64 (wrap64 (b + len) - 1) / len * len) in
  (exists k, 0 <= k /\ r = k * len) /\
  (b + len - 1 < two64 -> b <= r < b + len).
Proof.
  intros Hb Hlen r. subst r. rewrite wrap64_minus_l.
  pose proof (wrap64_range (b + len - 1)) as Hn.
  set (n := wrap64 (b + len - 1)) in *.
  assert (Hq : 0 <= n / len) by (apply Z.div_pos; lia).
  assert (Hle : n / len * len <= n)
    by (rewrite Z.mul_comm; apply Z.mul_div_le; lia).
  assert (Hlo : 0 <= n / len * len) by nia.
  rewrite (wrap64_small (n / len * len)) by lia.
  split; [by exists (n / len)|].
  intros Hfit. subst n. rewrite wrap64_small in * by lia.
  pose proof (Z.mod_pos_bound (b + len - 1) len ltac:(lia)) as Hmod.
  pose proof (Z.div_mod (b + len - 1) len ltac:(lia)) as Hdm.
  lia.
Qed.

(** ** Outcomes *)

Lemma bind_of_Ok {S A B} (m : M S A) (k : A -> M S B) s a s' :
  m s = Ok a s' -> bind m k s = k a s'.
Proof. unfold bind. by intros ->. Qed.

Lemma bind_of_Throw {S A B} (m : M S A) (k : A -> M S B) s e s' :
  m s = Throw e s' -> bind m k s = Throw e s'.
Proof. unfold bind. by intros ->. Qed.

Lemma bind_of_Abort {S A B} (m : M S A) (k : A -> M S B) s :
  m s = Abort -> bind m k s = Abort.
Proof. unfold bind. by intros ->. Qed.

Lemma bind_Ok_inv {S A B} (m : M S A) (k : A -> M S B) s b s2 :
  bind m k s = Ok b s2 -> exists a s1, m s = Ok a s1 /\ k a s1 = Ok b s2.
Proof. unfold bind. destruct (m s) as [a s1| |]; [eauto | done | done]. Qed.

Ltac unfold_monad :=
  repeat progress
    unfold bind, get, gets, modify, ret, throw, abort, when, CHECK, condition,
      ignoreResult in *.

Section WritableBytes.

Context `{CollaboratorOps}.

Lemma uncappedWritableBytes_spec now conn :
  limiterChecksHold conn ->
  exists uncapped, uncappedWritableBytes now conn = Ok uncapped conn /\
    match uncapped with
    | None => exists limit, writableBytesLimit conn = Some limit /\
                            limit <= totalBytesSent (lossState conn)
    | Some w => 0 <= w < two64
    end.
Proof.
  intros Hchecks. unfold uncappedWritableBytes. unfold_monad.
  destruct (bool_decide (pathChallenge (pendingEvents conn) <> None)
            || outstandingPathValidation conn) eqn:Epath.
  - destruct Hchecks as [Hlim Hnolimit].
    { apply orb_true_iff in Epath as [Hp%bool_decide_eq_true | Hp]; auto. }
    rewrite Hnolimit. destruct (pathValidationLimiter conn) as [limiter|]; [|done].
    rewrite bool_decide_eq_true_2 by done.
    rewrite bool_decide_eq_false_2 by (intros Hne; by apply Hne).
    cbn. eexists. split; [done|]. apply wrap64_range.
  - destruct (writableBytesLimit conn) as [limit|] eqn:Elimit.
    + destruct (limit <=? totalBytesSent (lossState conn)) eqn:Ecmp.
      * eexists. split; [done|]. exists limit. split; [done|]. lia.
      * eexists. split; [done|]. apply wrap64_range.
    + eexists. split; [done|]. by compute.
Qed.

Lemma capByCongestionController_range conn w :
  0 <= w < two64 -> 0 <= capByCongestionController conn w < two64.
Proof.
  intros Hw. unfold capByCongestionController.
  destruct (congestionController conn) as [cc|]; [|done].
  pose proof (wrap64_range (getWritableBytes cc)). lia.
Qed.

(** C10 (amended): on a connection with a nonzero packet size on which no
    [CHECK] fails, [congestionControlWritableBytes] returns, leaves the
    connection as it is, and its value is: zero when the writable-bytes limit
    is used up; [2^64 - 1] when the budget is unlimited; otherwise a
    non-negative multiple of [udpSendPacketLen], which is the budget rounded
    up to the next whole multiple -- and so zero only for a zero budget --
    whenever [budget + udpSendPacketLen - 1] fits 64 bits. *)
Theorem congestionControlWritableBytes_rounds_up now conn :
  0 < udpSendPacketLen conn < two64 ->
  limiterChecksHold conn ->
  exists r uncapped,
    congestionControlWritableBytes now conn = Ok r conn /\
    uncappedWritableBytes now conn = Ok uncapped conn /\
    match uncapped with
    | None =>
        r = 0 /\
        exists limit, writableBytesLimit conn = Some limit /\
                      limit <= totalBytesSent (lossState conn)
    | Some w =>
        let budget := capByCongestionController conn w in
        0 <= budget < two64 /\
        (budget = uint64_max -> r = uint64_max) /\
        (budget <> uint64_max ->
         (exists k, 0 <= k /\ r = k * udpSendPacketLen conn) /\
         (budget + udpSendPacketLen conn - 1 < two64 ->
          budget <= r < budget + udpSendPacketLen conn /\ (r = 0 <-> budget = 0)))
    end.
Proof.
  intros Hlen Hchecks.
  destruct (uncappedWritableBytes_spec now conn Hchecks) as (uncapped & Hun & Hspec).
  unfold congestionControlWritableBytes. unfold bind at 1, get at 1.
  rewrite (bind_of_Ok _ _ _ _ _ Hun).
  destruct uncapped as [w|].
  - pose proof (capByCongestionController_range conn w Hspec) as Hrange.
    set (budget := capByCongestionController conn w) in *.
    destruct (budget =? uint64_max) eqn:Emax.
    + apply Z.eqb_eq in Emax. exists budget, (Some w).
      repeat split; try done; try lia.
    + apply Z.eqb_neq in Emax. unfold roundUpToPacketLen.
      destruct (udpSendPacketLen conn =? 0) eqn:Ezero; [lia|].
      eexists _, (Some w). split; [reflexivity|]. split; [done|].
      split; [done|]. split; [done|]. intros _.
      destruct (round_up_multiple budget (udpSendPacketLen conn) Hrange Hlen)
        as [Hmult Hround].
      split; [exact Hmult|]. intros Hfit. specialize (Hround Hfit).
      split; [exact Hround|]. destruct Hmult as (k & Hk & Hr).
      split; [lia|]. intros Hzero.
      assert (k = 0) by nia. subst k. lia.
  - exists 0, None. by repeat split.
Qed.

End WritableBytes.

Section Classifier.

Context `{CollaboratorOps}.

Lemma ackDueImmediately_eq conn : ackDueImmediately conn = hasAckDataToWrite conn.
Proof.
  unfold ackDueImmediately, hasAckDataToWrite, toWriteInitialAcks,
    toWriteHandshakeAcks, toWriteAppDataAcks. cbn.
  by rewrite orb_false_r, !orb_assoc.
Qed.

Lemma cryptoDataPending_eq conn : cryptoDataPending conn = cryptoHasWritableData conn.
Proof.
  unfold cryptoDataPending, cryptoHasWritableData, streamHasPending. cbn.
  by rewrite orb_false_r, !orb_assoc.
Qed.

Lemma hasNonAckDataToWrite_firstMatch now conn :
  firstMatch (drop 3 (writeReasonPriorities now)) conn
  = Ok (hasNonAckDataToWrite conn) conn.
Proof.
  unfold hasNonAckDataToWrite, writeReasonPriorities.
  cbn [drop firstMatch]. unfold_monad. cbv beta.
  rewrite cryptoDataPending_eq, <- negb_orb.
  repeat (cbv beta;
          match goal with
          | |- (if ?b then _ else _) _ = _ => destruct b; [reflexivity|]
          end).
  reflexivity.
Qed.

Lemma firstMatch_cons test reason rest conn :
  firstMatch ((test, reason) :: rest) conn
  = match test conn with
    | Ok true conn' => reason conn'
    | Ok false conn' => firstMatch rest conn'
    | Throw e conn' => Throw e conn'
    | Abort => Abort
    end.
Proof. cbn. unfold bind. by destruct (test conn) as [[] ?| |]. Qed.

Lemma congestionControlWritableBytes_pure now conn w conn' :
  congestionControlWritableBytes now conn = Ok w conn' -> conn' = conn.
Proof.
  unfold congestionControlWritableBytes, uncappedWritableBytes, roundUpToPacketLen.
  unfold_monad. intros Ecc.
  repeat match type of Ecc with
         | context [if ?b then _ else _] => destruct b
         | context [match ?x with Some _ => _ | None => _ end] => destruct x
         end; congruence.
Qed.

(** C1: [shouldWriteData] returns the first reason of the priority table
    whose condition holds -- probes, then acks due at once, then "no write"
    (with the stats event) when the congestion controller has no room, then
    crypto data, "no write" without a 1-RTT or 0-RTT cipher, resets, stream
    window updates, the connection window update, blocked streams, stream
    data, simple frames, the path challenge, the ping -- and "no write" when
    none does.  In particular, with no probe requested, an ack that is due at
    once gives the ack reason whatever [congestionControlWritableBytes]
    would say. *)
Theorem shouldWriteData_priority now conn :
  shouldWriteData now conn = firstMatch (writeReasonPriorities now) conn
  /\ (numProbePackets (pendingEvents conn) = 0 ->
      ackDueImmediately conn = true ->
      shouldWriteData now conn = Ok ACK conn).
Proof.
  assert (Hmain : shouldWriteData now conn
                  = firstMatch (writeReasonPriorities now) conn).
  { pose proof (hasNonAckDataToWrite_firstMatch now conn) as Htail.
    set (tail := drop 3 (writeReasonPriorities now)) in *.
    change (writeReasonPriorities now)
      with ((condition (fun conn => negb (numProbePackets (pendingEvents conn) =? 0)),
             ret PROBES)
            :: (condition ackDueImmediately, ret ACK)
            :: (do writable <- congestionControlWritableBytes now; ret (writable =? 0),
                run QUIC_STATS onCwndBlocked; ret NO_WRITE)
            :: tail).
    unfold shouldWriteData. unfold bind at 1, get at 1.
    rewrite firstMatch_cons. unfold condition at 1, gets at 1.
    destruct (negb (numProbePackets (pendingEvents conn) =? 0)); [reflexivity|].
    rewrite firstMatch_cons. unfold condition at 1, gets at 1.
    rewrite ackDueImmediately_eq.
    destruct (hasAckDataToWrite conn); [reflexivity|].
    rewrite firstMatch_cons. unfold bind at 1 3.
    destruct (congestionControlWritableBytes now conn) as [w conn'| |] eqn:Ecc;
      [|reflexivity|reflexivity].
    apply congestionControlWritableBytes_pure in Ecc as ->.
    unfold ret at 2. destruct (w =? 0); [reflexivity|].
    cbv [ret]. by rewrite Htail. }
  split; [exact Hmain|].
  intros Hprobes Hack. rewrite Hmain.
  change (writeReasonPriorities now)
    with ((condition (fun conn => negb (numProbePackets (pendingEvents conn) =? 0)),
           ret PROBES)
          :: (condition ackDueImmediately, ret ACK)
          :: drop 2 (writeReasonPriorities now)).
  rewrite firstMatch_cons. unfold condition at 1, gets at 1.
  rewrite Hprobes. cbn [Z.eqb negb].
  rewrite firstMatch_cons. unfold condition at 1, gets at 1.
  by rewrite Hack.
Qed.

End Classifier.

Section Flush.

Context `{CollaboratorOps}.

Ltac unfold_batch :=
  repeat progress
    unfold bind, get, gets, modify, ret, throw, abort, when, emit, onConn, zoom,
      QUIC_STATS, modifyHappyEyeballs, pauseRead, batchWriterWrite in *.

Ltac simpl_machine :=
  cbn beta iota delta
    [m_conn m_batch m_sockReadPaused m_errno m_net m_netCalls m_clock
     m_clockReads m_trace set_m_conn set_m_batch set_m_sockReadPaused
     set_m_errno set_m_netCalls set_m_clockReads set_m_trace
     happyEyeballsState set_happyEyeballsState set_statsLog
     shouldWriteToFirstSocket shouldWriteToSecondSocket
     set_shouldWriteToFirstSocket set_shouldWriteToSecondSocket
     set_connAttemptDelayTimeout set_secondSocketReadPaused setEligible
     connAttemptDelayTimeout secondSocketReadPaused negb andb orb
     finalState firstEligible secondEligible eligible accepted staysEligible] in *.

(** What one socket write does to the machine. *)
Lemma writeBatchTo_spec sock m :
  let o := m_net m (m_netCalls m) in
  exists m',
    writeBatchTo sock m = Ok (accepted o) m' /\
    eligible sock m' = staysEligible o /\
    (forall other, other <> sock -> eligible other m' = eligible other m) /\
    connAttemptDelayTimeout (happyEyeballsState (m_conn m'))
    = connAttemptDelayTimeout (happyEyeballsState (m_conn m)) /\
    m_trace m' = m_trace m ++ SocketWrite sock o
                   :: (if staysEligible o then [] else [PauseRead sock]) /\
    m_net m' = m_net m /\ m_netCalls m' = S (m_netCalls m) /\
    m_batch m' = m_batch m.
Proof.
  intros o. subst o. unfold writeBatchTo. unfold_batch.
  destruct (m_net m (m_netCalls m)) as [bytes|err] eqn:Eo; simpl_machine.
  - assert ((0 <=? Z.of_N bytes) = true) as -> by (apply Z.leb_le; lia).
    destruct sock; simpl_machine; (eexists; split; [reflexivity|]);
      simpl_machine; rewrite <- ?app_assoc;
      (repeat split; try done); by intros [] ?.
  - change (0 <=? -1) with false.
    destruct (isRetriableError err) eqn:Eretry, sock; simpl_machine;
      (eexists; split; [reflexivity|]);
      simpl_machine; rewrite <- ?app_assoc;
      (repeat split; try done); by intros [] ?.
Qed.

(** The block that starts the second socket at once. *)
Lemma kickOff_spec (written : bool) m :
  let kick := negb written
              && bool_decide (connAttemptDelayTimeout (happyEyeballsState (m_conn m))
                              = Some true) in
  exists m',
    when kick
      (run emit CancelTimeout;
       run modifyHappyEyeballs (set_connAttemptDelayTimeout (Some false));
       modifyHappyEyeballs happyEyeballsStartSecondSocket) m = Ok tt m' /\
    m_trace m' = m_trace m ++ (if kick then [CancelTimeout] else []) /\
    (startKeepsFirstSocket -> firstEligible m' = firstEligible m) /\
    m_net m' = m_net m /\ m_netCalls m' = m_netCalls m /\ m_batch m' = m_batch m.
Proof.
  intros kick. destruct kick; unfold_batch; simpl_machine.
  - eexists. split; [reflexivity|]. simpl_machine.
    repeat split; try done. intros Hkeep. unfold firstEligible. simpl_machine.
    by rewrite Hkeep.
  - eexists. split; [reflexivity|]. rewrite app_nil_r. by repeat split.
Qed.

(** [flushWrites] from the kick-off of the second socket onwards. *)
Lemma flushWrites_second_spec (written1 : bool) m1 :
  exists written m2 evs,
    (do he <- gets (fun m => happyEyeballsState (m_conn m));
     run when (negb written1
               && bool_decide (connAttemptDelayTimeout he = Some true))
           (run emit CancelTimeout;
            run modifyHappyEyeballs (set_connAttemptDelayTimeout (Some false));
            modifyHappyEyeballs happyEyeballsStartSecondSocket);
     do he <- gets (fun m => happyEyeballsState (m_conn m));
     if shouldWriteToSecondSocket he then
       do consumed <- writeBatchTo SecondSocket;
       ret (written1 || consumed)
     else ret written1) m1 = Ok written m2 /\
    m_trace m2 = m_trace m1 ++ evs /\
    m_batch m2 = m_batch m1 /\
    (startKeepsFirstSocket -> firstEligible m2 = firstEligible m1) /\
    (forall o, In (SocketWrite SecondSocket o) evs ->
               secondEligible m2 = staysEligible o
               /\ (staysEligible o = true -> ~ In (PauseRead SecondSocket) evs)
               /\ (accepted o = true -> written = true)) /\
    (forall o, ~ In (SocketWrite FirstSocket o) evs) /\
    ~ In (PauseRead FirstSocket) evs /\
    (written = true ->
     written1 = true \/ exists bytes, In (SocketWrite SecondSocket (Consumed bytes)) evs) /\
    (written1 = true -> written = true).
Proof.
  unfold bind at 1, gets at 1.
  destruct (kickOff_spec written1 m1)
    as (m1' & Ekick & Htr & Hkeep & Hnet & Hcalls & Hbatch).
  rewrite (bind_of_Ok _ _ _ _ _ Ekick). unfold bind at 1, gets at 1.
  destruct (shouldWriteToSecondSocket (happyEyeballsState (m_conn m1'))) eqn:Esecond.
  - destruct (writeBatchTo_spec SecondSocket m1')
      as (m2 & E2 & Hel2 & Hoth2 & Hto2 & Htr2 & Hnet2 & Hcalls2 & Hbatch2).
    rewrite (bind_of_Ok _ _ _ _ _ E2). unfold ret.
    set (o2 := m_net m1' (m_netCalls m1')) in *.
    eexists _, m2, _. split; [reflexivity|].
    split; [rewrite Htr2, Htr, <- app_assoc; reflexivity|].
    split; [congruence|].
    split.
    { intros Hk. rewrite <- (Hkeep Hk). by apply (Hoth2 FirstSocket). }
    split.
    { intros o Hin. apply in_app_or in Hin as [Hin|Hin].
      - destruct (_ && _) in Hin; cbn in Hin; intuition congruence.
      - cbn in Hin. destruct Hin as [Heq|Hin].
        + inversion Heq; subst o. split; [exact Hel2|]. split.
          * intros Hstay Hp. rewrite Hstay in Hp.
            apply in_app_or in Hp as [Hp|Hp]; cbn in Hp.
            -- destruct (_ && _) in Hp; cbn in Hp; intuition congruence.
            -- intuition congruence.
          * intros ->. apply orb_true_r.
        + destruct (staysEligible o2); cbn in Hin; intuition congruence. }
    split.
    { intros o Hin. apply in_app_or in Hin as [Hin|Hin]; cbn in Hin.
      - destruct (_ && _) in Hin; cbn in Hin; intuition congruence.
      - destruct (staysEligible o2); cbn in Hin; intuition congruence. }
    split.
    { intros Hin. apply in_app_or in Hin as [Hin|Hin]; cbn in Hin.
      - destruct (_ && _) in Hin; cbn in Hin; intuition congruence.
      - destruct (staysEligible o2); cbn in Hin; intuition congruence. }
    split.
    { intros Hw. apply orb_true_iff in Hw as [Hw|Hw]; [by left|right].
      destruct o2 as [bytes|err] eqn:Eo2; [|done].
      exists bytes. apply in_or_app. right. by left. }
    intros ->. reflexivity.
  - unfold ret. eexists _, m1', _. split; [reflexivity|].
    split; [exact Htr|]. split; [exact Hbatch|]. split; [exact Hkeep|].
    repeat split; try (intros; destruct (_ && _) in *; cbn in *; intuition congruence).
Qed.

Lemma flushWrites_spec m :
  exists written m2 evs,
    flushWrites m = Ok written m2 /\
    m_trace m2 = m_trace m ++ evs /\
    m_batch m2 = m_batch m /\
    (forall sock o, In (SocketWrite sock o) evs ->
       (sock = FirstSocket -> startKeepsFirstSocket) ->
       eligible sock m2 = staysEligible o) /\
    (forall sock o, In (SocketWrite sock o) evs -> staysEligible o = true ->
                    ~ In (PauseRead sock) evs) /\
    (written = true <-> exists sock bytes, In (SocketWrite sock (Consumed bytes)) evs).
Proof.
  unfold flushWrites. unfold bind at 1, get at 1.
  destruct (shouldWriteToFirstSocket (happyEyeballsState (m_conn m))) eqn:Efirst.
  - destruct (writeBatchTo_spec FirstSocket m)
      as (m1 & E1 & Hel1 & Hoth1 & Hto1 & Htr1 & Hnet1 & Hcalls1 & Hbatch1).
    rewrite (bind_of_Ok _ _ _ _ _ E1).
    set (o1 := m_net m (m_netCalls m)) in *.
    destruct (flushWrites_second_spec (accepted o1) m1)
      as (written & m2 & evs & E2 & Htr2 & Hbatch2 & Hkeep & Hsecond & Hnofirst
          & Hnopause & Hw & Hw1).
    rewrite E2. eexists written, m2, _. split; [reflexivity|].
    split; [rewrite Htr2, Htr1, <- app_assoc; reflexivity|].
    split; [congruence|].
    split.
    { intros sock o Hin Hk. cbn in Hin. destruct Hin as [Heq|Hin].
      - inversion Heq; subst sock o. cbn. rewrite (Hkeep (Hk eq_refl)). exact Hel1.
      - apply in_app_or in Hin as [Hin|Hin].
        + destruct (staysEligible o1); cbn in Hin; intuition congruence.
        + destruct sock; [by apply Hnofirst in Hin|]. by apply Hsecond. }
    split.
    { intros sock o Hin Hstay Hp. cbn in Hin, Hp.
      destruct Hp as [Hp|Hp]; [done|].
      destruct Hin as [Heq|Hin].
      - inversion Heq; subst sock o. rewrite Hstay in Hp. by cbn in Hp.
      - apply in_app_or in Hin as [Hin|Hin].
        + destruct (staysEligible o1); cbn in Hin; intuition congruence.
        + destruct sock; [by apply Hnofirst in Hin|].
          apply in_app_or in Hp as [Hp|Hp].
          * destruct (staysEligible o1); cbn in Hp; intuition congruence.
          * by apply (Hsecond o Hin). }
    split.
    { intros Hwritten. destruct (Hw Hwritten) as [Hacc|(bytes & Hin)].
      - destruct o1 as [bytes|] eqn:Eo1; [|done].
        exists FirstSocket, bytes. by left.
      - exists SecondSocket, bytes. right. apply in_or_app. by right. }
    intros (sock & bytes & Hin). cbn in Hin. destruct Hin as [Heq|Hin].
    { inversion Heq as [[Hs Ho]]. apply Hw1. by rewrite Ho. }
    apply in_app_or in Hin as [Hin|Hin].
    { destruct (staysEligible o1); cbn in Hin; intuition congruence. }
    destruct sock; [by apply Hnofirst in Hin|]. by apply (Hsecond _ Hin).
  - unfold ret at 1.
    destruct (flushWrites_second_spec false m)
      as (written & m2 & evs & E2 & Htr2 & Hbatch2 & Hkeep & Hsecond & Hnofirst
          & Hnopause & Hw & Hw1).
    rewrite (bind_of_Ok _ _ m false m eq_refl), E2.
    eexists written, m2, evs. split; [reflexivity|].
    split; [done|]. split; [done|].
    split.
    { intros sock o Hin _. destruct sock; [by apply Hnofirst in Hin|].
      by apply Hsecond. }
    split.
    { intros sock o Hin Hstay. destruct sock; [by apply Hnofirst in Hin|].
      by apply (Hsecond o Hin). }
    split.
    { intros Hwritten. destruct (Hw Hwritten) as [?|(bytes & Hin)]; [done|].
      by exists SecondSocket, bytes. }
    intros (sock & bytes & Hin). destruct sock; [by apply Hnofirst in Hin|].
    by apply (Hsecond _ Hin).
Qed.

Lemma flushVerdict_spec (written : bool) m2 :
  exists m',
    flushVerdict written m2
    = (if negb (firstEligible m2) && negb (secondEligible m2)
       then Throw (socketWriteError m') m' else Ok written m') /\
    happyEyeballsState (m_conn m') = happyEyeballsState (m_conn m2) /\
    m_errno m' = m_errno m2 /\ m_trace m' = m_trace m2 /\
    m_sockReadPaused m' = m_sockReadPaused m2 /\ m_batch m' = m_batch m2.
Proof.
  exists (if written then m2
          else set_m_conn
                 (set_statsLog
                    (statsLog (m_conn m2) ++ [onUDPSocketWriteError (m_errno m2)])
                    (m_conn m2)) m2).
  unfold flushVerdict, socketWriteError, firstEligible, secondEligible.
  unfold_batch.
  destruct written; simpl_machine;
    destruct (shouldWriteToFirstSocket (happyEyeballsState (m_conn m2))),
      (shouldWriteToSecondSocket (happyEyeballsState (m_conn m2)));
    simpl_machine; try (by repeat split);
    destruct (isNetworkUnreachable (m_errno m2)) eqn:Eunreach;
    by repeat split.
Qed.

Lemma flushInternal_spec m :
  batchEmpty (batchWriter (m_batch m)) = false ->
  exists written m' evs,
    flushInternal m
    = (if negb (firstEligible m') && negb (secondEligible m')
       then Throw (socketWriteError m') m' else Ok written m') /\
    m_trace m' = m_trace m ++ evs /\
    (forall sock o, In (SocketWrite sock o) evs ->
       (sock = FirstSocket -> startKeepsFirstSocket) ->
       eligible sock m' = staysEligible o) /\
    (forall sock o, In (SocketWrite sock o) evs -> staysEligible o = true ->
                    ~ In (PauseRead sock) evs) /\
    (written = true <-> exists sock bytes, In (SocketWrite sock (Consumed bytes)) evs).
Proof.
  intros Hne. unfold flushInternal. unfold bind at 1, get at 1. rewrite Hne.
  destruct (flushWrites_spec m)
    as (written & m2 & evs & E2 & Htr2 & Hbatch2 & Hel & Hpause & Hw).
  rewrite (bind_of_Ok _ _ _ _ _ E2).
  destruct (flushVerdict_spec written m2)
    as (m' & Ev & Hhe & Herrno & Htr & Hpaused & Hbatch).
  exists written, m', evs.
  assert (Hflags : forall sock, eligible sock m' = eligible sock m2).
  { intros []; cbn; unfold firstEligible, secondEligible; by rewrite Hhe. }
  split.
  { rewrite Ev. unfold firstEligible, secondEligible. by rewrite Hhe. }
  split; [congruence|].
  split; [|done].
  intros sock o Hin Hk. rewrite Hflags. by apply Hel.
Qed.

(** C6: a flush of a non-empty batch never aborts; when it ends with both
    sockets ineligible it raises one error, a [QuicInternalException] with
    [CONNECTION_ABANDONED] when [errno] says the network is unreachable and
    a [QuicTransportException] with [INTERNAL_ERROR] otherwise; and it
    raises nothing in any other case. *)
Theorem flushInternal_both_sockets_ineligible m :
  batchEmpty (batchWriter (m_batch m)) = false ->
  exists m',
    finalState (flushInternal m) = Some m' /\
    (firstEligible m' = false -> secondEligible m' = false ->
     flushInternal m
     = Throw (if isNetworkUnreachable (m_errno m')
              then QuicInternalException CONNECTION_ABANDONED
              else QuicTransportException INTERNAL_ERROR) m') /\
    (forall e, flushInternal m = Throw e m' ->
               firstEligible m' = false /\ secondEligible m' = false).
Proof.
  intros Hne.
  destruct (flushInternal_spec m Hne) as (written & m' & evs & E & _).
  exists m'. rewrite E.
  destruct (firstEligible m'), (secondEligible m'); cbn; repeat split; done.
Qed.

(** C7 (amended): when a socket write of a flush fails with a retriable
    [errno] (EAGAIN, EWOULDBLOCK, ENOBUFS or EMSGSIZE), the flush raises no
    error, the socket stays eligible for writing and its read side is not
    paused; the flush returns false exactly when no socket accepted the
    batch.  (For the first socket this relies on the start of the second
    socket leaving the first socket's eligibility alone.) *)
Theorem flushInternal_retriable_failure m m' sock err :
  batchEmpty (batchWriter (m_batch m)) = false ->
  (sock = FirstSocket -> startKeepsFirstSocket) ->
  isRetriableError err = true ->
  finalState (flushInternal m) = Some m' ->
  In (SocketWrite sock (Failed err)) (newEvents m m') ->
  (exists returned,
     flushInternal m = Ok returned m' /\
     (returned = false <->
      ~ exists other bytes, In (SocketWrite other (Consumed bytes)) (newEvents m m'))) /\
  eligible sock m' = true /\
  ~ In (PauseRead sock) (newEvents m m').
Proof.
  intros Hne Hkeep Hretry Hfinal Hin.
  destruct (flushInternal_spec m Hne)
    as (written & m1 & evs & E & Htr & Hel & Hpause & Hw).
  assert (m1 = m') as ->.
  { rewrite E in Hfinal. destruct (_ && _) in Hfinal; cbn in Hfinal; congruence. }
  assert (Hnew : newEvents m m' = evs).
  { unfold newEvents. rewrite Htr. apply drop_app_length. }
  rewrite Hnew in *.
  assert (Hsock : eligible sock m' = true).
  { rewrite (Hel sock (Failed err) Hin Hkeep). exact Hretry. }
  split; [|split; [exact Hsock|]].
  - exists written. split.
    + rewrite E. destruct sock; cbn in Hsock; rewrite Hsock; cbn; [done|].
      by rewrite andb_false_r.
    + split.
      * intros -> Hex. apply Hw in Hex. done.
      * intros Hnone. destruct written; [|done]. exfalso. apply Hnone.
        by apply Hw.
  - by apply (Hpause sock (Failed err)).
Qed.


(** ** Further properties of a flush *)

Lemma writeBatchTo_full sock m :
  let o := m_net m (m_netCalls m) in
  exists m',
    writeBatchTo sock m = Ok (accepted o) m' /\
    happyEyeballsState (m_conn m')
    = (if staysEligible o then id else
         match sock with
         | FirstSocket => id
         | SecondSocket => set_secondSocketReadPaused true
         end)
        (setEligible sock (staysEligible o) (happyEyeballsState (m_conn m))) /\
    m_trace m' = m_trace m ++ writeEvents sock o /\
    m_net m' = m_net m /\ m_netCalls m' = S (m_netCalls m) /\
    m_batch m' = m_batch m /\
    statsLog (m_conn m') = statsLog (m_conn m) /\
    m_errno m' = match o with Consumed _ => m_errno m | Failed err => err end /\
    m_sockReadPaused m'
    = (match sock with
       | FirstSocket => negb (staysEligible o)
       | SecondSocket => false
       end || m_sockReadPaused m).
Proof.
  intros o. subst o. unfold writeBatchTo, writeEvents. unfold_batch.
  destruct (m_net m (m_netCalls m)) as [bytes|err] eqn:Eo; simpl_machine.
  - assert ((0 <=? Z.of_N bytes) = true) as -> by (apply Z.leb_le; lia).
    destruct sock; simpl_machine; (eexists; split; [reflexivity|]);
      simpl_machine; rewrite <- ?app_assoc; by repeat split.
  - change (0 <=? -1) with false.
    destruct (isRetriableError err) eqn:Eretry, sock; simpl_machine;
      (eexists; split; [reflexivity|]);
      simpl_machine; rewrite <- ?app_assoc; by repeat split.
Qed.

Lemma flushWrites_full m :
  exists m2,
    flushWrites m = Ok (outlineWritten (flushOutline m)) m2 /\
    m_trace m2 = m_trace m ++ outlineEvents (flushOutline m) /\
    happyEyeballsState (m_conn m2) = fo_he (flushOutline m) /\
    m_errno m2 = fo_errno (flushOutline m) /\
    statsLog (m_conn m2) = statsLog (m_conn m) /\
    m_batch m2 = m_batch m.
Proof.
  unfold flushWrites, flushOutline, outlineEvents, outlineWritten.
  unfold bind at 1, get at 1.
  cbn [fo_first fo_kick fo_second fo_he fo_errno].
  set (he := happyEyeballsState (m_conn m)).
  assert (Hfirst : exists m1,
    (if shouldWriteToFirstSocket he then writeBatchTo FirstSocket else ret false) m
    = Ok (from_option accepted false
            (if shouldWriteToFirstSocket he then Some (m_net m (m_netCalls m)) else None))
         m1 /\
    happyEyeballsState (m_conn m1)
    = from_option (fun o => afterWrite FirstSocket o he) he
        (if shouldWriteToFirstSocket he then Some (m_net m (m_netCalls m)) else None) /\
    m_trace m1
    = m_trace m ++ from_option (writeEvents FirstSocket) []
        (if shouldWriteToFirstSocket he then Some (m_net m (m_netCalls m)) else None) /\
    m_net m1 = m_net m /\
    m_netCalls m1 = (if shouldWriteToFirstSocket he then S (m_netCalls m)
                     else m_netCalls m) /\
    m_batch m1 = m_batch m /\
    statsLog (m_conn m1) = statsLog (m_conn m) /\
    m_errno m1
    = from_option (fun o => errnoAfter o (m_errno m)) (m_errno m)
        (if shouldWriteToFirstSocket he then Some (m_net m (m_netCalls m)) else None)).
  { destruct (shouldWriteToFirstSocket he); cbn [from_option].
    - destruct (writeBatchTo_full FirstSocket m)
        as (m1 & E1 & Hhe1 & Htr1 & Hnet1 & Hcalls1 & Hbatch1 & Hstats1 & Herrno1 & _).
      exists m1. by repeat split.
    - exists m. rewrite app_nil_r. by repeat split. }
  destruct Hfirst as (m1 & E1 & Hhe1 & Htr1 & Hnet1 & Hcalls1 & Hbatch1 & Hstats1 & Herrno1).
  rewrite (bind_of_Ok _ _ _ _ _ E1).
  set (first := if shouldWriteToFirstSocket he then Some (m_net m (m_netCalls m))
                else None) in *.
  set (he1 := from_option (fun o => afterWrite FirstSocket o he) he first) in *.
  set (written1 := from_option accepted false first) in *.
  unfold bind at 1, gets at 1. rewrite Hhe1.
  assert (Hkick : exists m1',
    when (negb written1 && bool_decide (connAttemptDelayTimeout he1 = Some true))
      (run emit CancelTimeout;
       run modifyHappyEyeballs (set_connAttemptDelayTimeout (Some false));
       modifyHappyEyeballs happyEyeballsStartSecondSocket) m1 = Ok tt m1' /\
    happyEyeballsState (m_conn m1')
    = (if negb written1 && bool_decide (connAttemptDelayTimeout he1 = Some true)
       then happyEyeballsStartSecondSocket (set_connAttemptDelayTimeout (Some false) he1)
       else he1) /\
    m_trace m1'
    = m_trace m1 ++ (if negb written1
                        && bool_decide (connAttemptDelayTimeout he1 = Some true)
                     then [CancelTimeout] else []) /\
    m_net m1' = m_net m1 /\ m_netCalls m1' = m_netCalls m1 /\
    m_batch m1' = m_batch m1 /\ statsLog (m_conn m1') = statsLog (m_conn m1) /\
    m_errno m1' = m_errno m1).
  { destruct (negb written1 && _); unfold when; unfold_batch; simpl_machine.
    - eexists. split; [reflexivity|]. simpl_machine. rewrite Hhe1. by repeat split.
    - exists m1. rewrite app_nil_r. by repeat split. }
  destruct Hkick as (m1' & Ek & Hhek & Htrk & Hnetk & Hcallsk & Hbatchk & Hstatsk & Herrnok).
  rewrite (bind_of_Ok _ _ _ _ _ Ek).
  set (kick := negb written1 && bool_decide (connAttemptDelayTimeout he1 = Some true)) in *.
  unfold bind at 1, gets at 1. rewrite Hhek.
  set (he2 := if kick then _ else he1) in *.
  assert (Hcalls : m_net m1' (m_netCalls m1')
                   = m_net m (if first is Some _ then S (m_netCalls m) else m_netCalls m)).
  { rewrite Hnetk, Hcallsk, Hnet1, Hcalls1. subst first.
    by destruct (shouldWriteToFirstSocket he). }
  destruct (shouldWriteToSecondSocket he2) eqn:Esecond; cbn [from_option].
  - destruct (writeBatchTo_full SecondSocket m1')
      as (m2 & E2 & Hhe2 & Htr2 & Hnet2 & Hcalls2 & Hbatch2 & Hstats2 & Herrno2 & _).
    rewrite (bind_of_Ok _ _ _ _ _ E2). rewrite Hcalls in *.
    exists m2. split; [reflexivity|].
    rewrite Htr2, Hhe2, Herrno2, Hstats2, Hbatch2, Htrk, Hhek, Herrnok, Hstatsk,
      Hbatchk, Htr1, Herrno1, Hstats1, Hbatch1.
    rewrite <- !app_assoc. by repeat split.
  - exists m1'. split; [unfold ret; by rewrite orb_false_r|].
    rewrite Htrk, Hhek, Herrnok, Hstatsk, Hbatchk, Htr1, Herrno1, Hstats1, Hbatch1.
    rewrite app_nil_r, <- !app_assoc. by repeat split.
Qed.

Lemma flushInternal_full m :
  batchEmpty (batchWriter (m_batch m)) = false ->
  let fo := flushOutline m in
  exists m',
    flushInternal m
    = (if negb (shouldWriteToFirstSocket (fo_he fo))
          && negb (shouldWriteToSecondSocket (fo_he fo))
       then Throw (socketWriteError m') m' else Ok (outlineWritten fo) m') /\
    m_trace m' = m_trace m ++ outlineEvents fo /\
    happyEyeballsState (m_conn m') = fo_he fo /\
    m_errno m' = fo_errno fo /\
    statsLog (m_conn m')
    = statsLog (m_conn m)
      ++ (if outlineWritten fo then [] else [onUDPSocketWriteError (fo_errno fo)]) /\
    m_batch m' = m_batch m.
Proof.
  intros Hne fo. unfold flushInternal. unfold bind at 1, get at 1. rewrite Hne.
  destruct (flushWrites_full m) as (m2 & E2 & Htr2 & Hhe2 & Herrno2 & Hstats2 & Hbatch2).
  rewrite (bind_of_Ok _ _ _ _ _ E2). fold fo in Htr2, Hhe2, Herrno2 |- *.
  exists (if outlineWritten fo then m2
          else set_m_conn
                 (set_statsLog
                    (statsLog (m_conn m2) ++ [onUDPSocketWriteError (m_errno m2)])
                    (m_conn m2)) m2).
  unfold flushVerdict, socketWriteError. unfold_batch.
  destruct (outlineWritten fo); simpl_machine; rewrite Hhe2;
    destruct (shouldWriteToFirstSocket (fo_he fo)),
      (shouldWriteToSecondSocket (fo_he fo));
    simpl_machine; rewrite ?app_nil_r, ?Hstats2, ?Herrno2;
    try (by repeat split);
    destruct (isNetworkUnreachable (m_errno m2)) eqn:Eunreach;
    rewrite ?Herrno2 in *; rewrite ?Eunreach; by repeat split.
Qed.

Lemma finalState_flushInternal m m' :
  batchEmpty (batchWriter (m_batch m)) = false ->
  finalState (flushInternal m) = Some m' ->
  let fo := flushOutline m in
  flushInternal m
  = (if negb (shouldWriteToFirstSocket (fo_he fo))
        && negb (shouldWriteToSecondSocket (fo_he fo))
     then Throw (socketWriteError m') m' else Ok (outlineWritten fo) m') /\
  newEvents m m' = outlineEvents fo /\
  happyEyeballsState (m_conn m') = fo_he fo /\
  m_errno m' = fo_errno fo /\
  statsLog (m_conn m')
  = statsLog (m_conn m)
    ++ (if outlineWritten fo then [] else [onUDPSocketWriteError (fo_errno fo)]) /\
  m_batch m' = m_batch m.
Proof.
  intros Hne Hfinal fo.
  destruct (flushInternal_full m Hne) as (m1 & E & Htr & Hrest). fold fo in E, Htr, Hrest.
  assert (m1 = m') as ->.
  { rewrite E in Hfinal. destruct (_ && _) in Hfinal; cbn in Hfinal; congruence. }
  split; [exact E|]. split; [|exact Hrest].
  unfold newEvents. rewrite Htr. apply drop_app_length.
Qed.

Lemma in_writeEvents ev sock o :
  In ev (writeEvents sock o)
  <-> ev = SocketWrite sock o \/ (staysEligible o = false /\ ev = PauseRead sock).
Proof.
  unfold writeEvents. destruct (staysEligible o); cbn; intuition congruence.
Qed.

Lemma in_outlineEvents ev fo :
  In ev (outlineEvents fo)
  <-> (exists o, fo_first fo = Some o /\ In ev (writeEvents FirstSocket o))
      \/ (fo_kick fo = true /\ ev = CancelTimeout)
      \/ (exists o, fo_second fo = Some o /\ In ev (writeEvents SecondSocket o)).
Proof.
  unfold outlineEvents. rewrite !in_app_iff.
  destruct (fo_first fo) as [o1|], (fo_kick fo), (fo_second fo) as [o2|];
    cbn [from_option]; cbn [In]; split; intros Hin;
    repeat match goal with
           | H : _ \/ _ |- _ => destruct H
           | H : _ /\ _ |- _ => destruct H
           | H : exists _, _ |- _ => destruct H
           | H : Some _ = Some _ |- _ => injection H as ->
           end; try done; eauto 6.
Qed.

Lemma afterWrite_first sock o he :
  shouldWriteToFirstSocket (afterWrite sock o he)
  = match sock with
    | FirstSocket => staysEligible o
    | SecondSocket => shouldWriteToFirstSocket he
    end.
Proof. unfold afterWrite. by destruct sock, (staysEligible o). Qed.

Lemma afterWrite_second sock o he :
  shouldWriteToSecondSocket (afterWrite sock o he)
  = match sock with
    | FirstSocket => shouldWriteToSecondSocket he
    | SecondSocket => staysEligible o
    end.
Proof. unfold afterWrite. by destruct sock, (staysEligible o). Qed.

Lemma afterWrite_timeout sock o he :
  connAttemptDelayTimeout (afterWrite sock o he) = connAttemptDelayTimeout he.
Proof. unfold afterWrite. by destruct sock, (staysEligible o). Qed.

(** What the outline says about the socket flags a flush leaves. *)
Lemma outline_first_socket m o :
  fo_first (flushOutline m) = Some o ->
  firstEligible m = true
  /\ o = m_net m (m_netCalls m)
  /\ (fo_kick (flushOutline m) = false \/ startKeepsFirstSocket ->
      shouldWriteToFirstSocket (fo_he (flushOutline m)) = staysEligible o).
Proof.
  unfold flushOutline, firstEligible. cbn [fo_first fo_he fo_kick].
  destruct (shouldWriteToFirstSocket (happyEyeballsState (m_conn m))); [|done].
  intros [= <-]. split; [done|]. split; [done|]. cbn [from_option].
  set (he1 := afterWrite FirstSocket _ _).
  intros Hkick.
  assert (Hhe2 : shouldWriteToFirstSocket
                   (if negb (accepted (m_net m (m_netCalls m)))
                       && bool_decide (connAttemptDelayTimeout he1 = Some true)
                    then happyEyeballsStartSecondSocket
                           (set_connAttemptDelayTimeout (Some false) he1)
                    else he1)
                 = staysEligible (m_net m (m_netCalls m))).
  { destruct (negb _ && _).
    - destruct Hkick as [?|Hkeep]; [done|]. rewrite Hkeep. cbn.
      subst he1. by rewrite afterWrite_first.
    - subst he1. by rewrite afterWrite_first. }
  destruct (shouldWriteToSecondSocket _); cbn [from_option]; [|exact Hhe2].
  by rewrite afterWrite_first.
Qed.

Lemma outline_second_socket m o :
  fo_second (flushOutline m) = Some o ->
  shouldWriteToSecondSocket (fo_he (flushOutline m)) = staysEligible o
  /\ (secondEligible m = true \/ fo_kick (flushOutline m) = true).
Proof.
  unfold flushOutline, secondEligible. cbn [fo_second fo_he fo_kick].
  set (he := happyEyeballsState (m_conn m)).
  set (first := if shouldWriteToFirstSocket he then _ else _).
  set (he1 := from_option _ he first).
  assert (Hhe1 : shouldWriteToSecondSocket he1 = shouldWriteToSecondSocket he).
  { subst he1. destruct first; cbn [from_option]; [|done]. by rewrite afterWrite_second. }
  destruct (negb _ && _) eqn:Ekick.
  - lazymatch goal with
    | |- (if ?c then _ else _) = _ -> _ => destruct c eqn:Esecond; [|done]
    end.
    intros [= <-]. cbn [from_option]. rewrite afterWrite_second. auto.
  - lazymatch goal with
    | |- (if ?c then _ else _) = _ -> _ => destruct c eqn:Esecond; [|done]
    end.
    intros [= <-]. cbn [from_option]. rewrite afterWrite_second.
    split; [done|]. left. congruence.
Qed.

Lemma outline_kick m :
  fo_kick (flushOutline m)
  = negb (from_option accepted false (fo_first (flushOutline m)))
    && bool_decide (connAttemptDelayTimeout (happyEyeballsState (m_conn m)) = Some true).
Proof.
  unfold flushOutline. cbn [fo_first fo_kick].
  destruct (shouldWriteToFirstSocket _); cbn [from_option]; [|done].
  by rewrite afterWrite_timeout.
Qed.

Lemma outline_first_accepted m bytes :
  fo_first (flushOutline m) = Some (Consumed bytes) ->
  shouldWriteToFirstSocket (fo_he (flushOutline m)) = true.
Proof.
  intros Ho. destruct (outline_first_socket m _ Ho) as (_ & _ & Hflag).
  apply Hflag. left. rewrite outline_kick, Ho. done.
Qed.

(** X1: when a socket accepts the batch of a flush, the flush raises
    nothing and returns true, the accepting socket stays eligible and no
    write error is reported to the statistics, whatever happened at the
    other socket. *)
Theorem flushInternal_accepted_by_one_socket m m' sock bytes :
  batchEmpty (batchWriter (m_batch m)) = false ->
  finalState (flushInternal m) = Some m' ->
  In (SocketWrite sock (Consumed bytes)) (newEvents m m') ->
  flushInternal m = Ok true m'
  /\ eligible sock m' = true
  /\ statsLog (m_conn m') = statsLog (m_conn m).
Proof.
  intros Hne Hfinal Hin.
  destruct (finalState_flushInternal m m' Hne Hfinal)
    as (E & Hnew & Hhe & Herrno & Hstats & Hbatch).
  rewrite Hnew in Hin. apply in_outlineEvents in Hin.
  set (fo := flushOutline m) in *.
  assert (Hacc : outlineWritten fo = true /\ eligible sock m' = true).
  { unfold eligible, firstEligible, secondEligible. rewrite Hhe. unfold outlineWritten.
    destruct Hin as [(o & Ho & Hin)|[[_ ?]|(o & Ho & Hin)]]; [|done|].
    - apply in_writeEvents in Hin as [Heq|[_ ?]]; [|done].
      injection Heq as -> <-. rewrite Ho. split; [done|].
      by apply (outline_first_accepted m bytes).
    - apply in_writeEvents in Hin as [Heq|[_ ?]]; [|done].
      injection Heq as -> <-. rewrite Ho. split; [apply orb_true_r|].
      exact (proj1 (outline_second_socket m _ Ho)). }
  destruct Hacc as [Hw Hel]. rewrite Hw in *. rewrite app_nil_r in Hstats.
  split; [|by split].
  rewrite E. unfold eligible, firstEligible, secondEligible in Hel. rewrite Hhe in Hel.
  destruct sock; rewrite Hel; cbn; [done|]. by rewrite andb_false_r.
Qed.

Lemma writeEvents_socket sock o :
  Forall (fun ev => eventSocket ev = Some sock) (writeEvents sock o).
Proof. unfold writeEvents. destruct (staysEligible o); by repeat constructor. Qed.

(** X2: a flush starts the second socket at once (it cancels the
    connection-attempt delay timeout) exactly when that timeout is scheduled
    and no write to the first socket was accepted; the cancellation comes
    after everything that concerns the first socket and before everything
    that concerns the second. *)
Theorem flushInternal_starts_second_socket m m' :
  batchEmpty (batchWriter (m_batch m)) = false ->
  finalState (flushInternal m) = Some m' ->
  (In CancelTimeout (newEvents m m')
   <-> connAttemptDelayTimeout (happyEyeballsState (m_conn m)) = Some true
       /\ ~ exists bytes,
            In (SocketWrite FirstSocket (Consumed bytes)) (newEvents m m'))
  /\ (In CancelTimeout (newEvents m m') ->
      exists before after,
        newEvents m m' = before ++ CancelTimeout :: after
        /\ Forall (fun ev => eventSocket ev = Some FirstSocket) before
        /\ Forall (fun ev => eventSocket ev = Some SecondSocket) after).
Proof.
  intros Hne Hfinal.
  destruct (finalState_flushInternal m m' Hne Hfinal) as (_ & -> & _).
  set (fo := flushOutline m).
  assert (Hkick : In CancelTimeout (outlineEvents fo) <-> fo_kick fo = true).
  { rewrite in_outlineEvents. split.
    - intros [(o & _ & Hin)|[[? _]|(o & _ & Hin)]]; [|done|];
        apply in_writeEvents in Hin as [?|[_ ?]]; done.
    - intros Hk. right. by left. }
  assert (Hacc : (exists bytes,
                    In (SocketWrite FirstSocket (Consumed bytes)) (outlineEvents fo))
                 <-> from_option accepted false (fo_first fo) = true).
  { split.
    - intros (bytes & Hin). apply in_outlineEvents in Hin.
      destruct Hin as [(o & Ho & Hin)|[[_ ?]|(o & _ & Hin)]]; [|done|];
        apply in_writeEvents in Hin as [Heq|[_ ?]]; try done.
      injection Heq as <-. by rewrite Ho.
    - destruct (fo_first fo) as [[bytes|]|] eqn:Ho; try done. intros _.
      exists bytes. apply in_outlineEvents. left. eexists. split; [done|].
      apply in_writeEvents. by left. }
  split.
  - rewrite Hkick, Hacc. subst fo. rewrite outline_kick, andb_true_iff.
    rewrite bool_decide_eq_true, negb_true_iff.
    destruct (from_option accepted false _); intuition congruence.
  - rewrite Hkick. intros Hk. unfold outlineEvents. rewrite Hk.
    eexists _, _. split; [reflexivity|]. split.
    + destruct (fo_first fo); [apply writeEvents_socket|constructor].
    + destruct (fo_second fo); [apply writeEvents_socket|constructor].
Qed.

Lemma outlineWritten_events fo :
  outlineWritten fo = existsb isAcceptedWrite (outlineEvents fo).
Proof.
  unfold outlineWritten, outlineEvents. rewrite !existsb_app.
  assert (Hw : forall sock o, existsb isAcceptedWrite (writeEvents sock o) = accepted o).
  { intros sock [bytes|err]; cbn; [done|]. by destruct (isRetriableError err). }
  destruct (fo_first fo), (fo_kick fo), (fo_second fo); cbn [from_option];
    rewrite ?Hw; cbn; by rewrite ?orb_false_r.
Qed.

(** X3: a flush of a non-empty batch reports a socket write error to the
    statistics, with the [errno] it ends with, exactly when no socket
    accepted the batch, whether it then returns false or raises; it reports
    nothing else. *)
Theorem flushInternal_reports_write_error m m' :
  batchEmpty (batchWriter (m_batch m)) = false ->
  finalState (flushInternal m) = Some m' ->
  statsLog (m_conn m')
  = statsLog (m_conn m)
    ++ (if existsb isAcceptedWrite (newEvents m m') then []
        else [onUDPSocketWriteError (m_errno m')]).
Proof.
  intros Hne Hfinal.
  destruct (finalState_flushInternal m m' Hne Hfinal)
    as (_ & -> & _ & -> & -> & _).
  by rewrite outlineWritten_events.
Qed.

(** X4: a flush writes the batch at most once to each socket, to the first
    socket before the second; it writes to the first socket exactly when
    that socket is eligible at the start, and to the second socket only if
    it was eligible at the start or was started at once, and always if it
    was eligible and nothing was started. *)
Theorem flushInternal_writes_each_socket_once m m' :
  batchEmpty (batchWriter (m_batch m)) = false ->
  finalState (flushInternal m) = Some m' ->
  exists second : bool,
    omap socketWritten (newEvents m m')
    = (if firstEligible m then [FirstSocket] else [])
      ++ (if second then [SecondSocket] else [])
    /\ (second = true -> secondEligible m = true \/ In CancelTimeout (newEvents m m'))
    /\ (secondEligible m = true -> ~ In CancelTimeout (newEvents m m') -> second = true).
Proof.
  intros Hne Hfinal.
  destruct (finalState_flushInternal m m' Hne Hfinal) as (_ & -> & _).
  set (fo := flushOutline m).
  assert (Hw : forall sock o, omap socketWritten (writeEvents sock o) = [sock]).
  { intros sock o. unfold writeEvents. by destruct (staysEligible o). }
  assert (Hkick : In CancelTimeout (outlineEvents fo) <-> fo_kick fo = true).
  { rewrite in_outlineEvents. split.
    - intros [(o & _ & Hin)|[[? _]|(o & _ & Hin)]]; [|done|];
        apply in_writeEvents in Hin as [?|[_ ?]]; done.
    - intros Hk. right. by left. }
  exists (bool_decide (fo_second fo <> None)). split; [|split].
  - unfold outlineEvents. rewrite !omap_app.
    assert (Hf : fo_first fo
                 = if firstEligible m then Some (m_net m (m_netCalls m)) else None)
      by reflexivity.
    rewrite Hf. destruct (firstEligible m); cbn [from_option]; rewrite ?Hw;
      destruct (fo_kick fo), (fo_second fo); cbn [from_option]; rewrite ?Hw; done.
  - intros Hs. apply bool_decide_eq_true in Hs.
    destruct (fo_second fo) as [o|] eqn:Ho; [|done].
    destruct (outline_second_socket m o Ho) as [_ [?|Hk]]; [by left|].
    right. by apply Hkick.
  - intros Hsecond Hnokick. apply bool_decide_eq_true.
    assert (Hk : fo_kick fo = false).
    { destruct (fo_kick fo) eqn:Hk; [|done]. exfalso. by apply Hnokick, Hkick. }
    revert Hk. subst fo. unfold flushOutline, secondEligible in *.
    cbn [fo_kick fo_second]. intros ->.
    match goal with
    | |- (if shouldWriteToSecondSocket ?h then _ else _) <> _ =>
        assert (shouldWriteToSecondSocket h = true) as ->; [|done]
    end.
    destruct (shouldWriteToFirstSocket _); cbn [from_option]; [|done].
    by rewrite afterWrite_second.
Qed.

(** X5: a flush of an empty batch, and a flush that a thread-local batch
    may delay, returns true without touching a socket: the only call traced
    is the flush itself, the connection is as before, and nothing is raised
    even when both sockets are ineligible. *)
Theorem flush_without_socket_write flushType m :
  batchEmpty (batchWriter (m_batch m)) = true
  \/ (threadLocal (m_batch m) = true /\ flushType = FLUSH_TYPE_ALLOW_THREAD_LOCAL_DELAY) ->
  exists m',
    flush flushType m = Ok true m'
    /\ newEvents m m' = [CallFlush flushType]
    /\ m_conn m' = m_conn m
    /\ m_netCalls m' = m_netCalls m
    /\ m_sockReadPaused m' = m_sockReadPaused m.
Proof.
  intros Hcase. unfold flush, flushInternal, reset, modifyBatchWriter. unfold_batch.
  simpl_machine.
  assert (Hnew : forall m', m_trace m' = m_trace m ++ [CallFlush flushType] ->
                            newEvents m m' = [CallFlush flushType]).
  { intros m' Htr. unfold newEvents. rewrite Htr. apply drop_app_length. }
  destruct (threadLocal (m_batch m) && bool_decide (_ = _)) eqn:Hdefer.
  - eexists. split; [reflexivity|]. split; [by apply Hnew|]. done.
  - destruct Hcase as [Hempty|[Htl ->]].
    + simpl_machine. rewrite Hempty. eexists. split; [reflexivity|]. split; [by apply Hnew|]. done.
    + rewrite Htl in Hdefer. by rewrite bool_decide_eq_true_2 in Hdefer.
Qed.

End Flush.

(** ** Reasoning about calls *)

Section Satisfies.

Context {S : Type}.

Lemma satisfies_ret {A} (a : A) (s : S) Q E : Q a s -> satisfies (ret a) s Q E.
Proof. done. Qed.

Lemma satisfies_bind {A B} (m : M S A) (k : A -> M S B) s Q E :
  satisfies m s (fun a s' => satisfies (k a) s' Q E) E ->
  satisfies (bind m k) s Q E.
Proof. unfold satisfies, bind. by destruct (m s). Qed.

Lemma satisfies_get (s : S) Q E : Q s s -> satisfies get s Q E.
Proof. done. Qed.

Lemma satisfies_gets {A} (f : S -> A) (s : S) Q E : Q (f s) s -> satisfies (gets f) s Q E.
Proof. done. Qed.

Lemma satisfies_modify (f : S -> S) (s : S) Q E : Q tt (f s) -> satisfies (modify f) s Q E.
Proof. done. Qed.

Lemma satisfies_abort {A} (s : S) (Q : A -> S -> Prop) E : satisfies abort s Q E.
Proof. done. Qed.

Lemma satisfies_throw {A} e (s : S) (Q : A -> S -> Prop) (E : QuicError -> S -> Prop) :
  E e s -> satisfies (throw e) s Q E.
Proof. done. Qed.

Lemma satisfies_CHECK (c : bool) (s : S) Q E :
  (c = true -> Q tt s) -> satisfies (CHECK c) s Q E.
Proof. destruct c; cbn; auto. Qed.

Lemma satisfies_when (c : bool) (m : M S unit) (s : S) Q E :
  (c = true -> satisfies m s Q E) -> (c = false -> Q tt s) ->
  satisfies (when c m) s Q E.
Proof. destruct c; cbn; auto. Qed.

Lemma satisfies_weaken {A} (m : M S A) s (Q Q' : A -> S -> Prop)
  (E E' : QuicError -> S -> Prop) :
  satisfies m s Q E ->
  (forall a s', Q a s' -> Q' a s') -> (forall e s', E e s' -> E' e s') ->
  satisfies m s Q' E'.
Proof. unfold satisfies. destruct (m s); auto. Qed.

Lemma satisfies_keeps {T A} (R : Prop) (proj : S -> T) (m : M S A) s Q E :
  keeps R proj m ->
  (forall a s', proj s' = proj s -> Q a s') ->
  (forall e s', R -> proj s' = proj s -> E e s') ->
  satisfies m s Q E.
Proof.
  intros Hk HQ HE. eapply satisfies_weaken; [apply Hk|..]; cbn; [auto|].
  intros e s' [? ?]. auto.
Qed.

Lemma satisfies_Ok {A} (m : M S A) s a s' Q E :
  satisfies m s Q E -> m s = Ok a s' -> Q a s'.
Proof. unfold satisfies. intros Hs Heq. by rewrite Heq in Hs. Qed.

Lemma satisfies_Throw {A} (m : M S A) s e s' Q E :
  satisfies m s Q E -> m s = Throw e s' -> E e s'.
Proof. unfold satisfies. intros Hs Heq. by rewrite Heq in Hs. Qed.

Lemma keeps_mono {T A} (R R' : Prop) (proj : S -> T) (m : M S A) :
  (R -> R') -> keeps R proj m -> keeps R' proj m.
Proof.
  intros HR Hm s. eapply satisfies_weaken; [apply Hm|..]; cbn; [auto|].
  intros _ s' [? ?]. auto.
Qed.

Lemma keeps_ret {T A} R (proj : S -> T) (a : A) : keeps R proj (ret a).
Proof. by intros s. Qed.

Lemma keeps_bind {T A B} R (proj : S -> T) (m : M S A) (k : A -> M S B) :
  keeps R proj m -> (forall a, keeps R proj (k a)) -> keeps R proj (bind m k).
Proof.
  intros Hm Hk s. apply satisfies_bind.
  eapply satisfies_weaken; [apply Hm| |done].
  intros a s' Hs. eapply satisfies_weaken; [apply Hk|..]; cbn.
  - congruence.
  - intros _ s2 [? ?]. split; [done|congruence].
Qed.

Lemma keeps_get {T} R (proj : S -> T) : keeps R proj get.
Proof. by intros s. Qed.

Lemma keeps_gets {T A} R (proj : S -> T) (f : S -> A) : keeps R proj (gets f).
Proof. by intros s. Qed.

Lemma keeps_modify {T} R (proj : S -> T) (f : S -> S) :
  (forall s, proj (f s) = proj s) -> keeps R proj (modify f).
Proof. intros Hf s. apply Hf. Qed.

Lemma keeps_abort {T A} R (proj : S -> T) : keeps R proj (abort (A := A)).
Proof. by intros s. Qed.

Lemma keeps_throw {T A} (proj : S -> T) e : keeps True proj (throw (A := A) e).
Proof. by intros s. Qed.

Lemma keeps_CHECK {T} R (proj : S -> T) c : keeps R proj (CHECK c).
Proof. intros s. by destruct c. Qed.

Lemma keeps_when {T} R (proj : S -> T) c m :
  keeps R proj m -> keeps R proj (when c m).
Proof. intros Hm. destruct c; [done|apply keeps_ret]. Qed.

Lemma keeps_onValue {T U A} (proj : S -> T) (u : U) (m : M U A) :
  keeps True proj (onValue u m).
Proof. intros s. unfold satisfies, onValue. by destruct (m u). Qed.

End Satisfies.

(** Goals [keeps R proj m] for [m] built from the monad's operations. *)
Ltac keeps_step :=
  lazymatch goal with
  | |- keeps _ _ (bind _ _) => apply keeps_bind; [|intros ?]
  | |- keeps _ _ (ret _) => apply keeps_ret
  | |- keeps _ _ get => apply keeps_get
  | |- keeps _ _ (gets _) => apply keeps_gets
  | |- keeps _ _ abort => apply keeps_abort
  | |- keeps _ _ (throw _) => apply keeps_throw
  | |- keeps _ _ (CHECK _) => apply keeps_CHECK
  | |- keeps _ _ (when _ _) => apply keeps_when
  | |- keeps _ _ (onValue _ _) => apply keeps_onValue
  | |- keeps _ _ (modify _) => apply keeps_modify; intros ?; reflexivity
  | |- keeps _ _ (if ?c then _ else _) => destruct c
  | |- keeps _ _ (match ?x with _ => _ end) => destruct x
  end.

Ltac wp_step :=
  lazymatch goal with
  | |- satisfies (bind _ _) _ _ _ => apply satisfies_bind
  | |- satisfies (ret _) _ _ _ => apply satisfies_ret
  | |- satisfies get _ _ _ => apply satisfies_get
  | |- satisfies (gets _) _ _ _ => apply satisfies_gets
  | |- satisfies (modify _) _ _ _ => apply satisfies_modify
  | |- satisfies abort _ _ _ => apply satisfies_abort
  | |- satisfies (throw _) _ _ _ => apply satisfies_throw
  | |- satisfies (CHECK _) _ _ _ => apply satisfies_CHECK; intros ?
  | |- satisfies (when _ _) _ _ _ => apply satisfies_when; intros ?
  | |- satisfies (if ?c then _ else _) _ _ _ => destruct c eqn:?
  | |- satisfies (match ?x with _ => _ end) _ _ _ => destruct x eqn:?
  end; cbv beta.

Section Updater.

Context `{CollaboratorOps}.

Ltac keep_step :=
  apply satisfies_bind;
  eapply (satisfies_keeps False outstandingPackets);
  [solve [repeat keeps_step] | cbv beta | intros _ ? []].

Ltac unfold_conn :=
  unfold modifyStreamManager, modifyPendingEvents, modifyLossState,
    modifyOutstandings, modifyD6d, QUIC_STATS, setNoWriteReason in *.

Lemma handleStreamWritten_keeps stream frameOffset frameLen frameFin fromBufMeta :
  keeps True outstandingPackets
    (handleStreamWritten stream frameOffset frameLen frameFin fromBufMeta).
Proof.
  unfold handleStreamWritten. unfold_conn. repeat keeps_step.
Qed.

Lemma collaborate_keeps call :
  collaboratorsKeepOutstandings -> keeps True outstandingPackets (collaborate call).
Proof.
  intros Hcollab conn. specialize (Hcollab call conn).
  unfold satisfies, outstandingPackets.
  destruct (collaborate call conn); [congruence| |done].
  split; [done|congruence].
Qed.

(** One frame of the loop: the outstanding packets stay as they are, and the
    packet becomes worth tracking exactly when the frame is neither an ack nor
    padding. *)
Lemma updateConnectionFrame_spec packetEvent pkt sentTime isD6DProbe st frame conn :
  collaboratorsKeepOutstandings ->
  satisfies (updateConnectionFrame packetEvent pkt sentTime isD6DProbe st frame) conn
    (fun st' conn' =>
       outstandingPackets conn' = outstandingPackets conn
       /\ retransmittable st' || isPing st'
          = retransmittable st || isPing st || negb (isAckOrPadding frame))
    (fun _ conn' => outstandingPackets conn' = outstandingPackets conn).
Proof.
  intros Hcollab.
  destruct frame; cbn [updateConnectionFrame isAckOrPadding negb]; unfold_conn;
    repeat first
      [ wp_step
      | lazymatch goal with
        | |- satisfies (handleStreamWritten _ _ _ _ _) _ _ _ =>
            eapply (satisfies_keeps True outstandingPackets);
            [apply handleStreamWritten_keeps | intros ? ? ? | intros ? ? ? ?]
        | |- satisfies (collaborate _) _ _ _ =>
            eapply (satisfies_keeps True outstandingPackets);
            [by apply collaborate_keeps | intros ? ? ? | intros ? ? ? ?]
        end ];
    unfold outstandingPackets in *; cbn in *;
    rewrite ?orb_true_r, ?orb_false_r; try split; try congruence.
Qed.

Lemma forEachFrame_spec packetEvent pkt sentTime isD6DProbe fs :
  collaboratorsKeepOutstandings ->
  forall st conn,
  satisfies
    (forEachFrame (updateConnectionFrame packetEvent pkt sentTime isD6DProbe) st fs)
    conn
    (fun st' conn' =>
       outstandingPackets conn' = outstandingPackets conn
       /\ retransmittable st' || isPing st'
          = retransmittable st || isPing st
            || existsb (fun frame => negb (isAckOrPadding frame)) fs)
    (fun _ conn' => outstandingPackets conn' = outstandingPackets conn).
Proof.
  intros Hcollab. induction fs as [|frame fs IH]; intros st conn;
    cbn [forEachFrame existsb].
  - apply satisfies_ret. by rewrite orb_false_r.
  - apply satisfies_bind.
    eapply satisfies_weaken; [by apply updateConnectionFrame_spec| |done].
    intros st1 conn1 [Hp1 Hf1]. cbv beta.
    eapply satisfies_weaken; [apply IH|..]; cbv beta.
    + intros st2 conn2 [Hp2 Hf2]. split; [congruence|].
      by rewrite Hf2, Hf1, orb_assoc.
    + intros _ conn2 Hp2. congruence.
Qed.

(** What [updateConnection] does to the outstanding packets. *)
Lemma updateConnection_outstandingPackets
  packetEvent pkt sentTime size isDSR conn :
  collaboratorsKeepOutstandings ->
  match updateConnection packetEvent pkt sentTime size isDSR conn with
  | Ok _ conn' =>
      if carriesAckElicitingOrPing pkt then
        exists record,
          packet record = pkt /\
          outstandingPackets conn'
          = emplace (findInsertPosition (getPacketSequenceNum (header pkt))
                       (outstandingPackets conn))
              record (outstandingPackets conn)
      else outstandingPackets conn' = outstandingPackets conn
  | Throw _ conn' => outstandingPackets conn' = outstandingPackets conn
  | Abort => True
  end.
Proof.
  intros Hcollab.
  change (satisfies (updateConnection packetEvent pkt sentTime size isDSR) conn
    (fun _ conn' =>
       if carriesAckElicitingOrPing pkt then
         exists record,
           packet record = pkt /\
           outstandingPackets conn'
           = emplace (findInsertPosition (getPacketSequenceNum (header pkt))
                        (outstandingPackets conn))
               record (outstandingPackets conn)
       else outstandingPackets conn' = outstandingPackets conn)
    (fun _ conn' => outstandingPackets conn' = outstandingPackets conn)).
  unfold updateConnection, carriesAckElicitingOrPing. unfold_conn.
  do 2 wp_step. wp_step.
  eapply satisfies_weaken; [by apply forEachFrame_spec| |done].
  intros st conn1 [Hp1 Hflags]. cbn [retransmittable isPing orb] in Hflags.
  cbv beta. wp_step.
  eapply (satisfies_keeps True outstandingPackets); [by apply collaborate_keeps| |].
  2:{ intros _ conn2 _ Hp2. congruence. }
  intros _ conn2 Hp2.
  keep_step. intros _ conn3 Hp3.
  do 2 wp_step.
  keep_step. intros _ conn4 Hp4.
  keep_step. intros _ conn5 Hp5.
  rewrite <- negb_orb, Hflags.
  destruct (existsb _ (frames pkt)); cbn [negb]; cbv iota.
  2:{ apply satisfies_ret. congruence. }
  keep_step. intros _ conn6 Hp6.
  do 2 wp_step. cbv zeta. wp_step. apply satisfies_modify.
  match goal with
  | |- satisfies _ ?s _ _ =>
      eapply (satisfies_keeps False outstandingPackets _ s);
      [|intros _ conn7 Hp7|intros _ ? []]
  end.
  { repeat keeps_step. }
  eexists. split; [|rewrite Hp7; unfold outstandingPackets at 1;
                    cbn [outstandings set_outstandings packets set_packets]].
  2:{ replace (packets (outstandings conn6)) with (outstandingPackets conn)
        by (unfold outstandingPackets in *; congruence).
      reflexivity. }
  reflexivity.
Qed.


(** ** The order of the outstanding packets *)

Lemma findInsertPosition_snoc n l a :
  findInsertPosition n (l ++ [a])
  = if outstandingPacketNum a <? n then List.length (l ++ [a])
    else findInsertPosition n l.
Proof.
  unfold findInsertPosition. rewrite rev_app_distr, length_app. cbn.
  destruct (outstandingPacketNum a <? n); lia.
Qed.

Lemma findInsertPosition_le n l : (findInsertPosition n l <= List.length l)%nat.
Proof. unfold findInsertPosition. lia. Qed.

Lemma elem_of_emplace {A} (p : nat) (x e : A) l :
  e ∈ emplace p x l <-> e = x \/ e ∈ l.
Proof.
  unfold emplace. rewrite <- (take_drop p l) at 3.
  rewrite !elem_of_app, elem_of_cons. tauto.
Qed.

Lemma emplace_snoc {A} (p : nat) (x a : A) l :
  (p <= List.length l)%nat -> emplace p x (l ++ [a]) = emplace p x l ++ [a].
Proof.
  intros Hp. unfold emplace.
  rewrite firstn_app, skipn_app.
  replace (p - List.length l)%nat with O by lia. cbn.
  by rewrite app_nil_r, <- app_assoc.
Qed.

(** Inserting at the position the code picks keeps the send order, for a
    packet number that is not outstanding in the packet's space. *)
Lemma emplace_keeps_send_order x l :
  StronglySorted inSendOrder l ->
  (forall op, op ∈ l -> outstandingPacketSpace op = outstandingPacketSpace x ->
              outstandingPacketNum op <> outstandingPacketNum x) ->
  StronglySorted inSendOrder
    (emplace (findInsertPosition (outstandingPacketNum x) l) x l).
Proof.
  induction l as [|a l IH] using rev_ind; intros Hsorted Hfresh.
  { cbn. by repeat constructor. }
  apply StronglySorted_app in Hsorted as (Hla & Hl & _).
  rewrite findInsertPosition_snoc.
  destruct (outstandingPacketNum a <? outstandingPacketNum x) eqn:Ecmp.
  - apply Z.ltb_lt in Ecmp. unfold emplace.
    rewrite firstn_all, skipn_all. apply StronglySorted_app.
    split; [|split; [|by repeat constructor]].
    + intros e y He Hy. apply list_elem_of_singleton in Hy as ->.
      apply elem_of_app in He as [He|He].
      * destruct (Hla e a He) as [Hle _]; [by apply list_elem_of_singleton|].
        split; [lia|]. intros _. lia.
      * apply list_elem_of_singleton in He as ->. split; [lia|]. intros _. lia.
    + apply StronglySorted_app. split; [exact Hla|].
      split; [exact Hl|by repeat constructor].
  - apply Z.ltb_ge in Ecmp.
    rewrite emplace_snoc by apply findInsertPosition_le.
    apply StronglySorted_app. split; [|split; [|by repeat constructor]].
    + intros e y He Hy. apply list_elem_of_singleton in Hy as ->.
      apply elem_of_emplace in He as [->|He].
      * split; [lia|]. intros Hspace.
        assert (outstandingPacketNum a <> outstandingPacketNum x);
          [|lia].
        apply Hfresh; [|done]. apply elem_of_app. right.
        by apply list_elem_of_singleton.
      * apply Hla; [done|]. by apply list_elem_of_singleton.
    + apply IH; [exact Hl|]. intros op Hop. apply Hfresh.
      apply elem_of_app. by left.
Qed.

Lemma filter_keeps_send_order (kept : OutstandingPacket -> bool) l :
  StronglySorted inSendOrder l -> StronglySorted inSendOrder (List.filter kept l).
Proof.
  induction 1 as [|a l Hl IH Ha]; cbn; [constructor|].
  destruct (kept a); [|exact IH]. constructor; [exact IH|].
  apply Forall_forall. intros b Hb.
  apply list_elem_of_In, List.filter_In in Hb as [Hb _].
  rewrite Forall_forall in Ha. apply Ha. by apply list_elem_of_In.
Qed.

Lemma send_order_ascending l :
  StronglySorted inSendOrder l -> ascendingInEachSpace l.
Proof.
  intros Hsorted pnSpace. induction Hsorted as [|a l Hl IH Ha]; [constructor|].
  rewrite filter_cons. destruct (decide (outstandingPacketSpace a = pnSpace)) as [Ea|];
    [|exact IH].
  rewrite fmap_cons. constructor; [exact IH|].
  apply Forall_fmap, Forall_forall. intros b Hb.
  apply list_elem_of_filter in Hb as [Eb Hb]. rewrite Forall_forall in Ha.
  apply (Ha b Hb). congruence.
Qed.

Lemma reachable_in_send_order l :
  collaboratorsKeepOutstandings ->
  reachablePackets l -> StronglySorted inSendOrder l.
Proof.
  intros Hcollab. induction 1 as [|conn conn' pe pkt t size dsr _ IH Hfresh Hrun|kept l _ IH].
  - constructor.
  - pose proof (updateConnection_outstandingPackets pe pkt t size dsr conn Hcollab)
      as Hspec.
    rewrite Hrun in Hspec. fold (outstandingPackets conn').
    destruct (carriesAckElicitingOrPing pkt); [|by rewrite Hspec].
    destruct Hspec as (record & Hrecord & ->).
    replace (getPacketSequenceNum (header pkt)) with (outstandingPacketNum record)
      by (unfold outstandingPacketNum; by rewrite Hrecord).
    apply emplace_keeps_send_order; [exact IH|].
    intros op Hop. unfold outstandingPacketSpace at 2, outstandingPacketNum at 2.
    rewrite Hrecord. by apply Hfresh.
  - by apply filter_keeps_send_order.
Qed.


(** C4: the outstanding packets are at all times in strictly ascending
    packet-number order within each packet-number space: the container starts
    empty, acknowledgement and loss only remove packets, and the insertion of
    [updateConnection] puts a packet whose number is not yet outstanding in
    its space at a position that keeps the order, whether or not its number
    is the largest in the container. *)
Theorem outstanding_packets_ascending l :
  collaboratorsKeepOutstandings ->
  reachablePackets l -> ascendingInEachSpace l.
Proof.
  intros Hcollab Hreach. by apply send_order_ascending, reachable_in_send_order.
Qed.

End Updater.

(** ** The transmission loop and the two build strategies *)

Section WritePath.
Context `{CollaboratorOps}.

(** *** Steps that leave the trace alone *)

Lemma keeps_onConn_trace {A} (c : M Conn A) : keeps True m_trace (onConn c).
Proof. intros s. unfold satisfies, onConn, zoom. destruct (c (m_conn s)); done. Qed.

Lemma keeps_clockNow : keeps True m_trace clockNow.
Proof. by intros s. Qed.

Lemma keeps_to_uint32 v : keeps True m_trace (to_uint32 v).
Proof. intros s. unfold to_uint32. by destruct (v <? two32). Qed.

Lemma keeps_encryptPacketHeader headerForm packetBuf headerLen bodyLen headerCipher :
  keeps True m_trace
    (encryptPacketHeader (S := Machine) headerForm packetBuf headerLen bodyLen
       headerCipher).
Proof. unfold encryptPacketHeader. repeat keeps_step. Qed.

(** *** The protocol along the trace *)

Lemma runProtocol_app st evs evs' :
  runProtocol st (evs ++ evs')
  = match runProtocol st evs with
    | Some st' => runProtocol st' evs'
    | None => None
    end.
Proof.
  revert st. induction evs as [|ev evs IH]; intros st; cbn; [done|].
  destruct (protocolStep st ev); [apply IH|done].
Qed.

Lemma runProtocol_socket st evs :
  mayFlush (phase st) -> Forall isSocketEvent evs -> runProtocol st evs = Some st.
Proof.
  intros Hph Hall. induction Hall as [|ev evs Hev _ IH]; cbn; [done|].
  destruct st as [ph u]. destruct ph, ev; cbn in *; done.
Qed.

Lemma protocolAt_trace base st0 s s' st :
  m_trace s' = m_trace s -> protocolAt base st0 s st -> protocolAt base st0 s' st.
Proof. intros Htr (evs & Hs & Hrun). exists evs. by rewrite Htr. Qed.

Lemma protocolAt_emit base st0 s st ev st' :
  protocolAt base st0 s st -> protocolStep st ev = Some st' ->
  protocolAt base st0 (set_m_trace (m_trace s ++ [ev]) s) st'.
Proof.
  intros (evs & Hs & Hrun) Hstep. exists (evs ++ [ev]). cbn. split.
  - by rewrite Hs, app_assoc.
  - rewrite runProtocol_app, Hrun. cbn. by rewrite Hstep.
Qed.

Lemma protocolAt_socket base st0 s s' st evs :
  protocolAt base st0 s st -> mayFlush (phase st) ->
  m_trace s' = m_trace s ++ evs -> Forall isSocketEvent evs ->
  protocolAt base st0 s' st.
Proof.
  intros (evs0 & Hs & Hrun) Hph Htr Hall. exists (evs0 ++ evs). split.
  - by rewrite Htr, Hs, app_assoc.
  - rewrite runProtocol_app, Hrun. by apply runProtocol_socket.
Qed.

(** *** Calls that add only some kinds of events *)

Lemma onlyEmits_quiet {A} allowed (m : M Machine A) :
  keeps True m_trace m -> onlyEmits allowed m.
Proof.
  intros Hm s. eapply satisfies_weaken; [apply Hm|..]; cbn.
  - intros _ s' Htr. exists []. by rewrite app_nil_r.
  - intros _ s' [_ Htr]. exists []. by rewrite app_nil_r.
Qed.

Lemma onlyEmits_bind {A B} allowed (m : M Machine A) (k : A -> M Machine B) :
  onlyEmits allowed m -> (forall a, onlyEmits allowed (k a)) ->
  onlyEmits allowed (bind m k).
Proof.
  intros Hm Hk s. apply satisfies_bind.
  eapply satisfies_weaken; [apply Hm| |done].
  intros a s1 (evs & Htr & Hall).
  eapply satisfies_weaken; [apply Hk|..]; cbn;
    intros ? s2 (evs' & Htr' & Hall'); exists (evs ++ evs');
    (split; [by rewrite Htr', Htr, app_assoc|by apply Forall_app]).
Qed.

Lemma onlyEmits_emit (allowed : Event -> Prop) ev :
  allowed ev -> onlyEmits allowed (emit ev).
Proof. intros Hev s. exists [ev]. cbn. split; [done|]. by constructor. Qed.

Lemma onlyEmits_when allowed c m :
  onlyEmits allowed m -> onlyEmits allowed (when c m).
Proof.
  intros Hm. destruct c; [done|]. apply onlyEmits_quiet, keeps_ret.
Qed.


Ltac emits_step :=
  lazymatch goal with
  | |- onlyEmits _ (bind _ _) => apply onlyEmits_bind; [|intros ?]
  | |- onlyEmits _ (emit _) => apply onlyEmits_emit; exact I
  | |- onlyEmits _ (when _ _) => apply onlyEmits_when
  | |- onlyEmits _ (if ?c then _ else _) => destruct c
  | |- onlyEmits _ (match ?x with _ => _ end) => destruct x
  | |- onlyEmits _ _ =>
      apply onlyEmits_quiet;
      first [apply keeps_onConn_trace | solve [repeat keeps_step]]
  end.

Lemma onlyEmits_writeBatchTo sock : onlyEmits isSocketEvent (writeBatchTo sock).
Proof.
  unfold writeBatchTo, batchWriterWrite, pauseRead, modifyHappyEyeballs.
  repeat emits_step.
Qed.

Lemma onlyEmits_flushInternal : onlyEmits isSocketEvent flushInternal.
Proof.
  unfold flushInternal, flushWrites, flushVerdict, modifyHappyEyeballs.
  repeat first [apply onlyEmits_writeBatchTo | emits_step].
Qed.

Lemma satisfies_onlyEmits {A} (m : M Machine A) base st0 s st :
  onlyEmits isSocketEvent m -> protocolAt base st0 s st -> mayFlush (phase st) ->
  satisfies m s (fun _ s' => protocolAt base st0 s' st)
    (fun _ s' => protocolAt base st0 s' st).
Proof.
  intros Hm Hat Hph.
  eapply satisfies_weaken; [apply Hm|..]; cbn;
    intros _ s' (evs & Htr & Hall); by eapply protocolAt_socket.
Qed.

(** A call of [ioBufBatch.flush] in terms of the protocol. *)
Lemma flush_protocol flushType base st0 s st :
  protocolAt base st0 s st -> mayFlush (phase st) ->
  satisfies (flush flushType) s
    (fun _ s' => protocolAt base st0 s' (mkLoopProtocol (phase st) false))
    (fun _ s' => protocolAt base st0 s' (mkLoopProtocol (phase st) false)).
Proof.
  intros Hat Hph. unfold flush. apply satisfies_bind. apply satisfies_modify.
  apply satisfies_onlyEmits; [| |exact Hph].
  - unfold reset, modifyBatchWriter.
    repeat first [apply onlyEmits_flushInternal | emits_step].
  - apply (protocolAt_emit _ _ _ _ _ _ Hat).
    destruct st as [[] u]; cbn in *; done.
Qed.


Lemma satisfies_seq {S A B} (m : M S A) (k : A -> M S B) s (P : A -> S -> Prop) Q E :
  satisfies m s P E -> (forall a s', P a s' -> satisfies (k a) s' Q E) ->
  satisfies (bind m k) s Q E.
Proof.
  intros Hm Hk. apply satisfies_bind. eapply satisfies_weaken; [exact Hm|..]; auto.
Qed.

(** A step that leaves the trace alone leaves the protocol where it is. *)
Lemma satisfies_quiet {A B} (m : M Machine A) (k : A -> M Machine B) base st0 s st Q :
  keeps True m_trace m -> protocolAt base st0 s st ->
  (forall a s', protocolAt base st0 s' st -> satisfies (k a) s' Q (fun _ _ => True)) ->
  satisfies (bind m k) s Q (fun _ _ => True).
Proof.
  intros Hm Hat Hk.
  apply (satisfies_seq _ _ _ (fun _ s' => protocolAt base st0 s' st)); [|exact Hk].
  eapply satisfies_keeps; [exact Hm| |done].
  intros _ s' Htr. by eapply protocolAt_trace.
Qed.

Ltac quiet_solve :=
  repeat first [assumption | apply keeps_onConn_trace | apply keeps_clockNow
               | apply keeps_to_uint32 | apply keeps_encryptPacketHeader | keeps_step].

Ltac quiet_step_as Hat x :=
  eapply satisfies_quiet;
  [solve [quiet_solve]
  | exact Hat
  | clear Hat; intros x ? Hat].
Ltac quiet_step Hat := let x := fresh "x" in quiet_step_as Hat x.

Lemma returns_weaken {S A} (m : M S A) s (Q Q' : A -> S -> Prop) E :
  satisfies m s Q E -> (forall a s', Q a s' -> Q' a s') ->
  satisfies m s Q' (fun _ _ => True).
Proof. intros Hm HQ. eapply satisfies_weaken; [exact Hm|exact HQ|done]. Qed.

(** A call of [ioBufBatch.write] for the packet [pkt]. *)
Lemma batchWrite_protocol size base st0 s pkt u :
  protocolAt base st0 s (mkLoopProtocol (Writing pkt) u) ->
  satisfies (batchWrite size) s
    (fun ok s' => exists u',
       protocolAt base st0 s' (mkLoopProtocol (AwaitingUpdate pkt ok) u')
       /\ (ok = false -> u' = false))
    (fun _ _ => True).
Proof.
  intros Hat. unfold batchWrite.
  quiet_step Hat. quiet_step Hat.
  apply (satisfies_seq _ _ _
           (fun _ s' => exists u1, protocolAt base st0 s' (mkLoopProtocol (Writing pkt) u1))).
  { apply satisfies_when; intros _; [|by exists u].
    apply satisfies_bind.
    eapply returns_weaken; [by apply (flush_protocol _ _ _ _ _ Hat)|].
    intros ? s1 Hat1. cbn in *. eexists. exact Hat1. }
  clear Hat. intros _ s1 [u1 Hat].
  quiet_step_as Hat m1.
  destruct (append size (batchWriter (m_batch m1))) as [mustFlush writer].
  apply satisfies_bind, satisfies_modify.
  apply (protocolAt_emit _ _ _ _ (BatchAppend size) (mkLoopProtocol (Writing pkt) true))
    in Hat; [|done].
  unfold modifyBatchWriter. quiet_step Hat.
  apply (satisfies_seq _ _ _
           (fun ok s' => exists u2, protocolAt base st0 s' (mkLoopProtocol (Writing pkt) u2)
                                    /\ (ok = false -> u2 = false))).
  { destruct mustFlush.
    - eapply returns_weaken; [by apply (flush_protocol _ _ _ _ _ Hat)|].
      intros ok s2 Hat2. by exists false.
    - apply satisfies_ret. by exists true. }
  clear Hat. intros ok s2 (u2 & Hat & Hok).
  apply satisfies_bind, satisfies_modify. apply satisfies_ret.
  exists u2. split; [|exact Hok].
  by apply (protocolAt_emit _ _ _ _ (BatchWriteResult ok)
              (mkLoopProtocol (AwaitingUpdate pkt ok) u2)) in Hat.
Qed.


Lemma buildFailure_protocol base st0 s u reason :
  protocolAt base st0 s (mkLoopProtocol BetweenPackets u) ->
  satisfies
    (run ignoreResult (flush defaultFlushType);
     run onConn (setNoWriteReason reason);
     ret makeBuildFailure) s
    (dataPathPost base st0) (fun _ _ => True).
Proof.
  intros Hat.
  apply (satisfies_seq _ _ _
           (fun _ s' => protocolAt base st0 s' (mkLoopProtocol BetweenPackets false))).
  { unfold ignoreResult. apply satisfies_bind.
    eapply returns_weaken; [by apply (flush_protocol _ _ _ _ _ Hat)|].
    intros ? s1 Hat1. exact Hat1. }
  clear Hat. intros _ s1 Hat.
  quiet_step Hat. apply satisfies_ret. exact Hat.
Qed.

Lemma packetWrite_protocol base st0 s u res packetEvent pkt size :
  res = mkSchedulingResult packetEvent (Some pkt) ->
  protocolAt base st0 s (mkLoopProtocol BetweenPackets u) ->
  satisfies
    (run emit (CallBatchWrite (bp_packet pkt) size);
     do written <- batchWrite size;
     run when written
           (run onConn (QUIC_STATS (onWrite size));
            onConn (QUIC_STATS onPacketSent));
     ret (makeWriteResult written res size)) s
    (dataPathPost base st0) (fun _ _ => True).
Proof.
  intros -> Hat.
  apply satisfies_bind, satisfies_modify.
  apply (protocolAt_emit _ _ _ _ (CallBatchWrite (bp_packet pkt) size)
           (mkLoopProtocol (Writing (bp_packet pkt)) u)) in Hat; [|done].
  eapply satisfies_seq; [exact (batchWrite_protocol _ _ _ _ _ _ Hat)|].
  cbv beta. clear Hat. intros written s2 (u' & Hat & Hw).
  quiet_step Hat. apply satisfies_ret.
  unfold dataPathPost. cbn. by exists packetEvent, pkt, u'.
Qed.

Lemma oversizeLog_protocol {B} (c : bool) size (k : unit -> M Machine B) base st0 s u Q :
  protocolAt base st0 s (mkLoopProtocol BetweenPackets u) ->
  (forall s', protocolAt base st0 s' (mkLoopProtocol BetweenPackets u) ->
              satisfies (k tt) s' Q (fun _ _ => True)) ->
  satisfies (bind (when c (emit (LogPacketLargerThanLimit size))) k) s Q
    (fun _ _ => True).
Proof.
  intros Hat Hk.
  apply (satisfies_seq _ _ _
           (fun _ s' => protocolAt base st0 s' (mkLoopProtocol BetweenPackets u))).
  - apply satisfies_when; intros _; [|done].
    apply satisfies_modify. eapply protocolAt_emit; [exact Hat|done].
  - intros []. exact Hk.
Qed.

Lemma continuousMemoryBuildScheduleEncrypt_protocol hdr pnSpace packetNum
  cipherOverhead scheduler writableBytes aead headerCipher base st0 s u :
  protocolAt base st0 s (mkLoopProtocol BetweenPackets u) ->
  satisfies
    (continuousMemoryBuildScheduleEncrypt hdr pnSpace packetNum cipherOverhead
       scheduler writableBytes aead headerCipher) s
    (dataPathPost base st0) (fun _ _ => True).
Proof.
  intros Hat. unfold continuousMemoryBuildScheduleEncrypt.
  do 4 quiet_step Hat.
  quiet_step_as Hat res. do 2 quiet_step Hat.
  destruct res as [packetEvent [pkt|]]; cbn [sr_packet];
    [|quiet_step Hat; by eapply buildFailure_protocol].
  destruct (bool_decide (frames (bp_packet pkt) = []));
    [quiet_step Hat; by eapply buildFailure_protocol|].
  destruct (bp_body pkt) as [body|];
    [|quiet_step Hat; by eapply buildFailure_protocol].
  do 8 quiet_step Hat.
  eapply oversizeLog_protocol; [exact Hat|]. clear Hat. intros ? Hat.
  by eapply packetWrite_protocol.
Qed.

Lemma iobufChainBasedBuildScheduleEncrypt_protocol hdr pnSpace packetNum
  cipherOverhead scheduler writableBytes aead headerCipher base st0 s u :
  protocolAt base st0 s (mkLoopProtocol BetweenPackets u) ->
  satisfies
    (iobufChainBasedBuildScheduleEncrypt hdr pnSpace packetNum cipherOverhead
       scheduler writableBytes aead headerCipher) s
    (dataPathPost base st0) (fun _ _ => True).
Proof.
  intros Hat. unfold iobufChainBasedBuildScheduleEncrypt.
  quiet_step Hat. quiet_step_as Hat res.
  destruct res as [packetEvent [pkt|]]; cbn [sr_packet];
    [|by eapply buildFailure_protocol].
  destruct (bool_decide (frames (bp_packet pkt) = []));
    [by eapply buildFailure_protocol|].
  destruct (bp_body pkt) as [body|]; [|by eapply buildFailure_protocol].
  do 3 quiet_step Hat.
  eapply oversizeLog_protocol; [exact Hat|]. clear Hat. intros ? Hat.
  by eapply packetWrite_protocol.
Qed.


Lemma writeLoopBody_protocol builder pnSpace scheduler writableBytesFunc aead
  headerCipher base st0 s u :
  keeps True m_trace writableBytesFunc ->
  protocolAt base st0 s (mkLoopProtocol BetweenPackets u) ->
  satisfies
    (writeLoopBody builder pnSpace scheduler writableBytesFunc aead headerCipher) s
    (loopPost base st0) (fun _ _ => True).
Proof.
  intros Hquiet Hat. unfold writeLoopBody.
  quiet_step_as Hat conn. do 2 quiet_step Hat.
  eapply satisfies_seq.
  { destruct (bool_decide (dataPathType (transportSettings conn) = ChainedMemory)).
    - eapply iobufChainBasedBuildScheduleEncrypt_protocol, Hat.
    - eapply continuousMemoryBuildScheduleEncrypt_protocol, Hat. }
  clear Hat. intros res s1 Hpost. unfold dataPathPost in Hpost.
  destruct (buildSuccess res); cbn [negb].
  - destruct Hpost as (packetEvent & pkt & u' & -> & Hat & Hw).
    do 2 quiet_step Hat.
    apply satisfies_bind, satisfies_modify.
    apply (protocolAt_emit _ _ _ _ (CallUpdateConnection (bp_packet pkt))
             (mkLoopProtocol (if writeSuccess res then BetweenPackets else LoopEnded) u'))
      in Hat; [|cbn; by rewrite bool_decide_eq_true_2].
    quiet_step Hat.
    destruct (writeSuccess res); cbn [negb].
    + apply satisfies_ret. by exists u'.
    + quiet_step Hat. apply satisfies_bind, satisfies_gets, satisfies_ret.
      split; [done|]. exists LoopEnded. rewrite Hw in Hat by done. auto.
  - apply satisfies_bind, satisfies_gets, satisfies_ret.
    split; [done|]. exists BetweenPackets. auto.
Qed.

Lemma writeLoop_protocol fuel condition body base st0 :
  keeps True m_trace condition ->
  (forall s u, protocolAt base st0 s (mkLoopProtocol BetweenPackets u) ->
               satisfies body s (loopPost base st0) (fun _ _ => True)) ->
  forall s u,
    protocolAt base st0 s (mkLoopProtocol BetweenPackets u) ->
    satisfies (writeLoop fuel condition body) s (loopPost base st0) (fun _ _ => True).
Proof.
  intros Hcond Hbody. induction fuel as [|fuel IH]; intros s u Hat; cbn; [done|].
  quiet_step_as Hat continue. destruct continue.
  - eapply satisfies_seq; [by eapply Hbody|].
    cbv beta. clear Hat. intros [n|] s2 Hpost.
    + by apply satisfies_ret.
    + destruct Hpost as [u' Hat]. by eapply IH.
  - apply satisfies_ret. by exists u.
Qed.

Lemma writeConnectionDataToSocket_protocol builder pnSpace scheduler
  writableBytesFunc packetLimit aead headerCipher s :
  keeps True m_trace writableBytesFunc ->
  satisfies
    (writeConnectionDataToSocket builder pnSpace scheduler writableBytesFunc
       packetLimit aead headerCipher) s
    (fun n s' =>
       n = pktSent (m_batch s')
       /\ exists ph, (ph = BetweenPackets \/ ph = LoopEnded)
                     /\ protocolAt (m_trace s) (mkLoopProtocol BetweenPackets false) s'
                          (mkLoopProtocol ph false))
    (fun _ _ => True).
Proof.
  intros Hquiet. unfold writeConnectionDataToSocket.
  assert (Hat : protocolAt (m_trace s) (mkLoopProtocol BetweenPackets false) s
                  (mkLoopProtocol BetweenPackets false)).
  { exists []. by rewrite app_nil_r. }
  do 4 quiet_step Hat.
  eapply satisfies_seq.
  { eapply writeLoop_protocol; [| |exact Hat].
    - unfold writeLoopCondition, writeLoopTimeLimit. quiet_solve.
    - intros s1 u1 Hat1. by eapply writeLoopBody_protocol. }
  clear Hat. intros [n|] s1 Hpost.
  - by apply satisfies_ret.
  - destruct Hpost as [u' Hat].
    apply (satisfies_seq _ _ _
             (fun _ s' => protocolAt (m_trace s) (mkLoopProtocol BetweenPackets false) s'
                            (mkLoopProtocol BetweenPackets false))).
    { unfold ignoreResult. apply satisfies_bind.
      eapply returns_weaken; [by apply (flush_protocol _ _ _ _ _ Hat)|].
      intros ? s2 Hat2. exact Hat2. }
    clear Hat. intros _ s2 Hat. do 2 quiet_step Hat.
    apply satisfies_gets. split; [done|]. exists BetweenPackets. auto.
Qed.


(** *** What an accepted trace looks like *)

Lemma runProtocol_ended u evs st :
  runProtocol (mkLoopProtocol LoopEnded u) evs = Some st -> evs = [].
Proof. destruct evs as [|[] evs]; cbn; done. Qed.

Lemma runProtocol_writing pkt evs : forall u ph u',
  runProtocol (mkLoopProtocol (Writing pkt) u) evs = Some (mkLoopProtocol ph u') ->
  ph = BetweenPackets \/ ph = LoopEnded ->
  exists during written rest,
    evs = during ++ BatchWriteResult written :: CallUpdateConnection pkt :: rest
    /\ Forall duringWrite during
    /\ (written = false -> rest = []).
Proof.
  induction evs as [|ev evs IH]; intros u ph u' Hrun Hph; cbn in Hrun.
  { destruct Hph; congruence. }
  destruct ev; cbn in Hrun; try done;
    try (destruct (IH _ _ _ Hrun Hph) as (during & written & rest & -> & Hall & Hw);
         eexists (_ :: during), written, rest;
         (split; [reflexivity|]); split; [by constructor|done]).
  destruct evs as [|[] rest]; cbn in Hrun; try done.
  { destruct Hph; congruence. }
  case_bool_decide as Heq; [|done]. subst.
  exists [], ok, rest. split; [done|]. split; [constructor|].
  intros ->. by eapply runProtocol_ended.
Qed.

Lemma runProtocol_flushed evs : forall st st',
  runProtocol st evs = Some st' -> unflushed st = true -> unflushed st' = false ->
  exists flushType, In (CallFlush flushType) evs.
Proof.
  induction evs as [|ev evs IH]; intros st st' Hrun Hu Hu'; cbn in Hrun.
  { congruence. }
  destruct (protocolStep st ev) as [st1|] eqn:Hstep; [|done].
  assert (Hcase : (exists flushType, ev = CallFlush flushType)
                   \/ unflushed st1 = true).
  { destruct st as [ph u]. cbn in Hu. subst u.
    destruct ph, ev; cbn in Hstep; try done;
      try (inversion Hstep; subst; cbn; by eauto).
    case_bool_decide; [|done]. inversion Hstep. by right. }
  destruct Hcase as [[ft ->]|Hu1].
  - exists ft. by left.
  - destruct (IH _ _ Hrun Hu1 Hu') as [ft Hin]. exists ft. by right.
Qed.

(** C2: in every run of [writeConnectionDataToSocket] that returns, each
    packet that the build step built and handed to [ioBufBatch.write]
    ([CallBatchWrite]) is, right after that write has returned
    ([BatchWriteResult]), passed to [updateConnection], whether the write
    succeeded or failed; after a failed write that [updateConnection] is the
    last call of the run, and the function returns the number of packets
    sent; and whatever way the run ends, [ioBufBatch.flush] is called after
    the last packet was appended to the batch.  (The writable-bytes callback
    is assumed to make none of the traced calls.) *)
Theorem writeConnectionDataToSocket_updates_and_flushes builder pnSpace scheduler
  writableBytesFunc packetLimit aead headerCipher m n m' :
  keeps True m_trace writableBytesFunc ->
  writeConnectionDataToSocket builder pnSpace scheduler writableBytesFunc
    packetLimit aead headerCipher m = Ok n m' ->
  (forall before pkt size after,
     newEvents m m' = before ++ CallBatchWrite pkt size :: after ->
     exists during written rest,
       after = during ++ BatchWriteResult written :: CallUpdateConnection pkt :: rest
       /\ Forall duringWrite during
       /\ (written = false -> rest = []))
  /\ n = pktSent (m_batch m')
  /\ (forall before size after,
        newEvents m m' = before ++ BatchAppend size :: after ->
        exists flushType, In (CallFlush flushType) after).
Proof.
  intros Hquiet Hrun.
  pose proof (writeConnectionDataToSocket_protocol builder pnSpace scheduler
                writableBytesFunc packetLimit aead headerCipher m Hquiet) as Hp.
  apply (satisfies_Ok _ _ _ _ _ _ Hp) in Hrun.
  destruct Hrun as (Hn & ph & Hph & evs & Htr & Hevs).
  assert (Hnew : newEvents m m' = evs).
  { unfold newEvents. rewrite Htr. apply drop_app_length. }
  rewrite Hnew. split; [|split; [exact Hn|]].
  - intros before pkt size after ->.
    rewrite runProtocol_app in Hevs.
    destruct (runProtocol _ before) as [[[] u]|]; cbn in Hevs; try done.
    by eapply runProtocol_writing.
  - intros before size after ->.
    rewrite runProtocol_app in Hevs.
    destruct (runProtocol _ before) as [[[] u]|]; cbn in Hevs; try done.
    by eapply runProtocol_flushed.
Qed.

(** [congestionControlWritableBytes], the usual writable-bytes callback,
    makes none of the traced calls. *)
Lemma keeps_congestionControlWritableBytesFunc :
  keeps True m_trace congestionControlWritableBytesFunc.
Proof. unfold congestionControlWritableBytesFunc. quiet_solve. Qed.

(** *** A build that gives the packet up *)


Lemma satisfies_final {S A} (m : M S A) s s' (Q : S -> Prop) :
  satisfies m s (fun _ => Q) (fun _ => Q) -> finalState (m s) = Some s' -> Q s'.
Proof. unfold satisfies. destruct (m s); cbn; congruence. Qed.

(** [ioBufBatch.flush] returns, or raises the socket write error with both
    sockets ineligible. *)
Lemma flush_outcome flushType m :
  exists m',
    finalState (flush flushType m) = Some m'
    /\ ((exists ok, flush flushType m = Ok ok m')
        \/ (flush flushType m = Throw (socketWriteError m') m'
            /\ firstEligible m' = false /\ secondEligible m' = false)).
Proof.
  set (m1 := set_m_trace (m_trace m ++ [CallFlush flushType]) m).
  assert (E1 : flush flushType m
               = if threadLocal (m_batch m1)
                    && bool_decide (flushType = FLUSH_TYPE_ALLOW_THREAD_LOCAL_DELAY)
                 then Ok true m1
                 else match flushInternal m1 with
                      | Ok ok s => (run reset; ret ok) s
                      | Throw e s => Throw e s
                      | Abort => Abort
                      end).
  { unfold flush, bind, emit, modify, get. fold m1. by destruct (_ && _). }
  rewrite E1. destruct (_ && _).
  { exists m1. split; [done|]. left. by exists true. }
  assert (E2 : flushInternal m1 = Ok true m1
               \/ exists written m2,
                    flushInternal m1
                    = if negb (firstEligible m2) && negb (secondEligible m2)
                      then Throw (socketWriteError m2) m2 else Ok written m2).
  { destruct (batchEmpty (batchWriter (m_batch m1))) eqn:Hempty.
    - left. unfold flushInternal, bind, get. by rewrite Hempty.
    - right. destruct (flushInternal_spec m1 Hempty) as (written & m2 & evs & E & _).
      by exists written, m2. }
  destruct E2 as [->|(written & m2 & ->)].
  { eexists. split; [reflexivity|]. left. by eexists. }
  destruct (negb (firstEligible m2) && negb (secondEligible m2)) eqn:Hboth.
  - exists m2. split; [done|]. right. split; [done|].
    destruct (firstEligible m2), (secondEligible m2); done.
  - eexists. split; [reflexivity|]. left. by eexists.
Qed.

Lemma flush_trace flushType m m' :
  finalState (flush flushType m) = Some m' ->
  exists evs, m_trace m' = m_trace m ++ CallFlush flushType :: evs
              /\ Forall isSocketEvent evs.
Proof.
  unfold flush. unfold bind at 1, emit at 1, modify at 1.
  set (m1 := set_m_trace _ m). intros Hfinal.
  assert (Hs : onlyEmits isSocketEvent
                 (do m <- get;
                  if threadLocal (m_batch m)
                     && bool_decide (flushType = FLUSH_TYPE_ALLOW_THREAD_LOCAL_DELAY)
                  then ret true
                  else do result <- flushInternal; run reset; ret result)).
  { unfold reset, modifyBatchWriter.
    repeat first [apply onlyEmits_flushInternal | emits_step]. }
  destruct (satisfies_final _ _ _ _ (Hs m1) Hfinal) as (evs & Htr & Hall).
  exists evs. split; [|done]. rewrite Htr. subst m1. cbn. by rewrite <- app_assoc.
Qed.

Lemma rewind_length len prev :
  0 <= prev < two64 -> wrap64 (len - wrap64 (len - prev)) = prev.
Proof.
  intros Hprev. rewrite wrap64_minus_r.
  replace (len - (len - prev)) with prev by lia. by apply wrap64_small.
Qed.

(** The end of the three arms of [continuousMemoryBuildScheduleEncrypt]
    that give the packet up. *)
Lemma buildFailure_outcome reason m2 :
  let giveUp : M Machine DataPathResult :=
    run ignoreResult (flush defaultFlushType);
    run onConn (setNoWriteReason reason);
    ret makeBuildFailure in
  exists m',
    finalState (giveUp m2) = Some m'
    /\ (exists evs, m_trace m' = m_trace m2 ++ CallFlush defaultFlushType :: evs
                    /\ Forall isSocketEvent evs)
    /\ (giveUp m2 = Ok makeBuildFailure m'
        \/ (giveUp m2 = Throw (socketWriteError m') m'
            /\ firstEligible m' = false /\ secondEligible m' = false)).
Proof.
  intros giveUp. subst giveUp.
  destruct (flush_outcome defaultFlushType m2) as (m3 & Hfinal & Hout).
  pose proof (flush_trace _ _ _ Hfinal) as Htrace.
  destruct Hout as [[ok Hok]|(Hthrow & Hfirst & Hsecond)].
  - assert (Hign : ignoreResult (flush defaultFlushType) m2 = Ok tt m3).
    { unfold ignoreResult, bind. by rewrite Hok. }
    rewrite (bind_of_Ok _ _ _ _ _ Hign).
    unfold bind, onConn, zoom, setNoWriteReason, get, when, modify, ret. cbn.
    destruct (loopDetectorCallback (m_conn m3)); cbn;
      (eexists; split; [reflexivity|]); cbn;
      (split; [exact Htrace|by left]).
  - assert (Hign : ignoreResult (flush defaultFlushType) m2
                   = Throw (socketWriteError m3) m3).
    { unfold ignoreResult, bind. by rewrite Hthrow. }
    exists m3. rewrite (bind_of_Throw _ _ _ _ _ Hign).
    split; [done|]. split; [exact Htrace|by right].
Qed.

Lemma release_obtained m buf :
  bufAccessor (m_conn m) = Some buf ->
  onConn (release buf) (set_m_conn (set_bufAccessor None (m_conn m)) m) = Ok tt m.
Proof. destruct m as [[] ? ? ? ? ? ? ? ?]. cbn. by intros ->. Qed.

(** C8 (amended): in the in-place strategy, when the scheduler has built no
    packet, a packet without frames or a packet without a body, the
    connection-owned buffer is put back with the length it had before the
    attempt (its storage and headroom are as the builder left them, so the
    earlier data is intact if the builder wrote only past it); from that
    state [ioBufBatch.flush] is called, and the call returns a build failure,
    unless that flush raises the socket write error with both sockets
    ineligible, which then is the outcome of the call. *)
Theorem continuousMemoryBuildScheduleEncrypt_rewinds_on_failure hdr pnSpace
  packetNum cipherOverhead scheduler writableBytes aead headerCipher m buf res
  conn1 buf1 :
  bufAccessor (m_conn m) = Some buf ->
  0 <= io_length buf < two64 ->
  hasData scheduler (m_conn m) = true ->
  scheduleFramesForPacket scheduler
    (inplaceBuilder (m_conn m) hdr pnSpace cipherOverhead) writableBytes (m_conn m)
  = Ok res conn1 ->
  bufAccessor conn1 = Some buf1 ->
  noPacketBuilt res ->
  let call :=
    continuousMemoryBuildScheduleEncrypt hdr pnSpace packetNum cipherOverhead
      scheduler writableBytes aead headerCipher in
  exists reason rewound m',
    rewound = mkIOBuf (io_storage buf1) (io_headroom buf1) (io_length buf)
    /\ (keepsDataOf buf buf1 -> contents rewound = contents buf)
    /\ call m
       = (run ignoreResult (flush defaultFlushType);
          run onConn (setNoWriteReason reason);
          ret makeBuildFailure)
           (set_m_conn (set_bufAccessor (Some rewound) conn1) m)
    /\ finalState (call m) = Some m'
    /\ (exists evs, newEvents m m' = CallFlush defaultFlushType :: evs
                    /\ Forall isSocketEvent evs)
    /\ (call m = Ok makeBuildFailure m'
        \/ (call m = Throw (socketWriteError m') m'
            /\ firstEligible m' = false /\ secondEligible m' = false)).
Proof.
  intros Hbuf Hlen Hdata Hsched Hbuf1 Hnone call.
  set (m1 := set_m_conn conn1 m).
  set (rewound := mkIOBuf (io_storage buf1) (io_headroom buf1) (io_length buf)).
  set (m2 := set_m_conn (set_bufAccessor (Some rewound) conn1) m).
  assert (Hroll : onConn (do b <- obtain;
                          release (trimEnd (wrap64 (io_length b - io_length buf)) b)) m1
                  = Ok tt m2).
  { unfold onConn, zoom, obtain, release, bind, get, modify, ret. cbn.
    rewrite Hbuf1. cbn. unfold trimEnd. by rewrite rewind_length. }
  assert (Hgive : exists reason,
            call m
            = (run ignoreResult (flush defaultFlushType);
               run onConn (setNoWriteReason reason);
               ret makeBuildFailure) m2).
  { subst call. unfold continuousMemoryBuildScheduleEncrypt.
    assert (Hobtain : onConn obtain m
                      = Ok buf (set_m_conn (set_bufAccessor None (m_conn m)) m)).
    { unfold onConn, zoom, obtain, bind, get, modify, ret. by rewrite Hbuf. }
    rewrite (bind_of_Ok _ _ _ _ _ Hobtain).
    rewrite (bind_of_Ok _ _ _ _ _ (release_obtained m buf Hbuf)).
    unfold bind at 1, gets at 1. rewrite Hdata.
    unfold bind at 1, CHECK at 1, ret at 1.
    assert (Hrun : onConn (scheduleFramesForPacket scheduler
                             (inplaceBuilder (m_conn m) hdr pnSpace cipherOverhead)
                             writableBytes) m = Ok res m1).
    { unfold onConn, zoom. by rewrite Hsched. }
    unfold inplaceBuilder in Hrun. rewrite (bind_of_Ok _ _ _ _ _ Hrun).
    unfold bind at 1, gets at 1. cbn [m_conn m1 set_m_conn].
    unfold ownsBuffer. rewrite Hbuf1.
    rewrite bool_decide_eq_true_2 by done.
    unfold bind at 1, CHECK at 1, ret at 1.
    unfold noPacketBuilt in Hnone.
    destruct (sr_packet res) as [pkt|].
    2: { exists NO_FRAME. by rewrite (bind_of_Ok _ _ _ _ _ Hroll). }
    case_bool_decide as Hframes.
    { exists NO_FRAME. by rewrite (bind_of_Ok _ _ _ _ _ Hroll). }
    destruct Hnone as [?|Hbody]; [done|]. rewrite Hbody.
    exists NO_BODY. by rewrite (bind_of_Ok _ _ _ _ _ Hroll). }
  destruct Hgive as [reason Hgive].
  destruct (buildFailure_outcome reason m2) as (m' & Hfinal & (evs & Htr & Hall) & Hout).
  exists reason, rewound, m'. rewrite Hgive.
  split; [done|]. split.
  { intros [Hroom Hdata']. unfold contents. cbn. by rewrite Hroom. }
  split; [done|]. split; [exact Hfinal|]. split; [|exact Hout].
  exists evs. split; [|done]. unfold newEvents. rewrite Htr. apply drop_app_length.
Qed.

(** *** The oversize check *)

Lemma satisfies_and {S A} (m : M S A) s (Q1 Q2 : A -> S -> Prop) E1 E2 :
  satisfies m s Q1 E1 -> satisfies m s Q2 E2 ->
  satisfies m s (fun a s' => Q1 a s' /\ Q2 a s') (fun e s' => E1 e s' /\ E2 e s').
Proof. unfold satisfies. by destruct (m s). Qed.

Lemma satisfies_any_bind {S A B} (m : M S A) (k : A -> M S B) s Q :
  (forall a s', satisfies (k a) s' Q (fun _ _ => True)) ->
  satisfies (bind m k) s Q (fun _ _ => True).
Proof.
  intros Hk. apply satisfies_bind. unfold satisfies at 1.
  destruct (m s); [apply Hk|done|done].
Qed.










Lemma buildFailure_not_built (m : M Machine unit) reason s (Q : DataPathResult -> Machine -> Prop) :
  (forall r s', buildSuccess r = false -> Q r s') ->
  satisfies
    (run m;
     run ignoreResult (flush defaultFlushType);
     run onConn (setNoWriteReason reason);
     ret makeBuildFailure) s Q (fun _ _ => True).
Proof.
  intros HQ. do 3 (apply satisfies_any_bind; intros ? ?).
  apply satisfies_ret. by apply HQ.
Qed.





(** *** The loop does not run out of fuel *)

Lemma keeps_onConn_batch {A} (c : M Conn A) : keeps True m_batch (onConn c).
Proof. intros s. unfold satisfies, onConn, zoom. destruct (c (m_conn s)); done. Qed.

Lemma keeps_project {S T U A} R (proj : S -> T) (f : T -> U) (m : M S A) :
  keeps R proj m -> keeps R (fun s => f (proj s)) m.
Proof.
  intros Hm s. eapply satisfies_weaken; [apply Hm|..]; cbn.
  - by intros _ s' ->.
  - by intros _ s' [? ->].
Qed.

Lemma keeps_encryptPacketHeader_any {T} (proj : Machine -> T) headerForm packetBuf
  headerLen bodyLen headerCipher :
  keeps True proj
    (encryptPacketHeader (S := Machine) headerForm packetBuf headerLen bodyLen
       headerCipher).
Proof. unfold encryptPacketHeader. repeat keeps_step. Qed.

Lemma keeps_emit {T} (proj : Machine -> T) ev :
  (forall tr s, proj (set_m_trace tr s) = proj s) -> keeps True proj (emit ev).
Proof. intros Hproj s. apply Hproj. Qed.

Ltac sent_solve :=
  repeat first [assumption
               | apply keeps_emit; reflexivity
               | progress unfold clockNow, to_uint32, getPktSent
               | apply (keeps_project True m_batch pktSent), keeps_onConn_batch
               | apply keeps_encryptPacketHeader_any
               | keeps_step].

Lemma keeps_sent_flush flushType : keeps True sentSoFar (flush flushType).
Proof.
  unfold flush, flushInternal, flushWrites, flushVerdict, writeBatchTo,
    batchWriterWrite, pauseRead, reset, modifyBatchWriter, modifyHappyEyeballs, emit.
  sent_solve.
Qed.


Lemma satisfies_kept {T A B} (proj : Machine -> T) (P : T -> Prop)
  (m : M Machine A) (k : A -> M Machine B) s Q :
  keeps True proj m -> P (proj s) ->
  (forall a s', P (proj s') -> satisfies (k a) s' Q (fun _ _ => True)) ->
  satisfies (bind m k) s Q (fun _ _ => True).
Proof.
  intros Hm HP Hk.
  apply (satisfies_seq _ _ _ (fun _ s' => P (proj s'))); [|exact Hk].
  eapply satisfies_keeps; [exact Hm| |done].
  intros _ s' Heq. by rewrite Heq.
Qed.

Ltac sent_step_as Hs x :=
  eapply (satisfies_kept sentSoFar (fun n => n = _));
  [solve [sent_solve]
  | exact Hs
  | clear Hs; intros x ? Hs].
Ltac sent_step Hs := let x := fresh "x" in sent_step_as Hs x.

Lemma batchWrite_sent size s :
  satisfies (batchWrite size) s
    (fun _ s' => sentSoFar s' = wrap64 (sentSoFar s + 1)) (fun _ _ => True).
Proof.
  unfold batchWrite. apply satisfies_bind, satisfies_modify.
  match goal with |- satisfies _ ?s1 _ _ => 
    assert (Hs : sentSoFar s1 = wrap64 (sentSoFar s + 1)) by reflexivity;
    revert Hs; generalize s1; intros s2 Hs
  end.
  eapply (satisfies_keeps True sentSoFar); [|intros ? ? ->; exact Hs|done].
  unfold modifyBatchWriter, emit.
  repeat first [apply keeps_sent_flush | keeps_step].
Qed.

Lemma packetWrite_sent pkt size res s n :
  sentSoFar s = n ->
  satisfies
    (run emit (CallBatchWrite pkt size);
     do written <- batchWrite size;
     run when written
           (run onConn (QUIC_STATS (onWrite size));
            onConn (QUIC_STATS onPacketSent));
     ret (makeWriteResult written res size)) s
    (fun r s' => buildSuccess r = true -> sentSoFar s' = wrap64 (n + 1))
    (fun _ _ => True).
Proof.
  intros Hs. apply satisfies_bind, satisfies_modify.
  eapply satisfies_seq; [apply batchWrite_sent|]. cbv beta.
  intros written s1 Hs1. unfold sentSoFar in Hs, Hs1. cbn in Hs1.
  rewrite Hs in Hs1. sent_step Hs1. apply satisfies_ret. by intros _.
Qed.

Lemma continuousMemoryBuildScheduleEncrypt_sent hdr pnSpace packetNum
  cipherOverhead scheduler writableBytes aead headerCipher s :
  satisfies
    (continuousMemoryBuildScheduleEncrypt hdr pnSpace packetNum cipherOverhead
       scheduler writableBytes aead headerCipher) s
    (fun r s' => buildSuccess r = true -> sentSoFar s' = wrap64 (sentSoFar s + 1))
    (fun _ _ => True).
Proof.
  unfold continuousMemoryBuildScheduleEncrypt.
  assert (Hs : sentSoFar s = sentSoFar s) by done. revert Hs.
  generalize s at 1 3. intros s0 Hs.
  do 4 sent_step Hs. sent_step_as Hs res. do 2 sent_step Hs.
  destruct (sr_packet res) as [pkt|];
    [|apply buildFailure_not_built; by intros ? ? ->].
  destruct (bool_decide (frames (bp_packet pkt) = []));
    [apply buildFailure_not_built; by intros ? ? ->|].
  destruct (bp_body pkt) as [body|];
    [|apply buildFailure_not_built; by intros ? ? ->].
  do 9 sent_step Hs.
  by apply packetWrite_sent.
Qed.

Lemma iobufChainBasedBuildScheduleEncrypt_sent hdr pnSpace packetNum
  cipherOverhead scheduler writableBytes aead headerCipher s :
  satisfies
    (iobufChainBasedBuildScheduleEncrypt hdr pnSpace packetNum cipherOverhead
       scheduler writableBytes aead headerCipher) s
    (fun r s' => buildSuccess r = true -> sentSoFar s' = wrap64 (sentSoFar s + 1))
    (fun _ _ => True).
Proof.
  unfold iobufChainBasedBuildScheduleEncrypt.
  assert (Hs : sentSoFar s = sentSoFar s) by done. revert Hs.
  generalize s at 1 3. intros s0 Hs.
  sent_step Hs. sent_step_as Hs res.
  destruct (sr_packet res) as [pkt|];
    [|apply (buildFailure_not_built (ret tt)); by intros ? ? ->].
  destruct (bool_decide (frames (bp_packet pkt) = []));
    [apply (buildFailure_not_built (ret tt)); by intros ? ? ->|].
  destruct (bp_body pkt) as [body|];
    [|apply (buildFailure_not_built (ret tt)); by intros ? ? ->].
  do 4 sent_step Hs.
  by apply packetWrite_sent.
Qed.


Lemma writeLoopBody_sent builder pnSpace scheduler writableBytesFunc aead
  headerCipher s :
  keeps True sentSoFar writableBytesFunc ->
  satisfies
    (writeLoopBody builder pnSpace scheduler writableBytesFunc aead headerCipher) s
    (fun returned s' => returned = None -> sentSoFar s' = wrap64 (sentSoFar s + 1))
    (fun _ _ => True).
Proof.
  intros Hquiet. unfold writeLoopBody.
  assert (Hs : sentSoFar s = sentSoFar s) by done. revert Hs.
  generalize s at 1 3. intros s0 Hs.
  sent_step_as Hs conn. do 2 sent_step Hs.
  eapply satisfies_seq.
  { destruct (bool_decide (dataPathType (transportSettings conn) = ChainedMemory)).
    - apply iobufChainBasedBuildScheduleEncrypt_sent.
    - apply continuousMemoryBuildScheduleEncrypt_sent. }
  cbv beta. intros res s1 Hs1. rewrite Hs in Hs1. clear Hs.
  destruct (buildSuccess res); cbn [negb];
    [|apply satisfies_any_bind; intros; by apply satisfies_ret].
  specialize (Hs1 eq_refl).
  destruct (result res) as [[packetEvent [pkt|]]|]; try apply satisfies_abort.
  do 2 sent_step Hs1.
  apply satisfies_bind, satisfies_modify.
  match goal with |- satisfies _ ?s2 _ _ =>
    assert (Hs2 : sentSoFar s2 = wrap64 (sentSoFar s + 1)) by exact Hs1;
    clear Hs1; revert Hs2; generalize s2; intros s3 Hs3
  end.
  sent_step Hs3.
  destruct (writeSuccess res); cbn [negb].
  - apply satisfies_ret. by intros _.
  - do 2 (apply satisfies_any_bind; intros ? ?). by apply satisfies_ret.
Qed.

Lemma writeLoopCondition_sent scheduler packetLimit batchSize writeLoopBeginTime s :
  satisfies (writeLoopCondition scheduler packetLimit batchSize writeLoopBeginTime) s
    (fun continue s' =>
       sentSoFar s' = sentSoFar s /\ (continue = true -> sentSoFar s < packetLimit))
    (fun _ _ => True).
Proof.
  unfold writeLoopCondition. apply satisfies_bind, satisfies_get.
  destruct (hasData scheduler (m_conn s)); cbn [negb]; [|by apply satisfies_ret].
  destruct (pktSent (m_batch s) <? packetLimit) eqn:Hlimit; cbn [negb];
    [|by apply satisfies_ret].
  apply Z.ltb_lt in Hlimit.
  destruct (pktSent (m_batch s) <? batchSize); [by apply satisfies_ret|].
  eapply (satisfies_keeps True sentSoFar); [|by intros ? ? ->|done].
  unfold writeLoopTimeLimit. sent_solve.
Qed.

(** The fuel of [writeLoop] stands for the [while]: every turn that goes on
    has sent one packet more, so once the fuel exceeds what [packetLimit]
    leaves to send, more fuel changes nothing. *)
Lemma writeLoop_fuel_enough builder pnSpace scheduler writableBytesFunc aead
  headerCipher packetLimit batchSize writeLoopBeginTime :
  keeps True sentSoFar writableBytesFunc ->
  packetLimit <= uint64_max ->
  forall fuel extra s,
    0 <= sentSoFar s ->
    (Z.to_nat (packetLimit - sentSoFar s) < fuel)%nat ->
    writeLoop (fuel + extra)
      (writeLoopCondition scheduler packetLimit batchSize writeLoopBeginTime)
      (writeLoopBody builder pnSpace scheduler writableBytesFunc aead headerCipher) s
    = writeLoop fuel
        (writeLoopCondition scheduler packetLimit batchSize writeLoopBeginTime)
        (writeLoopBody builder pnSpace scheduler writableBytesFunc aead headerCipher) s.
Proof.
  intros Hquiet Hlimit fuel extra.
  induction fuel as [|fuel IH]; intros s Hsent Hfuel; [lia|].
  cbn [writeLoop Nat.add]. unfold bind at 1 3.
  pose proof (writeLoopCondition_sent scheduler packetLimit batchSize
                writeLoopBeginTime s) as Hcond.
  unfold satisfies in Hcond.
  destruct (writeLoopCondition _ _ _ _ s) as [continue s1| |]; [|done|done].
  destruct Hcond as [Hs1 Hcontinue]. destruct continue; [|done].
  specialize (Hcontinue eq_refl). unfold bind.
  pose proof (writeLoopBody_sent builder pnSpace scheduler writableBytesFunc aead
                headerCipher s1 Hquiet) as Hbody.
  unfold satisfies in Hbody.
  destruct (writeLoopBody _ _ _ _ _ _ s1) as [[n|] s2| |]; [done| |done|done].
  specialize (Hbody eq_refl). rewrite Hs1 in Hbody.
  rewrite wrap64_small in Hbody by (unfold uint64_max, two64 in *; lia).
  apply IH; lia.
Qed.

(** In [writeConnectionDataToSocket] the loop starts with no packet sent and
    [S (Z.to_nat packetLimit)] turns of fuel. *)
Lemma writeLoop_initial_fuel_enough builder pnSpace scheduler writableBytesFunc
  aead headerCipher packetLimit batchSize writeLoopBeginTime extra s :
  keeps True sentSoFar writableBytesFunc ->
  packetLimit <= uint64_max ->
  sentSoFar s = 0 ->
  writeLoop (S (Z.to_nat packetLimit) + extra)
    (writeLoopCondition scheduler packetLimit batchSize writeLoopBeginTime)
    (writeLoopBody builder pnSpace scheduler writableBytesFunc aead headerCipher) s
  = writeLoop (S (Z.to_nat packetLimit))
      (writeLoopCondition scheduler packetLimit batchSize writeLoopBeginTime)
      (writeLoopBody builder pnSpace scheduler writableBytesFunc aead headerCipher) s.
Proof.
  intros Hquiet Hlimit Hsent.
  apply writeLoop_fuel_enough; [done|done|lia|]. rewrite Hsent, Z.sub_0_r. lia.
Qed.


(** *** Further properties of the batch and of the loop *)

Lemma flush_returns flushType m ok m' :
  flush flushType m = Ok ok m' ->
  exists evs, m_trace m' = m_trace m ++ CallFlush flushType :: evs
              /\ Forall isSocketEvent evs.
Proof.
  intros Hok. apply flush_trace. by rewrite Hok.
Qed.

(** X6: a call of [ioBufBatch.write] that returns has counted the packet
    and appended it to the batch once; what is traced before the append is
    the flush of the earlier packets, whose failure is not reported; the
    call returns false only when the append asked for a flush and that flush
    returned false. *)
Theorem batchWrite_reports_flush_after_append size m ok m' :
  batchWrite size m = Ok ok m' ->
  sentSoFar m' = wrap64 (sentSoFar m + 1)
  /\ exists pre post,
       newEvents m m' = pre ++ BatchAppend size :: post ++ [BatchWriteResult ok]
       /\ Forall isFlushEvent pre
       /\ Forall isFlushEvent post
       /\ (ok = false -> exists evs, post = CallFlush FLUSH_TYPE_ALWAYS :: evs).
Proof.
  intros Hrun. split.
  { pose proof (batchWrite_sent size m) as Hs. unfold satisfies in Hs.
    by rewrite Hrun in Hs. }
  revert Hrun. unfold batchWrite.
  unfold bind at 1, modify at 1. set (m0 := set_m_batch _ m).
  assert (Htr0 : m_trace m0 = m_trace m) by reflexivity.
  unfold bind at 1, get at 1.
  assert (Hpre : forall m1,
    when (needsFlush (batchWriter (m_batch m0)) size)
      (do ignored <- flush FLUSH_TYPE_ALWAYS; ret tt) m0 = Ok tt m1 ->
    exists pre, m_trace m1 = m_trace m ++ pre /\ Forall isFlushEvent pre).
  { intros m1. destruct (needsFlush _ _); cbn [when].
    - unfold bind. destruct (flush FLUSH_TYPE_ALWAYS m0) as [ok0 s| |] eqn:Hf; [|done|done].
      intros [= <-]. destruct (flush_returns _ _ _ _ Hf) as (evs & Htr & Hall).
      exists (CallFlush FLUSH_TYPE_ALWAYS :: evs). split; [by rewrite Htr, Htr0|].
      constructor; [by left|]. eapply Forall_impl; [exact Hall|]. by right.
    - intros [= <-]. exists []. split; [by rewrite app_nil_r|constructor]. }
  unfold bind at 1.
  destruct (when _ _ m0) as [[] m1| |] eqn:Hwhen; [|done|done].
  destruct (Hpre m1 eq_refl) as (pre & Htr1 & Hallpre). clear Hpre Hwhen.
  unfold bind at 1, get at 1.
  destruct (append size (batchWriter (m_batch m1))) as [mustFlush writer].
  unfold bind at 1, emit at 1, modify at 1.
  unfold bind at 1, modifyBatchWriter at 1, modify at 1.
  set (m2 := set_m_batch _ _).
  assert (Htr2 : m_trace m2 = m_trace m ++ pre ++ [BatchAppend size]).
  { subst m2. cbn. by rewrite Htr1, <- app_assoc. }
  unfold bind at 1.
  destruct ((if mustFlush then flush FLUSH_TYPE_ALWAYS else ret true) m2)
    as [ok3 m3| |] eqn:Hpost; [|done|done].
  unfold bind, emit, modify, ret. intros [= <- <-].
  assert (Hp : exists post, m_trace m3 = m_trace m2 ++ post
                            /\ Forall isFlushEvent post
                            /\ (ok3 = false ->
                                exists evs, post = CallFlush FLUSH_TYPE_ALWAYS :: evs)).
  { destruct mustFlush.
    - destruct (flush_returns _ _ _ _ Hpost) as (evs & Htr & Hall).
      exists (CallFlush FLUSH_TYPE_ALWAYS :: evs). split; [done|]. split; [|by eauto].
      constructor; [by left|]. eapply Forall_impl; [exact Hall|]. by right.
    - injection Hpost as <- <-. exists []. split; [by rewrite app_nil_r|].
      split; [constructor|done]. }
  destruct Hp as (post & Htr3 & Hallpost & Hfalse).
  exists pre, post. split; [|done].
  unfold newEvents. cbn [m_trace set_m_trace]. rewrite Htr3, Htr2.
  rewrite <- !app_assoc. rewrite drop_app_length. cbn. reflexivity.
Qed.

Lemma packetWrite_counted pkt size res s n :
  sentSoFar s = n ->
  satisfies
    (run emit (CallBatchWrite pkt size);
     do written <- batchWrite size;
     run when written
           (run onConn (QUIC_STATS (onWrite size));
            onConn (QUIC_STATS onPacketSent));
     ret (makeWriteResult written res size)) s
    (fun r s' => sentSoFar s'
                 = if buildSuccess r then wrap64 (n + 1) else n)
    (fun _ _ => True).
Proof.
  intros Hs. apply satisfies_bind, satisfies_modify.
  eapply satisfies_seq; [apply batchWrite_sent|]. cbv beta.
  intros written s1 Hs1. unfold sentSoFar in Hs, Hs1. cbn in Hs1.
  rewrite Hs in Hs1. sent_step Hs1. by apply satisfies_ret.
Qed.

Lemma buildFailure_counted (m : M Machine unit) reason s n :
  keeps True sentSoFar m ->
  sentSoFar s = n ->
  satisfies
    (run m;
     run ignoreResult (flush defaultFlushType);
     run onConn (setNoWriteReason reason);
     ret makeBuildFailure) s
    (fun r s' => sentSoFar s'
                 = if buildSuccess r then wrap64 (n + 1) else n)
    (fun _ _ => True).
Proof.
  intros Hm Hs. sent_step Hs.
  eapply (satisfies_kept sentSoFar (fun k => k = _));
    [unfold ignoreResult; apply keeps_bind; [apply keeps_sent_flush|intros; apply keeps_ret]
    |exact Hs|clear Hs; intros ? ? Hs].
  sent_step Hs. by apply satisfies_ret.
Qed.

Lemma continuousMemoryBuildScheduleEncrypt_counted hdr pnSpace packetNum
  cipherOverhead scheduler writableBytes aead headerCipher s :
  satisfies
    (continuousMemoryBuildScheduleEncrypt hdr pnSpace packetNum cipherOverhead
       scheduler writableBytes aead headerCipher) s
    (fun r s' => sentSoFar s'
                 = if buildSuccess r then wrap64 (sentSoFar s + 1) else sentSoFar s)
    (fun _ _ => True).
Proof.
  unfold continuousMemoryBuildScheduleEncrypt.
  assert (Hs : sentSoFar s = sentSoFar s) by done. revert Hs.
  generalize s at 1 3. intros s0 Hs.
  do 4 sent_step Hs. sent_step_as Hs res. do 2 sent_step Hs.
  destruct (sr_packet res) as [pkt|];
    [|apply buildFailure_counted; [sent_solve|done]].
  destruct (bool_decide (frames (bp_packet pkt) = []));
    [apply buildFailure_counted; [sent_solve|done]|].
  destruct (bp_body pkt) as [body|];
    [|apply buildFailure_counted; [sent_solve|done]].
  do 9 sent_step Hs.
  by apply packetWrite_counted.
Qed.

Lemma iobufChainBasedBuildScheduleEncrypt_counted hdr pnSpace packetNum
  cipherOverhead scheduler writableBytes aead headerCipher s :
  satisfies
    (iobufChainBasedBuildScheduleEncrypt hdr pnSpace packetNum cipherOverhead
       scheduler writableBytes aead headerCipher) s
    (fun r s' => sentSoFar s'
                 = if buildSuccess r then wrap64 (sentSoFar s + 1) else sentSoFar s)
    (fun _ _ => True).
Proof.
  unfold iobufChainBasedBuildScheduleEncrypt.
  assert (Hs : sentSoFar s = sentSoFar s) by done. revert Hs.
  generalize s at 1 3. intros s0 Hs.
  sent_step Hs. sent_step_as Hs res.
  destruct (sr_packet res) as [pkt|];
    [|apply (buildFailure_counted (ret tt)); [apply keeps_ret|done]].
  destruct (bool_decide (frames (bp_packet pkt) = []));
    [apply (buildFailure_counted (ret tt)); [apply keeps_ret|done]|].
  destruct (bp_body pkt) as [body|];
    [|apply (buildFailure_counted (ret tt)); [apply keeps_ret|done]].
  do 4 sent_step Hs.
  by apply packetWrite_counted.
Qed.

(** One turn of the loop sends at most one packet, and what it returns from
    inside the loop is the count of the batch. *)
Lemma writeLoopBody_counted builder pnSpace scheduler writableBytesFunc aead
  headerCipher s :
  keeps True sentSoFar writableBytesFunc ->
  satisfies
    (writeLoopBody builder pnSpace scheduler writableBytesFunc aead headerCipher) s
    (fun returned s' =>
       match returned with
       | None => sentSoFar s' = wrap64 (sentSoFar s + 1)
       | Some n =>
           n = sentSoFar s'
           /\ (sentSoFar s' = sentSoFar s \/ sentSoFar s' = wrap64 (sentSoFar s + 1))
       end)
    (fun _ _ => True).
Proof.
  intros Hquiet. unfold writeLoopBody.
  assert (Hs : sentSoFar s = sentSoFar s) by done. revert Hs.
  generalize s at 1 3. intros s0 Hs.
  sent_step_as Hs conn. do 2 sent_step Hs.
  eapply satisfies_seq.
  { destruct (bool_decide (dataPathType (transportSettings conn) = ChainedMemory)).
    - apply iobufChainBasedBuildScheduleEncrypt_counted.
    - apply continuousMemoryBuildScheduleEncrypt_counted. }
  cbv beta. intros res s1 Hs1. rewrite Hs in Hs1. clear Hs.
  destruct (buildSuccess res); cbn [negb].
  2:{ apply satisfies_bind, satisfies_gets. apply satisfies_ret. split; [done|by left]. }
  destruct (result res) as [[packetEvent [pkt|]]|]; try apply satisfies_abort.
  do 2 sent_step Hs1.
  apply satisfies_bind, satisfies_modify.
  match goal with |- satisfies _ ?s2 _ _ =>
    assert (Hs2 : sentSoFar s2 = wrap64 (sentSoFar s + 1)) by exact Hs1;
    clear Hs1; revert Hs2; generalize s2; intros s3 Hs3
  end.
  sent_step Hs3.
  destruct (writeSuccess res); cbn [negb].
  - by apply satisfies_ret.
  - sent_step Hs3. apply satisfies_bind, satisfies_gets, satisfies_ret.
    split; [done|by right].
Qed.

Lemma writeLoop_counted builder pnSpace scheduler writableBytesFunc aead
  headerCipher packetLimit batchSize writeLoopBeginTime :
  keeps True sentSoFar writableBytesFunc ->
  packetLimit <= uint64_max ->
  forall fuel s,
    0 <= sentSoFar s <= packetLimit ->
    satisfies
      (writeLoop fuel
         (writeLoopCondition scheduler packetLimit batchSize writeLoopBeginTime)
         (writeLoopBody builder pnSpace scheduler writableBytesFunc aead headerCipher)) s
      (fun returned s' =>
         0 <= sentSoFar s' <= packetLimit
         /\ forall n, returned = Some n -> n = sentSoFar s')
      (fun _ _ => True).
Proof.
  intros Hquiet Hlimit fuel.
  induction fuel as [|fuel IH]; intros s Hsent; [done|].
  cbn [writeLoop]. eapply satisfies_seq; [apply writeLoopCondition_sent|].
  cbv beta. intros continue s1 [Hs1 Hcontinue].
  destruct continue; [|apply satisfies_ret; rewrite Hs1; by split].
  specialize (Hcontinue eq_refl).
  eapply satisfies_seq; [by apply writeLoopBody_counted|].
  cbv beta. intros returned s2 Hbody. rewrite Hs1 in Hbody.
  assert (Hwrap : wrap64 (sentSoFar s + 1) = sentSoFar s + 1).
  { apply wrap64_small. unfold uint64_max, two64 in *. lia. }
  rewrite Hwrap in Hbody.
  destruct returned as [n|].
  - apply satisfies_ret. destruct Hbody as [-> Hn]. split; [lia|]. by intros ? [= <-].
  - apply IH. lia.
Qed.

Lemma writeConnectionDataToSocket_counted builder pnSpace scheduler
  writableBytesFunc packetLimit aead headerCipher s :
  keeps True sentSoFar writableBytesFunc ->
  0 <= packetLimit <= uint64_max ->
  satisfies
    (writeConnectionDataToSocket builder pnSpace scheduler writableBytesFunc
       packetLimit aead headerCipher) s
    (fun written s' => 0 <= written <= packetLimit /\ written = sentSoFar s')
    (fun _ _ => True).
Proof.
  intros Hquiet Hlimit. unfold writeConnectionDataToSocket.
  apply satisfies_bind, satisfies_gets.
  apply satisfies_bind, satisfies_modify.
  match goal with |- satisfies _ ?s1 _ _ =>
    assert (Hs : sentSoFar s1 = 0) by reflexivity;
    revert Hs; generalize s1; intros s2 Hs
  end.
  do 2 sent_step Hs.
  eapply satisfies_seq.
  { apply (writeLoop_counted builder pnSpace scheduler writableBytesFunc aead headerCipher
             packetLimit); [done|lia|]. rewrite Hs. lia. }
  cbv beta. intros returned s3 [Hs3 Hreturned].
  destruct returned as [n|].
  { apply satisfies_ret. rewrite (Hreturned n eq_refl). by split. }
  assert (Hs4 : sentSoFar s3 = sentSoFar s3) by done. revert Hs4.
  generalize (sentSoFar s3) at 2. intros k Hs4.
  assert (Hk : 0 <= k <= packetLimit) by (by rewrite <- Hs4).
  clear Hs3 Hreturned.
  eapply (satisfies_kept sentSoFar (fun n => n = _));
    [unfold ignoreResult; apply keeps_bind; [apply keeps_sent_flush|intros; apply keeps_ret]
    |exact Hs4|clear Hs4; intros ? ? Hs4].
  do 2 sent_step Hs4.
  apply satisfies_gets. unfold sentSoFar in *. by rewrite Hs4.
Qed.

(** X17: [writeConnectionDataToSocket] returns the number of packets it
    handed to the batch, and never more than [packetLimit] (given a
    writable-bytes callback that leaves the batch alone). *)
Theorem writeConnectionDataToSocket_respects_packet_limit builder pnSpace scheduler
  writableBytesFunc packetLimit aead headerCipher s :
  keeps True sentSoFar writableBytesFunc ->
  0 <= packetLimit <= uint64_max ->
  satisfies
    (writeConnectionDataToSocket builder pnSpace scheduler writableBytesFunc
       packetLimit aead headerCipher) s
    (fun written s' => 0 <= written <= packetLimit /\ written = sentSoFar s')
    (fun _ _ => True).
Proof. apply writeConnectionDataToSocket_counted. Qed.

End WritePath.

(** ** Implicit acknowledgement of a discarded level *)

Section ImplicitAck.
Context `{CollaboratorOps}.














End ImplicitAck.

(** ** The theorems on concrete connections

    The instance [Simple] of the consumed interfaces makes the model run;
    each lemma below applies a theorem to a concrete connection or shows what
    the code does on one. *)


(** ** Further properties of the connection-state updater *)

Section UpdaterCounters.

Context `{CollaboratorOps}.

Ltac unfold_conn :=
  unfold modifyStreamManager, modifyPendingEvents, modifyLossState,
    modifyOutstandings, modifyD6d, QUIC_STATS, setNoWriteReason in *.


Lemma updateConnectionFrame_flags packetEvent pkt sentTime isD6DProbe st frame conn :
  satisfies (updateConnectionFrame packetEvent pkt sentTime isD6DProbe st frame) conn
    (fun st' _ =>
       retransmittable st' = retransmittable st || isRetransmittableFrame frame
       /\ isPing st' = isPing st || isPingFrame frame)
    (fun _ _ => True).
Proof.
  destruct frame; cbn [updateConnectionFrame isRetransmittableFrame isPingFrame];
    unfold_conn.
  all: repeat first
    [ wp_step
    | lazymatch goal with
      | |- satisfies (handleStreamWritten _ _ _ _ _) _ _ _ =>
          eapply (satisfies_keeps True (fun _ : Conn => tt));
          [intros ?; unfold satisfies; by destruct (handleStreamWritten _ _ _ _ _ _)
          | intros ? ? ? | done]
      | |- satisfies (collaborate _) _ _ _ =>
          eapply (satisfies_keeps True (fun _ : Conn => tt));
          [intros ?; unfold satisfies; by destruct (collaborate _ _)
          | intros ? ? ? | done]
      end ];
    cbn; rewrite ?orb_true_r, ?orb_false_r; done.
Qed.

Lemma forEachFrame_flags packetEvent pkt sentTime isD6DProbe fs :
  forall st conn,
  satisfies
    (forEachFrame (updateConnectionFrame packetEvent pkt sentTime isD6DProbe) st fs)
    conn
    (fun st' _ =>
       retransmittable st' = retransmittable st || existsb isRetransmittableFrame fs
       /\ isPing st' = isPing st || existsb isPingFrame fs)
    (fun _ _ => True).
Proof.
  induction fs as [|frame fs IH]; intros st conn; cbn [forEachFrame existsb].
  - apply satisfies_ret. by rewrite !orb_false_r.
  - apply satisfies_bind.
    eapply satisfies_weaken; [apply updateConnectionFrame_flags| |done].
    intros st1 conn1 (Hr1 & Hp1). cbv beta.
    eapply satisfies_weaken; [apply IH| |done]. cbv beta.
    intros st2 conn2 (Hr2 & Hp2).
    by rewrite Hr2, Hp2, Hr1, Hp1, !orb_assoc.
Qed.


Lemma forEachFrame_keeps {T St} (proj : Conn -> T)
  (body : St -> QuicWriteFrame -> M Conn St) fs :
  (forall st frame, keeps True proj (body st frame)) ->
  forall st, keeps True proj (forEachFrame body st fs).
Proof.
  intros Hbody. induction fs as [|frame fs IH]; intros st; cbn [forEachFrame].
  - apply keeps_ret.
  - apply keeps_bind; [apply Hbody|]. intros st'. apply IH.
Qed.



Lemma ack_only_flags pkt :
  carriesAckElicitingOrPing pkt = false ->
  packetRetransmittable pkt = false /\ packetIsPing pkt = false.
Proof.
  unfold carriesAckElicitingOrPing, packetRetransmittable, packetIsPing.
  induction (frames pkt) as [|frame fs IH]; [done|]. cbn [existsb].
  intros Hfs. apply orb_false_iff in Hfs as [Hframe Hfs].
  destruct (IH Hfs) as [-> ->]. by destruct frame.
Qed.

(** X8: a packet of acks and padding alone is not reported as an
    ack-eliciting packet: [updateConnection] leaves
    [totalAckElicitingPacketsSent], [lastRetransmittablePacketSentTime], the
    congestion controller, the pacer and the path-validation limiter as they
    are. *)
Theorem updateConnection_ack_only_not_congestion_controlled
  packetEvent pkt sentTime size isDSR conn :
  carriesAckElicitingOrPing pkt = false ->
  collaboratorsKeep ackElicitingState ->
  satisfies (updateConnection packetEvent pkt sentTime size isDSR) conn
    (fun _ conn' => ackElicitingState conn' = ackElicitingState conn)
    (fun _ conn' => ackElicitingState conn' = ackElicitingState conn).
Proof.
  intros Hacks Hcollab. apply ack_only_flags in Hacks as [Hretx Hping].
  unfold updateConnection. unfold_conn.
  apply satisfies_bind, satisfies_get. cbv zeta.
  apply satisfies_bind.
  eapply satisfies_weaken.
  { apply satisfies_and.
    - apply forEachFrame_flags.
    - apply (forEachFrame_keeps ackElicitingState). intros st frame.
      destruct frame; cbn [updateConnectionFrame]; unfold_conn;
        unfold handleStreamWritten; unfold_conn;
        repeat first [ apply Hcollab | keeps_step ]. }
  2:{ by intros _ conn' [_ [_ ?]]. }
  intros st conn1 [(Hr & Hp) Ha1]. cbv beta.
  cbn [retransmittable isPing orb] in Hr, Hp.
  fold (packetRetransmittable pkt) in Hr. fold (packetIsPing pkt) in Hp.
  rewrite Hretx in Hr. rewrite Hping in Hp.
  apply satisfies_bind.
  eapply (satisfies_keeps True ackElicitingState);
    [apply Hcollab| |intros ? ? _ ?; congruence].
  intros _ conn2 Ha2. cbv beta. rewrite Ha1 in Ha2. clear Ha1 conn1.
  rewrite Hr, Hp. cbn [negb andb].
  eapply (satisfies_keeps False ackElicitingState);
    [repeat keeps_step|intros _ conn3 Ha3; congruence|intros _ ? []].
Qed.

Lemma wrap64_succ_le c : 0 <= c -> 0 <= wrap64 (c + 1) <= c + 1.
Proof.
  intros Hc. unfold wrap64, two64. split; [apply Z.mod_pos_bound; lia|].
  apply Z.mod_le; lia.
Qed.

Lemma length_emplace {A} (p : nat) (x : A) l :
  List.length (emplace p x l) = Datatypes.S (List.length l).
Proof.
  unfold emplace. rewrite length_app. cbn. rewrite length_firstn, length_skipn. lia.
Qed.

Lemma collaborate_keeps_outstandings call :
  collaboratorsKeepOutstandings -> keeps True outstandings (collaborate call).
Proof.
  intros Hcollab conn. specialize (Hcollab call conn). unfold satisfies.
  destruct (collaborate call conn); [done| |done]. by split.
Qed.

Lemma satisfies_kept_in {S T A B} (proj : S -> T) (P : T -> Prop)
  (m : M S A) (k : A -> M S B) s Q E :
  keeps False proj m -> P (proj s) ->
  (forall a s', P (proj s') -> satisfies (k a) s' Q E) ->
  satisfies (bind m k) s Q E.
Proof.
  intros Hm HP Hk. apply satisfies_bind.
  eapply satisfies_keeps; [exact Hm| |intros ? ? []].
  intros a s' Heq. apply Hk. by rewrite Heq.
Qed.

Ltac kept_step proj HP :=
  lazymatch goal with
  | |- satisfies (bind _ _) ?s _ _ =>
      let T := type of HP in
      let P := eval pattern (proj s) in T in
      lazymatch P with
      | ?F _ =>
          eapply (satisfies_kept_in proj F);
          [solve [repeat keeps_step] | exact HP | clear HP; intros ? ? HP; cbv beta in HP |- *]
      end
  end.

(** X10: [updateConnection] keeps the counters of the outstanding packets
    within the number of outstanding packets: if the Initial, Handshake and
    cloned packet counts are at most [numOutstanding()] before the call,
    they are after it (the [DCHECK_GE]s at its end hold). *)
Theorem updateConnection_keeps_counts_bounded
  packetEvent pkt sentTime size isDSR conn :
  collaboratorsKeepOutstandings ->
  outstandingCountsBounded (outstandings conn) ->
  satisfies (updateConnection packetEvent pkt sentTime size isDSR) conn
    (fun _ conn' => outstandingCountsBounded (outstandings conn'))
    (fun _ conn' => outstandingCountsBounded (outstandings conn')).
Proof.
  intros Hcollab Hbound. unfold updateConnection. unfold_conn.
  apply satisfies_bind, satisfies_get. cbv zeta.
  apply satisfies_bind.
  eapply (satisfies_keeps True outstandings).
  { apply forEachFrame_keeps. intros st frame.
    destruct frame; cbn [updateConnectionFrame]; unfold_conn;
      unfold handleStreamWritten; unfold_conn;
      repeat first [ by apply collaborate_keeps_outstandings | keeps_step ]. }
  2:{ intros _ conn' _ Ho. by rewrite Ho. }
  intros st conn1 Ho1. cbv beta.
  apply satisfies_bind.
  eapply (satisfies_keeps True outstandings);
    [by apply collaborate_keeps_outstandings| |intros ? ? _ Ho; by rewrite Ho, Ho1].
  intros _ conn2 Ho2. cbv beta. rewrite Ho1 in Ho2. clear Ho1 conn1.
  rewrite <- Ho2 in Hbound. clear Ho2.
  kept_step outstandings Hbound.
  apply satisfies_bind, satisfies_get.
  kept_step outstandings Hbound.
  kept_step outstandings Hbound.
  destruct (negb (retransmittable st) && negb (isPing st)); [by apply satisfies_ret|].
  kept_step outstandings Hbound.
  apply satisfies_bind, satisfies_get. cbv zeta.
  apply satisfies_bind, satisfies_modify.
  match goal with
  | |- satisfies _ (set_outstandings (set_packets _ ?o) _) _ _ =>
      set (n := numOutstanding o) in *
  end.
  match goal with
  | |- satisfies _ ?s _ _ =>
      assert (Hin : (fun o' => numOutstanding o' = n + 1
                               /\ 0 <= initialPacketsCount o' <= n
                               /\ 0 <= handshakePacketsCount o' <= n
                               /\ 0 <= clonedPacketsCount o' <= n)
                      (outstandings s));
      [|revert Hin; generalize s; intros conn7 Hin]
  end.
  { destruct Hbound as (? & ? & ?). cbn. unfold numOutstanding in *. cbn.
    rewrite length_emplace. subst n. split; [lia|done]. }
  kept_step outstandings Hin.
  kept_step outstandings Hin.
  kept_step outstandings Hin.
  kept_step outstandings Hin.
  apply satisfies_bind, satisfies_get.
  kept_step outstandings Hin.
  apply satisfies_bind.
  apply (satisfies_weaken _ _
           (fun _ conn' =>
              numOutstanding (outstandings conn') = n + 1
              /\ 0 <= initialPacketsCount (outstandings conn') <= n + 1
              /\ 0 <= handshakePacketsCount (outstandings conn') <= n + 1
              /\ 0 <= clonedPacketsCount (outstandings conn') <= n)
           _ (fun _ _ => False)); [| |done].
  { destruct Hin as (Hn & Hi & Hh & Hc).
    apply satisfies_when; [intros _|intros _; lia].
    destruct (bool_decide (getPacketNumberSpace (header pkt) = Initial)).
    - apply satisfies_modify. cbn.
      match goal with |- context [wrap64 (?c + 1)] => pose proof (wrap64_succ_le c) end.
      unfold numOutstanding in *. cbn. lia.
    - apply satisfies_bind, satisfies_CHECK. intros _. apply satisfies_modify. cbn.
      match goal with |- context [wrap64 (?c + 1)] => pose proof (wrap64_succ_le c) end.
      unfold numOutstanding in *. cbn. lia. }
  intros _ conn8 Hin8. cbv beta.
  kept_step outstandings Hin8.
  destruct Hin8 as (Hn & Hi & Hh & Hc).
  apply satisfies_when; [intros _|intros _; unfold outstandingCountsBounded; lia].
  apply satisfies_bind, satisfies_modify. apply satisfies_modify. cbn.
  match goal with |- context [wrap64 (?c + 1)] => pose proof (wrap64_succ_le c) end.
  unfold outstandingCountsBounded, numOutstanding in *. cbn. lia.
Qed.

Lemma carries_flags pkt :
  packetRetransmittable pkt || packetIsPing pkt = carriesAckElicitingOrPing pkt.
Proof.
  unfold carriesAckElicitingOrPing, packetRetransmittable, packetIsPing.
  induction (frames pkt) as [|frame fs IH]; [done|]. cbn [existsb].
  rewrite <- IH. destruct frame; cbn; rewrite ?orb_true_r; done.
Qed.

(** X11: the record [updateConnection] inserts for a packet that carries
    an ack-eliciting frame or a ping holds the packet, the packet event, the
    send time and the encoded size, and its totals include the packet
    itself: its [totalBytesSent] is the connection's [totalBytesSent] after
    the call and its [packetsInflight] is the number of outstanding packets
    after the call; the send time is also the connection's
    [lastRetransmittablePacketSentTime]. *)
Theorem updateConnection_metadata_includes_packet
  packetEvent pkt sentTime size isDSR conn :
  satisfies (updateConnection packetEvent pkt sentTime size isDSR) conn
    (fun _ conn' =>
       carriesAckElicitingOrPing pkt = true ->
       exists record,
         record ∈ outstandingPackets conn'
         /\ packet record = pkt
         /\ associatedEvent record = packetEvent
         /\ isDSRPacket record = isDSR
         /\ opm_time (metadata record) = sentTime
         /\ opm_encodedSize (metadata record) = size
         /\ opm_totalBytesSent (metadata record) = totalBytesSent (lossState conn')
         /\ opm_packetsInflight (metadata record)
            = wrap64 (numOutstanding (outstandings conn'))
         /\ lastRetransmittablePacketSentTime (lossState conn') = sentTime)
    (fun _ _ => True).
Proof.
  unfold updateConnection. unfold_conn.
  apply satisfies_bind, satisfies_get. cbv zeta.
  apply satisfies_bind.
  eapply satisfies_weaken; [apply forEachFrame_flags| |done].
  intros st conn1 (Hr & Hp). cbv beta. cbn [retransmittable isPing orb] in Hr, Hp.
  fold (packetRetransmittable pkt) in Hr. fold (packetIsPing pkt) in Hp.
  do 2 (apply satisfies_any_bind; intros ? ?).
  apply satisfies_bind, satisfies_get.
  do 2 (apply satisfies_any_bind; intros ? ?).
  rewrite <- negb_orb, Hr, Hp, carries_flags.
  destruct (carriesAckElicitingOrPing pkt); cbn [negb]; [|by apply satisfies_ret].
  apply satisfies_any_bind; intros ? conn6.
  apply satisfies_bind, satisfies_get. cbv zeta.
  apply satisfies_bind, satisfies_modify.
  match goal with
  | |- satisfies _ (set_outstandings (set_packets (emplace ?pos ?rec ?l) ?o) ?c) _ _ =>
      set (record := rec)
  end.
  match goal with
  | |- satisfies _ ?s _ _ =>
      assert (Hin : record ∈ (sentRecord s).1
                    /\ opm_totalBytesSent (metadata record) = (sentRecord s).2
                    /\ opm_packetsInflight (metadata record)
                       = wrap64 (Z.of_nat (List.length (sentRecord s).1)));
      [|revert Hin; generalize s; intros conn7 Hin]
  end.
  { cbn. split; [apply elem_of_emplace; by left|]. split; [done|].
    rewrite length_emplace. unfold numOutstanding. f_equal. lia. }
  do 4 kept_step sentRecord Hin.
  apply satisfies_bind, satisfies_get.
  do 2 kept_step sentRecord Hin.
  apply satisfies_bind, satisfies_modify.
  match goal with
  | |- satisfies _ ?s _ _ =>
      assert (Hin2 : (record ∈ (sentRecord s).1
                      /\ opm_totalBytesSent (metadata record) = (sentRecord s).2
                      /\ opm_packetsInflight (metadata record)
                         = wrap64 (Z.of_nat (List.length (sentRecord s).1)))
                     /\ lastRetransmittablePacketSentTime (lossState s) = sentTime);
      [by split|clear Hin; revert Hin2; generalize s; intros conn8 Hin]
  end.
  eapply (satisfies_keeps False
            (fun c => (sentRecord c, lastRetransmittablePacketSentTime (lossState c))));
    [repeat keeps_step| |intros ? ? []].
  intros _ conn' Heq _. unfold sentRecord in *. cbn [fst snd] in Hin.
  injection Heq as Hpackets Htotals Htime.
  rewrite <- Hpackets, <- Htotals, <- Htime in Hin.
  destruct Hin as ((Hel & Htotal & Hcount) & Hsent).
  exists record. unfold outstandingPackets, numOutstanding. by repeat split.
Qed.

Lemma forEachFrame_ping packetEvent pkt sentTime isD6DProbe fs :
  collaboratorsKeep pingRequested ->
  forall st conn,
  satisfies
    (forEachFrame (updateConnectionFrame packetEvent pkt sentTime isD6DProbe) st fs)
    conn
    (fun _ conn' =>
       pingRequested conn'
       = pingRequested conn && negb (existsb isPingFrame fs && negb isD6DProbe))
    (fun _ _ => True).
Proof.
  intros Hcollab. induction fs as [|frame fs IH]; intros st conn;
    cbn [forEachFrame existsb].
  - apply satisfies_ret. by rewrite andb_true_r.
  - apply satisfies_bind.
    apply (satisfies_weaken _ _
             (fun _ conn1 =>
                pingRequested conn1
                = pingRequested conn && negb (isPingFrame frame && negb isD6DProbe))
             _ (fun _ _ => True)); [| |done].
    + destruct frame; cbn [isPingFrame andb negb]; rewrite ?andb_true_r;
        try (eapply (satisfies_keeps True pingRequested);
             [cbn [updateConnectionFrame]; unfold_conn;
              unfold handleStreamWritten; unfold_conn;
              repeat first [ apply Hcollab | keeps_step ]
             |by intros|done]).
      cbn [updateConnectionFrame]. unfold_conn.
      destruct isD6DProbe; cbn [negb when].
      * apply satisfies_bind, satisfies_ret, satisfies_ret. by rewrite andb_true_r.
      * apply satisfies_bind, satisfies_modify, satisfies_ret.
        unfold pingRequested. cbn. by rewrite andb_false_r.
    + intros st1 conn1 Hping1. cbv beta.
      eapply satisfies_weaken; [apply IH| |done]. cbv beta.
      intros _ conn2 ->. rewrite Hping1.
      destruct (pingRequested conn), (isPingFrame frame), (existsb isPingFrame fs),
        isD6DProbe; done.
Qed.

(** X12: [updateConnection] takes the application's ping request
    ([pendingEvents.sendPing]) back exactly when the packet carries a ping
    and is not the D6D probe; a ping in the D6D probe leaves the request
    pending. *)
Theorem updateConnection_d6d_probe_keeps_ping_request
  packetEvent pkt sentTime size isDSR conn :
  collaboratorsKeep pingRequested ->
  satisfies (updateConnection packetEvent pkt sentTime size isDSR) conn
    (fun _ conn' =>
       pingRequested conn'
       = pingRequested conn
         && negb (packetIsPing pkt
                  && negb (isD6DProbe conn (getPacketNumberSpace (header pkt))
                             (getPacketSequenceNum (header pkt)))))
    (fun _ _ => True).
Proof.
  intros Hcollab. unfold updateConnection. unfold_conn.
  apply satisfies_bind, satisfies_get. cbv zeta.
  apply satisfies_bind.
  eapply satisfies_weaken; [by apply forEachFrame_ping| |done].
  intros st conn1 Hping1. cbv beta.
  fold (packetIsPing pkt) in Hping1.
  fold (isD6DProbe conn (getPacketNumberSpace (header pkt))
          (getPacketSequenceNum (header pkt))) in Hping1.
  apply satisfies_bind.
  eapply (satisfies_keeps True pingRequested); [apply Hcollab| |done].
  intros _ conn2 Hping2. cbv beta. rewrite Hping1 in Hping2. clear Hping1 conn1.
  eapply (satisfies_keeps False pingRequested); [repeat keeps_step| |intros ? ? []].
  intros _ conn3 Hping3. congruence.
Qed.

End UpdaterCounters.

(** ** Stream frames *)

Section StreamFrames.

Context `{CollaboratorOps}.

Ltac unfold_conn :=
  unfold modifyStreamManager, modifyPendingEvents, modifyLossState,
    modifyOutstandings, modifyD6d, QUIC_STATS, setNoWriteReason in *.

Lemma retransmission_bytes_insert key (b : StreamBuffer) (m : gmap Z StreamBuffer) :
  m !! key = None ->
  map_fold (fun _ b acc => List.length (sb_data b) + acc)%nat O (<[key := b]> m)
  = (List.length (sb_data b)
     + map_fold (fun _ b acc => List.length (sb_data b) + acc)%nat O m)%nat.
Proof.
  intros Hnew. apply (map_fold_insert_L (fun _ b acc => List.length (sb_data b) + acc)%nat);
    [|done].
  intros. lia.
Qed.

Lemma sum_list_with_delete {A} (f : A -> nat) i e (l : list A) :
  l !! i = Some e ->
  sum_list_with f l = (f e + sum_list_with f (delete i l))%nat.
Proof.
  revert i. induction l as [|x l IH]; intros [|i] Hi; try done; simpl in *.
  - by injection Hi as ->.
  - specialize (IH i Hi). lia.
Qed.

Lemma sum_list_with_insert {A} (f : A -> nat) i e e' (l : list A) :
  l !! i = Some e ->
  (sum_list_with f (<[i := e']> l) + f e = sum_list_with f l + f e')%nat.
Proof.
  revert i. induction l as [|x l IH]; intros [|i] Hi; try done; simpl in *.
  - injection Hi as ->. lia.
  - specialize (IH i Hi). lia.
Qed.

Lemma emplaceChecked_Some {V} key (v : V) m m' :
  emplaceChecked key v m = Some m' -> m !! key = None /\ m' = <[key := v]> m.
Proof. unfold emplaceChecked. destruct (m !! key); [done|]. by intros [= <-]. Qed.

Lemma handleNewStreamDataWritten_bytes frameLen frameFin stream :
  satisfies (handleNewStreamDataWritten frameLen frameFin) stream
    (fun _ stream' =>
       bufferedBytes stream' = bufferedBytes stream
       /\ lossBuffer stream' = lossBuffer stream)
    (fun _ _ => True).
Proof.
  unfold handleNewStreamDataWritten.
  do 10 wp_step.
  cbn [retransmissionBuffer set_currentWriteOffset set_writeBuffer].
  destruct (emplaceChecked _ _ _) as [buffer|] eqn:Hemplace; [|done].
  apply emplaceChecked_Some in Hemplace as [Hnew ->].
  apply satisfies_modify. unfold bufferedBytes. cbn.
  rewrite retransmission_bytes_insert by done. cbn.
  pose proof (firstn_skipn (Z.to_nat frameLen) (writeBuffer stream)) as Hsplit.
  apply (f_equal (@List.length _)) in Hsplit. rewrite length_app in Hsplit. split; [lia|done].
Qed.

Lemma handleRetransmissionWritten_bytes frameOffset frameLen frameFin i stream :
  satisfies (handleRetransmissionWritten frameOffset frameLen frameFin i) stream
    (fun _ stream' =>
       bufferedBytes stream' = bufferedBytes stream
       /\ currentWriteOffset stream' = currentWriteOffset stream
       /\ writeBuffer stream' = writeBuffer stream)
    (fun _ _ => True).
Proof.
  unfold handleRetransmissionWritten. apply satisfies_bind, satisfies_get.
  destruct (lossBuffer stream !! i) as [entry|] eqn:Hentry; [|done].
  destruct (_ && _).
  - do 6 wp_step.
    cbn [retransmissionBuffer set_lossBuffer].
    destruct (emplaceChecked _ _ _) as [buffer|] eqn:Hemplace; [|done].
    apply emplaceChecked_Some in Hemplace as [Hnew ->].
    apply satisfies_modify. unfold bufferedBytes. cbn.
    rewrite retransmission_bytes_insert by done. cbn.
    rewrite (sum_list_with_delete _ i entry (lossBuffer stream)) by done.
    split; [lia|done].
  - do 6 wp_step.
    cbn [retransmissionBuffer set_lossBuffer].
    destruct (emplaceChecked _ _ _) as [buffer|] eqn:Hemplace; [|done].
    apply emplaceChecked_Some in Hemplace as [Hnew ->].
    apply satisfies_modify. unfold bufferedBytes. cbn.
    rewrite retransmission_bytes_insert by done. cbn.
    pose proof (sum_list_with_insert (fun b => List.length (sb_data b)) i entry
                  (mkStreamBuffer (skipn (Z.to_nat frameLen) (sb_data entry))
                     (wrap64 (sb_offset entry + frameLen)) (sb_eof entry))
                  (lossBuffer stream) Hentry) as Hloss. cbn in Hloss.
    pose proof (firstn_skipn (Z.to_nat frameLen) (sb_data entry)) as Hsplit.
    apply (f_equal (@List.length _)) in Hsplit. rewrite length_app in Hsplit.
    split; [lia|done].
Qed.

Lemma satisfies_onValue {S T A} (t : T) (m : M T A) (s : S) (Q : A -> T -> Prop) Q' :
  satisfies m t Q (fun _ _ => True) ->
  (forall a t', Q a t' -> Q' (a, t') s) ->
  satisfies (onValue t m) s Q' (fun _ _ => True).
Proof.
  unfold satisfies, onValue. destruct (m t); auto.
Qed.

(** X13: writing a stream frame of buffered data loses and duplicates no
    stream byte: [handleStreamWritten] leaves the number of bytes held in the
    write buffer, the loss buffer and the retransmission buffer together as
    it is, whether the frame is new data, a retransmission or a clone. *)
Theorem handleStreamWritten_conserves_bytes stream frameOffset frameLen frameFin conn :
  satisfies (handleStreamWritten stream frameOffset frameLen frameFin false) conn
    (fun r _ => bufferedBytes (snd r) = bufferedBytes stream)
    (fun _ _ => True).
Proof.
  unfold handleStreamWritten. unfold_conn. cbn [negb andb].
  apply satisfies_bind.
  apply (satisfies_weaken _ _
           (fun r conn1 => bufferedBytes (snd r) = bufferedBytes stream
                           /\ (fst r = false -> snd r = stream))
           _ (fun _ _ => True)); [| |done].
  { destruct (frameOffset =? currentWriteOffset stream).
    - apply satisfies_bind.
      eapply satisfies_onValue; [apply handleNewStreamDataWritten_bytes|].
      intros a stream' [Hbytes _]. cbv beta. by apply satisfies_ret.
    - by apply satisfies_ret. }
  intros [new1 stream1] conn1 [Hb1 Hsame]. cbn [fst snd] in *. cbv beta.
  apply satisfies_bind, satisfies_ret.
  destruct new1; [by apply satisfies_ret|].
  rewrite (Hsame eq_refl) in *. clear Hsame stream1.
  apply satisfies_bind.
  apply (satisfies_weaken _ _
           (fun r conn2 => bufferedBytes (snd r) = bufferedBytes stream)
           _ (fun _ _ => True)); [| |done].
  { destruct (lossBuffer stream !! _) as [entry|]; [|by apply satisfies_ret].
    destruct (sb_offset entry =? frameOffset); [|by apply satisfies_ret].
    apply satisfies_bind.
    eapply satisfies_onValue; [apply handleRetransmissionWritten_bytes|].
    intros a stream' [Hbytes _]. cbv beta. by apply satisfies_ret. }
  intros [retx stream2] conn2 Hb2. cbn [snd] in Hb2. cbv beta.
  destruct retx; repeat wp_step; done.
Qed.

Lemma satisfies_onValue_keeps {S T U A} (proj : T -> U) (t : T) (m : M T A) (s : S)
  (Q' : A * T -> S -> Prop) :
  keeps True proj m ->
  (forall a t', proj t' = proj t -> Q' (a, t') s) ->
  satisfies (onValue t m) s Q' (fun _ _ => True).
Proof.
  intros Hm HQ. specialize (Hm t). unfold satisfies, onValue in *.
  destruct (m t); auto.
Qed.

(** X14: [handleStreamWritten] accounts a stream frame in exactly one way.
    New data (it returns true) counts the packet on the stream and leaves
    the connection as it is.  Otherwise the stream's write offset, write
    buffer and packet count stay, and either the frame is a retransmission,
    which adds its length to [totalBytesRetransmitted] and is reported to
    the statistics, or it is a clone, which adds its length to
    [totalStreamBytesCloned] and leaves the stream as it is. *)
Theorem handleStreamWritten_accounts_frame_once
  stream frameOffset frameLen frameFin fromBufMeta conn :
  satisfies (handleStreamWritten stream frameOffset frameLen frameFin fromBufMeta) conn
    (fun r conn' =>
       if fst r then
         conn' = conn
         /\ numPacketsTxWithNewData (snd r)
            = wrap64 (numPacketsTxWithNewData stream + 1)
       else
         writePosition (snd r) = writePosition stream
         /\ ((totalBytesRetransmitted (lossState conn')
              = wrap64 (totalBytesRetransmitted (lossState conn) + frameLen)
              /\ totalStreamBytesCloned (lossState conn')
                 = totalStreamBytesCloned (lossState conn)
              /\ statsLog conn' = statsLog conn ++ [onPacketRetransmission])
             \/ (totalStreamBytesCloned (lossState conn')
                 = wrap64 (totalStreamBytesCloned (lossState conn) + frameLen)
                 /\ totalBytesRetransmitted (lossState conn')
                    = totalBytesRetransmitted (lossState conn)
                 /\ statsLog conn' = statsLog conn
                 /\ snd r = stream)))
    (fun _ _ => True).
Proof.
  unfold handleStreamWritten. unfold_conn.
  apply satisfies_bind.
  apply (satisfies_weaken _ _
           (fun r conn1 =>
              conn1 = conn
              /\ numPacketsTxWithNewData (snd r) = numPacketsTxWithNewData stream
              /\ (fst r = false -> snd r = stream))
           _ (fun _ _ => True)); [| |done].
  { destruct (negb fromBufMeta && (frameOffset =? currentWriteOffset stream)).
    - apply satisfies_bind.
      eapply (satisfies_onValue_keeps numPacketsTxWithNewData).
      { unfold handleNewStreamDataWritten. repeat keeps_step. }
      intros a stream' Hn. cbv beta. by apply satisfies_ret.
    - by apply satisfies_ret. }
  intros [new1 stream1] conn1 (-> & Hn1 & Hsame1). cbn [fst snd] in *. cbv beta.
  apply satisfies_bind.
  apply (satisfies_weaken _ _
           (fun r conn2 =>
              conn2 = conn
              /\ numPacketsTxWithNewData (snd r) = numPacketsTxWithNewData stream
              /\ (fst r = false -> snd r = stream))
           _ (fun _ _ => True)); [| |done].
  { destruct (_ && _ && _).
    - apply satisfies_bind.
      eapply (satisfies_onValue_keeps numPacketsTxWithNewData).
      { unfold handleNewStreamBufMetaWritten. repeat keeps_step. }
      intros a stream' Hn. cbv beta. apply satisfies_ret. cbn. split; [done|].
      split; [congruence|done].
    - by apply satisfies_ret. }
  clear Hn1 Hsame1 new1 stream1.
  intros [new2 stream2] conn2 (-> & Hn2 & Hsame2). cbn [fst snd] in *. cbv beta.
  destruct new2.
  { apply satisfies_ret. cbn. by rewrite Hn2. }
  rewrite (Hsame2 eq_refl) in *. clear Hsame2 Hn2 stream2.
  apply satisfies_bind.
  apply (satisfies_weaken _ _
           (fun r conn3 =>
              conn3 = conn
              /\ writePosition (snd r) = writePosition stream
              /\ (fst r = false -> snd r = stream))
           _ (fun _ _ => True)); [| |done].
  { destruct (negb fromBufMeta).
    - destruct (lossBuffer stream !! _) as [entry|]; [|by apply satisfies_ret].
      destruct (sb_offset entry =? frameOffset); [|by apply satisfies_ret].
      apply satisfies_bind.
      eapply (satisfies_onValue_keeps writePosition).
      { unfold handleRetransmissionWritten. repeat keeps_step. }
      intros a stream' Hn. cbv beta. by apply satisfies_ret.
    - destruct (lossBufMetas stream !! _) as [entry|]; [|by apply satisfies_ret].
      destruct (wbm_offset entry =? frameOffset); [|by apply satisfies_ret].
      apply satisfies_bind.
      eapply (satisfies_onValue_keeps writePosition).
      { unfold handleRetransmissionBufMetaWritten. repeat keeps_step. }
      intros a stream' Hn. cbv beta. by apply satisfies_ret. }
  intros [retx stream3] conn3 (-> & Hpos & Hsame3). cbn [fst snd] in *. cbv beta.
  destruct retx.
  - do 4 wp_step. cbn. split; [done|]. by left.
  - do 2 wp_step. cbn. rewrite (Hsame3 eq_refl). split; [done|]. by right.
Qed.

End StreamFrames.

(** ** Header protection and the writable-bytes limit *)

Section HeaderProtection.

Context `{CollaboratorOps}.

Lemma length_writeBytes off bytes mem :
  0 <= off -> (Z.to_nat off + List.length bytes <= List.length mem)%nat ->
  List.length (writeBytes off bytes mem) = List.length mem.
Proof.
  intros Hoff Hfit. unfold writeBytes.
  rewrite !length_app, length_firstn, length_skipn, length_app, repeat_length. lia.
Qed.

Lemma lookup_writeBytes_outside off bytes mem (i : nat) :
  0 <= off -> (Z.to_nat off + List.length bytes <= List.length mem)%nat ->
  (i < Z.to_nat off \/ Z.to_nat off + List.length bytes <= i)%nat ->
  writeBytes off bytes mem !! i = mem !! i.
Proof.
  intros Hoff Hfit Hout. unfold writeBytes.
  assert (Hfirst : firstn (Z.to_nat off) (mem ++ repeat Byte.x00 (Z.to_nat off))
                   = firstn (Z.to_nat off) mem).
  { rewrite firstn_app. replace (Z.to_nat off - List.length mem)%nat with O by lia.
    cbn. by rewrite app_nil_r. }
  rewrite Hfirst. destruct Hout as [Hlt|Hge].
  - rewrite lookup_app_l by (rewrite length_firstn; lia).
    change firstn with (@take byte). by rewrite lookup_take_lt.
  - rewrite lookup_app_r by (rewrite length_firstn; lia).
    rewrite length_firstn.
    rewrite lookup_app_r by lia.
    change skipn with (@drop byte). rewrite lookup_drop. f_equal. lia.
Qed.

Lemma length_readBytes off len mem :
  (List.length (readBytes off len mem) <= Z.to_nat len)%nat.
Proof. unfold readBytes. rewrite length_firstn. lia. Qed.

Lemma readBytes_one off mem b :
  mem !! Z.to_nat off = Some b -> readBytes off 1 mem = [b].
Proof.
  intros Hb. unfold readBytes. change skipn with (@drop byte).
  change firstn with (@take byte). by rewrite (drop_S _ _ _ Hb).
Qed.

Lemma encryptPacketHeader_kept {S} headerForm packetBuf headerLen
  bodyLen headerCipher initialByte (s : S) :
  0 <= io_headroom packetBuf ->
  (Z.to_nat (io_headroom packetBuf + headerLen) <= List.length (io_storage packetBuf))%nat ->
  io_storage packetBuf !! Z.to_nat (io_headroom packetBuf) = Some initialByte ->
  0 <= parsePacketNumberLength initialByte <= headerLen ->
  0 < headerLen ->
  satisfies (encryptPacketHeader headerForm packetBuf headerLen bodyLen headerCipher) s
    (fun packetBuf' s' =>
       s' = s
       /\ io_headroom packetBuf' = io_headroom packetBuf
       /\ io_length packetBuf' = io_length packetBuf
       /\ List.length (io_storage packetBuf') = List.length (io_storage packetBuf)
       /\ forall i : nat,
            (i < Z.to_nat (io_headroom packetBuf)
             \/ Z.to_nat (io_headroom packetBuf + headerLen) <= i)%nat ->
            io_storage packetBuf' !! i = io_storage packetBuf !! i)
    (fun _ _ => False).
Proof.
  intros Hroom Hfit Hinitial Hpn Hlen. unfold encryptPacketHeader.
  set (storage := io_storage packetBuf) in *.
  set (at_ := io_headroom packetBuf) in *.
  assert (Hread : readBytes at_ 1 storage = [initialByte])
    by (by apply readBytes_one).
  rewrite Hread.
  set (pnLen := parsePacketNumberLength initialByte) in *.
  apply satisfies_bind, satisfies_CHECK. intros _.
  set (sample := readBytes _ sampleSize storage).
  set (packetNumBytes := readBytes (at_ + headerLen - pnLen) pnLen storage).
  destruct (match headerForm with
            | Short => encryptShortHeader headerCipher sample initialByte packetNumBytes
            | Long => encryptLongHeader headerCipher sample initialByte packetNumBytes
            end) as [initialByte' packetNumBytes'].
  apply satisfies_ret.
  set (written := firstn (List.length packetNumBytes) packetNumBytes').
  assert (Hwritten : (List.length written <= Z.to_nat pnLen)%nat).
  { subst written. rewrite length_firstn.
    pose proof (length_readBytes (at_ + headerLen - pnLen) pnLen storage) as Hread_len.
    fold packetNumBytes in Hread_len. lia. }
  assert (Hone : List.length (writeBytes at_ [initialByte'] storage) = List.length storage).
  { apply length_writeBytes; [done|]. cbn. lia. }
  split; [done|]. split; [done|]. split; [done|]. cbn [io_storage setStorage].
  split.
  - rewrite length_writeBytes; [done|lia|]. rewrite Hone. lia.
  - intros i Hi.
    rewrite lookup_writeBytes_outside; [|lia|rewrite Hone; lia|lia].
    apply lookup_writeBytes_outside; [done|cbn; lia|cbn; lia].
Qed.

(** X15: header protection touches the header only.  For a header of
    [headerLen] bytes that lies in the buffer, whose packet number, of the
    length its first byte encodes, fits in it, and a body long enough for
    the sample, [encryptPacketHeader] returns the buffer with its window,
    the size of its storage and every byte before the header and from the
    body on as they are. *)
Theorem encryptPacketHeader_touches_only_header {S} headerForm packetBuf headerLen
  bodyLen headerCipher initialByte (s : S) :
  0 <= io_headroom packetBuf ->
  (Z.to_nat (io_headroom packetBuf + headerLen) <= List.length (io_storage packetBuf))%nat ->
  io_storage packetBuf !! Z.to_nat (io_headroom packetBuf) = Some initialByte ->
  0 <= parsePacketNumberLength initialByte <= headerLen ->
  0 < headerLen ->
  wrap64 (wrap64 (kMaxPacketNumEncodingSize - parsePacketNumberLength initialByte)
          + sampleSize) <= bodyLen ->
  exists packetBuf',
    encryptPacketHeader headerForm packetBuf headerLen bodyLen headerCipher s
    = Ok packetBuf' s
    /\ io_headroom packetBuf' = io_headroom packetBuf
    /\ io_length packetBuf' = io_length packetBuf
    /\ List.length (io_storage packetBuf') = List.length (io_storage packetBuf)
    /\ forall i : nat,
         (i < Z.to_nat (io_headroom packetBuf)
          \/ Z.to_nat (io_headroom packetBuf + headerLen) <= i)%nat ->
         io_storage packetBuf' !! i = io_storage packetBuf !! i.
Proof.
  intros Hroom Hfit Hinitial Hpn Hlen Hsample.
  pose proof (encryptPacketHeader_kept headerForm packetBuf headerLen bodyLen
                headerCipher initialByte s Hroom Hfit Hinitial Hpn Hlen) as Hkept.
  assert (Hreturns : exists packetBuf' s',
             encryptPacketHeader headerForm packetBuf headerLen bodyLen headerCipher s
             = Ok packetBuf' s').
  { unfold encryptPacketHeader. rewrite (readBytes_one _ _ _ Hinitial).
    unfold bind, CHECK. apply Z.leb_le in Hsample. rewrite Hsample.
    destruct (match headerForm with
              | Short => encryptShortHeader _ _ _ _
              | Long => encryptLongHeader _ _ _ _
              end). by eexists _, _. }
  destruct Hreturns as (packetBuf' & s' & Hrun).
  unfold satisfies in Hkept. rewrite Hrun in Hkept.
  destruct Hkept as (-> & Hkept). by exists packetBuf'.
Qed.

End HeaderProtection.

Section ClassifierMore.

Context `{CollaboratorOps}.

(** X16: once the connection's writable-bytes limit is used up (and no
    path validation is under way), [congestionControlWritableBytes] is 0, and
    [shouldWriteData] asks for a write only for probes or for acks that are
    due; otherwise it records a blocked congestion window and returns
    [NO_WRITE], whatever else is pending. *)
Theorem shouldWriteData_limit_used_up now conn limit :
  writableBytesLimit conn = Some limit ->
  limit <= totalBytesSent (lossState conn) ->
  pathChallenge (pendingEvents conn) = None ->
  outstandingPathValidation conn = false ->
  congestionControlWritableBytes now conn = Ok 0 conn
  /\ exists reason conn',
       shouldWriteData now conn = Ok reason conn'
       /\ (reason = PROBES /\ conn' = conn
           \/ reason = ACK /\ conn' = conn
           \/ reason = NO_WRITE
              /\ conn' = set_statsLog (statsLog conn ++ [onCwndBlocked]) conn).
Proof.
  intros Hlimit Hused Hchallenge Hvalidation.
  assert (Hzero : congestionControlWritableBytes now conn = Ok 0 conn).
  { unfold congestionControlWritableBytes, uncappedWritableBytes.
    unfold bind, get, ret. rewrite Hchallenge, Hvalidation, Hlimit. cbn.
    assert ((limit <=? totalBytesSent (lossState conn)) = true) as ->
      by (by apply Z.leb_le).
    done. }
  split; [exact Hzero|].
  unfold shouldWriteData. unfold bind at 1, get at 1.
  destruct (negb (numProbePackets (pendingEvents conn) =? 0)).
  { eexists _, _. split; [reflexivity|]. by left. }
  destruct (hasAckDataToWrite conn).
  { eexists _, _. split; [reflexivity|]. right. by left. }
  unfold bind at 1. rewrite Hzero. cbn.
  eexists _, _. split; [reflexivity|]. right. by right.
Qed.

End ClassifierMore.


(** * Stream frames from buffer metas *)

Section BufMetas.

Context `{CollaboratorOps}.

Lemma retransmission_metas_insert key (meta : WriteBufferMeta)
  (m : gmap Z WriteBufferMeta) :
  m !! key = None ->
  map_fold (fun _ meta acc => wbm_length meta + acc) 0 (<[key := meta]> m)
  = wbm_length meta + map_fold (fun _ meta acc => wbm_length meta + acc) 0 m.
Proof.
  intros Hnew.
  apply (map_fold_insert_L (fun _ meta acc => wbm_length meta + acc)); [|done].
  intros. lia.
Qed.

Lemma metaLengths_delete i entry (l : list WriteBufferMeta) :
  l !! i = Some entry ->
  metaLengths l = wbm_length entry + metaLengths (delete i l).
Proof.
  revert i. induction l as [|x l IH]; intros [|i] Hi; try done; simpl in *.
  - by injection Hi as ->.
  - specialize (IH i Hi). lia.
Qed.

Lemma metaLengths_insert i entry entry' (l : list WriteBufferMeta) :
  l !! i = Some entry ->
  metaLengths (<[i := entry']> l) + wbm_length entry
  = metaLengths l + wbm_length entry'.
Proof.
  revert i. induction l as [|x l IH]; intros [|i] Hi; try done; simpl in *.
  - injection Hi as ->. lia.
  - specialize (IH i Hi). lia.
Qed.

Lemma handleNewStreamBufMetaWritten_bytes frameLen frameFin stream :
  splitConserves ->
  satisfies (handleNewStreamBufMetaWritten frameLen frameFin) stream
    (fun _ stream' => bufMetaBytes stream' = bufMetaBytes stream)
    (fun _ _ => True).
Proof.
  intros Hsplit. unfold handleNewStreamBufMetaWritten.
  apply satisfies_bind, satisfies_get.
  apply satisfies_bind, satisfies_CHECK. intros _.
  destruct (splitBufMeta frameLen (writeBufMeta stream)) as [[split rest]|] eqn:Esplit;
    [|done].
  apply Hsplit in Esplit.
  apply satisfies_bind, satisfies_modify.
  apply satisfies_bind, satisfies_CHECK. intros _.
  apply satisfies_bind.
  apply (satisfies_weaken _ _
           (fun _ s1 => wbm_length (writeBufMeta s1) = wbm_length rest
                        /\ lossBufMetas s1 = lossBufMetas stream
                        /\ retransmissionBufMetas s1 = retransmissionBufMetas stream)
           _ (fun _ _ => True)); [| |done].
  { destruct frameFin; cbn [when]; [|by apply satisfies_ret].
    apply satisfies_bind, satisfies_CHECK. intros _. by apply satisfies_modify. }
  intros _ s1 (Hwrite & Hloss & Hretx). cbv beta.
  apply satisfies_bind, satisfies_get.
  destruct (emplaceChecked _ _ _) as [metas|] eqn:Hemplace; [|done].
  apply emplaceChecked_Some in Hemplace as [Hnew ->].
  apply satisfies_modify. unfold bufMetaBytes. cbn.
  rewrite retransmission_metas_insert by done. rewrite Hwrite, Hloss, Hretx.
  unfold metaLengths. lia.
Qed.

Lemma handleRetransmissionBufMetaWritten_bytes frameOffset frameLen frameFin i stream :
  satisfies (handleRetransmissionBufMetaWritten frameOffset frameLen frameFin i) stream
    (fun _ stream' => bufMetaBytes stream' = bufMetaBytes stream)
    (fun _ _ => True).
Proof.
  unfold handleRetransmissionBufMetaWritten. apply satisfies_bind, satisfies_get.
  destruct (lossBufMetas stream !! i) as [entry|] eqn:Hentry; [|done].
  destruct (_ && _) eqn:Hwhole.
  - apply andb_true_iff in Hwhole as [Hlen _]. apply Z.eqb_eq in Hlen.
    apply satisfies_bind, satisfies_modify.
    apply satisfies_bind, satisfies_get.
    cbn [retransmissionBufMetas set_lossBufMetas].
    destruct (emplaceChecked _ _ _) as [metas|] eqn:Hemplace; [|done].
    apply emplaceChecked_Some in Hemplace as [Hnew ->].
    apply satisfies_modify. unfold bufMetaBytes. cbn.
    rewrite retransmission_metas_insert by done. cbn.
    pose proof (metaLengths_delete i entry (lossBufMetas stream) Hentry) as Hloss.
    unfold metaLengths in *. lia.
  - apply satisfies_bind.
    apply satisfies_bind, satisfies_CHECK. intros _. apply satisfies_modify.
    apply satisfies_bind, satisfies_get.
    cbn [retransmissionBufMetas set_lossBufMetas].
    destruct (emplaceChecked _ _ _) as [metas|] eqn:Hemplace; [|done].
    apply emplaceChecked_Some in Hemplace as [Hnew ->].
    apply satisfies_modify. unfold bufMetaBytes. cbn.
    rewrite retransmission_metas_insert by done. cbn.
    pose proof (metaLengths_insert i entry
                  (mkWriteBufferMeta (wbm_length entry - frameLen)
                     (wrap64 (wbm_offset entry + frameLen)) (wbm_eof entry))
                  (lossBufMetas stream) Hentry) as Hloss.
    unfold metaLengths in *. cbn in Hloss. lia.
Qed.

Lemma plainBuffers_bytes stream stream' :
  plainBuffers stream' = plainBuffers stream ->
  bufferedBytes stream' = bufferedBytes stream.
Proof. unfold plainBuffers, bufferedBytes. by intros [= -> -> ->]. Qed.

Lemma onValue_meta_bytes {S A} (stream : QuicStreamLike) (m : M QuicStreamLike A)
  (s : S) :
  satisfies m stream (fun _ stream' => bufMetaBytes stream' = bufMetaBytes stream)
    (fun _ _ => True) ->
  keeps True plainBuffers m ->
  satisfies (onValue stream m) s
    (fun r _ => bufMetaBytes (snd r) = bufMetaBytes stream
                /\ plainBuffers (snd r) = plainBuffers stream)
    (fun _ _ => True).
Proof.
  intros Hbytes Hkeeps. specialize (Hkeeps stream).
  unfold satisfies, onValue in *. by destruct (m stream).
Qed.

(** X23: writing a stream frame of data that is not buffered (a frame
    from the buffer metas) loses and duplicates none of it:
    [handleStreamWritten] leaves the number of bytes the write buffer meta,
    the loss buffer metas and the retransmission buffer metas stand for
    together as it is (given that [WriteBufferMeta::split] hands out what it
    takes off), and does not touch the buffers of stream bytes. *)
Theorem handleStreamWritten_conserves_buf_meta_bytes stream frameOffset frameLen
  frameFin conn :
  splitConserves ->
  satisfies (handleStreamWritten stream frameOffset frameLen frameFin true) conn
    (fun r _ => bufMetaBytes (snd r) = bufMetaBytes stream
                /\ plainBuffers (snd r) = plainBuffers stream)
    (fun _ _ => True).
Proof.
  intros Hsplit. unfold handleStreamWritten. cbn [negb andb].
  apply satisfies_bind, satisfies_ret.
  apply satisfies_bind.
  apply (satisfies_weaken _ _
           (fun r conn1 => (bufMetaBytes (snd r) = bufMetaBytes stream
                            /\ plainBuffers (snd r) = plainBuffers stream)
                           /\ (fst r = false -> snd r = stream))
           _ (fun _ _ => True)); [| |done].
  { destruct ((0 <? _) && _).
    - apply satisfies_bind.
      eapply satisfies_weaken;
        [apply onValue_meta_bytes;
           [by apply handleNewStreamBufMetaWritten_bytes
           |unfold handleNewStreamBufMetaWritten; repeat keeps_step]
        | |done].
      intros r conn1 Hkept. cbv beta. by apply satisfies_ret.
    - by apply satisfies_ret. }
  intros [new1 stream1] conn1 [Hkept1 Hsame]. cbn [fst snd] in *. cbv beta.
  destruct new1; [by apply satisfies_ret|].
  rewrite (Hsame eq_refl) in *. clear Hsame Hkept1 stream1.
  apply satisfies_bind.
  apply (satisfies_weaken _ _
           (fun r conn2 => bufMetaBytes (snd r) = bufMetaBytes stream
                           /\ plainBuffers (snd r) = plainBuffers stream)
           _ (fun _ _ => True)); [| |done].
  { destruct (lossBufMetas stream !! _) as [entry|]; [|by apply satisfies_ret].
    destruct (wbm_offset entry =? frameOffset); [|by apply satisfies_ret].
    apply satisfies_bind.
    eapply satisfies_weaken;
      [apply onValue_meta_bytes;
         [by apply handleRetransmissionBufMetaWritten_bytes
         |unfold handleRetransmissionBufMetaWritten; repeat keeps_step]
      | |done].
    intros r conn2 Hkept. cbv beta. by apply satisfies_ret. }
  intros [retx stream2] conn2 Hkept2. cbn [snd] in Hkept2. cbv beta.
  unfold modifyLossState, QUIC_STATS.
  destruct retx; repeat wp_step; done.
Qed.

End BufMetas.


(** * The session tickets of the server handshake *)

Section SessionTickets.

Import FizzServerHandshake.

Context {AppToken : Type} (encodeAppToken : AppToken -> list byte).

Lemma writeNewSessionTicketToCrypto_all tokens : forall hs,
  forEach (writeNewSessionTicketToCrypto encodeAppToken) tokens hs
  = Ok tt (mkHandshake
             (pendingEvents_ hs
              ++ (mkWriteNewSessionTicket ∘ encodeAppToken <$> tokens))
             (ticketsProcessed hs)).
Proof.
  induction tokens as [|token tokens IH]; intros hs; cbn [forEach].
  - cbn. rewrite app_nil_r. by destruct hs.
  - unfold bind at 1. unfold writeNewSessionTicketToCrypto at 1, modify.
    rewrite IH. cbn. by rewrite <- app_assoc.
Qed.

Lemma callTimes_S {S A} n (call : M S A) s :
  callTimes (Datatypes.S n) call s
  = match call s with
    | Ok a s' =>
        match callTimes n call s' with
        | Ok rest s'' => Ok (a :: rest) s''
        | Throw e s'' => Throw e s''
        | Abort => Abort
        end
    | Throw e s' => Throw e s'
    | Abort => Abort
    end.
Proof.
  cbn [callTimes]. unfold bind. destruct (call s); [|done|done].
  by destruct (callTimes n call s0).
Qed.

Lemma processPendingCryptoEvent_all pending : forall processed,
  callTimes (S (length pending)) processPendingCryptoEvent
    (mkHandshake pending processed)
  = Ok (repeat true (length pending) ++ [false])
      (mkHandshake [] (processed ++ pending)).
Proof.
  induction pending as [|write pending IH]; intros processed.
  - cbn. by rewrite app_nil_r.
  - cbn [length]. rewrite callTimes_S.
    change (processPendingCryptoEvent (mkHandshake (write :: pending) processed))
      with (Ok true (mkHandshake pending (processed ++ [write]))).
    cbv beta iota. rewrite IH. cbn. by rewrite <- app_assoc.
Qed.

(** X24: the session tickets are handed to fizz in the order they were
    written, each once, after the ones that were pending already:
    [processPendingCryptoEvent] returns true once for every ticket
    [writeNewSessionTicketToCrypto] queued, and false when none is left. *)
Theorem session_tickets_processed_in_order tokens hs :
  let n := (length (pendingEvents_ hs) + length tokens)%nat in
  exists hs',
    (run forEach (writeNewSessionTicketToCrypto encodeAppToken) tokens;
     callTimes (S n) processPendingCryptoEvent) hs
    = Ok (repeat true n ++ [false]) hs'
    /\ ticketsProcessed hs'
       = ticketsProcessed hs ++ pendingEvents_ hs
         ++ (mkWriteNewSessionTicket ∘ encodeAppToken <$> tokens)
    /\ pendingEvents_ hs' = [].
Proof.
  intros n. eexists. split.
  - unfold bind. rewrite writeNewSessionTicketToCrypto_all.
    subst n. rewrite <- (length_fmap (mkWriteNewSessionTicket ∘ encodeAppToken)),
      <- length_app.
    apply processPendingCryptoEvent_all.
  - done.
Qed.

End SessionTickets.


(** * A write with nothing to send *)

Section NothingToSend.

Context `{CollaboratorOps}.

Lemma keeps_sendState_flush flushType :
  keeps True (fun m => sendState (m_conn m)) (flush flushType).
Proof.
  unfold flush, flushInternal, flushWrites, flushVerdict, writeBatchTo,
    batchWriterWrite, pauseRead, reset, modifyBatchWriter, modifyHappyEyeballs, emit,
    onConn, zoom, QUIC_STATS.
  repeat first [keeps_step
               | apply keeps_modify; intros ?; reflexivity
               | lazymatch goal with
                 | |- keeps _ _ (fun s => match modify ?f (m_conn s) with _ => _ end) =>
                     intros s; reflexivity
                 end].
Qed.


Lemma flush_satisfies_trace flushType m :
  satisfies (flush flushType) m
    (fun _ m' => exists evs, m_trace m' = m_trace m ++ CallFlush flushType :: evs
                             /\ Forall isSocketEvent evs)
    (fun _ m' => exists evs, m_trace m' = m_trace m ++ CallFlush flushType :: evs
                             /\ Forall isSocketEvent evs).
Proof.
  pose proof (flush_trace flushType m) as Htrace. unfold satisfies.
  destruct (flush flushType m) as [ok m'|e m'|]; [by apply Htrace|by apply Htrace|done].
Qed.

(** X18: [writeConnectionDataToSocket] with a scheduler that has no data
    (whatever reason is recorded for the loop detector) builds no packet: it
    returns 0, the only calls it makes are the final flush with the default
    flush type and what that flush does on the sockets, the acks, the
    outstanding packets, the loss state, the pending events and the crypto
    and stream state are as before, and with a loop detector the recorded
    reason is [EMPTY_SCHEDULER].  If the flush raises, the calls are the
    same. *)
Theorem writeConnectionDataToSocket_nothing_to_send builder pnSpace scheduler
  writableBytesFunc packetLimit aead headerCipher s :
  hasData scheduler (m_conn s) = false ->
  (forall reason conn,
     hasData scheduler (set_noWriteReason reason conn) = hasData scheduler conn) ->
  satisfies
    (writeConnectionDataToSocket builder pnSpace scheduler writableBytesFunc
       packetLimit aead headerCipher) s
    (fun written s' =>
       written = 0
       /\ (exists evs, newEvents s s' = CallFlush defaultFlushType :: evs
                       /\ Forall isSocketEvent evs)
       /\ unsentState (m_conn s') = unsentState (m_conn s)
       /\ (loopDetectorCallback (m_conn s) = true ->
           noWriteReason (m_conn s') = EMPTY_SCHEDULER))
    (fun _ s' => exists evs, newEvents s s' = CallFlush defaultFlushType :: evs
                             /\ Forall isSocketEvent evs).
Proof.
  intros Hnodata Hreason. unfold writeConnectionDataToSocket.
  apply satisfies_bind, satisfies_gets.
  apply satisfies_bind, satisfies_modify.
  apply satisfies_bind.
  set (conn1 := if loopDetectorCallback (m_conn s)
                then set_noWriteReason EMPTY_SCHEDULER
                       (set_noWriteReason WRITE_OK (m_conn s))
                else m_conn s).
  match goal with
  | |- satisfies _ ?s0 _ _ =>
      apply (satisfies_weaken _ _ (fun _ s1 => s1 = set_m_conn conn1 s0) _
               (fun _ _ => False)); [| |done]
  end.
  { unfold onConn, zoom, when, bind, modify, satisfies. cbn. subst conn1.
    rewrite Hnodata. by destruct (loopDetectorCallback (m_conn s)). }
  intros _ s1 ->. cbv beta.
  apply satisfies_bind. unfold clockNow.
  apply satisfies_bind, satisfies_get. apply satisfies_bind, satisfies_modify.
  apply satisfies_ret.
  match goal with
  | |- satisfies _ ?s2 _ _ =>
      assert (Hs2 : m_trace s2 = m_trace s /\ sentSoFar s2 = 0 /\ m_conn s2 = conn1)
        by done;
      revert Hs2; generalize s2
  end.
  intros s2 (Htr2 & Hsent2 & Hconn2).
  assert (Hnodata2 : hasData scheduler (m_conn s2) = false).
  { rewrite Hconn2. subst conn1. destruct (loopDetectorCallback (m_conn s));
      by rewrite ?Hreason. }
  apply satisfies_bind. cbn [writeLoop]. unfold writeLoopCondition.
  apply satisfies_bind. apply satisfies_bind, satisfies_get. rewrite Hnodata2.
  cbn [negb]. apply satisfies_ret. apply satisfies_ret.
  apply satisfies_bind. unfold ignoreResult. apply satisfies_bind.
  eapply satisfies_weaken.
  { apply satisfies_and; [apply flush_satisfies_trace|].
    apply satisfies_and; [apply keeps_sendState_flush|apply keeps_sent_flush]. }
  2:{ intros _ s3 [(evs & Htr3 & Hall) _]. exists evs. split; [|done].
      unfold newEvents. rewrite Htr3, Htr2. apply drop_app_length. }
  intros _ s3 ((evs & Htr3 & Hall) & Hstate3 & Hsent3). cbv beta.
  apply satisfies_ret.
  apply satisfies_bind, satisfies_gets.
  apply satisfies_bind.
  eapply (satisfies_keeps True
            (fun m => (m_trace m, sendState (m_conn m), sentSoFar m))).
  { intros m. unfold when, CHECK, obtain, release, onConn, zoom, bind, get, modify, ret,
      abort, satisfies.
    destruct (bool_decide _); [|done]. destruct (ownsBuffer _); [|done].
    destruct (bufAccessor (m_conn m)) as [buf|] eqn:Ebuf; [|done]. cbn.
    destruct (_ && _); [|done]. cbn. done. }
  2:{ intros e s4 _ Heq. pose proof (f_equal (fun x => x.1.1) Heq) as Htr4.
      cbn [fst snd] in Htr4.
      exists evs. split; [|done]. unfold newEvents. rewrite Htr4, Htr3, Htr2.
      apply drop_app_length. }
  intros _ s4 Heq. cbv beta.
  pose proof (f_equal (fun x => x.1.1) Heq) as Htr4.
  pose proof (f_equal (fun x => x.1.2) Heq) as Hstate4.
  pose proof (f_equal snd Heq) as Hsent4. cbn [fst snd] in Htr4, Hstate4, Hsent4.
  apply satisfies_gets.
  split; [unfold sentSoFar in *; congruence|].
  split.
  { exists evs. split; [|done]. unfold newEvents. rewrite Htr4, Htr3, Htr2.
    apply drop_app_length. }
  cbv beta in *.
  assert (Hstate : sendState (m_conn s4) = sendState conn1)
    by (rewrite Hstate4, Hstate3, Hconn2; reflexivity).
  unfold sendState, unsentState in *. subst conn1.
  destruct (loopDetectorCallback (m_conn s)); cbn in Hstate;
    injection Hstate as -> -> -> -> -> -> Hr; done.
Qed.

End NothingToSend.


(** * The entry points *)

Section EntryPoints.

Context `{CollaboratorOps}.
Context `{!SchedulerOps}.

Lemma keeps_sent_unlimited : keeps True sentSoFar unlimitedWritableBytesFunc.
Proof.
  unfold unlimitedWritableBytesFunc.
  apply (keeps_project True m_batch pktSent), keeps_onConn_batch.
Qed.

Lemma keeps_sent_congestionControl :
  keeps True sentSoFar congestionControlWritableBytesFunc.
Proof.
  unfold congestionControlWritableBytesFunc, clockNow.
  repeat first [apply (keeps_project True m_batch pktSent), keeps_onConn_batch
               | keeps_step].
Qed.

Lemma writeProbingDataToSocket_counted builder encryptionLevel pnSpace scheduler
  probesToSend aead headerCipher s :
  0 <= probesToSend <= uint64_max ->
  satisfies
    (writeProbingDataToSocket builder encryptionLevel pnSpace scheduler probesToSend
       aead headerCipher) s
    (fun written _ => 0 <= written <= probesToSend)
    (fun _ _ => True).
Proof.
  intros Hlimit. unfold writeProbingDataToSocket.
  apply satisfies_any_bind. intros _ s1.
  eapply satisfies_seq.
  { apply writeConnectionDataToSocket_counted; [apply keeps_sent_unlimited|exact Hlimit]. }
  cbv beta. intros written s2 [Hwritten _].
  destruct (negb (probesToSend =? 0) && (written =? 0)) eqn:Hfallback;
    [|by apply satisfies_ret].
  apply andb_true_iff in Hfallback as [_ Hzero]. apply Z.eqb_eq in Hzero. subst written.
  apply satisfies_any_bind. intros _ s3.
  rewrite Z.sub_0_r, wrap64_small by (unfold uint64_max, two64 in *; lia).
  eapply satisfies_seq.
  { apply writeConnectionDataToSocket_counted; [apply keeps_sent_unlimited|exact Hlimit]. }
  cbv beta. intros more s4 [Hmore _]. apply satisfies_ret.
  rewrite Z.add_0_l, wrap64_small by (unfold uint64_max, two64 in *; lia). done.
Qed.

(** X19: [writeProbingDataToSocket] returns at most [probesToSend], also
    when it falls back to sending pings: the pings are written under what
    is left of the request. *)
Theorem writeProbingDataToSocket_at_most_requested builder encryptionLevel pnSpace
  scheduler probesToSend aead headerCipher s :
  0 <= probesToSend <= uint64_max ->
  satisfies
    (writeProbingDataToSocket builder encryptionLevel pnSpace scheduler probesToSend
       aead headerCipher) s
    (fun written _ => 0 <= written <= probesToSend)
    (fun _ _ => True).
Proof. apply writeProbingDataToSocket_counted. Qed.

Lemma writeProbes_counted builder encryptionLevel pnSpace scheduler packetLimit aead
  headerCipher s :
  0 <= packetLimit <= uint64_max ->
  0 <= numProbePackets (pendingEvents (m_conn s)) ->
  satisfies
    (writeProbes builder encryptionLevel pnSpace scheduler packetLimit aead
       headerCipher) s
    (fun written s' => 0 <= written <= packetLimit)
    (fun _ _ => True).
Proof.
  intros Hlimit Hprobes. unfold writeProbes.
  apply satisfies_bind, satisfies_gets.
  set (probes := numProbePackets (pendingEvents (m_conn s))) in *.
  assert (Hrange : 0 <= to_uint8 (Z.min packetLimit probes) <= packetLimit).
  { unfold to_uint8. split; [apply Z.mod_pos_bound; lia|].
    etrans; [apply Z.mod_le; lia|lia]. }
  eapply satisfies_seq.
  { apply writeProbingDataToSocket_counted. lia. }
  cbv beta. intros written s1 Hwritten.
  do 3 (apply satisfies_any_bind; intros ? ?). apply satisfies_ret. lia.
Qed.

Lemma writeQuicDataToSocketImpl_counted aead headerCipher packetLimit
  exceptCryptoStream s :
  0 <= packetLimit <= uint64_max ->
  0 <= numProbePackets (pendingEvents (m_conn s)) ->
  satisfies (writeQuicDataToSocketImpl aead headerCipher packetLimit exceptCryptoStream) s
    (fun written _ => 0 <= written <= packetLimit)
    (fun _ _ => True).
Proof.
  intros Hlimit Hprobes. unfold writeQuicDataToSocketImpl.
  apply satisfies_bind, satisfies_gets.
  eapply satisfies_seq.
  { instantiate (1 := fun written _ => 0 <= written <= packetLimit).
    destruct (negb _); [by apply writeProbes_counted|apply satisfies_ret; lia]. }
  cbv beta. intros written s1 Hwritten.
  rewrite (wrap64_small (packetLimit - written))
    by (unfold uint64_max, two64 in *; lia).
  eapply satisfies_seq.
  { apply writeConnectionDataToSocket_counted;
      [apply keeps_sent_congestionControl|lia]. }
  cbv beta. intros more s2 [Hmore _]. apply satisfies_ret.
  rewrite wrap64_small by (unfold uint64_max, two64 in *; lia). lia.
Qed.

Lemma writeCryptoAndAckDataToSocket_counted packetType cleartextCipher headerCipher
  packetLimit s :
  0 <= packetLimit <= uint64_max ->
  0 <= numProbePackets (pendingEvents (m_conn s)) ->
  satisfies
    (writeCryptoAndAckDataToSocket packetType cleartextCipher headerCipher packetLimit) s
    (fun written _ => 0 <= written <= packetLimit)
    (fun _ _ => True).
Proof.
  intros Hlimit Hprobes. unfold writeCryptoAndAckDataToSocket.
  apply satisfies_bind, satisfies_gets.
  eapply satisfies_seq.
  { instantiate (1 := fun written _ => 0 <= written <= packetLimit).
    destruct (_ && _); [by apply writeProbes_counted|apply satisfies_ret; lia]. }
  cbv beta. intros written s1 Hwritten.
  rewrite (wrap64_small (packetLimit - written))
    by (unfold uint64_max, two64 in *; lia).
  eapply satisfies_seq.
  { apply writeConnectionDataToSocket_counted;
      [apply keeps_sent_congestionControl|lia]. }
  cbv beta. intros more s2 [Hmore _].
  apply satisfies_bind, satisfies_CHECK. intros _. apply satisfies_ret.
  rewrite wrap64_small by (unfold uint64_max, two64 in *; lia). lia.
Qed.

(** X20: the entry points [writeQuicDataToSocket],
    [writeQuicDataExceptCryptoStreamToSocket], [writeCryptoAndAckDataToSocket]
    and [writeZeroRttDataToSocket] return at most [packetLimit], probes
    included: the data is written under what the probes left of the limit. *)
Theorem entry_points_respect_packet_limit aead headerCipher packetLimit s :
  0 <= packetLimit <= uint64_max ->
  0 <= numProbePackets (pendingEvents (m_conn s)) ->
  let atMostLimit (write : M Machine Z) :=
    satisfies write s (fun written _ => 0 <= written <= packetLimit) (fun _ _ => True) in
  atMostLimit (writeQuicDataToSocket aead headerCipher packetLimit)
  /\ atMostLimit (writeQuicDataExceptCryptoStreamToSocket aead headerCipher packetLimit)
  /\ (forall packetType,
        atMostLimit
          (writeCryptoAndAckDataToSocket packetType aead headerCipher packetLimit))
  /\ atMostLimit (writeZeroRttDataToSocket aead headerCipher packetLimit).
Proof.
  intros Hlimit Hprobes atMostLimit. subst atMostLimit. cbv beta.
  split; [by apply writeQuicDataToSocketImpl_counted|].
  split; [by apply writeQuicDataToSocketImpl_counted|].
  split; [intros; by apply writeCryptoAndAckDataToSocket_counted|].
  unfold writeZeroRttDataToSocket.
  eapply satisfies_weaken;
    [apply writeConnectionDataToSocket_counted;
       [apply keeps_sent_congestionControl|exact Hlimit]
    |by intros ? ? [? _]|done].
Qed.

End EntryPoints.


(** * The function looper *)

Section Looper.

Import FunctionLooper.

Lemma call_inBody c l :
  inBody l ->
  satisfies (call c) l
    (fun _ l' => inBody l' /\ pacingTimer_ l' = pacingTimer_ l
                 /\ pacingFunc_ l' = pacingFunc_ l /\ pacingCalls l' = pacingCalls l)
    (fun _ _ => False).
Proof.
  intros (Hbody & Htimeout & Htimer & Hstopped).
  destruct c as [thisIteration|]; cbn [call]; unfold looperRun, stop, runInLoop,
    cancelLoopCallback, cancelTimeout, satisfies, bind, modify, get, ret, CHECK; cbn.
  - rewrite Hbody, Htimeout, andb_true_r, orb_false_r.
    destruct (pacingTimer_ l) eqn:Et; cbn.
    + unfold inBody. cbn. rewrite Et. by repeat split; auto.
    + destruct (loopCallbackScheduled l) eqn:Ecb; cbn.
      * unfold inBody. cbn. rewrite Et, Ecb. by repeat split.
      * destruct (evb_ l); cbn; [|done]. unfold inBody. cbn. rewrite Et.
        by repeat split.
  - unfold inBody. cbn. by repeat split.
Qed.

Lemma forEach_call_inBody cs : forall l,
  inBody l ->
  satisfies (forEach call cs) l
    (fun _ l' => inBody l' /\ pacingTimer_ l' = pacingTimer_ l
                 /\ pacingFunc_ l' = pacingFunc_ l /\ pacingCalls l' = pacingCalls l)
    (fun _ _ => False).
Proof.
  induction cs as [|c cs IH]; intros l Hbody; cbn [forEach].
  - by apply satisfies_ret.
  - apply satisfies_bind.
    eapply satisfies_weaken; [by apply call_inBody| |done].
    intros _ l1 (Hbody1 & Ht1 & Hf1 & Hc1). cbv beta.
    eapply satisfies_weaken; [by apply IH| |done].
    intros _ l2 (Hbody2 & Ht2 & Hf2 & Hc2). cbv beta.
    split; [done|]. split; [congruence|]. split; congruence.
Qed.

Lemma commonLoopBody_spec fromTimer l :
  inLoopBody_ l = false ->
  loopCallbackScheduled l = false ->
  timeoutScheduled l = false ->
  satisfies (commonLoopBody fromTimer) l
    (fun _ l' =>
       inLoopBody_ l' = false
       /\ if running_ l' then
            if pacingDelayDue l
            then timeoutScheduled l' = true /\ loopCallbackScheduled l' = false
            else timeoutScheduled l' = false /\ loopCallbackScheduled l' = true
          else timeoutScheduled l' = false /\ loopCallbackScheduled l' = false)
    (fun _ _ => False).
Proof.
  intros Hout Hcb Hto. unfold commonLoopBody.
  apply satisfies_bind, satisfies_modify.
  apply satisfies_bind, satisfies_get.
  apply satisfies_bind, satisfies_modify.
  apply satisfies_bind.
  eapply satisfies_weaken; [apply forEach_call_inBody| |done].
  { unfold inBody. cbn. by repeat split. }
  cbn [pacingTimer_ pacingFunc_ pacingCalls set_funcCalls set_inLoopBody_].
  intros _ l1 ((Hbody & Htimeout & Htimer & Hstopped) & Ht & Hf & Hc). cbv beta.
  apply satisfies_bind, satisfies_get.
  destruct (running_ l1) eqn:Erun; cbn [negb].
  2:{ apply satisfies_modify. cbn. rewrite Erun. split; [done|].
      split; [done|]. by apply Hstopped. }
  unfold pacingDelayDue. rewrite <- Ht, <- Hf, <- Hc. clear Ht Hf Hc.
  unfold schedulePacingTimeout, runInLoop, satisfies, bind, modify, get, ret, when,
    CHECK.
  rewrite Htimeout. cbn [negb]. rewrite andb_true_r.
  destruct (pacingFunc_ l1) as [pacingFunc|] eqn:Efunc; cbn.
  - destruct (pacingTimer_ l1) eqn:Etimer; cbn.
    + specialize (Htimer eq_refl).
      destruct (pacingFunc (pacingCalls l1) =? 0); cbn.
      * destruct (evb_ l1); cbn; [|done]. by rewrite Erun, Htimeout.
      * by rewrite Erun, Htimer.
    + destruct (evb_ l1); cbn; [|done]. by rewrite Erun, Htimeout.
  - rewrite andb_false_r. destruct (evb_ l1); cbn; [|done].
    by rewrite Erun, Htimeout.
Qed.

(** X21: whatever its owner, the event base and the pacing timer do with a
    looper, outside the loop body it is never scheduled twice: while it runs
    exactly one of the loop callback and the pacing timeout is pending, and
    once stopped neither is. *)
Theorem looper_one_wake_up evb func l :
  reachable evb func l -> oneWakeUp l.
Proof.
  induction 1 as [|l l' _ IH Hstep].
  - by split.
  - destruct IH as [Hout Hsched].
    destruct Hstep as [thisIteration l l' Hrun|l l' Hrun|timer l l' Hrun|f l l' Hrun
                      |l l' Hrun|l l' Hrun|l l' Hcb Hrun|l l' Hto Hrun].
    + revert Hrun. unfold looperRun, runInLoop, bind, modify, get, ret, CHECK. cbn.
      rewrite Hout, andb_false_r. cbn.
      destruct (running_ l).
      * destruct (loopCallbackScheduled l) eqn:Ecb, (timeoutScheduled l) eqn:Eto;
          try done; cbn; intros [= <-]; (split; [done|]); cbn; by rewrite Ecb, Eto.
      * destruct Hsched as [Ecb Eto]. rewrite Ecb, Eto. cbn.
        destruct (evb_ l); cbn; [|done]. intros [= <-]. split; [done|]. cbn.
        by rewrite Eto.
    + revert Hrun. unfold stop, cancelLoopCallback, cancelTimeout, bind, modify. cbn.
      intros [= <-]. by split.
    + revert Hrun. unfold setPacingTimer, modify. intros [= <-]. by split.
    + revert Hrun. unfold setPacingFunction, bind, modify. intros [= <-]. by split.
    + revert Hrun. unfold attachEventBase, modify. intros [= <-]. by split.
    + revert Hrun. unfold detachEventBase, stop, cancelLoopCallback, cancelTimeout,
        bind, modify. cbn. intros [= <-]. by split.
    + rewrite Hcb in Hsched. destruct (running_ l) eqn:Erun; [|by destruct Hsched].
      assert (Hto : timeoutScheduled l = false) by (by destruct (timeoutScheduled l)).
      pose proof (commonLoopBody_spec false (set_loopCallbackScheduled false l)
                    Hout eq_refl Hto) as Hspec.
      unfold runLoopCallback in Hrun. unfold satisfies in Hspec. rewrite Hrun in Hspec.
      destruct Hspec as [Hout' Hsched']. split; [done|].
      destruct (running_ l'); [|tauto].
      destruct (pacingDelayDue _); destruct Hsched' as [-> ->]; done.
    + rewrite Hto in Hsched. destruct (running_ l) eqn:Erun; [|by destruct Hsched].
      assert (Hcb : loopCallbackScheduled l = false)
        by (by destruct (loopCallbackScheduled l)).
      pose proof (commonLoopBody_spec true (set_timeoutScheduled false l)
                    Hout Hcb eq_refl) as Hspec.
      unfold timeoutExpired in Hrun. unfold satisfies in Hspec. rewrite Hrun in Hspec.
      destruct Hspec as [Hout' Hsched']. split; [done|].
      destruct (running_ l'); [|tauto].
      destruct (pacingDelayDue _); destruct Hsched' as [-> ->]; done.
Qed.

Lemma call_returns_paced c l :
  inLoopBody_ l = true -> pacingTimer_ l = true ->
  exists l', call c l = Ok tt l' /\ inLoopBody_ l' = true /\ pacingTimer_ l' = true.
Proof.
  intros Hbody Htimer.
  destruct c as [thisIteration|]; cbn [call]; unfold looperRun, stop,
    cancelLoopCallback, cancelTimeout, bind, modify, get, ret; cbn.
  - rewrite Hbody, Htimer. cbn. eexists. split; [reflexivity|]. by cbn.
  - eexists. split; [reflexivity|]. by cbn.
Qed.

Lemma forEach_call_returns_paced cs : forall l,
  inLoopBody_ l = true -> pacingTimer_ l = true ->
  exists l', forEach call cs l = Ok tt l'.
Proof.
  induction cs as [|c cs IH]; intros l Hbody Htimer; cbn [forEach].
  - by eexists.
  - destruct (call_returns_paced c l Hbody Htimer) as (l1 & Hcall & Hbody1 & Htimer1).
    destruct (IH l1 Hbody1 Htimer1) as (l2 & Hrest).
    exists l2. unfold bind. by rewrite Hcall.
Qed.

(** X22: a run of the loop body of a looper with a pacing timer whose pacing
    function asks for a delay returns, and leaves the looper off the event
    loop whatever the callback called, [run()] included: the pacing timeout
    is scheduled if the looper still runs, and nothing is if the callback
    stopped it. *)
Theorem looper_callback_run_is_paced fromTimer l :
  inLoopBody_ l = false ->
  loopCallbackScheduled l = false ->
  timeoutScheduled l = false ->
  pacingDelayDue l = true ->
  exists l',
    commonLoopBody fromTimer l = Ok tt l'
    /\ inLoopBody_ l' = false
    /\ loopCallbackScheduled l' = false
    /\ timeoutScheduled l' = running_ l'.
Proof.
  intros Hout Hcb Hto Hdue.
  pose proof (commonLoopBody_spec fromTimer l Hout Hcb Hto) as Hspec.
  assert (Hreturns : exists l', commonLoopBody fromTimer l = Ok tt l').
  { unfold pacingDelayDue in Hdue. apply andb_true_iff in Hdue as [Htimer Hfunc].
    destruct (pacingFunc_ l) as [pacingFunc|] eqn:Efunc; [|done].
    set (l0 := set_funcCalls (S (funcCalls l)) (set_inLoopBody_ true l)).
    destruct (forEach_call_returns_paced (func_ l (funcCalls l) fromTimer) l0)
      as (l1 & Hcalls); [done|done|].
    pose proof (forEach_call_inBody (func_ l (funcCalls l) fromTimer) l0) as Hkept.
    unfold satisfies in Hkept. rewrite Hcalls in Hkept.
    destruct Hkept as ((_ & Hto1 & _ & _) & Ht1 & Hf1 & Hc1);
      [unfold inBody; cbn; by repeat split|].
    cbn in Ht1, Hf1, Hc1.
    unfold commonLoopBody, bind, modify, get. cbn. fold l0. rewrite Hcalls.
    destruct (running_ l1) eqn:Erun; cbn; [|by eexists].
    unfold schedulePacingTimeout, bind, modify, get, ret, when.
    rewrite Hf1, Efunc, Ht1, Htimer, Hto1, Hc1. cbn. rewrite Hfunc. cbn.
    by eexists. }
  destruct Hreturns as (l' & Hrun). exists l'. split; [done|].
  unfold satisfies in Hspec. rewrite Hrun, Hdue in Hspec.
  destruct Hspec as [Hout' Hsched]. split; [done|].
  destruct (running_ l'); destruct Hsched as [-> ->]; done.
Qed.

End Looper.

#[local] Existing Instance Simple.collaborators.
#[local] Existing Instance Simple.ops.

Lemma simple_collaborators_keep_outstandings : collaboratorsKeepOutstandings.
Proof. by intros [] conn. Qed.

Lemma simple_start_keeps_first_socket : startKeepsFirstSocket.
Proof. by intros he. Qed.

(** C1 on a connection that owes an ack at once while its congestion
    controller has no room: the reason is the ack. *)
Lemma shouldWriteData_priority_witness :
  let conn := Simple.ackOwedWhileBlocked in
  congestionControlWritableBytes 0 conn = Ok 0 conn
  /\ shouldWriteData 0 conn = Ok ACK conn.
Proof.
  split; [by vm_compute|].
  apply (proj2 (shouldWriteData_priority 0 Simple.ackOwedWhileBlocked));
    by vm_compute.
Defined.

(** C10 on a connection whose congestion controller has room for 3000
    bytes: the result is 3756, three packets of 1252 bytes. *)
Lemma congestionControlWritableBytes_rounds_up_witness :
  let conn := Simple.withWritableBytes 3000 in
  0 < udpSendPacketLen conn < two64
  /\ limiterChecksHold conn
  /\ congestionControlWritableBytes 0 conn = Ok 3756 conn
  /\ exists r uncapped,
       congestionControlWritableBytes 0 conn = Ok r conn /\
       uncappedWritableBytes 0 conn = Ok uncapped conn /\
       match uncapped with
       | None =>
           r = 0 /\
           exists limit, writableBytesLimit conn = Some limit /\
                         limit <= totalBytesSent (lossState conn)
       | Some w =>
           let budget := capByCongestionController conn w in
           0 <= budget < two64 /\
           (budget = uint64_max -> r = uint64_max) /\
           (budget <> uint64_max ->
            (exists k, 0 <= k /\ r = k * udpSendPacketLen conn) /\
            (budget + udpSendPacketLen conn - 1 < two64 ->
             budget <= r < budget + udpSendPacketLen conn /\ (r = 0 <-> budget = 0)))
       end.
Proof.
  assert (Hlen : 0 < udpSendPacketLen (Simple.withWritableBytes 3000) < two64)
    by (by vm_compute).
  assert (Hchecks : limiterChecksHold (Simple.withWritableBytes 3000))
    by (by intros [Hchallenge|Hvalidation]).
  exact (conj Hlen (conj Hchecks (conj eq_refl
           (congestionControlWritableBytes_rounds_up 0 _ Hlen Hchecks)))).
Defined.

(** C10 as stated fails: with a budget of [2^64 - 2] bytes, which is neither
    zero nor unlimited, the rounding wraps around and the result is zero. *)
Lemma congestionControlWritableBytes_wraps_to_zero :
  let conn := Simple.withWritableBytes (two64 - 2) in
  uncappedWritableBytes 0 conn = Ok (Some uint64_max) conn
  /\ capByCongestionController conn uint64_max = two64 - 2
  /\ writableBytesLimit conn = None
  /\ congestionControlWritableBytes 0 conn = Ok 0 conn.
Proof. by vm_compute. Qed.

(** C6 on a batch whose only socket is out of the network: the flush raises
    the connection-abandonment error. *)
Lemma flushInternal_both_sockets_ineligible_witness :
  let m := Simple.loaded Simple.quiet Simple.unreachable in
  batchEmpty (batchWriter (m_batch m)) = false
  /\ flushInternal m
     = Throw (QuicInternalException CONNECTION_ABANDONED) (Simple.after flushInternal m)
  /\ exists m',
       finalState (flushInternal m) = Some m' /\
       (firstEligible m' = false -> secondEligible m' = false ->
        flushInternal m
        = Throw (if isNetworkUnreachable (m_errno m')
                 then QuicInternalException CONNECTION_ABANDONED
                 else QuicTransportException INTERNAL_ERROR) m') /\
       (forall e, flushInternal m = Throw e m' ->
                  firstEligible m' = false /\ secondEligible m' = false).
Proof.
  set (m := Simple.loaded Simple.quiet Simple.unreachable).
  assert (Hne : batchEmpty (batchWriter (m_batch m)) = false) by (by vm_compute).
  assert (Hthrow : flushInternal m
                   = Throw (QuicInternalException CONNECTION_ABANDONED)
                       (Simple.after flushInternal m)) by (by vm_compute).
  exact (conj Hne (conj Hthrow (flushInternal_both_sockets_ineligible m Hne))).
Defined.

(** C7 on a batch that the first socket would block on and the second
    socket accepts. *)
Lemma flushInternal_retriable_failure_witness :
  let m := Simple.loaded Simple.bothSockets Simple.blockingOnce in
  let m' := Simple.after flushInternal m in
  batchEmpty (batchWriter (m_batch m)) = false
  /\ isRetriableError EAGAIN = true
  /\ finalState (flushInternal m) = Some m'
  /\ In (SocketWrite FirstSocket (Failed EAGAIN)) (newEvents m m')
  /\ (exists returned,
        flushInternal m = Ok returned m' /\
        (returned = false <->
         ~ exists other bytes, In (SocketWrite other (Consumed bytes)) (newEvents m m')))
  /\ eligible FirstSocket m' = true
  /\ ~ In (PauseRead FirstSocket) (newEvents m m').
Proof.
  set (m := Simple.loaded Simple.bothSockets Simple.blockingOnce).
  set (m' := Simple.after flushInternal m).
  assert (Hne : batchEmpty (batchWriter (m_batch m)) = false) by (by vm_compute).
  assert (Hretry : isRetriableError EAGAIN = true) by (by vm_compute).
  assert (Hfinal : finalState (flushInternal m) = Some m') by (by vm_compute).
  assert (Hin : In (SocketWrite FirstSocket (Failed EAGAIN)) (newEvents m m'))
    by (vm_compute; by left).
  exact (conj Hne (conj Hretry (conj Hfinal (conj Hin
           (flushInternal_retriable_failure m m' FirstSocket EAGAIN Hne
              (fun _ => simple_start_keeps_first_socket) Hretry Hfinal Hin))))).
Defined.

(** C7 as stated fails: the first socket's write fails with EAGAIN, a
    retriable error, and yet the flush returns true (the second socket took
    the batch), the first socket is still eligible for writing and its read
    side is not paused. *)
Lemma retriable_failure_keeps_socket_eligible :
  let m := Simple.loaded Simple.bothSockets Simple.blockingOnce in
  let m' := Simple.after flushInternal m in
  isRetriableError EAGAIN = true
  /\ newEvents m m' = [SocketWrite FirstSocket (Failed EAGAIN);
                       SocketWrite SecondSocket (Consumed 1200)]
  /\ flushInternal m = Ok true m'
  /\ eligible FirstSocket m' = true
  /\ m_sockReadPaused m' = false.
Proof. by vm_compute. Qed.


(** C4 on a connection that sent the Initial packet 10 and then the
    application-data packet 3: the later packet is put before the earlier
    one, and each space ascends. *)
Lemma outstanding_packets_ascending_witness :
  let l := outstandingPackets Simple.sentAppData3 in
  collaboratorsKeepOutstandings
  /\ reachablePackets l
  /\ outstandingPacketNum <$> l = [3; 10]
  /\ ascendingInEachSpace l.
Proof.
  assert (Hreach : reachablePackets (outstandingPackets Simple.sentAppData3)).
  { apply (reachable_sent Simple.sentInitial10 Simple.sentAppData3 None
             (Simple.pingPacket (Simple.shortHeader 3)) 0 100 false).
    - apply (reachable_sent Simple.quiet Simple.sentInitial10 None
               (Simple.pingPacket (Simple.initialHeader 10)) 0 100 false).
      + apply reachable_initially.
      + intros op Hop. by apply elem_of_nil in Hop.
      + by vm_compute.
    - intros op Hop Hspace Hnum.
      vm_compute in Hop. apply list_elem_of_singleton in Hop. subst op.
      by vm_compute in Hspace.
    - by vm_compute. }
  split; [exact simple_collaborators_keep_outstandings|].
  split; [exact Hreach|]. split; [by vm_compute|].
  exact (outstanding_packets_ascending _ simple_collaborators_keep_outstandings Hreach).
Defined.

(** C2 on a connection with three pings to send whose socket would block:
    the second packet fills the batch, the flush fails, the packet is passed
    to [updateConnection] all the same, and the function returns 2. *)
Lemma writeConnectionDataToSocket_updates_and_flushes_witness :
  let call :=
    writeConnectionDataToSocket Simple.shortHeader AppData (Simple.pingScheduler 3 20)
      congestionControlWritableBytesFunc 5 Simple.aead Simple.headerCipher in
  let m := Simple.machine Simple.quiet Simple.blocking in
  let m' := Simple.after call m in
  keeps True m_trace congestionControlWritableBytesFunc
  /\ call m = Ok 2 m'
  /\ newEvents m m'
     = [CallBatchWrite (Simple.pingPacket (Simple.shortHeader 0)) 38;
        BatchAppend 38; BatchWriteResult true;
        CallUpdateConnection (Simple.pingPacket (Simple.shortHeader 0));
        CallBatchWrite (Simple.pingPacket (Simple.shortHeader 1)) 38;
        BatchAppend 38; CallFlush FLUSH_TYPE_ALWAYS;
        SocketWrite FirstSocket (Failed EAGAIN); BatchWriteResult false;
        CallUpdateConnection (Simple.pingPacket (Simple.shortHeader 1))]
  /\ (forall before pkt size after,
        newEvents m m' = before ++ CallBatchWrite pkt size :: after ->
        exists during written rest,
          after = during ++ BatchWriteResult written :: CallUpdateConnection pkt :: rest
          /\ Forall duringWrite during
          /\ (written = false -> rest = []))
  /\ 2 = pktSent (m_batch m')
  /\ (forall before size after,
        newEvents m m' = before ++ BatchAppend size :: after ->
        exists flushType, In (CallFlush flushType) after).
Proof.
  set (call := writeConnectionDataToSocket Simple.shortHeader AppData
                 (Simple.pingScheduler 3 20) congestionControlWritableBytesFunc 5
                 Simple.aead Simple.headerCipher).
  set (m := Simple.machine Simple.quiet Simple.blocking).
  assert (Hrun : call m = Ok 2 (Simple.after call m)) by (by vm_compute).
  split; [exact keeps_congestionControlWritableBytesFunc|].
  split; [exact Hrun|]. split; [by vm_compute|].
  exact (writeConnectionDataToSocket_updates_and_flushes Simple.shortHeader AppData
           (Simple.pingScheduler 3 20) congestionControlWritableBytesFunc 5
           Simple.aead Simple.headerCipher m 2 (Simple.after call m)
           keeps_congestionControlWritableBytesFunc Hrun).
Defined.

(** C8 on a connection whose buffer holds a batched packet of 38 bytes: the
    scheduler writes five bytes and builds no packet; the buffer is put back
    at 38 bytes with the packet intact, the batch is flushed and the build
    failure comes back. *)
Lemma continuousMemoryBuildScheduleEncrypt_rewinds_on_failure_witness :
  let call :=
    continuousMemoryBuildScheduleEncrypt (Simple.shortHeader 0) AppData 0 16
      Simple.emptyScheduler 1236 Simple.aead Simple.headerCipher in
  let m := Simple.loaded Simple.withBufferedPacket Simple.accepting in
  let buf := mkIOBuf (repeat Byte.x01 38) 0 38 in
  let buf1 := mkIOBuf (repeat Byte.x01 38 ++ repeat Byte.xff 5) 0 43 in
  let res := mkSchedulingResult None None in
  let conn1 := set_bufAccessor (Some buf1) (m_conn m) in
  bufAccessor (m_conn m) = Some buf
  /\ 0 <= io_length buf < two64
  /\ hasData Simple.emptyScheduler (m_conn m) = true
  /\ scheduleFramesForPacket Simple.emptyScheduler
       (inplaceBuilder (m_conn m) (Simple.shortHeader 0) AppData 16) 1236 (m_conn m)
     = Ok res conn1
  /\ bufAccessor conn1 = Some buf1
  /\ noPacketBuilt res
  /\ keepsDataOf buf buf1
  /\ call m = Ok makeBuildFailure (Simple.after call m)
  /\ exists reason rewound m',
       rewound = mkIOBuf (io_storage buf1) (io_headroom buf1) (io_length buf)
       /\ (keepsDataOf buf buf1 -> contents rewound = contents buf)
       /\ call m
          = (run ignoreResult (flush defaultFlushType);
             run onConn (setNoWriteReason reason);
             ret makeBuildFailure)
              (set_m_conn (set_bufAccessor (Some rewound) conn1) m)
       /\ finalState (call m) = Some m'
       /\ (exists evs, newEvents m m' = CallFlush defaultFlushType :: evs
                       /\ Forall isSocketEvent evs)
       /\ (call m = Ok makeBuildFailure m'
           \/ (call m = Throw (socketWriteError m') m'
               /\ firstEligible m' = false /\ secondEligible m' = false)).
Proof.
  set (m := Simple.loaded Simple.withBufferedPacket Simple.accepting).
  set (buf := mkIOBuf (repeat Byte.x01 38) 0 38).
  set (buf1 := mkIOBuf (repeat Byte.x01 38 ++ repeat Byte.xff 5) 0 43).
  set (res := mkSchedulingResult None None).
  set (conn1 := set_bufAccessor (Some buf1) (m_conn m)).
  assert (Hbuf : bufAccessor (m_conn m) = Some buf) by (by vm_compute).
  assert (Hlen : 0 <= io_length buf < two64) by (by vm_compute).
  assert (Hdata : hasData Simple.emptyScheduler (m_conn m) = true) by (by vm_compute).
  assert (Hsched : scheduleFramesForPacket Simple.emptyScheduler
                     (inplaceBuilder (m_conn m) (Simple.shortHeader 0) AppData 16)
                     1236 (m_conn m) = Ok res conn1) by (by vm_compute).
  assert (Hbuf1 : bufAccessor conn1 = Some buf1) by (by vm_compute).
  assert (Hnone : noPacketBuilt res) by exact I.
  assert (Hkept : keepsDataOf buf buf1) by (by vm_compute).
  repeat (split; [assumption|]). split; [by vm_compute|].
  exact (continuousMemoryBuildScheduleEncrypt_rewinds_on_failure
           (Simple.shortHeader 0) AppData 0 16 Simple.emptyScheduler 1236
           Simple.aead Simple.headerCipher m buf res conn1 buf1
           Hbuf Hlen Hdata Hsched Hbuf1 Hnone).
Defined.

(** C8 as stated fails: the scheduler builds no packet, the socket refuses
    the batch that the flush writes, and the call raises the transport error
    instead of returning a build failure. *)
Lemma build_failure_not_reported_when_flush_raises :
  let call :=
    continuousMemoryBuildScheduleEncrypt (Simple.shortHeader 0) AppData 0 16
      Simple.emptyScheduler 1236 Simple.aead Simple.headerCipher in
  let m := Simple.loaded Simple.withBufferedPacket Simple.refusing in
  (exists conn1,
     scheduleFramesForPacket Simple.emptyScheduler
       (inplaceBuilder (m_conn m) (Simple.shortHeader 0) AppData 16) 1236 (m_conn m)
     = Ok (mkSchedulingResult None None) conn1)
  /\ call m = Throw (QuicTransportException INTERNAL_ERROR) (Simple.after call m)
  /\ forall m', call m <> Ok makeBuildFailure m'.
Proof.
  split; [eexists; by vm_compute|].
  assert (Hthrow : continuousMemoryBuildScheduleEncrypt (Simple.shortHeader 0) AppData
                     0 16 Simple.emptyScheduler 1236 Simple.aead Simple.headerCipher
                     (Simple.loaded Simple.withBufferedPacket Simple.refusing)
                   = Throw (QuicTransportException INTERNAL_ERROR)
                       (Simple.after
                          (continuousMemoryBuildScheduleEncrypt (Simple.shortHeader 0)
                             AppData 0 16 Simple.emptyScheduler 1236 Simple.aead
                             Simple.headerCipher)
                          (Simple.loaded Simple.withBufferedPacket Simple.refusing)))
    by (by vm_compute).
  split; [exact Hthrow|]. intros m' Hok. cbv zeta in Hok. congruence.
Qed.





(** * The further properties on concrete inputs *)

#[local] Existing Instance Simple.schedulers.

Lemma simple_collaborators_keep {T} (proj : Conn -> T) :
  (forall pnSpace conn, proj (Simple.increaseNextPacketNum pnSpace conn) = proj conn) ->
  collaboratorsKeep proj.
Proof. intros Hproj [] conn; try done. apply Hproj. Qed.

(** X1 on a batch that the first socket would block on and the second
    socket accepts. *)
Lemma flushInternal_accepted_by_one_socket_witness :
  let m := Simple.loaded Simple.bothSockets Simple.blockingOnce in
  let m' := Simple.after flushInternal m in
  batchEmpty (batchWriter (m_batch m)) = false
  /\ finalState (flushInternal m) = Some m'
  /\ In (SocketWrite SecondSocket (Consumed 1200)) (newEvents m m')
  /\ flushInternal m = Ok true m'
  /\ eligible SecondSocket m' = true
  /\ statsLog (m_conn m') = statsLog (m_conn m).
Proof.
  set (m := Simple.loaded Simple.bothSockets Simple.blockingOnce).
  set (m' := Simple.after flushInternal m).
  assert (Hne : batchEmpty (batchWriter (m_batch m)) = false) by (by vm_compute).
  assert (Hfinal : finalState (flushInternal m) = Some m') by (by vm_compute).
  assert (Hin : In (SocketWrite SecondSocket (Consumed 1200)) (newEvents m m'))
    by (vm_compute; right; by left).
  exact (conj Hne (conj Hfinal (conj Hin
           (flushInternal_accepted_by_one_socket m m' SecondSocket 1200 Hne Hfinal Hin)))).
Defined.

(** X2 on a batch that both sockets would block on while the second socket
    waits for the connection-attempt delay: the timeout is cancelled between
    the two writes. *)
Lemma flushInternal_starts_second_socket_witness :
  let m := Simple.loaded Simple.secondSocketWaiting Simple.blocking in
  let m' := Simple.after flushInternal m in
  batchEmpty (batchWriter (m_batch m)) = false
  /\ finalState (flushInternal m) = Some m'
  /\ newEvents m m' = [SocketWrite FirstSocket (Failed EAGAIN); CancelTimeout;
                       SocketWrite SecondSocket (Failed EAGAIN)]
  /\ (In CancelTimeout (newEvents m m')
      <-> connAttemptDelayTimeout (happyEyeballsState (m_conn m)) = Some true
          /\ ~ exists bytes,
               In (SocketWrite FirstSocket (Consumed bytes)) (newEvents m m'))
  /\ (In CancelTimeout (newEvents m m') ->
      exists before after,
        newEvents m m' = before ++ CancelTimeout :: after
        /\ Forall (fun ev => eventSocket ev = Some FirstSocket) before
        /\ Forall (fun ev => eventSocket ev = Some SecondSocket) after).
Proof.
  set (m := Simple.loaded Simple.secondSocketWaiting Simple.blocking).
  set (m' := Simple.after flushInternal m).
  assert (Hne : batchEmpty (batchWriter (m_batch m)) = false) by (by vm_compute).
  assert (Hfinal : finalState (flushInternal m) = Some m') by (by vm_compute).
  assert (Hevents : newEvents m m'
                    = [SocketWrite FirstSocket (Failed EAGAIN); CancelTimeout;
                       SocketWrite SecondSocket (Failed EAGAIN)]) by (by vm_compute).
  exact (conj Hne (conj Hfinal (conj Hevents
           (flushInternal_starts_second_socket m m' Hne Hfinal)))).
Defined.

(** X3 on a batch whose only socket would block: the flush returns false
    and the error is reported once. *)
Lemma flushInternal_reports_write_error_witness :
  let m := Simple.loaded Simple.quiet Simple.blocking in
  let m' := Simple.after flushInternal m in
  batchEmpty (batchWriter (m_batch m)) = false
  /\ finalState (flushInternal m) = Some m'
  /\ flushInternal m = Ok false m'
  /\ statsLog (m_conn m') = [onUDPSocketWriteError EAGAIN]
  /\ statsLog (m_conn m')
     = statsLog (m_conn m)
       ++ (if existsb isAcceptedWrite (newEvents m m') then []
           else [onUDPSocketWriteError (m_errno m')]).
Proof.
  set (m := Simple.loaded Simple.quiet Simple.blocking).
  set (m' := Simple.after flushInternal m).
  assert (Hne : batchEmpty (batchWriter (m_batch m)) = false) by (by vm_compute).
  assert (Hfinal : finalState (flushInternal m) = Some m') by (by vm_compute).
  assert (Hrun : flushInternal m = Ok false m') by (by vm_compute).
  assert (Hlog : statsLog (m_conn m') = [onUDPSocketWriteError EAGAIN])
    by (by vm_compute).
  exact (conj Hne (conj Hfinal (conj Hrun (conj Hlog
           (flushInternal_reports_write_error m m' Hne Hfinal))))).
Defined.

(** X4 on a batch that both sockets accept: each socket is written once,
    the first before the second. *)
Lemma flushInternal_writes_each_socket_once_witness :
  let m := Simple.loaded Simple.bothSockets Simple.accepting in
  let m' := Simple.after flushInternal m in
  batchEmpty (batchWriter (m_batch m)) = false
  /\ finalState (flushInternal m) = Some m'
  /\ omap socketWritten (newEvents m m') = [FirstSocket; SecondSocket]
  /\ exists second : bool,
       omap socketWritten (newEvents m m')
       = (if firstEligible m then [FirstSocket] else [])
         ++ (if second then [SecondSocket] else [])
       /\ (second = true ->
           secondEligible m = true \/ In CancelTimeout (newEvents m m'))
       /\ (secondEligible m = true -> ~ In CancelTimeout (newEvents m m') ->
           second = true).
Proof.
  set (m := Simple.loaded Simple.bothSockets Simple.accepting).
  set (m' := Simple.after flushInternal m).
  assert (Hne : batchEmpty (batchWriter (m_batch m)) = false) by (by vm_compute).
  assert (Hfinal : finalState (flushInternal m) = Some m') by (by vm_compute).
  assert (Hwritten : omap socketWritten (newEvents m m') = [FirstSocket; SecondSocket])
    by (by vm_compute).
  exact (conj Hne (conj Hfinal (conj Hwritten
           (flushInternal_writes_each_socket_once m m' Hne Hfinal)))).
Defined.

(** X5 on an empty batch whose socket is out of the network. *)
Lemma flush_without_socket_write_witness :
  let m := Simple.machine Simple.quiet Simple.unreachable in
  batchEmpty (batchWriter (m_batch m)) = true
  /\ exists m',
       flush FLUSH_TYPE_ALWAYS m = Ok true m'
       /\ newEvents m m' = [CallFlush FLUSH_TYPE_ALWAYS]
       /\ m_conn m' = m_conn m
       /\ m_netCalls m' = m_netCalls m
       /\ m_sockReadPaused m' = m_sockReadPaused m.
Proof.
  set (m := Simple.machine Simple.quiet Simple.unreachable).
  assert (Hempty : batchEmpty (batchWriter (m_batch m)) = true) by (by vm_compute).
  exact (conj Hempty (flush_without_socket_write FLUSH_TYPE_ALWAYS m (or_introl Hempty))).
Defined.

(** X6 on a batch of one packet whose socket would block: the second
    packet fills the batch, the flush fails and the write returns false. *)
Lemma batchWrite_reports_flush_after_append_witness :
  let m := Simple.loaded Simple.quiet Simple.blocking in
  let m' := Simple.after (batchWrite 1200) m in
  batchWrite 1200 m = Ok false m'
  /\ newEvents m m'
     = [BatchAppend 1200; CallFlush FLUSH_TYPE_ALWAYS;
        SocketWrite FirstSocket (Failed EAGAIN); BatchWriteResult false]
  /\ sentSoFar m' = wrap64 (sentSoFar m + 1)
  /\ exists pre post,
       newEvents m m' = pre ++ BatchAppend 1200 :: post ++ [BatchWriteResult false]
       /\ Forall isFlushEvent pre
       /\ Forall isFlushEvent post
       /\ (false = false -> exists evs, post = CallFlush FLUSH_TYPE_ALWAYS :: evs).
Proof.
  set (m := Simple.loaded Simple.quiet Simple.blocking).
  set (m' := Simple.after (batchWrite 1200) m).
  assert (Hrun : batchWrite 1200 m = Ok false m') by (by vm_compute).
  assert (Hevents : newEvents m m'
                    = [BatchAppend 1200; CallFlush FLUSH_TYPE_ALWAYS;
                       SocketWrite FirstSocket (Failed EAGAIN); BatchWriteResult false])
    by (by vm_compute).
  exact (conj Hrun (conj Hevents
           (batchWrite_reports_flush_after_append 1200 m false m' Hrun))).
Defined.


(** X8 on a connection with a congestion controller that sends acks
    alone. *)
Lemma updateConnection_ack_only_not_congestion_controlled_witness :
  let acks := Simple.ackPacket (Simple.shortHeader 4) in
  let conn := Simple.withWritableBytes 3000 in
  carriesAckElicitingOrPing acks = false
  /\ collaboratorsKeep ackElicitingState
  /\ (exists conn', updateConnection None acks 0 100 false conn = Ok tt conn')
  /\ satisfies (updateConnection None acks 0 100 false) conn
       (fun _ conn' => ackElicitingState conn' = ackElicitingState conn)
       (fun _ conn' => ackElicitingState conn' = ackElicitingState conn).
Proof.
  assert (Hacks : carriesAckElicitingOrPing (Simple.ackPacket (Simple.shortHeader 4))
                  = false) by (by vm_compute).
  assert (Hkeep : collaboratorsKeep ackElicitingState)
    by (apply simple_collaborators_keep; by intros [] conn).
  split; [exact Hacks|]. split; [exact Hkeep|].
  split; [eexists; by vm_compute|].
  exact (updateConnection_ack_only_not_congestion_controlled None
           (Simple.ackPacket (Simple.shortHeader 4)) 0 100 false
           (Simple.withWritableBytes 3000) Hacks Hkeep).
Defined.


(** X10 on the connection whose handshake packets are in flight, when it
    sends the lost crypto data again in the handshake packet 3. *)
Lemma updateConnection_keeps_counts_bounded_witness :
  let crypto := Simple.cryptoPacket 3 50 1 in
  let conn := Simple.handshakeInFlight in
  collaboratorsKeepOutstandings
  /\ outstandingCountsBounded (outstandings conn)
  /\ handshakePacketsCount
       (outstandings (Simple.after (updateConnection None crypto 0 100 false) conn)) = 3
  /\ satisfies (updateConnection None crypto 0 100 false) conn
       (fun _ conn' => outstandingCountsBounded (outstandings conn'))
       (fun _ conn' => outstandingCountsBounded (outstandings conn')).
Proof.
  assert (Hbounded : outstandingCountsBounded (outstandings Simple.handshakeInFlight))
    by (vm_compute; repeat split; discriminate).
  split; [exact simple_collaborators_keep_outstandings|].
  split; [exact Hbounded|]. split; [by vm_compute|].
  exact (updateConnection_keeps_counts_bounded None
           (Simple.cryptoPacket 3 50 1) 0 100 false
           Simple.handshakeInFlight simple_collaborators_keep_outstandings Hbounded).
Defined.

(** X12 on a connection with a ping requested that has sent the D6D probe
    number 7: the ping in the packet 7 leaves the request, the ping in the
    packet 8 takes it back. *)
Lemma updateConnection_d6d_probe_keeps_ping_request_witness :
  let conn := Simple.pingRequestedWhileProbing in
  let probe := Simple.pingPacket (Simple.shortHeader 7) in
  let ping := Simple.pingPacket (Simple.shortHeader 8) in
  collaboratorsKeep pingRequested
  /\ pingRequested (Simple.after (updateConnection None probe 0 100 false) conn) = true
  /\ pingRequested (Simple.after (updateConnection None ping 0 100 false) conn) = false
  /\ satisfies (updateConnection None probe 0 100 false) conn
       (fun _ conn' =>
          pingRequested conn'
          = pingRequested conn
            && negb (packetIsPing probe
                     && negb (isD6DProbe conn (getPacketNumberSpace (header probe))
                                (getPacketSequenceNum (header probe)))))
       (fun _ _ => True).
Proof.
  assert (Hkeep : collaboratorsKeep pingRequested)
    by (apply simple_collaborators_keep; by intros [] conn).
  split; [exact Hkeep|]. split; [by vm_compute|]. split; [by vm_compute|].
  exact (updateConnection_d6d_probe_keeps_ping_request None
           (Simple.pingPacket (Simple.shortHeader 7)) 0 100 false
           Simple.pingRequestedWhileProbing Hkeep).
Defined.

(** X15 on a buffer with a byte of headroom, a header of two bytes and a
    body of 20 bytes, with a cipher that masks the header: the byte of
    headroom and the body are as before. *)
Lemma encryptPacketHeader_touches_only_header_witness :
  let packetBuf := Simple.packetBuffer in
  0 <= io_headroom packetBuf
  /\ encryptPacketHeader Short packetBuf 2 20 Simple.maskingCipher tt
     = Ok (mkIOBuf (Byte.x00 :: [Byte.xff; Byte.xee] ++ repeat Byte.x09 20) 1 2) tt
  /\ exists packetBuf',
       encryptPacketHeader Short packetBuf 2 20 Simple.maskingCipher tt
       = Ok packetBuf' tt
       /\ io_headroom packetBuf' = io_headroom packetBuf
       /\ io_length packetBuf' = io_length packetBuf
       /\ List.length (io_storage packetBuf') = List.length (io_storage packetBuf)
       /\ forall i : nat,
            (i < Z.to_nat (io_headroom packetBuf)
             \/ Z.to_nat (io_headroom packetBuf + 2) <= i)%nat ->
            io_storage packetBuf' !! i = io_storage packetBuf !! i.
Proof.
  assert (Hroom : 0 <= io_headroom Simple.packetBuffer) by (by vm_compute).
  assert (Hfit : (Z.to_nat (io_headroom Simple.packetBuffer + 2)
                  <= List.length (io_storage Simple.packetBuffer))%nat)
    by (vm_compute; lia).
  assert (Hinitial : io_storage Simple.packetBuffer
                       !! Z.to_nat (io_headroom Simple.packetBuffer) = Some Byte.x40)
    by (by vm_compute).
  assert (Hpn : 0 <= parsePacketNumberLength Byte.x40 <= 2)
    by (vm_compute; split; discriminate).
  assert (Hlen : 0 < 2) by lia.
  assert (Hsample : wrap64 (wrap64 (kMaxPacketNumEncodingSize
                                    - parsePacketNumberLength Byte.x40)
                            + sampleSize) <= 20) by (by vm_compute).
  split; [exact Hroom|]. split; [by vm_compute|].
  exact (encryptPacketHeader_touches_only_header Short Simple.packetBuffer 2 20
           Simple.maskingCipher Byte.x40 tt Hroom Hfit Hinitial Hpn Hlen Hsample).
Defined.

(** X16 on a connection with stream data waiting whose writable-bytes
    limit of 0 is used up: no write, and a blocked congestion window is
    recorded. *)
Lemma shouldWriteData_limit_used_up_witness :
  let conn := Simple.limitUsedUp in
  writableBytesLimit conn = Some 0
  /\ shouldWriteData 0 conn
     = Ok NO_WRITE (set_statsLog (statsLog conn ++ [onCwndBlocked]) conn)
  /\ congestionControlWritableBytes 0 conn = Ok 0 conn
  /\ exists reason conn',
       shouldWriteData 0 conn = Ok reason conn'
       /\ (reason = PROBES /\ conn' = conn
           \/ reason = ACK /\ conn' = conn
           \/ reason = NO_WRITE
              /\ conn' = set_statsLog (statsLog conn ++ [onCwndBlocked]) conn).
Proof.
  assert (Hlimit : writableBytesLimit Simple.limitUsedUp = Some 0) by (by vm_compute).
  assert (Hused : 0 <= totalBytesSent (lossState Simple.limitUsedUp))
    by (by vm_compute).
  assert (Hchallenge : pathChallenge (pendingEvents Simple.limitUsedUp) = None)
    by (by vm_compute).
  assert (Hvalidation : outstandingPathValidation Simple.limitUsedUp = false)
    by (by vm_compute).
  split; [exact Hlimit|]. split; [by vm_compute|].
  exact (shouldWriteData_limit_used_up 0 Simple.limitUsedUp 0 Hlimit Hused Hchallenge
           Hvalidation).
Defined.

(** X17 on a quiet connection with three pings to send and a limit of two
    packets: two packets are written. *)
Lemma writeConnectionDataToSocket_respects_packet_limit_witness :
  let call :=
    writeConnectionDataToSocket Simple.shortHeader AppData (Simple.pingScheduler 3 20)
      congestionControlWritableBytesFunc 2 Simple.aead Simple.headerCipher in
  let m := Simple.machine Simple.quiet Simple.accepting in
  keeps True sentSoFar congestionControlWritableBytesFunc
  /\ 0 <= 2 <= uint64_max
  /\ call m = Ok 2 (Simple.after call m)
  /\ satisfies call m
       (fun written s' => 0 <= written <= 2 /\ written = sentSoFar s')
       (fun _ _ => True).
Proof.
  assert (Hlimit : 0 <= 2 <= uint64_max) by (vm_compute; split; discriminate).
  split; [exact keeps_sent_congestionControl|]. split; [exact Hlimit|].
  split; [by vm_compute|].
  exact (writeConnectionDataToSocket_respects_packet_limit Simple.shortHeader AppData
           (Simple.pingScheduler 3 20) congestionControlWritableBytesFunc 2
           Simple.aead Simple.headerCipher
           (Simple.machine Simple.quiet Simple.accepting)
           keeps_sent_congestionControl Hlimit).
Defined.

(** X18 on a connection with a loop detector and a scheduler with nothing
    to send. *)
Lemma writeConnectionDataToSocket_nothing_to_send_witness :
  let call :=
    writeConnectionDataToSocket Simple.shortHeader AppData Simple.idleScheduler
      congestionControlWritableBytesFunc 2 Simple.aead Simple.headerCipher in
  let s := Simple.machine Simple.watched Simple.accepting in
  hasData Simple.idleScheduler (m_conn s) = false
  /\ call s = Ok 0 (Simple.after call s)
  /\ noWriteReason (m_conn (Simple.after call s)) = EMPTY_SCHEDULER
  /\ satisfies call s
       (fun written s' =>
          written = 0
          /\ (exists evs, newEvents s s' = CallFlush defaultFlushType :: evs
                          /\ Forall isSocketEvent evs)
          /\ unsentState (m_conn s') = unsentState (m_conn s)
          /\ (loopDetectorCallback (m_conn s) = true ->
              noWriteReason (m_conn s') = EMPTY_SCHEDULER))
       (fun _ s' => exists evs, newEvents s s' = CallFlush defaultFlushType :: evs
                                /\ Forall isSocketEvent evs).
Proof.
  set (s := Simple.machine Simple.watched Simple.accepting).
  assert (Hidle : hasData Simple.idleScheduler (m_conn s) = false) by (by vm_compute).
  split; [exact Hidle|]. split; [by vm_compute|]. split; [by vm_compute|].
  exact (writeConnectionDataToSocket_nothing_to_send Simple.shortHeader AppData
           Simple.idleScheduler congestionControlWritableBytesFunc 2 Simple.aead
           Simple.headerCipher s Hidle (fun _ _ => eq_refl)).
Defined.

(** X19 on a quiet connection asked for two probes with nothing to clone:
    two pings are written. *)
Lemma writeProbingDataToSocket_at_most_requested_witness :
  let call :=
    writeProbingDataToSocket Simple.shortHeader EL_AppData AppData Simple.idleScheduler
      2 Simple.aead Simple.headerCipher in
  let s := Simple.machine Simple.quiet Simple.accepting in
  0 <= 2 <= uint64_max
  /\ call s = Ok 2 (Simple.after call s)
  /\ satisfies call s (fun written _ => 0 <= written <= 2) (fun _ _ => True).
Proof.
  assert (Hlimit : 0 <= 2 <= uint64_max) by (vm_compute; split; discriminate).
  split; [exact Hlimit|]. split; [by vm_compute|].
  exact (writeProbingDataToSocket_at_most_requested Simple.shortHeader EL_AppData
           AppData Simple.idleScheduler 2 Simple.aead Simple.headerCipher
           (Simple.machine Simple.quiet Simple.accepting) Hlimit).
Defined.

(** X20 on a connection with one probe requested and a limit of two
    packets: [writeQuicDataToSocket] writes the probe and one packet
    more. *)
Lemma entry_points_respect_packet_limit_witness :
  let s := Simple.machine (Simple.withProbes 1) Simple.accepting in
  0 <= 2 <= uint64_max
  /\ 0 <= numProbePackets (pendingEvents (m_conn s))
  /\ (exists s', writeQuicDataToSocket Simple.aead Simple.headerCipher 2 s = Ok 2 s')
  /\ satisfies (writeQuicDataToSocket Simple.aead Simple.headerCipher 2) s
       (fun written _ => 0 <= written <= 2) (fun _ _ => True)
  /\ satisfies
       (writeQuicDataExceptCryptoStreamToSocket Simple.aead Simple.headerCipher 2) s
       (fun written _ => 0 <= written <= 2) (fun _ _ => True)
  /\ (forall packetType,
        satisfies
          (writeCryptoAndAckDataToSocket packetType Simple.aead Simple.headerCipher 2) s
          (fun written _ => 0 <= written <= 2) (fun _ _ => True))
  /\ satisfies (writeZeroRttDataToSocket Simple.aead Simple.headerCipher 2) s
       (fun written _ => 0 <= written <= 2) (fun _ _ => True).
Proof.
  intros s.
  assert (Hlimit : 0 <= 2 <= uint64_max) by (vm_compute; split; discriminate).
  assert (Hprobes : 0 <= numProbePackets (pendingEvents (m_conn s)))
    by (by vm_compute).
  assert (Hrun : exists s',
             writeQuicDataToSocket Simple.aead Simple.headerCipher 2 s = Ok 2 s')
    by (eexists; by vm_compute).
  pose proof (entry_points_respect_packet_limit Simple.aead Simple.headerCipher 2 s
                Hlimit Hprobes) as Hwrites.
  cbv zeta beta in Hwrites.
  exact (conj Hlimit (conj Hprobes (conj Hrun Hwrites))).
Defined.

(** X21 on the paced looper after [run()] and after the loop callback that
    follows, in which the callback calls [run()] again: first the loop
    callback is pending, then the pacing timeout. *)
Lemma looper_one_wake_up_witness :
  let l := Simple.pacedLooper in
  let l' := Simple.after FunctionLooper.runLoopCallback Simple.pacedLooperCalled in
  FunctionLooper.reachable true Simple.rerunning l'
  /\ (FunctionLooper.loopCallbackScheduled l, FunctionLooper.timeoutScheduled l)
     = (true, false)
  /\ (FunctionLooper.loopCallbackScheduled l', FunctionLooper.timeoutScheduled l')
     = (false, true)
  /\ FunctionLooper.oneWakeUp l'.
Proof.
  set (l0 := FunctionLooper.FunctionLooper true Simple.rerunning).
  set (l1 := Simple.after (FunctionLooper.setPacingTimer true) l0).
  set (l2 := Simple.after (FunctionLooper.setPacingFunction (fun _ => 10)) l1).
  set (l' := Simple.after FunctionLooper.runLoopCallback Simple.pacedLooperCalled).
  assert (Hreach0 : FunctionLooper.reachable true Simple.rerunning l0)
    by apply FunctionLooper.reachable_constructed.
  assert (Hreach1 : FunctionLooper.reachable true Simple.rerunning l1).
  { apply (FunctionLooper.reachable_step true Simple.rerunning l0 l1 Hreach0).
    apply (FunctionLooper.step_setPacingTimer true). by vm_compute. }
  assert (Hreach2 : FunctionLooper.reachable true Simple.rerunning l2).
  { apply (FunctionLooper.reachable_step true Simple.rerunning l1 l2 Hreach1).
    apply (FunctionLooper.step_setPacingFunction (fun _ => 10)). by vm_compute. }
  assert (Hreach3 : FunctionLooper.reachable true Simple.rerunning Simple.pacedLooper).
  { apply (FunctionLooper.reachable_step true Simple.rerunning l2 _ Hreach2).
    apply (FunctionLooper.step_run false). by vm_compute. }
  assert (Hreach : FunctionLooper.reachable true Simple.rerunning l').
  { apply (FunctionLooper.reachable_step true Simple.rerunning Simple.pacedLooper l'
             Hreach3).
    apply FunctionLooper.step_runLoopCallback; by vm_compute. }
  split; [exact Hreach|]. split; [by vm_compute|]. split; [by vm_compute|].
  exact (looper_one_wake_up true Simple.rerunning l' Hreach).
Defined.

(** X22 on the paced looper when the event base runs its loop callback:
    the callback calls [run()], and yet only the pacing timeout is
    scheduled. *)
Lemma looper_callback_run_is_paced_witness :
  let l := Simple.pacedLooperCalled in
  FunctionLooper.inLoopBody_ l = false
  /\ FunctionLooper.loopCallbackScheduled l = false
  /\ FunctionLooper.timeoutScheduled l = false
  /\ FunctionLooper.pacingDelayDue l = true
  /\ exists l',
       FunctionLooper.commonLoopBody false l = Ok tt l'
       /\ FunctionLooper.inLoopBody_ l' = false
       /\ FunctionLooper.loopCallbackScheduled l' = false
       /\ FunctionLooper.timeoutScheduled l' = FunctionLooper.running_ l'.
Proof.
  set (l := Simple.pacedLooperCalled).
  assert (Hout : FunctionLooper.inLoopBody_ l = false) by (by vm_compute).
  assert (Hcb : FunctionLooper.loopCallbackScheduled l = false) by (by vm_compute).
  assert (Hto : FunctionLooper.timeoutScheduled l = false) by (by vm_compute).
  assert (Hdue : FunctionLooper.pacingDelayDue l = true) by (by vm_compute).
  exact (conj Hout (conj Hcb (conj Hto (conj Hdue
           (looper_callback_run_is_paced false l Hout Hcb Hto Hdue))))).
Defined.

Lemma simple_split_conserves : splitConserves.
Proof.
  intros len meta split rest. cbn. destruct (len <=? wbm_length meta); [|done].
  intros [= <- <-]. cbn. lia.
Qed.

(** X23 on a stream whose write buffer meta stands for 10 bytes from the
    offset 5 on and that has lost 3 bytes at the offset 1: a frame of 4 bytes
    at the offset 5 is new data, a frame of 2 bytes at the offset 1 is a
    retransmission, and the 13 bytes stay. *)
Lemma handleStreamWritten_conserves_buf_meta_bytes_witness :
  let stream := Simple.dsrStream in
  splitConserves
  /\ bufMetaBytes stream = 13
  /\ (exists stream',
        handleStreamWritten stream 5 4 false true Simple.quiet
        = Ok (true, stream') Simple.quiet
        /\ wbm_length (writeBufMeta stream') = 6)
  /\ (exists stream' conn',
        handleStreamWritten stream 1 2 false true Simple.quiet
        = Ok (false, stream') conn'
        /\ lossBufMetas stream' = [mkWriteBufferMeta 1 3 false])
  /\ satisfies (handleStreamWritten stream 5 4 false true) Simple.quiet
       (fun r _ => bufMetaBytes (snd r) = bufMetaBytes stream
                   /\ plainBuffers (snd r) = plainBuffers stream)
       (fun _ _ => True).
Proof.
  split; [exact simple_split_conserves|]. split; [by vm_compute|].
  split; [eexists; split; by vm_compute|].
  split; [eexists _, _; split; by vm_compute|].
  exact (handleStreamWritten_conserves_buf_meta_bytes Simple.dsrStream 5 4 false
           Simple.quiet simple_split_conserves).
Defined.
